(* ===== verification/_CoqProject ===== *)
-Q . S2P
Prelude.v
Effects.v
Weights.v
TemplatePallet.v
Runtime.v
Fees.v
ChainSpec.v
Benchmarking.v
Rpc.v
Service.v
Command.v
RuntimeApi.v
Build.v
Node.v
PalletTests.v
GoJson.v
Fabric.v
FabricLedger.v
FabricBlocks.v
