(* ===== verification/Prelude.v ===== *)
(** * Verification of the Substrate node template

    The program is a Substrate node: a FRAME pallet that stores one number
    ([pallets/template]), a runtime that configures it beside the standard
    pallets ([runtime]), and a node binary that builds chain specifications,
    parses a command line, assembles a service and serves RPC ([node]). Beside
    it lies a Hyperledger Fabric contract in Go ([interoperability_fabric.go]),
    which keeps assets in a ledger's world state; nothing calls it from Rust.
    The command line ([command.rs]) creates a runner, whose configuration it
    gives to the service ([service.rs]); the service makes the client, the
    pool, the import queue, the network and the consensus tasks, and builds the
    RPC module ([rpc.rs]); the chain specification ([chain_spec.rs]) fixes the
    genesis of the runtime; the client executes the runtime, which dispatches
    calls to the pallet.

    ** How code is modelled

    Pure functions are Rocq functions into [outcome]: [Ok], [Err] and [Panic],
    the three ways a Rust call ends. Functions that call other crates are
    programs of [Effects]: finite trees whose nodes name one external call with
    its arguments and whose branches are its answers, so that a theorem about
    every run of a program holds whatever the outside answers. [runs] relates a
    program to each trace and result it can have; [exec] runs it against a
    deterministic outside with a state, which is how each theorem with
    hypotheses is instantiated; [yields] says what a program comes to when every
    answer is as it should be.

    The Rust functions have no loop that calls another crate and need no fuel.
    Two Go loops have it: [GetAllAssets] takes a number of iterations, and
    [get_all_assets_complete] proves any number above the count of assets
    enough; the JSON parser takes twice the length of its input plus two, and
    [parse_more_fuel] proves that more changes no answer.

    Machine integers are [Z] with explicit widths.
    Types and pure functions of other crates are fields of classes
    ([FrameSystem], [Keys], [ServiceTypes], ...); what the code relies on is a
    second class of laws ([PalletHostLaws], [KeysLaws], [RpcLaws],
    [RunnersLaws], ...), and each such class has a concrete instance.

    ** Files

    - [Prelude]: outcomes, the [?] operator, machine integers, tactics.
    - [Effects]: programs, runs, weakest preconditions, handlers, renaming of
      calls, programs up to their runs ([≡], with [Proper] instances), and
      scripts, the order of the calls of a straight-line function under [?].
    - [Weights] ([pallets/template/src/weights.rs]): weights with saturating
      addition, both [WeightInfo] implementations.
    - [TemplatePallet] ([pallets/template/src/lib.rs]): storage, events, errors,
      [do_something], [cause_error], dispatch; the host interface; the abstract
      counter it refines.
    - [Runtime] ([runtime/src/lib.rs]): version, time constants, block limits,
      the pallets' configuration values and indices; the room of a block.
    - [Fees] ([runtime/src/lib.rs]): the configuration of transaction payment
      and the fee of the pallet's calls.
    - [ChainSpec] ([node/src/chain_spec.rs]): key derivation, genesis JSON, the
      two built-in specifications; reading the genesis back.
    - [Benchmarking] ([node/src/benchmarking.rs]): signed benchmark extrinsics,
      their builders, and how the runtime checks them.
    - [Rpc] ([node/src/rpc.rs]): the RPC module.
    - [Service] ([node/src/service.rs]): [new_partial] and [new_full] with every
      call they make; their order and wiring; the inherent providers.
    - [Command] ([node/src/{main,cli,command}.rs]): subcommands, [load_spec],
      [run] with both cargo features.
    - [RuntimeApi] ([impl_runtime_apis!] of [runtime/src/lib.rs]): every API
      method, where each call into [Executive] or a pallet may panic; the slot
      duration from the configuration to the node's inherent providers.
    - [Build] ([runtime/build.rs], [node/build.rs]): the build scripts.
    - [Node]: the components together, from the chain identifier of a command line
      to the calls of the service that runs on it, and from the fee queries of the
      API to the fee that is charged.
    - [PalletTests] ([pallets/template/src/{tests,mock,benchmarking}.rs]): the
      tests and benchmarks as programs, the mock's configuration as a concrete
      runtime, and the pallet's theorems on it.
    - [GoJson] (Go's [encoding/json], as the contract uses it): JSON on bytes,
      strings with escapes and UTF-8 repair, the printer and the parser, structs
      with their tags; [Unmarshal] after [Marshal].
    - [Fabric] ([interoperability_fabric.go]): [Asset] and each transaction
      function over the calls of the chaincode stub; the stub's interface and
      laws; the abstract map of assets; committed transactions.
    - [FabricLedger]: an in-memory ledger that meets the laws, and the contract's
      theorems on it.
    - [FabricBlocks]: concurrent transactions of the contract, endorsed on some
      state of a peer and validated when they are committed; what each reads and
      writes; a peer with versions.

    ** What the theorems show

    - The pallet: on every lawful host, any list of calls refines an abstract
      counter ([template_refines_counter]); the checked [u32] value is what
      unbounded arithmetic gives over the successful calls, it saturates at the
      maximum, a failed call writes nothing, each result of [cause_error] is
      characterised, and the declared weight covers the storage accesses of every
      run.
    - The runtime: exactly which lists of the pallet's calls the normal class of a
      block has room for ([template_calls_capacity]); a call's fee is its base,
      length, time and tip, whatever earlier blocks held, and is what the API's
      fee queries quote ([quoted_fee_is_charged]); the slot the node computes on
      import and in authoring is its clock's time divided by the block time.
    - Chain specifications: the genesis JSON reads back as it was built; both
      built-in specifications meet the pallets' genesis conditions; when they
      are available, fail or panic; which ids read a file.
    - Benchmark extrinsics: the runtime's signature check accepts one exactly in
      the blocks of its mortality window, and only if the best block did not move
      while it was made; the period for every number of kept hashes.
    - The service: every run follows the configured order of calls and stops at
      the first error; where no crate fails the service starts
      ([service_starts]); the network starts last; in a service that starts every
      argument of every call is a value of the configuration, a constant, or the
      one part that an earlier call made ([new_full_wiring]); the slot portion is
      2/3 correctly rounded.
    - The command line: which constructor of the service each subcommand calls,
      when asynchronous subcommands and the node succeed, and what is refused; a
      subcommand never starts what belongs to a running node; where nothing
      outside fails every command that is not refused succeeds
      ([command_succeeds]); a node on a built-in chain runs on that chain, with
      an accepted genesis, throughout ([node_on_builtin_chain]).
    - RPC: the module has exactly the methods of its two servers.
    - The Fabric contract: on every lawful stub each transaction refines the map
      of assets ([contract_refines_assets]); every ledger it writes holds
      well-formed assets under their identifiers; [GetAllAssets] ends, with each
      asset that a range query reaches once, up to the peer's limit of results,
      and closes its iterator on every path; a failed transaction has
      written nothing; the JSON of an asset reads back and has its members in
      alphabetical order; [TransferAsset] without its flag does nothing. Every
      history of concurrent transactions and queries is equivalent to a serial one
      ([history_serializable]), and transactions about different assets commute.

    ** What is not modelled

    The Go contract is modelled as its braces read: [TransferAsset] puts an
    [else] where Go does not parse one and has a path without a [return], which
    the model answers with [None]. Of [encoding/json] the parts that a struct of
    strings and integers meets are modelled, its errors without their texts.
    The peer's checks of what a transaction or a range query has read are
    parameters with laws, as is the stub; its range query without bounds starts
    at the byte 1 and is cut at the peer's [totalQueryLimit]. The commented-out first
    draft at the top of that file is left out. The runtime's implementation of
    [pallet_contracts::Config] gives bounds where types are required and has no
    meaning to model. Container, Nix and installation files are calls to tools.
    Type-level choices of a pallet's [Config] (hashers, account identifiers, empty
    hooks), the session keys a macro generates and struct fields set to a crate's
    [Default] carry no behaviour of this repository and
    are left out. *)

From stdpp Require Export prelude list strings.
From Stdlib Require Export ZArith Lia.

#[global] Open Scope Z_scope.

Declare Scope substrate_scope.
Delimit Scope substrate_scope with substrate.
#[global] Open Scope substrate_scope.

Create HintDb substrate discriminated.
#[global] Hint Constants Opaque : substrate.

(** ** Results of Rust functions

    [Ok]/[Err] are the two constructors of Rust's [Result]; [Panic] is the third
    way a Rust call ends ([expect], [unwrap], an overflow check of a debug
    build), with the panic message. *)
Inductive outcome (Er A : Type) : Type :=
| Ok (a : A)
| Err (e : Er)
| Panic (msg : string).

Arguments Ok {Er A} _.
Arguments Err {Er A} _.
Arguments Panic {Er A} _.

#[global] Instance outcome_eq_dec {Er A} `{!EqDecision Er, !EqDecision A} :
  EqDecision (outcome Er A).
Proof. solve_decision. Defined.

Definition is_ok {Er A} (o : outcome Er A) : bool :=
  match o with Ok _ => true | _ => false end.

(** The [?] operator on a pure result. *)
Definition obind {Er A B} (o : outcome Er A) (k : A -> outcome Er B) : outcome Er B :=
  match o with Ok a => k a | Err e => Err e | Panic m => Panic m end.

(** [Result::map_err]; [?] applies it with [From::from]. *)
Definition map_err {Er Er' A} (f : Er -> Er') (o : outcome Er A) : outcome Er' A :=
  match o with Ok a => Ok a | Err e => Err (f e) | Panic m => Panic m end.

(** [Option::ok_or] / [ok_or_else]. *)
Definition ok_or {Er A} (o : option A) (e : Er) : outcome Er A :=
  match o with Some a => Ok a | None => Err e end.

(** The [Result] an external call returns, when it returns. *)
Inductive answer (Er A : Type) : Type :=
| AOk (a : A)
| AErr (e : Er).

Arguments AOk {Er A} _.
Arguments AErr {Er A} _.

(** [?] on such a result, its error converted by [conv]. *)
Definition of_answer {Er Er' A} (conv : Er -> Er') (r : answer Er A) : outcome Er' A :=
  match r with AOk a => Ok a | AErr e => Err (conv e) end.

(** [Result::ok]. *)
Definition answer_ok {Er A} (r : answer Er A) : option A :=
  match r with AOk a => Some a | AErr _ => None end.

(** [Option::expect] and [Result::expect]. *)
Definition expect {Er A} (o : option A) (msg : string) : outcome Er A :=
  match o with Some a => Ok a | None => Panic msg end.

Definition expect_ok {Er Er' A} (o : outcome Er A) (msg : string) : outcome Er' A :=
  match o with Ok a => Ok a | Err _ => Panic msg | Panic m => Panic m end.

Notation "'let?' x ':=' o 'in' k" := (obind o (fun x => k))
  (at level 10, x pattern, o at level 100, k at level 200)
  : substrate_scope.

Section Outcome.
Context {Er A B : Type}.
Implicit Types (o : outcome Er A) (k : A -> outcome Er B).

Lemma obind_Ok_inv o k b : obind o k = Ok b -> exists a, o = Ok a /\ k a = Ok b.
Proof. destruct o; naive_solver. Qed.

Lemma is_ok_obind o k b :
  (forall a, is_ok (k a) = b) -> is_ok (obind o k) = (is_ok o && b)%bool.
Proof. by destruct o; simpl. Qed.

Lemma obind_no_Err o k e :
  o <> Err e -> (forall a, k a <> Err e) -> obind o k <> Err e.
Proof. destruct o; naive_solver. Qed.

Lemma ok_or_Ok (x : option A) (e : Er) a : ok_or x e = Ok a <-> x = Some a.
Proof. destruct x; naive_solver. Qed.

Lemma ok_or_Err (x : option A) (e e' : Er) : ok_or x e = Err e' <-> x = None /\ e' = e.
Proof. destruct x; naive_solver. Qed.

Lemma ok_or_no_Panic (x : option A) (e : Er) m : ok_or x e <> Panic m.
Proof. by destruct x. Qed.
End Outcome.

(** ** Machine integers

    A [w]-bit unsigned integer is a [Z] in [0 .. 2^w); each operation says what
    it does when the exact result does not fit. *)
Definition umax (w : Z) : Z := 2 ^ w - 1.
Definition u8_max : Z := umax 8.
Definition u32_max : Z := umax 32.
Definition u64_max : Z := umax 64.
Definition u128_max : Z := umax 128.

Definition fits (w x : Z) : Prop := 0 <= x <= umax w.

#[global] Instance fits_dec w x : Decision (fits w x).
Proof. unfold fits. apply _. Defined.

(** [checked_add]: [None] on overflow. *)
Definition checked_add (w a b : Z) : option Z :=
  if a + b <=? umax w then Some (a + b) else None.

(** [saturating_add] and [saturating_mul]: clamp at the maximum. *)
Definition saturating_add (w a b : Z) : Z := Z.min (a + b) (umax w).
Definition saturating_mul (w a b : Z) : Z := Z.min (a * b) (umax w).

(** [x as uN]: keep the low [w] bits. *)
Definition cast (w x : Z) : Z := x mod 2 ^ w.

(** [checked_next_power_of_two]: the least power of two not below [x]. *)
Definition checked_next_power_of_two (w x : Z) : option Z :=
  if 2 ^ Z.log2_up x <=? umax w then Some (2 ^ Z.log2_up x) else None.

(** [x << n] on [uN]: the bits shifted out are lost. *)
Definition shl (w x n : Z) : Z := cast w (Z.shiftl x n).

Section MachineIntegers.
Variable w : Z.
Hypothesis w_pos : 0 < w.

Lemma umax_pos : 0 < umax w.
Proof using w_pos. unfold umax. pose proof (Z.pow_gt_1 2 w). lia. Qed.

Lemma checked_add_Some a b c :
  checked_add w a b = Some c <-> c = a + b /\ a + b <= umax w.
Proof. unfold checked_add. case_match; naive_solver lia. Qed.

Lemma checked_add_None a b : checked_add w a b = None <-> umax w < a + b.
Proof. unfold checked_add. case_match; naive_solver lia. Qed.

Lemma checked_add_fits a b c :
  fits w a -> 0 <= b -> checked_add w a b = Some c -> fits w c.
Proof. intros [??] ? [-> ?]%checked_add_Some. unfold fits. lia. Qed.

Lemma saturating_add_fits a b : 0 <= a -> 0 <= b -> fits w (saturating_add w a b).
Proof using w_pos. pose proof umax_pos. unfold fits, saturating_add. lia. Qed.

Lemma saturating_add_exact a b : a + b <= umax w -> saturating_add w a b = a + b.
Proof. unfold saturating_add. lia. Qed.

Lemma cast_fits x : fits w (cast w x).
Proof using w_pos.
  unfold fits, cast, umax. pose proof (Z.mod_pos_bound x (2 ^ w)). lia.
Qed.

Lemma cast_id x : fits w x -> cast w x = x.
Proof. unfold fits, cast, umax. intros ?. apply Z.mod_small. lia. Qed.
Lemma next_power_of_two_bounds x :
  2 <= x -> x <= 2 ^ Z.log2_up x /\ 2 ^ Z.log2_up x = 2 * 2 ^ (Z.log2_up x - 1) /\
            2 ^ (Z.log2_up x - 1) < x.
Proof.
  intros Hx. pose proof (Z.log2_up_spec x ltac:(lia)) as [Hl Hu].
  pose proof (Z.log2_up_pos x ltac:(lia)).
  rewrite <-Z.sub_1_r in Hl. split_and!; [done | | done].
  rewrite <-Z.pow_succ_r by lia. f_equal. lia.
Qed.

Lemma checked_next_power_of_two_Some x :
  0 < w -> 2 <= x <= 2 ^ (w - 1) ->
  checked_next_power_of_two w x = Some (2 ^ Z.log2_up x).
Proof.
  intros Hw [Hx Hm]. unfold checked_next_power_of_two, umax.
  assert (Z.log2_up x <= w - 1).
  { rewrite <-(Z.log2_up_pow2 (w - 1)) by lia. by apply Z.log2_up_le_mono. }
  assert (2 ^ Z.log2_up x <= 2 ^ (w - 1)) by (apply Z.pow_le_mono_r; lia).
  assert (2 ^ w = 2 * 2 ^ (w - 1)) by (rewrite <-Z.pow_succ_r by lia; f_equal; lia).
  destruct (Z.leb_spec (2 ^ Z.log2_up x) (2 ^ w - 1)); [done | lia].
Qed.

Lemma checked_next_power_of_two_None x :
  0 < w -> 2 ^ (w - 1) < x -> checked_next_power_of_two w x = None.
Proof.
  intros Hw Hm. unfold checked_next_power_of_two, umax.
  assert (0 <= 2 ^ (w - 1)) by (apply Z.pow_nonneg; lia).
  assert (w - 1 < Z.log2_up x).
  { apply Z.log2_up_lt_pow2; lia. }
  assert (2 ^ w <= 2 ^ Z.log2_up x) by (apply Z.pow_le_mono_r; lia).
  destruct (Z.leb_spec (2 ^ Z.log2_up x) (2 ^ w - 1)); [lia | done].
Qed.
End MachineIntegers.

Arguments fits : simpl never.
Arguments umax : simpl never.

#[export] Hint Resolve cast_fits checked_add_fits saturating_add_fits : substrate.

(** Reduces every machine-width bound of the context and the goal to numbers. *)
Ltac widths :=
  unfold fits, u8_max, u32_max, u64_max, u128_max, umax in *; simpl Z.pow in *.

(** [widths] followed by linear arithmetic. *)
Ltac width_lia := widths; lia.
