(* ===== verification/Effects.v ===== *)
(** * Programs that call the world outside [src/]

    A component that calls external crates (the client, the network, the
    storage host) is a finite tree of calls: each node names one external call
    with its arguments, each branch is an answer the outside may give. A
    theorem about every run of such a tree holds whatever the outside does. *)

From S2P Require Import Prelude.

Set Default Proof Using "Type".

Inductive prog (E : Type -> Type) (A : Type) : Type :=
| Ret (a : A)
| Call {X : Type} (e : E X) (k : X -> prog E A).

Arguments Ret {E A} _.
Arguments Call {E A X} _ _.

(** One call of a run, with the answer it got. *)
Inductive obs (E : Type -> Type) : Type :=
| Obs {X : Type} (e : E X) (x : X).

Arguments Obs {E X} _ _.

Section Prog.
Context {E : Type -> Type}.

Fixpoint bind {A B} (p : prog E A) (k : A -> prog E B) : prog E B :=
  match p with
  | Ret a => k a
  | Call e c => Call e (fun x => bind (c x) k)
  end.

Definition trigger {X} (e : E X) : prog E X := Call e Ret.

(** [runs p tr a]: calling the outside in the order of [tr], with the answers
    of [tr], the program returns [a]. *)
Fixpoint runs {A} (p : prog E A) (tr : list (obs E)) (a : A) : Prop :=
  match p with
  | Ret b => tr = [] /\ a = b
  | Call e k => exists x tr', tr = Obs e x :: tr' /\ runs (k x) tr' a
  end.

(** [wp p tr Q]: after the calls of [tr], every run of [p] ends with a whole
    trace and a result in [Q]. *)
Fixpoint wp {A} (p : prog E A) (tr : list (obs E)) (Q : list (obs E) -> A -> Prop)
  : Prop :=
  match p with
  | Ret a => Q tr a
  | Call e k => forall x, wp (k x) (tr ++ [Obs e x]) Q
  end.

(** A deterministic outside: a state and an answer to each call. *)
Definition handler (S : Type) : Type := forall X, E X -> S -> X * S.

Fixpoint exec {S A} (h : handler S) (p : prog E A) (s : S) : A * S :=
  match p with
  | Ret a => (a, s)
  | Call e k => let '(x, s') := h _ e s in exec h (k x) s'
  end.

Fixpoint exec_trace {S A} (h : handler S) (p : prog E A) (s : S) : list (obs E) :=
  match p with
  | Ret _ => []
  | Call e k => let '(x, s') := h _ e s in Obs e x :: exec_trace h (k x) s'
  end.
End Prog.

Arguments handler : clear implicits.

Section Facts.
Context {E : Type -> Type}.

Lemma runs_bind {A B} (p : prog E A) (k : A -> prog E B) tr b :
  runs (bind p k) tr b <->
  exists tr1 tr2 a, tr = tr1 ++ tr2 /\ runs p tr1 a /\ runs (k a) tr2 b.
Proof.
  revert tr. induction p as [a | X e c IH]; intros tr; simpl.
  - split; [by exists [], tr, a | by intros (? & ? & ? & -> & [-> ->] & ?)].
  - split.
    + intros (x & tr' & -> & Hr). apply (IH x) in Hr as (tr1 & tr2 & a & -> & ? & ?).
      exists (Obs e x :: tr1), tr2, a. naive_solver.
    + intros (? & tr2 & a & -> & (x & tr1 & -> & ?) & ?).
      exists x, (tr1 ++ tr2). split; [done |]. apply (IH x). by exists tr1, tr2, a.
Qed.

(** The weakest precondition is sound and complete for runs. *)
Lemma wp_runs {A} (p : prog E A) tr Q :
  wp p tr Q <-> forall tr' a, runs p tr' a -> Q (tr ++ tr') a.
Proof.
  revert tr. induction p as [a | X e k IH]; intros tr; simpl.
  - split; [intros HQ ? ? [-> ->]; by rewrite app_nil_r |].
    intros HQ. rewrite <-(app_nil_r tr). by apply HQ.
  - split.
    + intros Hk tr' a (x & tr'' & -> & Hr).
      specialize (Hk x). rewrite IH in Hk.
      rewrite cons_middle, app_assoc. by apply Hk.
    + intros HQ x. apply IH. intros tr' a Hr.
      rewrite <-app_assoc. apply HQ. simpl. eauto.
Qed.

Lemma runs_wp {A} (p : prog E A) (Q : list (obs E) -> A -> Prop) tr a :
  wp p [] Q -> runs p tr a -> Q tr a.
Proof. rewrite wp_runs. intros HQ ?. by apply HQ. Qed.

Lemma wp_bind {A B} (p : prog E A) (k : A -> prog E B) tr Q :
  wp (bind p k) tr Q <-> wp p tr (fun tr' a => wp (k a) tr' Q).
Proof. revert tr. induction p as [| X e c IH]; simpl; intros; [done | naive_solver]. Qed.

Lemma wp_mono {A} (p : prog E A) tr (Q Q' : list (obs E) -> A -> Prop) :
  wp p tr Q -> (forall tr' a, Q tr' a -> Q' tr' a) -> wp p tr Q'.
Proof. revert tr. induction p; simpl; eauto. Qed.

(** Facts about a subprogram run from the empty trace hold after any prefix. *)
Lemma wp_frame {A} (p : prog E A) tr (Q : list (obs E) -> A -> Prop) :
  wp p [] Q -> wp p tr (fun tr' a => exists tr1, tr' = tr ++ tr1 /\ Q tr1 a).
Proof. rewrite !wp_runs. naive_solver. Qed.

Lemma exec_bind {S A B} (h : handler E S) (p : prog E A) (k : A -> prog E B) s :
  exec h (bind p k) s = let '(a, s') := exec h p s in exec h (k a) s'.
Proof.
  revert s. induction p as [| X e c IH]; intros s; simpl; [done |].
  destruct (h X e s). apply IH.
Qed.

(** What a deterministic outside does is one of the runs. *)
Lemma exec_runs {S A} (h : handler E S) (p : prog E A) s :
  runs p (exec_trace h p s) (exec h p s).1.
Proof.
  revert s. induction p as [| X e c IH]; intros s; simpl; [done |].
  destruct (h X e s) as [x s']. eauto.
Qed.

(** An outside that keeps an invariant under which its answers satisfy [P] gives
    only such answers. *)
Lemma exec_trace_Forall {S A} (h : handler E S) (I : S -> Prop) (P : obs E -> Prop)
  (p : prog E A) s :
  (forall X (e : E X) s, I s -> P (Obs e (h X e s).1) /\ I (h X e s).2) ->
  I s -> Forall P (exec_trace h p s).
Proof.
  intros Hh. revert s. induction p as [| X e c IH]; intros s Hs; simpl; [by constructor |].
  pose proof (Hh X e s Hs) as [? ?]. destruct (h X e s) as [x s']. constructor; [done |].
  by apply IH.
Qed.

(** Every program has a run as soon as every call has an answer. *)
Lemma runs_total {A} (p : prog E A) :
  (forall X (e : E X), X) -> exists tr a, runs p tr a.
Proof.
  intros answer.
  exists (exec_trace (fun X e (_ : unit) => (answer X e, tt)) p tt),
    (exec (fun X e (_ : unit) => (answer X e, tt)) p tt).1.
  apply exec_runs.
Qed.
End Facts.

(** ** Renaming calls: a program of one component inside a larger one *)
Section Translate.
Context {E F : Type -> Type} (inj : forall X, E X -> F X).

Fixpoint translate {A} (p : prog E A) : prog F A :=
  match p with
  | Ret a => Ret a
  | Call e k => Call (inj _ e) (fun x => translate (k x))
  end.

Definition obs_map (o : obs E) : obs F :=
  match o with Obs e x => Obs (inj _ e) x end.

Lemma runs_translate {A} (p : prog E A) tr a :
  runs (translate p) tr a <-> exists tr', tr = map obs_map tr' /\ runs p tr' a.
Proof.
  revert tr. induction p as [b | X e k IH]; intros tr; simpl.
  - split; [intros [-> ->]; by exists [] | by intros (? & -> & -> & ->)].
  - split.
    + intros (x & ? & -> & Hr). apply (IH x) in Hr as (tr' & -> & ?).
      exists (Obs e x :: tr'). naive_solver.
    + intros (? & -> & (x & tr' & -> & ?)). exists x, (map obs_map tr').
      rewrite IH. naive_solver.
Qed.
End Translate.

(** ** Fallible programs: [?] on the answer of a call *)
Definition io (E : Type -> Type) (Er A : Type) : Type := prog E (outcome Er A).

Section Io.
Context {E : Type -> Type} {Er : Type}.

Definition iret {A} (a : A) : io E Er A := Ret (Ok a).
Definition fail {A} (e : Er) : io E Er A := Ret (Err e).
Definition of_outcome {A} (o : outcome Er A) : io E Er A := Ret o.

(** [p?; k]: an error or a panic of [p] ends the function. *)
Definition ibind {A B} (p : io E Er A) (k : A -> io E Er B) : io E Er B :=
  bind p (fun o => match o with
                   | Ok a => k a
                   | Err e => Ret (Err e)
                   | Panic m => Ret (Panic m)
                   end).

(** A call that cannot fail. *)
Definition call {X} (e : E X) : io E Er X := Call e (fun x => Ret (Ok x)).

(** A fallible call under [?], its error converted with [From::from]. *)
Definition try_call {Er' X} (conv : Er' -> Er) (e : E (answer Er' X)) : io E Er X :=
  Call e (fun r => Ret (of_answer conv r)).
End Io.

Notation "'let*' x ':=' p 'in' k" := (ibind p (fun x => k))
  (at level 10, x pattern, p at level 100, k at level 200) : substrate_scope.
Notation "p ';;;' k" := (ibind p (fun _ => k))
  (at level 100, k at level 200, right associativity) : substrate_scope.

Section IoFacts.
Context {E : Type -> Type} {Er : Type}.

Lemma wp_ibind {A B} (p : io E Er A) (k : A -> io E Er B) tr Q :
  wp (ibind p k) tr Q <->
  wp p tr (fun tr' o => match o with
                        | Ok a => wp (k a) tr' Q
                        | Err e => Q tr' (Err e)
                        | Panic m => Q tr' (Panic m)
                        end).
Proof.
  unfold ibind. rewrite wp_bind, !wp_runs. split; intros H tr' [] Hr; by apply (H _ _ Hr).
Qed.

Lemma runs_ibind_Ok {A B} (p : io E Er A) (k : A -> io E Er B) tr b :
  runs (ibind p k) tr (Ok b) <->
  exists tr1 tr2 a, tr = tr1 ++ tr2 /\ runs p tr1 (Ok a) /\ runs (k a) tr2 (Ok b).
Proof.
  unfold ibind. rewrite runs_bind. split.
  - intros (tr1 & tr2 & [] & -> & ? & Hk); simpl in Hk; [eauto 10 | naive_solver ..].
  - intros (tr1 & tr2 & a & -> & ? & ?). by exists tr1, tr2, (Ok a).
Qed.

(** Sequencing is associative, run by run. *)
Lemma runs_ibind_assoc {A B C} (p : io E Er A) (f : A -> io E Er B) (k : B -> io E Er C) tr r :
  runs (ibind (ibind p f) k) tr r <-> runs (ibind p (fun a => ibind (f a) k)) tr r.
Proof.
  unfold ibind. revert tr. induction p as [[a | e | m] | X e c IH]; intros tr; simpl; try done.
  split; intros (x & tr' & -> & H); exists x, tr'; (split; [done | by apply (IH x)]).
Qed.
End IoFacts.

(** [Result::map_err] on the result of a program. *)
Definition imap_err {E : Type -> Type} {Er Er' A} (f : Er -> Er') (p : io E Er A) : io E Er' A :=
  bind p (fun o => Ret (map_err f o)).

Lemma runs_imap_err {E : Type -> Type} {Er Er' A} (f : Er -> Er') (p : io E Er A) tr r :
  runs (imap_err f p) tr r <-> exists o, r = map_err f o /\ runs p tr o.
Proof.
  unfold imap_err. rewrite runs_bind. split.
  - intros (tr1 & tr2 & o & -> & H & -> & ->). rewrite app_nil_r. eauto.
  - intros (o & -> & H). exists tr, [], o. by rewrite app_nil_r.
Qed.

(** ** Calls of a program *)

(** A program all of whose calls satisfy [P], whatever the answers. *)
Definition each {E : Type -> Type} {A} (P : obs E -> Prop) (p : prog E A) : Prop :=
  forall tr r, runs p tr r -> Forall P tr.

Section Each.
Context {E : Type -> Type} {Er : Type} (P : obs E -> Prop).

Lemma each_call {X} (e : E X) : (forall x, P (Obs e x)) -> each P (call (Er := Er) e).
Proof. intros H tr r (x & ? & -> & -> & _). by repeat constructor. Qed.

Lemma each_try_call {Er' X} (conv : Er' -> Er) (e : E (answer Er' X)) :
  (forall x, P (Obs e x)) -> each P (try_call conv e).
Proof. intros H tr r (x & ? & -> & -> & _). by repeat constructor. Qed.

Lemma each_ret {A} (a : A) : each P (Ret a).
Proof. by intros tr r [-> _]. Qed.

Lemma each_bind {A B} (p : prog E A) (k : A -> prog E B) :
  each P p -> (forall a, each P (k a)) -> each P (bind p k).
Proof.
  intros Hp Hk tr r (tr1 & tr2 & o & -> & H1 & H2)%runs_bind. apply Forall_app.
  split; [by eapply Hp | by eapply Hk].
Qed.

Lemma each_ibind {A B} (p : io E Er A) (k : A -> io E Er B) :
  each P p -> (forall a, each P (k a)) -> each P (ibind p k).
Proof. intros Hp Hk. apply each_bind; [done |]. intros []; [apply Hk | apply each_ret ..]. Qed.
End Each.

(** ** Programs that end as expected when the answers do *)

(** Whenever all the answers of a run satisfy [P], its result is in [Q]. *)
Definition yields {E : Type -> Type} {A} (P : obs E -> Prop) (Q : A -> Prop) (p : prog E A)
  : Prop :=
  forall tr a, runs p tr a -> Forall P tr -> Q a.

Section Yields.
Context {E : Type -> Type} {Er : Type} (P : obs E -> Prop).

Lemma yields_mono {A} (P' : obs E -> Prop) (Q : A -> Prop) (p : prog E A) :
  (forall o, P o -> P' o) -> yields P' Q p -> yields P Q p.
Proof. intros H Hp tr a Hr Htr. eapply Hp, Forall_impl; [done | exact Htr | done]. Qed.

Lemma yields_ret {A} (Q : A -> Prop) a : Q a -> yields P Q (Ret a).
Proof. by intros Ha tr b [_ ->] _. Qed.

Lemma yields_bind {A B} (Q : A -> Prop) (R : B -> Prop) (p : prog E A) (k : A -> prog E B) :
  yields P Q p -> (forall a, Q a -> yields P R (k a)) -> yields P R (bind p k).
Proof.
  intros Hp Hk tr b (tr1 & tr2 & a & -> & H1 & H2)%runs_bind [HP1 HP2]%Forall_app.
  by eapply Hk; [eapply Hp | |].
Qed.

(** The calls whose answers all end well, under [?]. *)
Lemma yields_ibind {A B} (R : outcome Er B -> Prop) (p : io E Er A) (k : A -> io E Er B) :
  yields P (fun o => is_ok o = true) p -> (forall a, yields P R (k a)) ->
  yields P R (ibind p k).
Proof. intros Hp Hk. eapply yields_bind; [done |]. by intros [] ?. Qed.

Lemma yields_try_call {Er' X} (conv : Er' -> Er) (e : E (answer Er' X)) :
  (forall er, ~ P (Obs e (AErr er))) ->
  yields P (fun o => is_ok o = true) (try_call conv e).
Proof.
  intros He tr o (x & tr' & -> & -> & ->) [Hx _]%Forall_cons.
  destruct x as [x | er]; [done | by destruct (He er)].
Qed.
End Yields.

(** A result of an outside that gives such answers only. *)
Lemma yields_exec {E : Type -> Type} {S A} (P : obs E -> Prop) (Q : A -> Prop) (p : prog E A)
  (h : handler E S) (I : S -> Prop) s :
  yields P Q p ->
  (forall X (e : E X) s, I s -> P (Obs e (h X e s).1) /\ I (h X e s).2) -> I s ->
  Q (exec h p s).1.
Proof. intros Hp Hh Hs. eapply Hp; [apply exec_runs | by eapply exec_trace_Forall]. Qed.

Lemma yields_translate {E F : Type -> Type} {A} (inj : forall X, E X -> F X) (P : obs F -> Prop)
  (Q : A -> Prop) (p : prog E A) :
  yields (fun o => P (obs_map inj o)) Q p -> yields P Q (translate inj p).
Proof.
  intros Hp tr a (tr' & -> & Hr)%runs_translate HP.
  apply (Hp tr'); [done |]. by rewrite Forall_map in HP.
Qed.

(** ** Programs up to their runs *)
#[export] Instance prog_equiv {E A} : Equiv (prog E A) :=
  fun p q => forall tr a, runs p tr a <-> runs q tr a.

#[export] Instance prog_equivalence {E A} : Equivalence (@equiv (prog E A) _).
Proof.
  split; unfold equiv, prog_equiv; [done | |].
  - intros p q H tr a. symmetry. apply H.
  - intros p q k H1 H2 tr a. by rewrite H1, H2.
Qed.

#[export] Instance runs_proper {E A} : Proper ((≡) ==> (=) ==> (=) ==> iff) (@runs E A).
Proof. intros p q H tr _ <- a _ <-. apply H. Qed.

#[export] Instance bind_proper {E A B} :
  Proper ((≡) ==> pointwise_relation A (≡) ==> (≡)) (@bind E A B).
Proof.
  intros p q Hp k l Hk tr b. rewrite !runs_bind. split; intros (t1 & t2 & a & ? & H1 & H2);
    exists t1, t2, a; (split; [done |]); (split; [by apply Hp | by apply Hk]).
Qed.

#[export] Instance ibind_proper {E Er A B} :
  Proper ((≡) ==> pointwise_relation A (≡) ==> (≡)) (@ibind E Er A B).
Proof. intros p q Hp k l Hk. apply bind_proper; [done |]. by intros []. Qed.

#[export] Instance yields_proper {E A} (P : obs E -> Prop) (Q : A -> Prop) :
  Proper ((≡) ==> iff) (yields P Q).
Proof. intros p q H. split; intros Hp tr a Hr; by apply (Hp tr), H. Qed.

Lemma ibind_assoc {E Er A B C} (p : io E Er A) (f : A -> io E Er B) (k : B -> io E Er C) :
  ibind (ibind p f) k ≡ ibind p (fun a => ibind (f a) k).
Proof. intros tr r. apply runs_ibind_assoc. Qed.

(** Splits a hypothesis [runs p tr a] on a program whose head is a call. *)
Ltac run_step H :=
  let x := fresh "x" in let tr := fresh "tr" in let E := fresh "E" in
  simpl in H; destruct H as (x & tr & E & H); subst; simpl in H.

(** Runs [wp] through a concrete program, one answer at a time. *)
Ltac wp_steps :=
  repeat (simpl; intros;
          match goal with
          | |- context [match of_answer _ ?o with _ => _ end] => destruct o; simpl
          | |- context [match ?o with Ok _ => _ | Err _ => _ | Panic _ => _ end] =>
            destruct o; simpl
          | |- forall _, _ => intro
          end); simpl.

(** ** Scripts

    The order of the calls of a straight-line function under [?]: [script] is
    the list of call names it makes when nothing fails; every run makes a
    prefix of it, and stops early only at the call whose answer is the error or
    the panic it ends with. *)
Section Scripts.
Context {E : Type -> Type} {Er O : Type}.
Variable op_of : obs E -> O.
(** How an answer ends the function, if it does. *)
Variable verdict : obs E -> option (outcome Er Empty_set).

Definition goes_on (o : obs E) : Prop := verdict o = None.

Definition stopped (tr : list (obs E)) (v : outcome Er Empty_set) : Prop :=
  exists tr0 o, tr = tr0 ++ [o] /\ Forall goes_on tr0 /\ verdict o = Some v.

Definition ends {A} (tr : list (obs E)) (script : list O) (r : outcome Er A) : Prop :=
  map op_of tr `prefix_of` script /\
  match r with
  | Ok _ => map op_of tr = script /\ Forall goes_on tr
  | Err e => stopped tr (Err e)
  | Panic m => stopped tr (Panic m)
  end.

Definition follows {A} (script : list O) (p : io E Er A) : Prop :=
  forall tr r, runs p tr r -> ends tr script r.

Lemma follows_iret {A} (a : A) : follows [] (iret a).
Proof. by intros tr r [-> ->]. Qed.

Lemma follows_call {X} (e : E X) op :
  (forall x, op_of (Obs e x) = op) -> (forall x, verdict (Obs e x) = None) ->
  follows [op] (call e).
Proof.
  intros Hop Hv tr r (x & tr' & -> & -> & ->). unfold ends; simpl. rewrite Hop.
  split; [done |]. split; [done |]. by constructor; [apply Hv |].
Qed.

Lemma follows_try_call {Er' X} (conv : Er' -> Er) (e : E (answer Er' X)) op :
  (forall x, op_of (Obs e x) = op) ->
  (forall a, verdict (Obs e (AOk a)) = None) ->
  (forall er, verdict (Obs e (AErr er)) = Some (Err (conv er))) ->
  follows [op] (try_call conv e).
Proof.
  intros Hop Ha He tr r (x & tr' & -> & -> & ->). unfold ends; simpl. rewrite Hop.
  split; [done |]. destruct x as [a | er]; simpl.
  - split; [done |]. by constructor; [apply Ha |].
  - by exists [], (Obs e (AErr er)).
Qed.

(** A call whose answer is then required, with [expect]. *)
Lemma follows_expect {X A} (e : E X) (f : X -> option A) msg op :
  (forall x, op_of (Obs e x) = op) ->
  (forall x, verdict (Obs e x) = match f x with Some _ => None | None => Some (Panic msg) end) ->
  follows [op] (ibind (call e) (fun x => of_outcome (expect (f x) msg))).
Proof.
  intros Hop Hv tr r (x & tr' & -> & H). unfold ends; simpl.
  simpl in H. destruct H as [-> ->]. rewrite Hop. split; [done |]. specialize (Hv x).
  destruct (f x); simpl.
  - split; [done |]. by constructor.
  - by exists [], (Obs e x).
Qed.

Lemma stopped_app tr1 tr2 v :
  Forall goes_on tr1 -> stopped tr2 v -> stopped (tr1 ++ tr2) v.
Proof.
  intros H1 (tr0 & o & -> & H2 & Hv). exists (tr1 ++ tr0), o.
  by rewrite <-app_assoc, Forall_app.
Qed.

Lemma follows_ibind_with {A B} s1 s2 (p : io E Er A) (k : A -> io E Er B) :
  follows s1 p -> (forall tr a, runs p tr (Ok a) -> follows s2 (k a)) ->
  follows (s1 ++ s2) (ibind p k).
Proof.
  intros Hp Hk tr r (tr1 & tr2 & o & -> & H1 & H2)%runs_bind.
  destruct (Hp _ _ H1) as [Hpre Hend].
  destruct o as [a | e | m]; simpl in H2.
  - destruct Hend as [Heq Hgo]. destruct (Hk _ a H1 _ _ H2) as [Hpre' Hend'].
    unfold ends. rewrite map_app, Heq. split; [by apply prefix_app |].
    destruct r; [destruct Hend' as [-> ?]; by rewrite Forall_app | by apply stopped_app ..].
  - destruct H2 as [-> ->]. rewrite app_nil_r. split; [by apply prefix_app_r | done].
  - destruct H2 as [-> ->]. rewrite app_nil_r. split; [by apply prefix_app_r | done].
Qed.

Lemma follows_ibind {A B} s1 s2 (p : io E Er A) (k : A -> io E Er B) :
  follows s1 p -> (forall a, follows s2 (k a)) -> follows (s1 ++ s2) (ibind p k).
Proof. intros Hp Hk. by apply follows_ibind_with. Qed.

(** The call with [expect], in the middle of a function. *)
Lemma follows_expect_then {X A B} (e : E X) (f : X -> option A) msg op s2 (k : A -> io E Er B) :
  (forall x, op_of (Obs e x) = op) ->
  (forall x, verdict (Obs e x) = match f x with Some _ => None | None => Some (Panic msg) end) ->
  (forall a, follows s2 (k a)) ->
  follows (op :: s2)
    (ibind (call e) (fun x => ibind (of_outcome (expect (f x) msg)) k)).
Proof.
  intros Hop Hv Hk tr r Hr. apply runs_ibind_assoc in Hr. revert tr r Hr.
  apply (follows_ibind [op]); [by apply follows_expect | done].
Qed.

(** A function that follows a script returns when no answer ends it. *)
Lemma follows_yields {A} script (p : io E Er A) :
  follows script p -> yields goes_on (fun o => is_ok o = true) p.
Proof.
  intros Hp tr o Hr Hgo. destruct (Hp _ _ Hr) as [_ He].
  assert (Hstop : forall v, ~ stopped tr v).
  { intros v (tr0 & o' & -> & _ & Hv). apply Forall_app in Hgo as [_ Ho].
    apply Forall_cons in Ho as [Ho _]. by rewrite Ho in Hv. }
  destruct o; [done | by destruct (Hstop _ He) ..].
Qed.

Lemma ends_not_Ok {A} tr script (r : outcome Er A) :
  ends tr script r -> is_ok r = false -> exists v, stopped tr v.
Proof. intros [_ H]. destruct r; naive_solver. Qed.

(** Where no answer ends the function, it makes all the calls of its script and
    returns. *)
Lemma follows_completes {S A} script (p : io E Er A) (h : handler E S) (I : S -> Prop) s :
  follows script p ->
  (forall X (e : E X) s, I s -> verdict (Obs e (h X e s).1) = None /\ I (h X e s).2) ->
  I s ->
  exists a, (exec h p s).1 = Ok a /\ map op_of (exec_trace h p s) = script.
Proof.
  intros Hp Hh Hs. pose proof (yields_exec _ _ _ h I s (follows_yields _ _ Hp) Hh Hs) as Hok.
  destruct (Hp _ _ (exec_runs h p s)) as [_ He].
  destruct (exec h p s).1 as [a | e | m]; [| done ..]. exists a. split; [done | apply He].
Qed.
End Scripts.

Arguments follows {E Er O} _ _ {A} _ _.
Arguments ends {E Er O} _ _ {A} _ _ _.
Arguments stopped {E Er} _ _ _.
Arguments goes_on {E Er} _ _ /.
