(* ===== verification/Weights.v ===== *)
(** * Dispatch weights of the template pallet ([pallets/template/src/weights.rs])

    [Weight] and [RuntimeDbWeight] belong to [sp_weights]: they are parameters
    ([WeightOps], [RuntimeDbWeight]) with their documented arithmetic as laws. *)

From S2P Require Import Prelude.

Set Default Proof Using "Type".

(** The operations of [frame_support::weights::Weight] that the source uses. *)
Class WeightOps (W : Type) := {
  from_parts : Z -> Z -> W;
  ref_time : W -> Z;
  proof_size : W -> Z;
  weight_saturating_add : W -> W -> W;
}.

(** A weight is a pair of [u64]s; addition saturates each of them. *)
Class WeightLaws (W : Type) `{!WeightOps W} : Prop := {
  ref_time_from_parts r p : fits 64 r -> fits 64 p -> ref_time (from_parts r p) = r;
  proof_size_from_parts r p : fits 64 r -> fits 64 p -> proof_size (from_parts r p) = p;
  ref_time_add w w' :
    ref_time (weight_saturating_add w w') = saturating_add 64 (ref_time w) (ref_time w');
  proof_size_add w w' :
    proof_size (weight_saturating_add w w') =
    saturating_add 64 (proof_size w) (proof_size w');
  ref_time_fits w : fits 64 (ref_time w);
  proof_size_fits w : fits 64 (proof_size w);
}.

(** [RuntimeDbWeight]: the weight of [n] reads and of [n] writes. *)
Record RuntimeDbWeight (W : Type) := { reads : Z -> W; writes : Z -> W }.
Arguments reads {W} _ _.
Arguments writes {W} _ _.

(** Reading and writing [n] times costs [n] times the unit cost, saturated, and
    no proof size. *)
Record DbWeightLaws {W} `{!WeightOps W} (db : RuntimeDbWeight W) (read write : Z) : Prop := {
  db_read_fits : fits 64 read;
  db_write_fits : fits 64 write;
  ref_time_reads n : fits 64 n -> ref_time (reads db n) = saturating_mul 64 read n;
  ref_time_writes n : fits 64 n -> ref_time (writes db n) = saturating_mul 64 write n;
  proof_size_reads n : fits 64 n -> proof_size (reads db n) = 0;
  proof_size_writes n : fits 64 n -> proof_size (writes db n) = 0;
}.

(** The trait of the pallet's weight functions. *)
Record WeightInfo (W : Type) := {
  do_something_weight : W;
  cause_error_weight : W;
}.
Arguments do_something_weight {W} _.
Arguments cause_error_weight {W} _.

Section Implementations.
Context {W : Type} `{!WeightOps W}.

(** [impl<T: frame_system::Config> WeightInfo for SubstrateWeight<T>]; the
    argument is [T::DbWeight::get()]. *)
Definition SubstrateWeight (DbWeight : RuntimeDbWeight W) : WeightInfo W := {|
  do_something_weight :=
    weight_saturating_add (from_parts 9_000_000 0) (writes DbWeight 1);
  cause_error_weight :=
    weight_saturating_add
      (weight_saturating_add (from_parts 6_000_000 1489) (reads DbWeight 1))
      (writes DbWeight 1);
|}.

(** [impl WeightInfo for ()]; the argument is [RocksDbWeight::get()]. *)
Definition UnitWeight (RocksDbWeight : RuntimeDbWeight W) : WeightInfo W := {|
  do_something_weight :=
    weight_saturating_add (from_parts 9_000_000 0) (writes RocksDbWeight 1);
  cause_error_weight :=
    weight_saturating_add
      (weight_saturating_add (from_parts 6_000_000 1489) (reads RocksDbWeight 1))
      (writes RocksDbWeight 1);
|}.
End Implementations.

(** ** Comparison and sums of weights *)
Section Order.
Context {W : Type} `{!WeightOps W, !WeightLaws W}.

(** Componentwise order. *)
Definition weight_le (w w' : W) : Prop :=
  ref_time w <= ref_time w' /\ proof_size w <= proof_size w'.

#[export] Instance weight_le_preorder : PreOrder weight_le.
Proof. split; [split; lia |]. intros ??? [??] [??]. split; lia. Qed.

#[export] Instance weight_add_mono :
  Proper (weight_le ==> weight_le ==> weight_le) weight_saturating_add.
Proof using All.
  intros a a' [??] b b' [??]. split.
  - rewrite !ref_time_add. unfold saturating_add. lia.
  - rewrite !proof_size_add. unfold saturating_add. lia.
Qed.

Lemma weight_add_r (a b : W) : weight_le b (weight_saturating_add a b).
Proof using All.
  pose proof (ref_time_fits a). pose proof (proof_size_fits a).
  pose proof (ref_time_fits b). pose proof (proof_size_fits b). unfold fits in *.
  split; [rewrite ref_time_add | rewrite proof_size_add]; unfold saturating_add; lia.
Qed.

Lemma weight_zero_le (w : W) : weight_le (from_parts 0 0) w.
Proof using All.
  pose proof (ref_time_fits w). pose proof (proof_size_fits w).
  split; [rewrite ref_time_from_parts | rewrite proof_size_from_parts]; width_lia.
Qed.

Lemma weight_add_zero_r (a : W) : weight_le (weight_saturating_add a (from_parts 0 0)) a.
Proof using All.
  pose proof (ref_time_fits a). pose proof (proof_size_fits a).
  split; [rewrite ref_time_add, ref_time_from_parts
         | rewrite proof_size_add, proof_size_from_parts]; unfold saturating_add; width_lia.
Qed.

(** The weight charged when the database costs [read] and [write] picoseconds
    an access, wherever the sums saturate. *)
Lemma substrate_weight_parts (db : RuntimeDbWeight W) read write :
  DbWeightLaws db read write ->
  ref_time (do_something_weight (SubstrateWeight db)) =
    Z.min (9_000_000 + write) u64_max /\
  proof_size (do_something_weight (SubstrateWeight db)) = 0 /\
  ref_time (cause_error_weight (SubstrateWeight db)) =
    Z.min (6_000_000 + read + write) u64_max /\
  proof_size (cause_error_weight (SubstrateWeight db)) = 1489.
Proof using All.
  intros L. destruct L as [[? ?] [? ?] Hr Hw Hpr Hpw]; simpl.
  rewrite !ref_time_add, !proof_size_add, Hr, Hw, Hpr, Hpw,
    !ref_time_from_parts, !proof_size_from_parts by width_lia.
  unfold saturating_add, saturating_mul. width_lia.
Qed.
End Order.

#[export] Hint Resolve weight_zero_le weight_add_r weight_add_zero_r : substrate.

(** ** A concrete weight type, to instantiate the laws *)
Module Concrete.
#[export] Instance pair_weight_ops : WeightOps (Z * Z) := {|
  from_parts r p := (cast 64 r, cast 64 p);
  ref_time w := cast 64 w.1;
  proof_size w := cast 64 w.2;
  weight_saturating_add w w' :=
    (saturating_add 64 (cast 64 w.1) (cast 64 w'.1),
     saturating_add 64 (cast 64 w.2) (cast 64 w'.2));
|}.

#[export] Instance pair_weight_laws : WeightLaws (Z * Z).
Proof.
  assert (Hc : forall x, fits 64 (cast 64 x)) by (intros; by apply cast_fits).
  assert (Hs : forall x y, cast 64 (saturating_add 64 (cast 64 x) (cast 64 y)) =
                      saturating_add 64 (cast 64 x) (cast 64 y)).
  { intros x y. pose proof (Hc x) as [??]. pose proof (Hc y) as [??].
    by apply cast_id, saturating_add_fits. }
  split; simpl; intros; auto; by rewrite !(cast_id 64).
Defined.

(** 25 and 100 microseconds: the RocksDB constants of FRAME. *)
Definition db : RuntimeDbWeight (Z * Z) := {|
  reads n := (saturating_mul 64 25_000_000 n, 0);
  writes n := (saturating_mul 64 100_000_000 n, 0);
|}.

Lemma db_laws : DbWeightLaws db 25_000_000 100_000_000.
Proof.
  split; intros; unfold db, saturating_mul; simpl; try width_lia;
    rewrite cast_id; auto; width_lia.
Qed.
End Concrete.
