(* ===== verification/TemplatePallet.v ===== *)
(** * The template pallet ([pallets/template/src/lib.rs])

    Data, dispatchables and weights of the pallet; the interface of the FRAME
    storage and event host it runs on; an abstract counter machine, and the
    refinement of it by the pallet on every lawful host. *)

From S2P Require Import Prelude Effects Weights.

Set Default Proof Using "Type".

(** ** What the pallet takes from [frame_system] *)
Class FrameSystem := {
  AccountId : Type;
  RuntimeOrigin : Type;
  BadOrigin : Type;
  DispatchError : Type;
  ensure_signed : RuntimeOrigin -> outcome BadOrigin AccountId;
  from_bad_origin : BadOrigin -> DispatchError;
}.

(** ** Data of the pallet *)

(** [enum Event<T>]. *)
Inductive Event `{FrameSystem} : Type :=
| SomethingStored (something : Z) (who : AccountId).

(** [enum Error<T>]. *)
Inductive Error : Type :=
| NoneValue
| StorageOverflow.

#[export] Instance Error_eq_dec : EqDecision Error.
Proof. solve_decision. Defined.

(** The pallet's [Call]: one constructor per dispatchable. *)
Inductive Call : Type :=
| call_do_something (something : Z)
| call_cause_error.

(** A decoded call: the argument is a [u32]. *)
Definition call_wf (c : Call) : Prop :=
  match c with call_do_something v => fits 32 v | call_cause_error => True end.

(** [trait Config]: the outer event type with its [From] conversion, the error
    conversion the [#[pallet::error]] attribute asks for, and [WeightInfo]. *)
Class Config `{FrameSystem} (W : Type) := {
  RuntimeEvent : Type;
  into_runtime_event : Event -> RuntimeEvent;
  into_dispatch_error : Error -> DispatchError;
  weight_info : WeightInfo W;
}.

(** Calls of the pallet to its host: the [Something] storage value and
    [frame_system::Pallet::deposit_event]. *)
Inductive palletE (RuntimeEvent : Type) : Type -> Type :=
| Something_get : palletE RuntimeEvent (option Z)
| Something_put (v : Z) : palletE RuntimeEvent unit
| System_deposit_event (e : RuntimeEvent) : palletE RuntimeEvent unit.

Arguments Something_get {_}.
Arguments Something_put {_} _.
Arguments System_deposit_event {_} _.

Section Pallet.
Context {FS : FrameSystem} {W : Type} {Cfg : Config W}.

(** [DispatchResult], with the calls made on the way. *)
Abbreviation dispatch_io := (io (palletE RuntimeEvent) DispatchError unit).

(** [#[pallet::generate_deposit(pub(super) fn deposit_event)]]. *)
Definition deposit_event (e : Event) : dispatch_io :=
  call (System_deposit_event (into_runtime_event e)).

Definition do_something (origin : RuntimeOrigin) (something : Z) : dispatch_io :=
  let* who := of_outcome (map_err from_bad_origin (ensure_signed origin)) in
  call (Something_put something) ;;;
  deposit_event (SomethingStored something who) ;;;
  iret tt.

Definition cause_error (origin : RuntimeOrigin) : dispatch_io :=
  let* _who := of_outcome (map_err from_bad_origin (ensure_signed origin)) in
  let* value := call Something_get in
  match value with
  | None => fail (into_dispatch_error NoneValue)
  | Some old =>
    let* new := of_outcome
      (map_err into_dispatch_error (ok_or (checked_add 32 old 1) StorageOverflow)) in
    call (Something_put new) ;;;
    iret tt
  end.

(** [#[pallet::call]]: a call runs its dispatchable. *)
Definition dispatch (c : Call) (origin : RuntimeOrigin) : dispatch_io :=
  match c with
  | call_do_something something => do_something origin something
  | call_cause_error => cause_error origin
  end.

(** [#[pallet::call_index(..)]]. *)
Definition call_index (c : Call) : Z :=
  match c with call_do_something _ => 0 | call_cause_error => 1 end.

(** [#[pallet::weight(..)]]. *)
Definition call_weight (c : Call) : W :=
  match c with
  | call_do_something _ => do_something_weight weight_info
  | call_cause_error => cause_error_weight weight_info
  end.
End Pallet.

(** ** The host interface

    What FRAME promises to the pallet: a storage value read back as written,
    an event log that grows by the events deposited after the genesis block,
    and neither operation touching what the other one keeps. *)
Class PalletHost (St RuntimeEvent : Type) := {
  host_get : St -> option Z;
  host_put : Z -> St -> St;
  host_deposit : RuntimeEvent -> St -> St;
  host_block_number : St -> Z;
  host_events : St -> list RuntimeEvent;
}.

Class PalletHostLaws (St RuntimeEvent : Type) `{!PalletHost St RuntimeEvent} : Prop := {
  get_put v s : host_get (host_put v s) = Some v;
  get_deposit e s : host_get (host_deposit e s) = host_get s;
  events_put v s : host_events (host_put v s) = host_events s;
  events_deposit e s :
    host_events (host_deposit e s) =
    if decide (host_block_number s = 0) then host_events s else host_events s ++ [e];
  block_number_put v s : host_block_number (host_put v s) = host_block_number s;
  block_number_deposit e s : host_block_number (host_deposit e s) = host_block_number s;
}.

(** Reads a lawful host back after a sequence of writes. *)
Ltac host_simpl :=
  repeat (rewrite get_put || rewrite get_deposit || rewrite events_put ||
          rewrite events_deposit || rewrite block_number_put ||
          rewrite block_number_deposit);
  try done.

Section Host.
Context {St Ev : Type} `{!PalletHost St Ev}.

Definition pallet_handler : handler (palletE Ev) St := fun _ e s =>
  match e with
  | Something_get => (host_get s, s)
  | Something_put v => (tt, host_put v s)
  | System_deposit_event ev => (tt, host_deposit ev s)
  end.
End Host.

(** ** The abstract counter

    The promise of the pallet without storage, events or integer types: an
    optional number set by [do_something] and incremented by [cause_error]. *)
Section Spec.
Context {FS : FrameSystem} {W : Type} {Cfg : Config W}.

Definition counter_step (origin : RuntimeOrigin) (c : Call) (v : option Z)
  : outcome DispatchError unit * option Z * list Event :=
  match ensure_signed origin with
  | Err e => (Err (from_bad_origin e), v, [])
  | Panic m => (Panic m, v, [])
  | Ok who =>
    match c, v with
    | call_do_something x, _ => (Ok tt, Some x, [SomethingStored x who])
    | call_cause_error, None => (Err (into_dispatch_error NoneValue), v, [])
    | call_cause_error, Some x =>
      if decide (x = u32_max) then (Err (into_dispatch_error StorageOverflow), v, [])
      else (Ok tt, Some (x + 1), [])
    end
  end.

(** The value is unset or a [u32]. *)
Definition value_ok (v : option Z) : Prop := from_option (fits 32) True v.

Lemma counter_step_ok origin c v :
  call_wf c -> value_ok v -> value_ok (counter_step origin c v).1.2.
Proof.
  unfold counter_step, value_ok. intros Hc Hv.
  destruct (ensure_signed origin); [| done ..].
  destruct c; [done |]. destruct v as [x |]; [| done].
  case_decide; [done |]. cbn in *. width_lia.
Qed.

(** Unbounded arithmetic, for the calls that succeed. *)
Definition counter_ideal (c : Call) (v : option Z) : option Z :=
  match c with call_do_something x => Some x | call_cause_error => (fun x => x + 1) <$> v end.

Lemma counter_step_ideal origin c v :
  (counter_step origin c v).1.2 =
  if is_ok (counter_step origin c v).1.1 then counter_ideal c v else v.
Proof.
  unfold counter_step. destruct (ensure_signed origin); [| done ..].
  destruct c; [done |]. destruct v as [x |]; [| done]. by case_decide.
Qed.

(** The event a call leaves, given its result. *)
Definition stored_event (origin : RuntimeOrigin) (c : Call) (r : outcome DispatchError unit)
  : list Event :=
  match c, ensure_signed origin, r with
  | call_do_something x, Ok who, Ok _ => [SomethingStored x who]
  | _, _, _ => []
  end.

Lemma counter_step_events origin c v :
  (counter_step origin c v).2 = stored_event origin c (counter_step origin c v).1.1.
Proof.
  unfold counter_step, stored_event.
  destruct (ensure_signed origin); [| by destruct c ..].
  destruct c; [done |]. destruct v; [| done]. by case_decide.
Qed.
End Spec.

(** ** Refinement on every lawful host *)
Section Refinement.
Context {FS : FrameSystem} {W : Type} {Cfg : Config W}.
Context {St : Type} `{!PalletHost St RuntimeEvent, !PalletHostLaws St RuntimeEvent}.
Implicit Types (s : St).

(** One dispatch: its result and the state it leaves. *)
Definition run_call (origin : RuntimeOrigin) (c : Call) s
  : outcome DispatchError unit * St :=
  exec pallet_handler (dispatch c origin) s.

(** What the log gains: nothing before block 1. *)
Definition logged s (evs : list Event) : list RuntimeEvent :=
  if decide (host_block_number s = 0) then [] else map into_runtime_event evs.

Lemma run_call_spec origin c s :
  value_ok (host_get s) ->
  let '(r, v, evs) := counter_step origin c (host_get s) in
  let '(r', s') := run_call origin c s in
  r' = r /\ host_get s' = v /\ host_events s' = host_events s ++ logged s evs /\
  host_block_number s' = host_block_number s.
Proof using All.
  intros Hv. unfold run_call, counter_step, logged.
  destruct c as [x |]; simpl; unfold do_something, cause_error, deposit_event;
    destruct (ensure_signed origin) as [who | e | m]; simpl;
    host_simpl; try (case_decide; by rewrite ?app_nil_r).
  destruct (host_get s) as [old |] eqn:Hg; simpl;
    [| by destruct (decide _); rewrite app_nil_r].
  unfold checked_add. cbn in Hv. destruct (decide (old = u32_max)) as [-> |]; simpl.
  - destruct (decide _); by rewrite app_nil_r.
  - destruct (Z.leb_spec (old + 1) (umax 32)); [| width_lia].
    simpl. host_simpl. destruct (decide _); by rewrite app_nil_r.
Qed.

(** Extrinsics in the order of a block. *)
Fixpoint run_calls (l : list (RuntimeOrigin * Call)) s
  : list (outcome DispatchError unit) * St :=
  match l with
  | [] => ([], s)
  | (origin, c) :: l =>
    let '(r, s) := run_call origin c s in
    let '(rs, s) := run_calls l s in (r :: rs, s)
  end.

Fixpoint counter_run (l : list (RuntimeOrigin * Call)) (v : option Z)
  : list (outcome DispatchError unit) * option Z * list Event :=
  match l with
  | [] => ([], v, [])
  | (origin, c) :: l =>
    let '(r, v, evs) := counter_step origin c v in
    let '(rs, v, evs') := counter_run l v in (r :: rs, v, evs ++ evs')
  end.

Lemma run_calls_spec l s :
  Forall call_wf l.*2 -> value_ok (host_get s) ->
  let '(rs, v, evs) := counter_run l (host_get s) in
  let '(rs', s') := run_calls l s in
  rs' = rs /\ host_get s' = v /\ host_events s' = host_events s ++ logged s evs /\
  host_block_number s' = host_block_number s /\ value_ok v.
Proof using All.
  revert s. induction l as [| [origin c] l IH]; intros s; simpl.
  { intros _ ?. unfold logged. case_decide; by rewrite ?app_nil_r. }
  intros [Hc Hl]%Forall_cons Hv.
  pose proof (run_call_spec origin c s Hv) as Hstep.
  pose proof (counter_step_ok origin c _ Hc Hv) as Hok.
  destruct (counter_step origin c (host_get s)) as [[r v] evs].
  destruct (run_call origin c s) as [r' s1]. destruct Hstep as (-> & Hg & He & Hb).
  simpl in Hok. rewrite <-Hg in Hok |- *. specialize (IH s1 Hl Hok).
  destruct (counter_run l (host_get s1)) as [[rs v1] evs1].
  destruct (run_calls l s1) as [rs' s2].
  destruct IH as (-> & -> & -> & -> & ?). split_and!; auto.
  rewrite He, <-app_assoc. f_equal. unfold logged. rewrite Hb.
  case_decide; [done | by rewrite map_app].
Qed.
End Refinement.

(** ** Facts about runs of the counter *)
Section CounterRuns.
Context {FS : FrameSystem} {W : Type} {Cfg : Config W}.

(** The value left by the calls that succeeded, in unbounded arithmetic. *)
Definition ideal_value (l : list (RuntimeOrigin * Call))
  (rs : list (outcome DispatchError unit)) (v : option Z) : option Z :=
  foldl (fun v '((_, c), r) => if is_ok r then counter_ideal c v else v) v (zip l rs).

(** The events of the calls that succeeded, in order. *)
Definition ideal_events (l : list (RuntimeOrigin * Call))
  (rs : list (outcome DispatchError unit)) : list Event :=
  concat (zip_with (fun '(origin, c) r => stored_event origin c r) l rs).

Lemma counter_run_ideal l v :
  let '(rs, v', evs) := counter_run l v in
  v' = ideal_value l rs v /\ evs = ideal_events l rs.
Proof.
  revert v. induction l as [| [origin c] l IH]; intros v; simpl; [done |].
  pose proof (counter_step_ideal origin c v) as Hi.
  pose proof (counter_step_events origin c v) as He.
  destruct (counter_step origin c v) as [[r v1] evs]. simpl in Hi, He. subst.
  match goal with |- context [counter_run l ?w] => specialize (IH w) end.
  destruct (counter_run l _) as [[rs v2] evs']. destruct IH as [-> ->].
  split; reflexivity.
Qed.

(** How many calls of a list succeeded. *)
Definition count_ok (rs : list (outcome DispatchError unit)) : Z :=
  foldr (fun r n => Z.b2z (is_ok r) + n) 0 rs.

Lemma counter_run_cause_error (os : list RuntimeOrigin) x :
  Forall (fun o => exists who, ensure_signed o = Ok who) os -> x <= u32_max ->
  let '(rs, v, evs) := counter_run (map (fun o => (o, call_cause_error)) os) (Some x) in
  count_ok rs = Z.min (Z.of_nat (length os)) (u32_max - x) /\
  v = Some (Z.min (x + Z.of_nat (length os)) u32_max) /\ evs = [].
Proof.
  revert x. induction os as [| o os IH]; intros x Hos Hx; simpl.
  { split_and!; try done; try f_equal; lia. }
  apply Forall_cons in Hos as [[who Hw] Hos].
  unfold counter_step. rewrite Hw. case_decide as Hm.
  - specialize (IH x Hos Hx).
    destruct (counter_run _ (Some x)) as [[rs v] evs]. destruct IH as (Hn & -> & ->).
    simpl. rewrite Hn. split_and!; try done; try f_equal; lia.
  - specialize (IH (x + 1) Hos ltac:(lia)).
    destruct (counter_run _ (Some (x + 1))) as [[rs v] evs]. destruct IH as (Hn & -> & ->).
    simpl. rewrite Hn. split_and!; [lia | f_equal; lia | done].
Qed.
End CounterRuns.

(** ** Properties of the pallet *)
Section Properties.
Context {FS : FrameSystem} {W : Type} {Cfg : Config W}.
Context {St : Type} `{!PalletHost St RuntimeEvent, !PalletHostLaws St RuntimeEvent}.

(** C1: The pallet implements the abstract counter: for every list of decoded
    calls, on every lawful host whose [Something] holds nothing or a [u32],
    the results, the stored value and the deposited events are those of the
    counter (the events only after the genesis block), and the block number
    is untouched. *)
Theorem template_refines_counter (l : list (RuntimeOrigin * Call)) (s : St) :
  Forall call_wf l.*2 -> value_ok (host_get s) ->
  let '(rs, v, evs) := counter_run l (host_get s) in
  let '(rs', s') := run_calls l s in
  rs' = rs /\ host_get s' = v /\ host_events s' = host_events s ++ logged s evs /\
  host_block_number s' = host_block_number s.
Proof using All.
  intros Hl Hv. pose proof (run_calls_spec l s Hl Hv) as H.
  destruct (counter_run l _) as [[rs v] evs], (run_calls l s). naive_solver.
Qed.

(** C6: After any list of decoded calls the checked 32-bit value equals the
    one unbounded arithmetic gives for the calls that succeeded: a successful
    [do_something] sets it, a successful [cause_error] adds one, a failed
    call changes nothing; and the log has gained exactly one
    [SomethingStored] per successful [do_something], in order. *)
Theorem stored_value_is_ideal (l : list (RuntimeOrigin * Call)) (s : St) :
  Forall call_wf l.*2 -> value_ok (host_get s) ->
  let '(rs, s') := run_calls l s in
  host_get s' = ideal_value l rs (host_get s) /\
  host_events s' = host_events s ++ logged s (ideal_events l rs).
Proof using All.
  intros Hl Hv. pose proof (run_calls_spec l s Hl Hv) as H.
  pose proof (counter_run_ideal l (host_get s)) as Hi.
  destruct (counter_run l _) as [[rs v] evs], (run_calls l s). naive_solver.
Qed.

(** C7: From a value [x], signed [cause_error] calls succeed exactly until the
    value is [u32::MAX]: of [n] of them [min n (u32::MAX - x)] succeed, the
    value ends at [min (x + n) u32::MAX], and no event is deposited. *)
Theorem cause_error_saturates (os : list RuntimeOrigin) (x : Z) (s : St) :
  Forall (fun o => exists who, ensure_signed o = Ok who) os ->
  host_get s = Some x -> fits 32 x ->
  let '(rs, s') := run_calls (map (fun o => (o, call_cause_error)) os) s in
  count_ok rs = Z.min (Z.of_nat (length os)) (u32_max - x) /\
  host_get s' = Some (Z.min (x + Z.of_nat (length os)) u32_max) /\
  host_events s' = host_events s.
Proof using All.
  intros Hos Hg Hx.
  assert (Hl : Forall call_wf (map (fun o => (o, call_cause_error)) os).*2).
  { induction os; simpl; constructor; inversion Hos; auto. exact I. }
  pose proof (run_calls_spec _ s Hl ltac:(by rewrite Hg)) as H. rewrite Hg in H.
  pose proof (counter_run_cause_error os x Hos ltac:(width_lia)) as Hc.
  destruct (counter_run _ _) as [[rs v] evs], (run_calls _ s).
  destruct Hc as (? & -> & ->), H as (-> & -> & -> & _). split_and!; try done.
  unfold logged. case_decide; by rewrite app_nil_r.
Qed.

(** C25: The result of [cause_error] says which of its conditions failed: the
    origin check's error, [NoneValue] exactly when nothing is stored,
    [StorageOverflow] exactly at [u32::MAX], and otherwise success, which
    leaves the old value plus one. *)
Theorem cause_error_result (origin : RuntimeOrigin) (s : St) :
  value_ok (host_get s) ->
  match run_call origin call_cause_error s, ensure_signed origin with
  | (r, s'), Ok _ =>
    (host_get s = None /\ r = Err (into_dispatch_error NoneValue) /\ s' = s) \/
    (host_get s = Some u32_max /\ r = Err (into_dispatch_error StorageOverflow) /\ s' = s) \/
    (exists old, host_get s = Some old /\ old < u32_max /\ r = Ok tt /\
                 host_get s' = Some (old + 1) /\ host_events s' = host_events s)
  | (r, s'), Err e => r = Err (from_bad_origin e) /\ s' = s
  | (r, s'), Panic m => r = Panic m /\ s' = s
  end.
Proof using All.
  intros Hv. unfold run_call. simpl. unfold cause_error.
  destruct (ensure_signed origin); simpl; [| done ..].
  destruct (host_get s) as [old |] eqn:Hg; simpl; [| by left].
  cbn in Hv. unfold checked_add.
  destruct (Z.leb_spec (old + 1) (umax 32)); simpl.
  - right; right. exists old. split_and!; try done; [width_lia | host_simpl ..].
  - right; left. split_and!; try done. f_equal. width_lia.
Qed.
End Properties.

(** ** Properties under any host *)
Section AnyHost.
Context {FS : FrameSystem} {W : Type} {Cfg : Config W}.

(** Whether a call to the host changes its state. *)
Definition is_write (o : obs (palletE RuntimeEvent)) : bool :=
  match o with Obs e _ => match e with Something_get => false | _ => true end end.

(** C2: A dispatchable that does not succeed has written nothing: whatever the
    host answers, the calls made before an error or a panic are reads of
    [Something], so failing needs no rollback. *)
Theorem failed_dispatch_writes_nothing (c : Call) (origin : RuntimeOrigin) tr r :
  runs (dispatch c origin) tr r -> is_ok r = false ->
  Forall (fun o => is_write o = false) tr.
Proof.
  apply (runs_wp _ (fun tr r => is_ok r = false -> Forall (fun o => is_write o = false) tr)).
  destruct c; simpl; unfold do_something, cause_error; rewrite wp_ibind; simpl;
    (destruct (ensure_signed origin); simpl; [| by repeat constructor ..]).
  - by intros [] [].
  - intros [old |]; simpl; [| by repeat constructor].
    destruct (checked_add 32 old 1); simpl; [done | by repeat constructor].
Qed.

(** What the storage accesses of a run cost. *)
Definition db_cost `{!WeightOps W} (db : RuntimeDbWeight W)
  (tr : list (obs (palletE RuntimeEvent))) : W :=
  foldr (fun '(Obs e _) w =>
           match e with
           | Something_get => weight_saturating_add (reads db 1) w
           | Something_put _ => weight_saturating_add (writes db 1) w
           | System_deposit_event _ => w
           end) (from_parts 0 0) tr.

Section Costs.
Context `{!WeightOps W, !WeightLaws W} (db : RuntimeDbWeight W).

Lemma weight_db_1 :
  weight_le (weight_saturating_add (reads db 1) (from_parts 0 0))
    (cause_error_weight (SubstrateWeight db)).
Proof using All.
  etrans; [| simpl; apply weight_add_mono; [apply weight_add_r | apply weight_zero_le]].
  done.
Qed.

Lemma weight_db_2 :
  weight_le (weight_saturating_add (writes db 1) (from_parts 0 0))
    (do_something_weight (SubstrateWeight db)).
Proof using All.
  etrans; [apply weight_add_zero_r | simpl; apply weight_add_r].
Qed.

Lemma weight_db_3 :
  weight_le
    (weight_saturating_add (reads db 1)
       (weight_saturating_add (writes db 1) (from_parts 0 0)))
    (cause_error_weight (SubstrateWeight db)).
Proof using All.
  simpl. apply weight_add_mono; [apply weight_add_r | apply weight_add_zero_r].
Qed.
End Costs.

(** C24: The weight charged for a call covers its storage accesses: under
    [SubstrateWeight] (or the [()] weights) over a database whose accesses
    weigh [reads] and [writes], every run of the call, whatever the host
    answers and however it ends, costs at most the declared weight, in both
    components, saturation included. *)
Theorem weight_covers_storage `{!WeightOps W, !WeightLaws W} (db : RuntimeDbWeight W)
  (c : Call) (origin : RuntimeOrigin) tr r :
  weight_info = SubstrateWeight db \/ weight_info = UnitWeight db ->
  runs (dispatch c origin) tr r -> weight_le (db_cost db tr) (call_weight c).
Proof using All.
  intros Hw. unfold call_weight.
  assert (weight_info = SubstrateWeight db) as -> by (by destruct Hw).
  apply (runs_wp _ (fun tr r => weight_le (db_cost db tr) _)).
  destruct c; simpl; unfold do_something, cause_error; rewrite wp_ibind; simpl;
    (destruct (ensure_signed origin); simpl; [| apply weight_zero_le ..]).
  - intros [] []. simpl. apply weight_db_2.
  - intros [old |]; simpl; [| apply weight_db_1].
    destruct (checked_add 32 old 1); simpl; [intros []; apply weight_db_3 | apply weight_db_1].
Qed.
End AnyHost.
