(* ===== verification/Runtime.v ===== *)
(** * Runtime constants and pallet configuration ([runtime/src/lib.rs])

    The version, time and balance constants, the [parameter_types!], the
    constants of each pallet's [Config] and the pallet indices of the
    [#[frame_support::runtime]] composition; and how many calls of the template
    pallet a block has room for. *)

From S2P Require Import Prelude Weights TemplatePallet.

Set Default Proof Using "Type".

(** ** Version *)

(** [sp_version::RuntimeVersion]; [Apis] is the type of the generated
    [RUNTIME_API_VERSIONS]. *)
Record RuntimeVersion (Apis : Type) := {
  spec_name : string;
  impl_name : string;
  authoring_version : Z;
  spec_version : Z;
  impl_version : Z;
  apis : Apis;
  transaction_version : Z;
  state_version : Z;
}.
Arguments spec_name {Apis} _.
Arguments impl_name {Apis} _.
Arguments authoring_version {Apis} _.
Arguments spec_version {Apis} _.
Arguments impl_version {Apis} _.
Arguments apis {Apis} _.
Arguments transaction_version {Apis} _.
Arguments state_version {Apis} _.

Definition VERSION {Apis} (RUNTIME_API_VERSIONS : Apis) : RuntimeVersion Apis := {|
  spec_name := "solochain-template-runtime";
  impl_name := "solochain-template-runtime";
  authoring_version := 1;
  spec_version := 100;
  impl_version := 1;
  apis := RUNTIME_API_VERSIONS;
  transaction_version := 1;
  state_version := 1;
|}.

(** ** Widths of the integer type aliases *)
Definition BlockNumber_bits : Z := 32.
Definition Balance_bits : Z := 128.
Definition Nonce_bits : Z := 32.

(** ** Time *)
Definition MILLISECS_PER_BLOCK : Z := 6000.
Definition SLOT_DURATION : Z := MILLISECS_PER_BLOCK.

(** [BlockNumber] is [u32]: the [u64] constant is cast before the division. *)
Definition MINUTES : Z := 60_000 / cast BlockNumber_bits MILLISECS_PER_BLOCK.
Definition HOURS : Z := MINUTES * 60.
Definition DAYS : Z := HOURS * 24.

(** ** Balances *)
Definition EXISTENTIAL_DEPOSIT : Z := 500.

(** ** Parameter types *)
Definition BlockHashCount : Z := 2400.
Definition SS58Prefix : Z := 42.

(** Block limits are built by [frame_system::limits] from a [Perbill] ratio: a
    maximum for the block, and for each dispatch class a base weight of its
    extrinsics and a maximum for their sum, if it is limited. *)
Class BlockLimits (W : Type) := {
  Perbill : Type;
  from_percent : Z -> Perbill;
  WEIGHT_REF_TIME_PER_SECOND : Z;
  limits_BlockWeights : Type;
  with_sensible_defaults : W -> Perbill -> limits_BlockWeights;
  max_block : limits_BlockWeights -> W;
  DispatchClass : Type;
  Normal : DispatchClass;
  base_extrinsic : limits_BlockWeights -> DispatchClass -> W;
  max_total : limits_BlockWeights -> DispatchClass -> option W;
  limits_BlockLength : Type;
  max_with_normal_ratio : Z -> Perbill -> limits_BlockLength;
}.

(** [share p x y]: [y] is [p] percent of [x], rounded to a nearest integer. *)
Definition share (p x y : Z) : Prop := 2 * Z.abs (100 * y - p * x) <= 100.

(** The defaults: the block's maximum is the weight given, the normal class has
    the ratio given of both its parts, and the base weight is pure time. *)
Class BlockLimitsLaws (W : Type) `{!WeightOps W, !BlockLimits W} : Prop := {
  max_block_with_sensible_defaults w r : max_block (with_sensible_defaults w r) = w;
  max_total_normal w p :
    0 <= p <= 100 ->
    exists m, max_total (with_sensible_defaults w (from_percent p)) Normal = Some m /\
              share p (ref_time w) (ref_time m) /\ share p (proof_size w) (proof_size m);
  base_extrinsic_proof w r class :
    proof_size (base_extrinsic (with_sensible_defaults w r) class) = 0;
  ref_time_per_second : WEIGHT_REF_TIME_PER_SECOND = 1_000_000_000_000;
}.

Section ParameterTypes.
Context {W : Type} `{!WeightOps W, !BlockLimits W}.

Definition NORMAL_DISPATCH_RATIO : Perbill := from_percent 75.

(** The [u64] product wraps in a release build. *)
Definition BlockWeights : limits_BlockWeights :=
  with_sensible_defaults
    (from_parts (cast 64 (2 * WEIGHT_REF_TIME_PER_SECOND)) u64_max)
    NORMAL_DISPATCH_RATIO.

Definition BlockLength : limits_BlockLength :=
  max_with_normal_ratio (5 * 1024 * 1024) NORMAL_DISPATCH_RATIO.
End ParameterTypes.

(** ** Pallet configurations *)
Record AuraConfig := {
  aura_MaxAuthorities : Z;
  AllowMultipleBlocksPerSlot : bool;
}.
Definition aura_config : AuraConfig := {|
  aura_MaxAuthorities := 32;
  AllowMultipleBlocksPerSlot := false;
|}.

Record GrandpaConfig := {
  grandpa_MaxAuthorities : Z;
  MaxNominators : Z;
  MaxSetIdSessionEntries : Z;
}.
Definition grandpa_config : GrandpaConfig := {|
  grandpa_MaxAuthorities := 32;
  MaxNominators := 0;
  MaxSetIdSessionEntries := 0;
|}.

(** [ConstU64<{ SLOT_DURATION / 2 }>]. *)
Record TimestampConfig := { MinimumPeriod : Z }.
Definition timestamp_config : TimestampConfig := {| MinimumPeriod := SLOT_DURATION / 2 |}.

Record BalancesConfig := {
  MaxLocks : Z;
  ExistentialDeposit : Z;
}.
Definition balances_config : BalancesConfig := {|
  MaxLocks := 50;
  ExistentialDeposit := EXISTENTIAL_DEPOSIT;
|}.

(** The values of [frame_system::Config]; [None] is [()], the default of FRAME. *)
Record SystemConfig (W Apis : Type) `{!BlockLimits W} := {
  system_BlockWeights : option limits_BlockWeights;
  system_BlockLength : option limits_BlockLength;
  system_Nonce_bits : Z;
  system_BlockHashCount : Z;
  system_DbWeight : option (RuntimeDbWeight W);
  system_Version : option (RuntimeVersion Apis);
  system_SS58Prefix : Z;
  MaxConsumers : Z;
}.

Definition system_config {W Apis} `{!WeightOps W, !BlockLimits W}
  (RocksDbWeight : RuntimeDbWeight W) (RUNTIME_API_VERSIONS : Apis) : SystemConfig W Apis := {|
  system_BlockWeights := Some BlockWeights;
  system_BlockLength := Some BlockLength;
  system_Nonce_bits := Nonce_bits;
  system_BlockHashCount := BlockHashCount;
  system_DbWeight := Some RocksDbWeight;
  system_Version := Some (VERSION RUNTIME_API_VERSIONS);
  system_SS58Prefix := SS58Prefix;
  MaxConsumers := 16;
|}.

(** [impl pallet_template::Config for Runtime]: the outer event and error
    conversions are generated by the composition; the weights are
    [SubstrateWeight<Runtime>], over the [DbWeight] of the system
    configuration, which is [RocksDbWeight]. *)
Definition template_config `{FrameSystem} {W} `{!WeightOps W} (Ev : Type)
  (from_event : Event -> Ev) (from_error : Error -> DispatchError)
  (RocksDbWeight : RuntimeDbWeight W) : Config W := {|
    RuntimeEvent := Ev;
    into_runtime_event := from_event;
    into_dispatch_error := from_error;
    weight_info := SubstrateWeight RocksDbWeight;
  |}.

(** ** The composition *)
Inductive Pallet : Type :=
| System | Timestamp | Aura | Grandpa | Balances | TransactionPayment | Sudo
| TemplateModule.

#[export] Instance Pallet_eq_dec : EqDecision Pallet.
Proof. solve_decision. Defined.

(** [#[runtime::pallet_index(..)]]. *)
Definition pallet_index (p : Pallet) : Z :=
  match p with
  | System => 0
  | Timestamp => 1
  | Aura => 2
  | Grandpa => 3
  | Balances => 4
  | TransactionPayment => 5
  | Sudo => 6
  | TemplateModule => 7
  end.

#[export] Instance pallet_index_inj : Inj (=) (=) pallet_index.
Proof. by intros [] []. Qed.

(** ** The room of a block *)
Section BlockBudget.
Context {FS : FrameSystem} {W : Type}.
Context `{!WeightOps W, !WeightLaws W, !BlockLimits W, !BlockLimitsLaws W}.
Variables (Ev : Type) (from_event : Event -> Ev) (from_error : Error -> DispatchError).
Variables (RocksDbWeight : RuntimeDbWeight W) (read write : Z).
Hypothesis rocksdb : DbWeightLaws RocksDbWeight read write.

(** The time a call is charged for, in picoseconds, and its proof size. *)
Definition call_time (c : Call) : Z :=
  match c with
  | call_do_something _ => 9_000_000 + write
  | call_cause_error => 6_000_000 + read + write
  end.
Definition call_proof (c : Call) : Z :=
  match c with call_do_something _ => 0 | call_cause_error => 1489 end.

Local Abbreviation charged c :=
  (call_weight (Cfg := template_config Ev from_event from_error RocksDbWeight) c).

Lemma call_charge c :
  ref_time (charged c) = Z.min (call_time c) u64_max /\ proof_size (charged c) = call_proof c /\
  6_000_000 <= call_time c.
Proof using All.
  pose proof (substrate_weight_parts _ _ _ rocksdb) as (Hd & Hdp & Hc & Hcp).
  destruct rocksdb as [[? _] [? _] _ _ _ _].
  destruct c as [x |]; simpl; (split; [assumption || (etransitivity; [eassumption | done]) |]);
    split; [exact Hdp | lia | exact Hcp | lia].
Qed.

(** The base weight of a normal extrinsic, in picoseconds. *)
Definition normal_base : Z := ref_time (base_extrinsic BlockWeights Normal).

(** What a list of calls, each a normal extrinsic, adds up to in its block: the
    weight of each call and the base weight, in saturating sums. *)
Definition normal_weight (calls : list Call) : W :=
  foldr (fun c w => weight_saturating_add
           (weight_saturating_add (charged c) (base_extrinsic BlockWeights Normal)) w)
    (from_parts 0 0) calls.

(** The same times, in unbounded integers. *)
Definition total_time (calls : list Call) : Z :=
  foldr (fun c n => call_time c + normal_base + n) 0 calls.

Lemma total_time_calls calls : 6_000_000 * Z.of_nat (length calls) <= total_time calls.
Proof using All.
  induction calls as [| c calls IH]; simpl; [done |]. destruct (call_charge c) as (_ & _ & Hc).
  pose proof (ref_time_fits (base_extrinsic BlockWeights Normal)) as [Hb _].
  rewrite Nat2Z.inj_succ. unfold total_time, normal_base in *. lia.
Qed.

Lemma normal_weight_time calls :
  ref_time (normal_weight calls) = Z.min (total_time calls) u64_max.
Proof using All.
  induction calls as [| c calls IH]; simpl; [by rewrite ref_time_from_parts |].
  rewrite !ref_time_add. destruct (call_charge c) as (-> & _ & Hc). rewrite IH.
  pose proof (total_time_calls calls).
  pose proof (ref_time_fits (base_extrinsic BlockWeights Normal)).
  unfold saturating_add, normal_base. width_lia.
Qed.

Lemma normal_weight_proof calls :
  proof_size (normal_weight calls) <= 1489 * Z.of_nat (length calls).
Proof using All.
  induction calls as [| c calls IH]; simpl; [rewrite proof_size_from_parts by done; lia |].
  rewrite !proof_size_add, Nat2Z.inj_succ. destruct (call_charge c) as (_ & -> & _).
  unfold BlockWeights at 1. rewrite base_extrinsic_proof.
  unfold saturating_add. destruct c; simpl; width_lia.
Qed.

(** What the ratio leaves the normal class: 1.5 of the block's two seconds, and
    more proof than any such number of calls records. *)
Lemma normal_limit :
  exists m, max_total BlockWeights Normal = Some m /\
            ref_time m = 1_500_000_000_000 /\ 2 ^ 63 <= proof_size m.
Proof using All.
  unfold BlockWeights, NORMAL_DISPATCH_RATIO.
  rewrite ref_time_per_second, cast_id by width_lia.
  destruct (max_total_normal (from_parts (2 * 1_000_000_000_000) u64_max) 75) as (m & Hm & Ht & Hp);
    [lia |].
  exists m. split; [exact Hm |]. unfold share in *.
  rewrite ref_time_from_parts in Ht by width_lia.
  rewrite proof_size_from_parts in Hp by width_lia. width_lia.
Qed.

(** C28: How many calls of the template pallet a block has room for: their
    weights, with the base weight of each extrinsic, stay within the maximum
    of the normal class exactly when their times add up to at most one and a
    half seconds, three quarters of the block's two. Neither the saturation of
    the sums nor the proof size ever decides it. *)
Theorem template_calls_capacity (calls : list Call) :
  (exists m, max_total BlockWeights Normal = Some m /\ weight_le (normal_weight calls) m) <->
  total_time calls <= 1_500_000_000_000.
Proof using All.
  destruct normal_limit as (m & -> & Ht & Hp). unfold weight_le.
  pose proof (normal_weight_time calls) as Hw. pose proof (normal_weight_proof calls).
  pose proof (total_time_calls calls). split.
  - intros (m' & [= <-] & H1 & _). width_lia.
  - intros Hn. exists m. split; [done |]. width_lia.
Qed.
End BlockBudget.

(** ** The theorems at concrete parameters *)
Module Concrete.
Import Weights.Concrete.

(** Three classes, a base weight of 125 microseconds. *)
Inductive Class3 := ClassNormal | ClassOperational | ClassMandatory.

Definition per_cent_of (p x : Z) : Z := (p * cast 64 x + 50) / 100.

#[export] Instance seconds_limits : BlockLimits (Z * Z) := {|
  Perbill := Z;
  from_percent p := p * 10_000_000;
  WEIGHT_REF_TIME_PER_SECOND := 1_000_000_000_000;
  limits_BlockWeights := (Z * Z) * Z;
  with_sensible_defaults w r := (w, r);
  max_block := fst;
  DispatchClass := Class3;
  Normal := ClassNormal;
  base_extrinsic _ _ := (125_000_000, 0);
  max_total l class :=
    match class with
    | ClassNormal =>
      Some (per_cent_of (l.2 / 10_000_000) l.1.1, per_cent_of (l.2 / 10_000_000) l.1.2)
    | ClassOperational => Some l.1
    | ClassMandatory => None
    end;
  limits_BlockLength := Z * Z;
  max_with_normal_ratio n r := (n, r);
|}.

Lemma per_cent_share p x : 0 <= p <= 100 -> share p (cast 64 x) (cast 64 (per_cent_of p x)).
Proof.
  intros Hp. assert (Hx : fits 64 (cast 64 x)) by by apply cast_fits.
  unfold per_cent_of, share. remember (cast 64 x) as y eqn:Hy. clear Hy.
  pose proof (Z.div_mod (p * y + 50) 100 ltac:(lia)).
  pose proof (Z.mod_pos_bound (p * y + 50) 100 ltac:(lia)).
  assert (0 <= p * y <= 100 * y) by (unfold fits in Hx; nia).
  rewrite cast_id; [lia |]. width_lia.
Qed.

#[export] Instance seconds_limits_laws : BlockLimitsLaws (Z * Z).
Proof.
  split; try done. intros w p Hp. eexists. split; [reflexivity |]. simpl.
  rewrite Z.div_mul by lia. split; by apply per_cent_share.
Defined.

#[export] Instance unit_frame : FrameSystem := {|
  AccountId := unit;
  RuntimeOrigin := unit;
  BadOrigin := unit;
  DispatchError := Error;
  ensure_signed o := Ok o;
  from_bad_origin _ := NoneValue;
|}.

Definition into_unit_error (e : Error) : @DispatchError unit_frame := e.

(** A block has room for 5859 increments, and for no more. *)
Lemma increments_capacity :
  let limit := max_total BlockWeights Normal in
  let increments n := normal_weight Event id into_unit_error db (replicate n call_cause_error) in
  (exists m, limit = Some m /\ weight_le (increments (Z.to_nat 5859)) m) /\
  ~ (exists m, limit = Some m /\ weight_le (increments (Z.to_nat 5860)) m).
Proof.
  assert (Ht : forall n, total_time 25_000_000 100_000_000 (replicate n call_cause_error) =
                         256_000_000 * Z.of_nat n).
  { intros n. induction n as [| n IH]; [reflexivity |].
    rewrite Nat2Z.inj_succ. simpl. rewrite IH.
    rewrite cast_id by width_lia. lia. }
  split.
  - apply (template_calls_capacity Event id into_unit_error db 25_000_000 100_000_000 db_laws).
    rewrite Ht. vm_compute. discriminate.
  - intros H. apply (template_calls_capacity Event id into_unit_error db 25_000_000 100_000_000
      db_laws) in H. rewrite Ht in H. vm_compute in H. by apply H.
Defined.
End Concrete.
