(* ===== verification/Fees.v ===== *)
(** * Transaction fees of the runtime ([runtime/src/lib.rs])

    The configuration of [pallet_transaction_payment], the pallet itself as a
    parameter with the fee formula of its documentation as laws, and what a call
    of the template pallet then costs its sender. *)

From S2P Require Import Prelude Weights TemplatePallet Runtime.

Set Default Proof Using "Type".

(** What [sp_weights] and [pallet_transaction_payment] give the configuration:
    fixed-point multipliers, the [IdentityFee] polynomial over a [u128] balance
    and the constant multiplier update. *)
Class FeeTypes (W : Type) := {
  Multiplier : Type;
  Multiplier_one : Multiplier;
  IdentityFee : W -> Z;
  ConstFeeMultiplier : Multiplier -> Multiplier -> Multiplier;
}.

Section Configuration.
Context {W : Type} `{!FeeTypes W}.

(** [parameter_types! { pub FeeMultiplier: Multiplier = Multiplier::one(); }]. *)
Definition FeeMultiplier : Multiplier := Multiplier_one.

Record TransactionPaymentConfig := {
  OperationalFeeMultiplier : Z;
  WeightToFee : W -> Z;
  LengthToFee : W -> Z;
  FeeMultiplierUpdate : Multiplier -> Multiplier;
}.

Definition transaction_payment_config : TransactionPaymentConfig := {|
  OperationalFeeMultiplier := 5;
  WeightToFee := IdentityFee;
  LengthToFee := IdentityFee;
  FeeMultiplierUpdate := ConstFeeMultiplier FeeMultiplier;
|}.
End Configuration.

(** [pallet_transaction_payment]: the fee of an extrinsic of some class, length
    and weight under the stored multiplier, and that multiplier's update at the
    end of a block. *)
Class PaymentPallet (W : Type) `{!FeeTypes W, !BlockLimits W} := {
  weight_min : W -> W -> W;
  saturating_mul_int : Multiplier -> Z -> Z;
  compute_fee : TransactionPaymentConfig -> limits_BlockWeights -> Multiplier ->
    DispatchClass -> Z -> W -> Z -> Z;
  on_finalize : TransactionPaymentConfig -> Multiplier -> Multiplier;
}.

(** The documented formula: the base fee of the class, the length fee, the
    adjusted fee of the weight, capped at the block's maximum, and the tip; all
    sums saturate at the balance type. *)
Class PaymentPalletLaws (W : Type) `{!WeightOps W, !FeeTypes W, !BlockLimits W}
  `{!PaymentPallet W} : Prop := {
  compute_fee_spec cfg limits m class len w tip :
    compute_fee cfg limits m class len w tip =
    saturating_add 128
      (saturating_add 128
         (saturating_add 128 (WeightToFee cfg (base_extrinsic limits class))
            (LengthToFee cfg (from_parts len 0)))
         (saturating_mul_int m (WeightToFee cfg (weight_min w (max_block limits))))) tip;
  on_finalize_spec cfg m : on_finalize cfg m = FeeMultiplierUpdate cfg m;
  identity_fee w : IdentityFee w = ref_time w;
  const_fee_multiplier m m' : ConstFeeMultiplier m m' = m;
  mul_int_one x : fits 128 x -> saturating_mul_int Multiplier_one x = x;
  ref_time_min w w' : ref_time (weight_min w w') = Z.min (ref_time w) (ref_time w');
}.

Section Fees.
Context {FS : FrameSystem} {W : Type}.
Context `{!WeightOps W, !WeightLaws W, !BlockLimits W, !BlockLimitsLaws W}.
Context `{!FeeTypes W, !PaymentPallet W, !PaymentPalletLaws W}.

(** The multiplier after [n] blocks. *)
Definition multiplier_after (n : nat) (m : Multiplier) : Multiplier :=
  Nat.iter n (on_finalize transaction_payment_config) m.

(** No history of blocks, full or empty, moves the multiplier from one. *)
Lemma multiplier_after_one n m : m = FeeMultiplier \/ (0 < n)%nat -> multiplier_after n m = FeeMultiplier.
Proof using All.
  intros H. destruct n as [| n]; simpl.
  - destruct H; [done | lia].
  - rewrite on_finalize_spec. apply const_fee_multiplier.
Qed.

(** The base fee of a class of extrinsics. *)
Definition base_fee (class : DispatchClass) : Z := ref_time (base_extrinsic BlockWeights class).

Lemma max_block_time : ref_time (max_block BlockWeights) = 2_000_000_000_000.
Proof using All.
  unfold BlockWeights. rewrite max_block_with_sensible_defaults, ref_time_per_second.
  rewrite cast_id by width_lia. by rewrite ref_time_from_parts by width_lia.
Qed.

(** The runtime's fee, whatever the weight: one unit for each byte and for each
    picosecond of the block's two seconds; only the tip can saturate it. *)
Lemma runtime_fee class len w tip :
  fits 32 len ->
  let inclusion := base_fee class + len + Z.min (ref_time w) 2_000_000_000_000 in
  fits 66 inclusion /\
  compute_fee transaction_payment_config BlockWeights FeeMultiplier class len w tip =
    saturating_add 128 inclusion tip.
Proof using All.
  intros Hlen inclusion. pose proof (ref_time_fits w) as Hw.
  pose proof (ref_time_fits (base_extrinsic BlockWeights class)) as Hb.
  rewrite compute_fee_spec; simpl. rewrite !identity_fee, ref_time_min, max_block_time.
  rewrite ref_time_from_parts by width_lia. unfold FeeMultiplier.
  rewrite mul_int_one by width_lia. subst inclusion. unfold base_fee in *.
  split; [width_lia |]. f_equal. unfold saturating_add. width_lia.
Qed.

Variables (Ev : Type) (from_event : Event -> Ev) (from_error : Error -> DispatchError).
Variables (RocksDbWeight : RuntimeDbWeight W) (read write : Z).
Hypothesis rocksdb : DbWeightLaws RocksDbWeight read write.

Local Abbreviation charged c :=
  (call_weight (Cfg := template_config Ev from_event from_error RocksDbWeight) c).

Lemma call_time_charged c :
  9_000_000 + read + write <= 2_000_000_000_000 ->
  ref_time (charged c) = call_time read write c /\ call_time read write c <= 2_000_000_000_000.
Proof using All.
  intros Hdb. destruct (call_charge Ev from_event from_error _ _ _ rocksdb c) as (-> & _ & _).
  destruct rocksdb as [[? _] [? _] _ _ _ _]. destruct c; simpl; width_lia.
Qed.

(** C30: What a call of the template pallet costs: in a runtime whose multiplier
    is one or that has finished a block, whatever the blocks held, the fee is
    the base fee, one unit for each byte, the picoseconds of the call's weight
    (9 or 6 microseconds and its storage accesses) and the tip: congestion never
    changes it, and no sum before the tip's saturates. *)
Theorem template_call_fee n m class (c : Call) len tip :
  m = FeeMultiplier \/ (0 < n)%nat -> fits 32 len ->
  9_000_000 + read + write <= 2_000_000_000_000 ->
  let inclusion := base_fee class + len + call_time read write c in
  fits 66 inclusion /\
  compute_fee transaction_payment_config BlockWeights (multiplier_after n m) class len
    (charged c) tip = saturating_add 128 inclusion tip.
Proof using All.
  intros Hm Hlen [Ht Hmax]%(call_time_charged c). rewrite (multiplier_after_one n m Hm).
  pose proof (runtime_fee class len (charged c) tip Hlen) as H.
  by rewrite Ht, Z.min_l in H.
Qed.
End Fees.

(** ** A runtime with the constants of FRAME *)
Module Concrete.
Import Weights.Concrete Runtime.Concrete.

(** Multipliers in units of a billionth of a billionth, as [FixedU128]. *)
#[export] Instance fixed_fees : FeeTypes (Z * Z) := {|
  Multiplier := Z;
  Multiplier_one := 10 ^ 18;
  IdentityFee := ref_time;
  ConstFeeMultiplier m _ := m;
|}.

#[export] Instance formula_payment : PaymentPallet (Z * Z) := {|
  weight_min w w' := (Z.min (ref_time w) (ref_time w'), Z.min (proof_size w) (proof_size w'));
  saturating_mul_int m x := Z.min (m * x / 10 ^ 18) u128_max;
  compute_fee cfg limits m class len w tip :=
    saturating_add 128
      (saturating_add 128
         (saturating_add 128 (WeightToFee cfg (125_000_000, 0))
            (LengthToFee cfg (from_parts len 0)))
         (Z.min (m * WeightToFee cfg (Z.min (ref_time w) (ref_time (max_block limits)),
                                      Z.min (proof_size w) (proof_size (max_block limits)))
                 / 10 ^ 18) u128_max)) tip;
  on_finalize cfg m := FeeMultiplierUpdate cfg m;
|}.

#[export] Instance formula_payment_laws : PaymentPalletLaws (Z * Z).
Proof.
  split; try reflexivity.
  - intros x Hx. cbn. rewrite Z.mul_comm, Z.div_mul by lia. width_lia.
  - intros w w'. pose proof (ref_time_fits w). pose proof (ref_time_fits w').
    apply cast_id. width_lia.
Defined.

Definition normal : @DispatchClass (Z * Z) seconds_limits := Normal.
Definition tripled : @Multiplier (Z * Z) fixed_fees := 3 * 10 ^ 18.

(** An increment of 120 bytes and no tip, after a block that ended with the
    multiplier at three. *)
Lemma increment_costs :
  compute_fee transaction_payment_config BlockWeights (multiplier_after 1 tripled) normal 120
    (call_weight (Cfg := template_config Event id into_unit_error db) call_cause_error) 0 =
  256_000_120.
Proof.
  destruct (template_call_fee Event id into_unit_error db 25_000_000 100_000_000 db_laws
              1 tripled normal call_cause_error 120 0) as [_ H];
    [right; exact (le_n 1) | vm_compute; split; discriminate | vm_compute; discriminate |].
  rewrite H. vm_compute. reflexivity.
Defined.
End Concrete.
