(* ===== verification/ChainSpec.v ===== *)
(** * Chain specifications and genesis ([node/src/chain_spec.rs])

    Key derivation from seeds, the genesis JSON and the two built-in chain
    specifications; what the runtime's pallets require of a genesis, and that
    both specifications meet it. *)

From S2P Require Import Prelude Runtime.

Set Default Proof Using "Type".

(** ** JSON values, as the [json!] literal builds them *)
#[warnings="-register-all"]
Inductive Value : Type :=
| Null
| Bool (b : bool)
| Number (n : Z)
| Str (s : string)
| Array (l : list Value)
| Object (l : list (string * Value)).

(** [Serialize]/[Deserialize] of a type of another crate. *)
Class Serde (A : Type) := {
  to_value : A -> Value;
  from_value : Value -> option A;
}.
Class SerdeLaws (A : Type) `{!Serde A} : Prop := {
  from_to_value a : from_value (to_value a) = Some a;
}.

(** ** Keys

    [sp_core::Public] with its [Pair]: a pair from a secret URI and an optional
    password, and the public half of a pair. *)
Class Public (P : Type) := {
  Pair : Type;
  SecretStringError : Type;
  from_string : string -> option string -> outcome SecretStringError Pair;
  public : Pair -> P;
}.

(** The key and account types of the runtime. *)
Class Keys := {
  AuraId : Type;
  GrandpaId : Type;
  Sr25519Public : Type;
  AccountId : Type;
  AccountPublic : Type;
  aura_public :: Public AuraId;
  grandpa_public :: Public GrandpaId;
  sr25519_public :: Public Sr25519Public;
  account_public_from_sr25519 : Sr25519Public -> AccountPublic;
  into_account : AccountPublic -> AccountId;
  aura_serde :: Serde AuraId;
  grandpa_serde :: Serde GrandpaId;
  account_serde :: Serde AccountId;
}.

Class KeysLaws `{Keys} : Prop := {
  aura_serde_laws :: SerdeLaws AuraId;
  grandpa_serde_laws :: SerdeLaws GrandpaId;
  account_serde_laws :: SerdeLaws AccountId;
}.

(** [AccountPublic: From<<TPublic::Pair as Pair>::Public>]. *)
Class IntoAccountPublic `{Keys} (P : Type) := account_public_from : P -> AccountPublic.
#[export] Instance sr25519_into_account_public `{Keys} : IntoAccountPublic Sr25519Public :=
  account_public_from_sr25519.

(** ** The builder of [sc_service::GenericChainSpec] *)
Class ChainSpecBuilder := {
  Code : Type;
  Extension : Type;
  ChainType : Type;
  ChainType_Development : ChainType;
  ChainType_Local : ChainType;
  Builder : Type;
  ChainSpec : Type;
  builder : Code -> option Extension -> Builder;
  with_name : string -> Builder -> Builder;
  with_id : string -> Builder -> Builder;
  with_chain_type : ChainType -> Builder -> Builder;
  with_genesis_config_patch : Value -> Builder -> Builder;
  build : Builder -> ChainSpec;
  spec_code : ChainSpec -> Code;
  chain_name : ChainSpec -> string;
  chain_id : ChainSpec -> string;
  chain_type : ChainSpec -> ChainType;
  genesis_patch : ChainSpec -> Value;
}.

(** A specification built from the five parts has them. *)
Class ChainSpecBuilderLaws `{ChainSpecBuilder} : Prop := {
  build_parts code ext name id ty g :
    let s := build (with_genesis_config_patch g (with_chain_type ty (with_id id
               (with_name name (builder code ext))))) in
    spec_code s = code /\ chain_name s = name /\ chain_id s = id /\
    chain_type s = ty /\ genesis_patch s = g;
}.

Section ChainSpec.
Context {K : Keys} {B : ChainSpecBuilder}.

Definition get_from_seed (TPublic : Type) `{!Public TPublic} (seed : string)
  : outcome string TPublic :=
  let? key_pair := expect_ok (from_string ("//" +:+ seed) None) "static values are valid; qed" in
  Ok (public key_pair).

Definition get_account_id_from_seed (TPublic : Type)
  `{!Public TPublic, !IntoAccountPublic TPublic} (seed : string) : outcome string AccountId :=
  let? key := get_from_seed TPublic seed in
  Ok (into_account (account_public_from key)).

Definition authority_keys_from_seed (s : string) : outcome string (AuraId * GrandpaId) :=
  let? aura := get_from_seed AuraId s in
  let? grandpa := get_from_seed GrandpaId s in
  Ok (aura, grandpa).

(** [serde_json::json!({..})]; [Some(root_key)] serializes as the key. *)
Definition testnet_genesis (initial_authorities : list (AuraId * GrandpaId))
  (root_key : AccountId) (endowed_accounts : list AccountId) (_enable_println : bool)
  : Value :=
  Object [
    ("balances"%string, Object [
      ("balances"%string,
       Array (map (fun k => Array [to_value k; Number (shl 64 1 60)]) endowed_accounts))]);
    ("aura"%string, Object [
      ("authorities"%string, Array (map (fun x => to_value x.1) initial_authorities))]);
    ("grandpa"%string, Object [
      ("authorities"%string,
       Array (map (fun x => Array [to_value x.2; Number 1]) initial_authorities))]);
    ("sudo"%string, Object [("key"%string, to_value root_key)])].

(** [vec![f(a), f(b), ..]]: the elements are computed in order. *)
Fixpoint vec {A T} (f : A -> outcome string T) (l : list A) : outcome string (list T) :=
  match l with
  | [] => Ok []
  | a :: l => let? x := f a in let? xs := vec f l in Ok (x :: xs)
  end.

Variable WASM_BINARY : option Code.

Definition development_config : outcome string ChainSpec :=
  let? wasm := ok_or WASM_BINARY "Development wasm not available"%string in
  let? authorities := vec authority_keys_from_seed ["Alice"%string] in
  let? root := get_account_id_from_seed Sr25519Public "Alice" in
  let? endowed := vec (get_account_id_from_seed Sr25519Public)
    ["Alice"; "Bob"; "Alice//stash"; "Bob//stash"]%string in
  Ok (build
       (with_genesis_config_patch (testnet_genesis authorities root endowed true)
         (with_chain_type ChainType_Development
           (with_id "dev"
             (with_name "Development" (builder wasm None)))))).

Definition local_testnet_config : outcome string ChainSpec :=
  let? wasm := ok_or WASM_BINARY "Development wasm not available"%string in
  let? authorities := vec authority_keys_from_seed ["Alice"; "Bob"]%string in
  let? root := get_account_id_from_seed Sr25519Public "Alice" in
  let? endowed := vec (get_account_id_from_seed Sr25519Public)
    ["Alice"; "Bob"; "Charlie"; "Dave"; "Eve"; "Ferdie"; "Alice//stash"; "Bob//stash";
     "Charlie//stash"; "Dave//stash"; "Eve//stash"; "Ferdie//stash"]%string in
  Ok (build
       (with_genesis_config_patch (testnet_genesis authorities root endowed true)
         (with_chain_type ChainType_Local
           (with_id "local_testnet"
             (with_name "Local Testnet" (builder wasm None)))))).
End ChainSpec.

(** ** The genesis the JSON patch describes

    What the runtime's deserializer reads in the patch, field by field. *)
Fixpoint assoc (k : string) (l : list (string * Value)) : option Value :=
  match l with
  | [] => None
  | (k', v) :: l => if decide (k = k') then Some v else assoc k l
  end.

Definition field (k : string) (v : Value) : option Value :=
  match v with Object l => assoc k l | _ => None end.

Definition as_array (v : Value) : option (list Value) :=
  match v with Array l => Some l | _ => None end.

Definition as_number (v : Value) : option Z :=
  match v with Number n => Some n | _ => None end.

Definition as_weighted {A} `{!Serde A} (v : Value) : option (A * Z) :=
  match v with
  | Array [a; n] => a ← from_value a; n ← as_number n; Some (a, n)
  | _ => None
  end.

Section Genesis.
Context {K : Keys}.

Record Genesis := {
  g_balances : list (AccountId * Z);
  g_aura : list AuraId;
  g_grandpa : list (GrandpaId * Z);
  g_sudo : AccountId;
}.

(** The value at a key of a pallet's section, and its elements. *)
Definition entry (pallet key : string) (v : Value) : option Value :=
  field pallet v ≫= field key.

Definition entries {A} (read : Value -> option A) (pallet key : string) (v : Value)
  : option (list A) :=
  entry pallet key v ≫= fun x => as_array x ≫= fun l => mapM read l.

Definition read_genesis (v : Value) : option Genesis :=
  balances ← entries as_weighted "balances" "balances" v;
  aura ← entries from_value "aura" "authorities" v;
  grandpa ← entries as_weighted "grandpa" "authorities" v;
  sudo ← entry "sudo" "key" v ≫= from_value;
  Some {| g_balances := balances; g_aura := aura; g_grandpa := grandpa; g_sudo := sudo |}.

(** What the runtime's pallets require of their genesis: no account endowed
    twice, no balance below the existential deposit, an issuance that is a
    [u128]; between one and [MaxAuthorities] authorities, none listed twice,
    with positive weights; as many block authors as finality voters; and an
    endowed sudo account. *)
Record genesis_ok (g : Genesis) : Prop := {
  ok_accounts : NoDup (g_balances g).*1;
  ok_deposits : Forall (fun b => ExistentialDeposit balances_config <= b) (g_balances g).*2;
  ok_issuance : fits 128 (foldr Z.add 0 (g_balances g).*2);
  ok_aura : NoDup (g_aura g) /\
            0 < Z.of_nat (length (g_aura g)) <= aura_MaxAuthorities aura_config;
  ok_grandpa : NoDup (g_grandpa g).*1 /\ Forall (fun w => 0 < w) (g_grandpa g).*2 /\
            0 < Z.of_nat (length (g_grandpa g)) <= grandpa_MaxAuthorities grandpa_config;
  ok_voters : length (g_aura g) = length (g_grandpa g);
  ok_sudo : g_sudo g ∈ (g_balances g).*1;
}.
End Genesis.

(** ** Lemmas *)
Lemma mapM_map {A B C} (f : B -> option C) (g : A -> B) (h : A -> C) l :
  (forall a, f (g a) = Some (h a)) -> mapM f (map g l) = Some (map h l).
Proof. intros Hf. induction l as [| a l IH]; simpl; [done |]. rewrite Hf; simpl. by rewrite IH. Qed.

Section Vec.
Context {A T : Type} (f : A -> outcome string T).

Lemma vec_Ok_inv l xs : vec f l = Ok xs -> Forall2 (fun a x => f a = Ok x) l xs.
Proof.
  revert xs. induction l as [| a l IH]; simpl; intros xs.
  - intros [= <-]. constructor.
  - intros (x & Hx & (xs' & Hxs & [= <-])%obind_Ok_inv)%obind_Ok_inv. constructor; auto.
Qed.

Lemma vec_is_ok l : is_ok (vec f l) = true <-> Forall (fun a => is_ok (f a) = true) l.
Proof.
  induction l as [| a l IH]; simpl; [by split; constructor |].
  rewrite Forall_cons, <-IH. destruct (f a); simpl; [| naive_solver ..].
  destruct (vec f l); naive_solver.
Qed.

Lemma vec_no_Err l e : (forall a, f a <> Err e) -> vec f l <> Err e.
Proof.
  intros Hf. induction l as [| a l IH]; simpl; [done |]. specialize (Hf a).
  destruct (f a); simpl; [| naive_solver ..]. destruct (vec f l); naive_solver.
Qed.

Lemma vec_NoDup l xs :
  vec f l = Ok xs -> NoDup l ->
  (forall a a' x, a ∈ l -> a' ∈ l -> f a = Ok x -> f a' = Ok x -> a = a') -> NoDup xs.
Proof.
  intros Hv%vec_Ok_inv. induction Hv as [| a x l xs Ha Hl IH]; intros Hnd Hinj;
    [constructor |].
  apply NoDup_cons in Hnd as [Hnin Hnd]. constructor.
  - intros (i & Hi)%list_elem_of_lookup.
    destruct (Forall2_lookup_r _ _ _ _ _ Hl Hi) as (a' & Hi' & Ha').
    apply list_elem_of_lookup_2 in Hi'. apply Hnin.
    rewrite (Hinj a a' x); set_solver.
  - apply IH; [done |]. intros ??????. eapply Hinj; set_solver.
Qed.
End Vec.

Section GenesisFacts.
Context {K : Keys} {KL : KeysLaws}.

(** The balance of every endowed account. *)
Definition endowment : Z := 2 ^ 60.

Definition genesis_of (authorities : list (AuraId * GrandpaId)) (root : AccountId)
  (endowed : list AccountId) : Genesis := {|
  g_balances := map (fun k => (k, endowment)) endowed;
  g_aura := authorities.*1;
  g_grandpa := map (fun x => (x.2, 1)) authorities;
  g_sudo := root;
|}.

Lemma read_testnet_genesis authorities root endowed b :
  read_genesis (testnet_genesis authorities root endowed b) =
  Some (genesis_of authorities root endowed).
Proof using KL.
  unfold read_genesis, entries, entry, testnet_genesis, genesis_of. simpl.
  rewrite (mapM_map as_weighted _ (fun k => (k, endowment))); simpl;
    [| intros a; unfold as_weighted; rewrite from_to_value; reflexivity].
  rewrite (mapM_map from_value _ fst); simpl; [| intros a; apply from_to_value].
  rewrite (mapM_map as_weighted _ (fun x => (x.2, 1))); simpl;
    [| intros a; unfold as_weighted; rewrite from_to_value; reflexivity].
  rewrite from_to_value. reflexivity.
Qed.

Lemma balances_total (l : list AccountId) :
  foldr Z.add 0 (map (fun k => (k, endowment)) l).*2 = Z.of_nat (length l) * endowment.
Proof.
  induction l as [| a l IH]; [done |].
  rewrite length_cons, Nat2Z.inj_succ, Z.mul_succ_l, <-IH. apply Z.add_comm.
Qed.

Lemma genesis_of_ok (authorities : list (AuraId * GrandpaId)) root endowed :
  NoDup authorities.*1 -> NoDup authorities.*2 ->
  0 < Z.of_nat (length authorities) <= 32 ->
  NoDup endowed -> root ∈ endowed -> Z.of_nat (length endowed) < 2 ^ 68 ->
  genesis_ok (genesis_of authorities root endowed).
Proof using Type.
  intros Ha Hg Hn He Hr Hl.
  assert (Hfst : (map (fun k => (k, endowment)) endowed).*1 = endowed).
  { rewrite <-(list_fmap_id endowed) at 2. by rewrite <-list_fmap_compose. }
  assert (Hgr : (map (fun x : AuraId * GrandpaId => (x.2, 1)) authorities).*1 =
                authorities.*2) by (by rewrite <-list_fmap_compose).
  split; simpl; rewrite ?Hfst, ?Hgr, ?length_fmap, ?length_map; auto.
  - apply Forall_fmap, Forall_fmap, Forall_true. intros k. by vm_compute.
  - rewrite balances_total. unfold fits. change (umax 128) with (2 ^ 68 * endowment - 1).
    assert (0 < endowment) by done. nia.
  - split_and!; [done | apply Forall_fmap, Forall_fmap, Forall_true; simpl; lia | lia ..].
Qed.
End GenesisFacts.

(** ** Keys derived from seeds *)
Section Seeds.
Context {K : Keys}.

(** The seeds of the two built-in specifications. *)
Definition well_known_seeds : list string :=
  ["Alice"; "Bob"; "Charlie"; "Dave"; "Eve"; "Ferdie"; "Alice//stash"; "Bob//stash";
   "Charlie//stash"; "Dave//stash"; "Eve//stash"; "Ferdie//stash"].

(** No two of them derive the same key. *)
Definition collision_free : Prop :=
  forall s s', s ∈ well_known_seeds -> s' ∈ well_known_seeds ->
  (forall k, get_account_id_from_seed Sr25519Public s = Ok k ->
             get_account_id_from_seed Sr25519Public s' = Ok k -> s = s') /\
  (forall k, get_from_seed AuraId s = Ok k -> get_from_seed AuraId s' = Ok k -> s = s') /\
  (forall k, get_from_seed GrandpaId s = Ok k ->
             get_from_seed GrandpaId s' = Ok k -> s = s').

Lemma authorities_keys l authorities :
  vec authority_keys_from_seed l = Ok authorities ->
  vec (get_from_seed AuraId) l = Ok authorities.*1 /\
  vec (get_from_seed GrandpaId) l = Ok authorities.*2.
Proof.
  revert authorities. induction l as [| s l IH]; simpl; intros authorities.
  { by intros [= <-]. }
  intros (x & Hx & (xs & Hxs & [= <-])%obind_Ok_inv)%obind_Ok_inv.
  unfold authority_keys_from_seed in Hx.
  apply obind_Ok_inv in Hx as (a & Ha & (g & Hg & [= <-])%obind_Ok_inv).
  destruct (IH _ Hxs) as [Ha' Hg']. simpl. by rewrite Ha, Hg, Ha', Hg'.
Qed.

Lemma get_from_seed_no_Err P `{!Public P} s e : get_from_seed P s <> Err e.
Proof. unfold get_from_seed. by destruct (from_string _ _). Qed.

Lemma account_no_Err s e : get_account_id_from_seed Sr25519Public s <> Err e.
Proof. apply obind_no_Err; [apply get_from_seed_no_Err | done]. Qed.

Lemma authority_no_Err s e : authority_keys_from_seed s <> Err e.
Proof.
  apply obind_no_Err; [apply get_from_seed_no_Err | intros a].
  by apply obind_no_Err; [apply get_from_seed_no_Err |].
Qed.

Lemma config_is_ok {C S}
  (mk : C -> list (AuraId * GrandpaId) -> AccountId -> list AccountId -> S)
  code msg l_auth l_end :
  "Alice"%string ∈ l_end ->
  is_ok (let? wasm := ok_or (Some code) msg in
         let? authorities := vec authority_keys_from_seed l_auth in
         let? root := get_account_id_from_seed Sr25519Public "Alice" in
         let? endowed := vec (get_account_id_from_seed Sr25519Public) l_end in
         Ok (mk wasm authorities root endowed)) = true <->
  Forall (fun s => is_ok (authority_keys_from_seed s) = true) l_auth /\
  Forall (fun s => is_ok (get_account_id_from_seed Sr25519Public s) = true) l_end.
Proof.
  intros Halice. rewrite <-!vec_is_ok. cbn [ok_or obind].
  destruct (vec authority_keys_from_seed l_auth); simpl; [| naive_solver ..].
  destruct (get_account_id_from_seed Sr25519Public "Alice") eqn:Hr; simpl;
    [destruct (vec _ l_end); naive_solver | rewrite vec_is_ok, Forall_forall ..];
    (split; [done | intros [_ Hall]; specialize (Hall _ Halice); by rewrite Hr in Hall]).
Qed.

Lemma derived_genesis_ok l_auth l_end authorities root endowed :
  collision_free ->
  l_auth ⊆ well_known_seeds -> l_end ⊆ well_known_seeds ->
  NoDup l_auth -> NoDup l_end -> 0 < Z.of_nat (length l_auth) <= 32 ->
  Z.of_nat (length l_end) < 2 ^ 68 -> "Alice"%string ∈ l_end ->
  vec authority_keys_from_seed l_auth = Ok authorities ->
  get_account_id_from_seed Sr25519Public "Alice" = Ok root ->
  vec (get_account_id_from_seed Sr25519Public) l_end = Ok endowed ->
  genesis_ok (genesis_of authorities root endowed).
Proof.
  intros Hcf Hsa Hse Hna Hne Hla Hle Hroot Hv Hr He.
  destruct (authorities_keys _ _ Hv) as [Ha Hg].
  pose proof (vec_Ok_inv _ _ _ He) as He2. pose proof (vec_Ok_inv _ _ _ Hv) as Hv2.
  apply Forall2_length in Hv2.
  apply genesis_of_ok; try (by rewrite <-Hv2);
    try (by rewrite <-(Forall2_length _ _ _ He2)).
  - eapply (vec_NoDup _ _ _ Ha Hna). intros s s' k ??. apply (Hcf s s'); set_solver.
  - eapply (vec_NoDup _ _ _ Hg Hna). intros s s' k ??. apply (Hcf s s'); set_solver.
  - eapply (vec_NoDup _ _ _ He Hne). intros s s' k ??. apply (Hcf s s'); set_solver.
  - apply list_elem_of_lookup in Hroot as [i Hi].
    destruct (Forall2_lookup_l _ _ _ _ _ He2 Hi) as (r & Hir & Hr').
    apply list_elem_of_lookup. exists i. congruence.
Qed.
End Seeds.

(** ** Properties *)
Section Properties.
Context {K : Keys} {KL : KeysLaws} {B : ChainSpecBuilder} {BL : ChainSpecBuilderLaws}.
Variable WASM_BINARY : option Code.

Lemma genesis_patch_build code ext name id ty g :
  genesis_patch (build (with_genesis_config_patch g (with_chain_type ty
    (with_id id (with_name name (builder code ext)))))) = g.
Proof using BL. apply build_parts. Qed.

Lemma build_head code ext name id ty g :
  let s := build (with_genesis_config_patch g (with_chain_type ty (with_id id
             (with_name name (builder code ext))))) in
  spec_code s = code /\ chain_name s = name /\ chain_id s = id /\ chain_type s = ty.
Proof using BL. pose proof (build_parts code ext name id ty g). naive_solver. Qed.

(** C26: The genesis JSON says what its arguments say: reading the patch the
    way the runtime's genesis configuration is laid out gives back, for every
    argument, each endowed account with 2^60 units, the Aura keys and the
    GRANDPA keys (with weight 1) of the authorities in order, and the root
    key as the sudo key. *)
Theorem testnet_genesis_roundtrip authorities root endowed b :
  read_genesis (testnet_genesis authorities root endowed b) =
  Some {| g_balances := map (fun k => (k, 2 ^ 60)) endowed;
          g_aura := authorities.*1;
          g_grandpa := map (fun x => (x.2, 1)) authorities;
          g_sudo := root |}.
Proof using KL. exact (read_testnet_genesis authorities root endowed b). Qed.

(** A specification built by one of the two configurations. *)
Lemma builtin_head spec :
  (development_config WASM_BINARY = Ok spec ->
    WASM_BINARY = Some (spec_code spec) /\ chain_name spec = "Development"%string /\
    chain_id spec = "dev"%string /\ chain_type spec = ChainType_Development) /\
  (local_testnet_config WASM_BINARY = Ok spec ->
    WASM_BINARY = Some (spec_code spec) /\ chain_name spec = "Local Testnet"%string /\
    chain_id spec = "local_testnet"%string /\ chain_type spec = ChainType_Local).
Proof using BL.
  unfold development_config, local_testnet_config.
  split; intros (code & Hc%ok_or_Ok & H)%obind_Ok_inv;
    repeat (apply obind_Ok_inv in H as (? & _ & H)); injection H as <-;
    edestruct build_head as (-> & -> & -> & ->); done.
Qed.

Lemma builtin_genesis (spec : ChainSpec) :
  collision_free ->
  development_config WASM_BINARY = Ok spec \/ local_testnet_config WASM_BINARY = Ok spec ->
  exists g, read_genesis (genesis_patch spec) = Some g /\ genesis_ok g.
Proof using All.
  intros Hcf [H | H]; unfold development_config, local_testnet_config in H;
    apply obind_Ok_inv in H as (wasm & _ & H);
    apply obind_Ok_inv in H as (authorities & Ha & H);
    apply obind_Ok_inv in H as (root & Hr & H);
    apply obind_Ok_inv in H as (endowed & He & [= <-]);
    rewrite genesis_patch_build, read_testnet_genesis;
    (eexists; split; [reflexivity |]);
    (eapply (derived_genesis_ok _ _ _ _ _ Hcf); [| | | | | | | eassumption ..]);
    try (by vm_compute); try (by apply (bool_decide_unpack _)); set_solver.
Qed.

(** C10: Both built-in chain specifications carry a genesis the runtime
    accepts, as long as the twelve well-known seeds derive distinct keys: the
    configured pallets' conditions on balances, authorities and the sudo key
    all hold. *)
Theorem builtin_genesis_ok (spec : ChainSpec) :
  collision_free ->
  development_config WASM_BINARY = Ok spec \/ local_testnet_config WASM_BINARY = Ok spec ->
  exists g, read_genesis (genesis_patch spec) = Some g /\ genesis_ok g.
Proof using All. apply builtin_genesis. Qed.

(** C27: When a built-in specification is available: without a Wasm binary
    both configurations fail with the message of the source and derive no
    key; with one, a configuration succeeds exactly when all its seeds derive
    a key, never returns an error otherwise, and carries the binary and the
    name, identifier and chain type of the source. *)
Theorem builtin_configs_available :
  match WASM_BINARY with
  | None =>
    development_config WASM_BINARY = Err "Development wasm not available"%string /\
    local_testnet_config WASM_BINARY = Err "Development wasm not available"%string
  | Some code =>
    (is_ok (development_config WASM_BINARY) = true <->
      is_ok (authority_keys_from_seed "Alice") = true /\
      Forall (fun s => is_ok (get_account_id_from_seed Sr25519Public s) = true)
        ["Alice"; "Bob"; "Alice//stash"; "Bob//stash"]%string) /\
    (forall spec, development_config WASM_BINARY = Ok spec ->
      spec_code spec = code /\ chain_name spec = "Development"%string /\
      chain_id spec = "dev"%string /\ chain_type spec = ChainType_Development) /\
    (is_ok (local_testnet_config WASM_BINARY) = true <->
      is_ok (authority_keys_from_seed "Alice") = true /\
      is_ok (authority_keys_from_seed "Bob") = true /\
      Forall (fun s => is_ok (get_account_id_from_seed Sr25519Public s) = true)
        well_known_seeds) /\
    (forall spec, local_testnet_config WASM_BINARY = Ok spec ->
      spec_code spec = code /\ chain_name spec = "Local Testnet"%string /\
      chain_id spec = "local_testnet"%string /\ chain_type spec = ChainType_Local) /\
    (forall e, development_config WASM_BINARY <> Err e /\
               local_testnet_config WASM_BINARY <> Err e)
  end.
Proof using All.
  pose proof builtin_head as Hhead. destruct WASM_BINARY as [code |]; [| done].
  split_and!.
  - unfold development_config. rewrite config_is_ok by set_solver. by rewrite Forall_singleton.
  - intros spec H. apply Hhead in H as ([= ->] & H). done.
  - unfold local_testnet_config. rewrite config_is_ok by set_solver. rewrite Forall_cons, Forall_singleton.
    symmetry. apply and_assoc.
  - intros spec H. apply Hhead in H as ([= ->] & H). done.
  - intros e. unfold development_config, local_testnet_config. split;
      (apply obind_no_Err; [done | intros ?];
       apply obind_no_Err; [apply vec_no_Err; intros; apply authority_no_Err | intros ?];
       apply obind_no_Err; [apply account_no_Err | intros ?];
       by apply obind_no_Err; [apply vec_no_Err; intros; apply account_no_Err |]).
Qed.
End Properties.

(** ** A concrete key scheme and builder, to instantiate the theorems

    Every key is its secret URI; a specification is the list of its parts. *)
Module Concrete.
#[export] Instance uri_public : Public string := {|
  Pair := string;
  SecretStringError := unit;
  from_string uri _ := Ok uri;
  public kp := kp;
|}.

#[export] Instance uri_serde : Serde string := {|
  to_value := Str;
  from_value v := match v with Str s => Some s | _ => None end;
|}.

#[export] Instance uri_keys : Keys := {|
  AuraId := string;
  GrandpaId := string;
  Sr25519Public := string;
  AccountId := string;
  AccountPublic := string;
  account_public_from_sr25519 k := k;
  into_account k := k;
|}.

#[export] Instance uri_keys_laws : KeysLaws.
Proof. repeat split. Defined.

Record Parts := {
  p_code : unit;
  p_name : string;
  p_id : string;
  p_type : bool;
  p_genesis : Value;
}.

#[export] Instance parts_builder : ChainSpecBuilder := {|
  Code := unit;
  Extension := unit;
  ChainType := bool;
  ChainType_Development := false;
  ChainType_Local := true;
  Builder := Parts;
  ChainSpec := Parts;
  builder code _ := {| p_code := code; p_name := "Development"; p_id := "dev";
                       p_type := true; p_genesis := Null |};
  with_name n b := {| p_code := p_code b; p_name := n; p_id := p_id b;
                      p_type := p_type b; p_genesis := p_genesis b |};
  with_id i b := {| p_code := p_code b; p_name := p_name b; p_id := i;
                    p_type := p_type b; p_genesis := p_genesis b |};
  with_chain_type t b := {| p_code := p_code b; p_name := p_name b; p_id := p_id b;
                            p_type := t; p_genesis := p_genesis b |};
  with_genesis_config_patch g b :=
    {| p_code := p_code b; p_name := p_name b; p_id := p_id b; p_type := p_type b;
       p_genesis := g |};
  build b := b;
  spec_code := p_code;
  chain_name := p_name;
  chain_id := p_id;
  chain_type := p_type;
  genesis_patch := p_genesis;
|}.

#[export] Instance parts_builder_laws : ChainSpecBuilderLaws.
Proof. by split. Defined.

Lemma uri_collision_free : collision_free.
Proof.
  unfold collision_free, get_account_id_from_seed, get_from_seed; simpl.
  intros s s' _ _. split_and!; intros k H1 H2; rewrite <-H1 in H2; by injection H2.
Defined.
End Concrete.

Section Witnesses.
Import Concrete.

(** The local testnet's genesis, read back and checked. *)
Lemma local_genesis_ok :
  exists spec, local_testnet_config (Some tt) = Ok spec /\
  exists g, read_genesis (genesis_patch spec) = Some g /\ genesis_ok g.
Proof.
  assert (H : exists spec, local_testnet_config (Some tt) = Ok spec)
    by (eexists; reflexivity).
  destruct H as [spec H]. exists spec. split; [exact H |].
  exact (builtin_genesis_ok (Some tt) spec uri_collision_free (or_intror H)).
Defined.

Lemma alice_genesis_roundtrip :
  read_genesis (testnet_genesis [("a", "g")]%string "r"%string ["r"; "s"]%string true) =
  Some {| g_balances := [("r"%string : AccountId, 2 ^ 60); ("s"%string : AccountId, 2 ^ 60)];
          g_aura := ["a"%string : AuraId];
          g_grandpa := [("g"%string : GrandpaId, 1)];
          g_sudo := "r"%string |}.
Proof.
  exact (testnet_genesis_roundtrip [("a"%string : AuraId, "g"%string : GrandpaId)]
           ("r"%string : AccountId) ["r"; "s"]%string true).
Defined.

Lemma no_wasm_no_spec :
  development_config None = Err "Development wasm not available"%string /\
  local_testnet_config None = Err "Development wasm not available"%string.
Proof. exact (builtin_configs_available None). Defined.
End Witnesses.
