(* ===== verification/Benchmarking.v ===== *)
(** * Benchmark extrinsics ([node/src/benchmarking.rs])

    The signed extrinsics the [benchmark overhead] and [benchmark extrinsic]
    commands submit: the mortality period, the signed extensions with the data
    they sign, the two builders and the inherent data. *)

From S2P Require Import Prelude Effects Runtime.

Set Default Proof Using "Type".

(** ** What the file takes from the client, the keyring and [sp_runtime] *)
Class ExtrinsicTypes := {
  Hash : Type;
  ClientError : Type;
  AccountId32 : Type;
  Address : Type;
  KeyPair : Type;
  PublicKey : Type;
  RawSignature : Type;
  Signature : Type;
  Bytes : Type;
  Era : Type;
  RuntimeCall : Type;
  OpaqueExtrinsic : Type;
  mortal : Z -> Z -> Era;
  keyring_Bob : KeyPair;
  keyring_Alice_account : AccountId32;
  public_key : KeyPair -> PublicKey;
  account_of_public : PublicKey -> AccountId32;
  address_of_account : AccountId32 -> Address;
  sign : KeyPair -> Bytes -> RawSignature;
  Sr25519 : RawSignature -> Signature;
  system_remark : list Z -> RuntimeCall;
  transfer_keep_alive : Address -> Z -> RuntimeCall;
}.

(** Calls to the node's client. *)
Record ChainInfo `{ExtrinsicTypes} := { best_hash : Hash; best_number : Z }.

Inductive clientE `{ExtrinsicTypes} (C : Type) : Type -> Type :=
| block_hash (c : C) (n : Z) : clientE C (answer ClientError (option Hash))
| chain_info (c : C) : clientE C ChainInfo.
Arguments block_hash {_ C} _ _.
Arguments chain_info {_ C} _.

(** [SignedExtra] of the runtime: the data of each signed extension, in the
    order of the tuple. *)
Record SignedExtra `{ExtrinsicTypes} := {
  CheckNonZeroSender : unit;
  CheckSpecVersion : unit;
  CheckTxVersion : unit;
  CheckGenesis : unit;
  CheckEra : Era;
  CheckNonce : Z;
  CheckWeight : unit;
  ChargeTransactionPayment : Z;
}.

(** What the extensions sign without sending it, in the same order. *)
Definition Additional `{ExtrinsicTypes} : Type :=
  (unit * Z * Z * Hash * Hash * unit * unit * unit)%type.

(** [SignedPayload::from_raw] and [UncheckedExtrinsic::new_signed]. *)
Record SignedPayload `{ExtrinsicTypes} := {
  payload_call : RuntimeCall;
  payload_extra : SignedExtra;
  payload_additional : Additional;
}.

Record UncheckedExtrinsic `{ExtrinsicTypes} := {
  xt_call : RuntimeCall;
  xt_address : Address;
  xt_signature : Signature;
  xt_extra : SignedExtra;
}.

(** ** The extrinsic *)

(** The mortality period: half the next power of two of the number of block
    hashes the runtime keeps. *)
Definition mortality_period (BlockHashCount : Z) : Z :=
  cast 64 (default 2 ((fun c => c / 2) <$> checked_next_power_of_two 32 BlockHashCount)).

Section Extrinsic.
Context {X : ExtrinsicTypes} {C : Type}.
Variable using_encoded : SignedPayload -> Bytes.
Variables (Apis : Type) (RUNTIME_API_VERSIONS : Apis).

Definition create_benchmark_extrinsic (client : C) (sender : KeyPair) (call : RuntimeCall)
  (nonce : Z) : io (clientE C) Empty_set UncheckedExtrinsic :=
  let* genesis := Effects.call (block_hash client 0) in
  let* genesis_hash :=
    of_outcome (expect (mjoin (answer_ok genesis)) "Genesis block exists; qed") in
  let* info := Effects.call (chain_info client) in
  let best_hash := best_hash info in
  let* info := Effects.call (chain_info client) in
  let best_block := best_number info in
  let period := mortality_period BlockHashCount in
  let extra := {|
    CheckNonZeroSender := tt;
    CheckSpecVersion := tt;
    CheckTxVersion := tt;
    CheckGenesis := tt;
    CheckEra := mortal period best_block;
    CheckNonce := nonce;
    CheckWeight := tt;
    ChargeTransactionPayment := 0;
  |} in
  let raw_payload := {|
    payload_call := call;
    payload_extra := extra;
    payload_additional :=
      (tt, spec_version (VERSION RUNTIME_API_VERSIONS),
       transaction_version (VERSION RUNTIME_API_VERSIONS), genesis_hash, best_hash, tt, tt, tt);
  |} in
  let signature := sign sender (using_encoded raw_payload) in
  iret {|
    xt_call := call;
    xt_address := address_of_account (account_of_public (public_key sender));
    xt_signature := Sr25519 signature;
    xt_extra := extra;
  |}.

(** ** The builders

    [frame_benchmarking_cli::ExtrinsicBuilder]: the names of the pallet and of
    the extrinsic, and the extrinsic for a nonce. *)
Variable into_opaque : UncheckedExtrinsic -> OpaqueExtrinsic.

Record ExtrinsicBuilder := {
  pallet : string;
  extrinsic : string;
  build : Z -> io (clientE C) Empty_set OpaqueExtrinsic;
}.

Definition RemarkBuilder (client : C) : ExtrinsicBuilder := {|
  pallet := "system";
  extrinsic := "remark";
  build nonce :=
    let* xt := create_benchmark_extrinsic client keyring_Bob (system_remark []) nonce in
    iret (into_opaque xt);
|}.

Definition TransferKeepAliveBuilder (client : C) (dest : AccountId32) (value : Z)
  : ExtrinsicBuilder := {|
  pallet := "balances";
  extrinsic := "transfer_keep_alive";
  build nonce :=
    let* xt := create_benchmark_extrinsic client keyring_Bob
                 (transfer_keep_alive (address_of_account dest) value) nonce in
    iret (into_opaque xt);
|}.
End Extrinsic.

(** ** Inherent data *)
Section Inherents.
Variables (InherentData ProvideError : Type).
Variable InherentData_new : InherentData.
(** [sp_timestamp::InherentDataProvider::new(t).provide_inherent_data]. *)
Variable provide_timestamp : Z -> InherentData -> outcome ProvideError InherentData.
(** [{:?}] of the provider's error. *)
Variable debug : ProvideError -> string.

Definition inherent_benchmark_data : outcome string InherentData :=
  let d := 0 in
  map_err (fun e => "creating inherent data: " +:+ debug e)
    (provide_timestamp d InherentData_new).
End Inherents.

(** ** How the runtime checks a signed extrinsic

    The extensions' additional signed data at block [m], and signature
    verification, as the laws of [frame_system] and [sp_core]. *)
Class RuntimeChecks `{ExtrinsicTypes} := {
  hash_at : Z -> Hash;
  birth : Era -> Z -> Z;
  kept_hash : Z -> Z -> option Hash;
  verify : Signature -> Bytes -> Address -> bool;
}.

(** A mortal era of a power of two of blocks, not above 4096, has the phase of
    the block it was made for; it is born at the last block of that phase, or at
    the phase itself before it. The runtime knows the hashes of earlier blocks
    only, and at least of the last [BlockHashCount]; blocks have different
    hashes; a signature verifies for its signer, and for no other bytes. *)
Class RuntimeChecksLaws `{RuntimeChecks} : Prop := {
  birth_mortal k n m :
    2 <= k <= 12 -> 0 <= n -> 0 <= m ->
    let phase := n mod 2 ^ k in
    birth (mortal (2 ^ k) n) m = (Z.max m phase - phase) / 2 ^ k * 2 ^ k + phase;
  kept_hash_recent n m : 0 <= n -> n < m <= n + BlockHashCount -> kept_hash m n = Some (hash_at n);
  kept_hash_inv n m h : kept_hash m n = Some h -> h = hash_at n /\ n < m;
  hash_at_inj n m : 0 <= n -> 0 <= m -> hash_at n = hash_at m -> n = m;
  verify_sign kp b :
    verify (Sr25519 (sign kp b)) b (address_of_account (account_of_public (public_key kp))) = true;
  verify_sign_inv kp b b' addr : verify (Sr25519 (sign kp b)) b' addr = true -> b' = b;
}.

Section Check.
Context {X : ExtrinsicTypes} {R : RuntimeChecks}.
Variable using_encoded : SignedPayload -> Bytes.
Variables (Apis : Type) (RUNTIME_API_VERSIONS : Apis).

(** The data the runtime of [VERSION] adds at block [m]; [None] when the hash
    of the era's first block is no longer kept. *)
Definition additional_signed (m : Z) (extra : SignedExtra) : option Additional :=
  h ← kept_hash m (birth (CheckEra extra) m);
  Some (tt, spec_version (VERSION RUNTIME_API_VERSIONS),
        transaction_version (VERSION RUNTIME_API_VERSIONS), hash_at 0, h, tt, tt, tt).

Definition check_signature (m : Z) (xt : UncheckedExtrinsic) : bool :=
  match additional_signed m (xt_extra xt) with
  | Some additional =>
    verify (xt_signature xt)
      (using_encoded {| payload_call := xt_call xt;
                        payload_extra := xt_extra xt;
                        payload_additional := additional |})
      (xt_address xt)
  | None => false
  end.
End Check.

(** ** Properties *)

(** C32: The mortality period for every number [n] of kept block hashes: for
    [n] of 2 up to 2^31 it is a power of two below [n] and at least half of it
    (so an extrinsic dies before its checkpoint hash is pruned); above 2^31,
    where the next power of two overflows [u32], it is 2; for 0 and 1 it is 0. *)
Theorem mortality_period_spec (n : Z) :
  fits 32 n ->
  (2 <= n <= 2 ^ 31 ->
    (exists k, 0 <= k <= 30 /\ mortality_period n = 2 ^ k) /\
    mortality_period n < n <= 2 * mortality_period n) /\
  (2 ^ 31 < n -> mortality_period n = 2) /\
  (n <= 1 -> mortality_period n = 0).
Proof.
  intros Hn. unfold mortality_period. split_and!.
  - intros H. rewrite checked_next_power_of_two_Some by (change (32 - 1) with 31; lia). simpl.
    pose proof (next_power_of_two_bounds n ltac:(lia)) as (Hu & Hd & Hl).
    rewrite Hd, Z.mul_comm, Z.div_mul by lia.
    assert (1 <= Z.log2_up n <= 31).
    { pose proof (Z.log2_up_pos n ltac:(lia)).
      rewrite <-(Z.log2_up_pow2 31) by lia. split; [lia |].
      apply Z.log2_up_le_mono. lia. }
    rewrite cast_id; [| width_lia].
    split; [exists (Z.log2_up n - 1); lia | lia].
  - intros H. by rewrite checked_next_power_of_two_None by (change (32 - 1) with 31; lia).
  - intros H. assert (n = 0 \/ n = 1) as [-> | ->] by width_lia; reflexivity.
Qed.

Lemma runtime_mortality_period : mortality_period BlockHashCount = 2 ^ 11.
Proof. reflexivity. Qed.

(** ** The era of a benchmark extrinsic *)
Section Era.
Context {X : ExtrinsicTypes} {R : RuntimeChecks} {RL : RuntimeChecksLaws}.

(** At a block [m] after [n], an era made at block [b] is born at [n] exactly
    when [b] has the phase of [n] and [m] is within a period of [n]. *)
Lemma birth_at k b n m :
  2 <= k <= 12 -> 0 <= b -> 0 <= n < m ->
  birth (mortal (2 ^ k) b) m = n <-> b mod 2 ^ k = n mod 2 ^ k /\ m < n + 2 ^ k.
Proof using RL.
  intros Hk Hb Hn. rewrite birth_mortal by lia. cbv zeta.
  pose proof (Z.pow_pos_nonneg 2 k ltac:(lia) ltac:(lia)) as Hp. set (p := 2 ^ k) in *.
  pose proof (Z.mod_pos_bound b p Hp) as Hph. set (ph := b mod p) in *.
  pose proof (Z.div_mod n p ltac:(lia)) as Hdm. pose proof (Z.mod_pos_bound n p Hp).
  split.
  - intros <-. set (q := (Z.max m ph - ph) / p) in *.
    assert (Hmod : (q * p + ph) mod p = ph).
    { rewrite Z.add_comm, Z.mod_add by lia. by apply Z.mod_small. }
    split; [done |].
    pose proof (Z.div_mod (Z.max m ph - ph) p ltac:(lia)) as Hq. fold q in Hq.
    pose proof (Z.mod_pos_bound (Z.max m ph - ph) p Hp). nia.
  - intros [Heq Hm]. rewrite Heq in *.
    assert (n mod p <= n) by (apply Z.mod_le; lia). rewrite Z.max_l by lia.
    replace ((m - n mod p) / p) with (n / p); [lia |].
    apply Z.div_unique_pos with (r := m - n); lia.
Qed.

Lemma birth_nonneg k b m : 2 <= k <= 12 -> 0 <= b -> 0 <= m -> 0 <= birth (mortal (2 ^ k) b) m.
Proof using RL.
  intros Hk Hb Hm. rewrite birth_mortal by lia. cbv zeta.
  pose proof (Z.pow_pos_nonneg 2 k ltac:(lia) ltac:(lia)).
  pose proof (Z.mod_pos_bound b (2 ^ k) ltac:(lia)).
  pose proof (Z.div_pos (Z.max m (b mod 2 ^ k) - b mod 2 ^ k) (2 ^ k) ltac:(lia) ltac:(lia)). nia.
Qed.
End Era.

Section Properties.
Context {X : ExtrinsicTypes} {C : Type} {R : RuntimeChecks} {RL : RuntimeChecksLaws}.
Variable using_encoded : SignedPayload -> Bytes.
Variables (Apis : Type) (RUNTIME_API_VERSIONS : Apis).

(** A client of the chain with hashes [hash_at], whose best block is [a] when it
    is first asked for it and [b] from then on. *)
Definition client_moving (a b : Z) : handler (clientE C) bool := fun _ e asked =>
  match e with
  | block_hash _ i => (AOk (Some (hash_at i)), asked)
  | chain_info _ =>
    let n := if asked then b else a in ({| best_hash := hash_at n; best_number := n |}, true)
  end.

(** Equal bytes are of payloads with equal additional data: the encoding is
    injective and its hash free of collisions. *)
Hypothesis using_encoded_inj : forall p p',
  using_encoded p = using_encoded p' -> payload_additional p = payload_additional p'.

(** C13: When the runtime accepts the signature of a benchmark extrinsic made
    while the client's best block moved from [a] to [b]: exactly in the blocks
    after [a] and within the mortality period of 2048 of it, and only if [b] is
    [a] up to whole periods. So with an unchanged best block it is accepted
    throughout its window, as all eight extensions sign what the runtime
    recomputes and the checkpoint's hash is still kept; it can never be replayed
    after the window; and one made while the best block moved is never accepted
    (short of a whole period). *)
Theorem benchmark_extrinsic_checks (client : C) (sender : KeyPair)
  (call : RuntimeCall) (nonce a b m : Z) :
  0 <= a -> 0 <= b -> 0 <= m ->
  exists xt,
    (exec (client_moving a b)
       (create_benchmark_extrinsic using_encoded Apis RUNTIME_API_VERSIONS client sender call
          nonce)
       false).1 = Ok xt /\
    xt_call xt = call /\ CheckNonce (xt_extra xt) = nonce /\
    (check_signature using_encoded Apis RUNTIME_API_VERSIONS m xt = true <->
     b mod mortality_period BlockHashCount = a mod mortality_period BlockHashCount /\
     a < m < a + mortality_period BlockHashCount).
Proof using RL using_encoded_inj.
  rewrite runtime_mortality_period. intros Ha Hb Hm. eexists. split; [reflexivity |].
  split; [done |]. split; [done |].
  unfold check_signature, additional_signed. simpl xt_extra. simpl CheckEra.
  rewrite runtime_mortality_period. split.
  - destruct (kept_hash m _) as [h |] eqn:Hkept; simpl; [| done].
    intros Hv%verify_sign_inv%using_encoded_inj. simpl in Hv. injection Hv as ->.
    apply kept_hash_inv in Hkept as [Hh Hlt].
    apply hash_at_inj in Hh; [| done | apply birth_nonneg; lia].
    rewrite <-Hh in Hlt. symmetry in Hh. apply birth_at in Hh; lia.
  - intros [Hphase Hwin].
    assert (Hbirth : birth (mortal (2 ^ 11) b) m = a) by (apply birth_at; lia).
    rewrite Hbirth, kept_hash_recent by (unfold BlockHashCount; lia). apply verify_sign.
Qed.
End Properties.

(** ** The theorems on a concrete chain

    Hashes are block numbers; a pair is its number; a signature is the signed
    bytes with the signer; the bytes of a payload are the payload. *)
Section Witnesses.
Definition byte_fields : Type := (Z * list Z * Z * Z * Z * Z * Z)%type.

#[local] Instance toy_types : ExtrinsicTypes := {|
  Hash := Z;
  ClientError := unit;
  AccountId32 := Z;
  Address := Z;
  KeyPair := Z;
  PublicKey := Z;
  RawSignature := Z * byte_fields;
  Signature := Z * byte_fields;
  Bytes := byte_fields;
  Era := Z * Z;
  RuntimeCall := Z * list Z;
  OpaqueExtrinsic := unit;
  mortal period n := (period, n);
  keyring_Bob := 2;
  keyring_Alice_account := 1;
  public_key k := k;
  account_of_public k := k;
  address_of_account k := k;
  sign k b := (k, b);
  Sr25519 s := s;
  system_remark l := (0, l);
  transfer_keep_alive d v := (1, [d; v]);
|}.

Definition toy_encode (p : SignedPayload) : byte_fields :=
  let '(_, sv, tv, g, h, _, _, _) := payload_additional p in
  (fst (payload_call p : Z * list Z), snd (payload_call p : Z * list Z),
   CheckNonce (payload_extra p), sv, tv, g, h).

#[local] Instance toy_checks : RuntimeChecks := {|
  hash_at n := n;
  birth e m := let '(p, n) := e in (Z.max m (n mod p) - n mod p) / p * p + n mod p;
  kept_hash m n := if decide (n < m <= n + BlockHashCount) then Some n else None;
  verify s b a := bool_decide (s = (a, b));
|}.

#[local] Instance toy_checks_laws : RuntimeChecksLaws.
Proof.
  split; simpl; try done.
  - intros n m _ H. by case_decide.
  - intros n m h. case_decide; naive_solver lia.
  - intros kp b. by rewrite bool_decide_true.
  - intros kp b b' addr H%bool_decide_eq_true. by injection H.
Defined.

Lemma toy_encode_inj (p p' : SignedPayload) :
  toy_encode p = toy_encode p' -> payload_additional p = payload_additional p'.
Proof.
  unfold toy_encode. destruct (payload_additional p) as [[[[[[[[] ?] ?] ?] ?] []] []] []].
  destruct (payload_additional p') as [[[[[[[[] ?] ?] ?] ?] []] []] []]. by intros [= _ _ _ -> -> -> ->].
Qed.

(** Made at block 4000, an extrinsic is accepted at 5000 and no more at 6048;
    made while 4001 came, it is not accepted at 5000. *)
Lemma remark_checks_at_5000 :
  (exists xt,
    (exec (client_moving 4000 4000)
       (create_benchmark_extrinsic toy_encode unit tt tt keyring_Bob (system_remark []) 7)
       false).1 = Ok xt /\ check_signature toy_encode unit tt 5000 xt = true) /\
  (exists xt,
    (exec (client_moving 4000 4001)
       (create_benchmark_extrinsic toy_encode unit tt tt keyring_Bob (system_remark []) 7)
       false).1 = Ok xt /\ check_signature toy_encode unit tt 5000 xt <> true).
Proof.
  split.
  - destruct (benchmark_extrinsic_checks toy_encode unit tt toy_encode_inj tt keyring_Bob
                (system_remark []) 7 4000 4000 5000) as (xt & H & _ & _ & Hc); [lia .. |].
    exists xt. split; [exact H |]. apply Hc. rewrite runtime_mortality_period. lia.
  - destruct (benchmark_extrinsic_checks toy_encode unit tt toy_encode_inj tt keyring_Bob
                (system_remark []) 7 4000 4001 5000) as (xt & H & _ & _ & Hc); [lia .. |].
    exists xt. split; [exact H |]. intros [Hm _]%Hc. vm_compute in Hm. discriminate.
Defined.

Lemma period_of_2400 :
  fits 32 2400 /\ (exists k, 0 <= k <= 30 /\ mortality_period 2400 = 2 ^ k) /\
  mortality_period 2400 < 2400 <= 2 * mortality_period 2400.
Proof.
  assert (H : fits 32 2400) by width_lia.
  split; [exact H |]. apply (mortality_period_spec 2400 H). lia.
Defined.
End Witnesses.
