(* ===== verification/Rpc.v ===== *)
(** * The node's RPC module ([node/src/rpc.rs]) *)

From stdpp Require Import gmap.
From S2P Require Import Prelude.

Set Default Proof Using "Type".

(** [jsonrpsee::RpcModule] and the two API servers merged into it. *)
Class RpcTypes (C P : Type) := {
  RpcModule : Type;
  RegisterMethodError : Type;
  BoxError : Type;
  from_register_error : RegisterMethodError -> BoxError;
  DenyUnsafe : Type;
  RpcModule_new : RpcModule;
  merge : RpcModule -> RpcModule -> answer RegisterMethodError RpcModule;
  System_into_rpc : C -> P -> DenyUnsafe -> RpcModule;
  TransactionPayment_into_rpc : C -> RpcModule;
  method_names : RpcModule -> gset string;
}.

(** A new module is empty; [merge] adds every method of the other module and
    fails when one of them is present already. *)
Class RpcLaws (C P : Type) `{!RpcTypes C P} : Prop := {
  new_no_methods : method_names RpcModule_new = ∅;
  merge_disjoint m m' :
    method_names m ## method_names m' ->
    exists k, merge m m' = AOk k /\ method_names k = method_names m ∪ method_names m';
  merge_clash m m' :
    ~ method_names m ## method_names m' -> exists e, merge m m' = AErr e;
}.

(** [FullDeps]; the [Arc]s share the values they hold. *)
Record FullDeps (C P : Type) `{!RpcTypes C P} := {
  client : C;
  pool : P;
  deny_unsafe : DenyUnsafe;
}.
Arguments client {C P _} _.
Arguments pool {C P _} _.
Arguments deny_unsafe {C P _} _.

Section Rpc.
Context {C P : Type} `{!RpcTypes C P}.

Definition create_full (deps : FullDeps C P) : outcome BoxError RpcModule :=
  let module := RpcModule_new in
  let client := client deps in
  let pool := pool deps in
  let deny_unsafe := deny_unsafe deps in
  let? module := of_answer from_register_error
    (merge module (System_into_rpc client pool deny_unsafe)) in
  let? module := of_answer from_register_error
    (merge module (TransactionPayment_into_rpc client)) in
  Ok module.

Context `{!RpcLaws C P}.

(** C34: The RPC module is created exactly when the System and the
    TransactionPayment servers share no method name, and then it offers the
    methods of both and no other; a clash is an error, never a panic. *)
Theorem create_full_methods (deps : FullDeps C P) :
  let system := method_names (System_into_rpc (client deps) (pool deps) (deny_unsafe deps)) in
  let payment := method_names (TransactionPayment_into_rpc (client deps) : RpcModule) in
  match create_full deps with
  | Ok module => system ## payment /\ method_names module = system ∪ payment
  | Err _ => ~ system ## payment
  | Panic _ => False
  end.
Proof using All.
  intros system payment. unfold create_full.
  destruct (merge_disjoint RpcModule_new
              (System_into_rpc (client deps) (pool deps) (deny_unsafe deps))) as (k & -> & Hk).
  { rewrite new_no_methods. set_solver. }
  simpl. rewrite new_no_methods, (left_id_L ∅ (∪)) in Hk. fold system in Hk.
  destruct (decide (system ## payment)) as [Hd | Hd].
  - destruct (merge_disjoint k (TransactionPayment_into_rpc (client deps))) as (k' & -> & Hk').
    { by rewrite Hk. }
    simpl. by rewrite Hk', Hk.
  - destruct (merge_clash k (TransactionPayment_into_rpc (client deps))) as [e ->].
    { by rewrite Hk. }
    done.
Qed.
End Rpc.

(** ** A concrete server set: a module is its set of method names *)
Section Witnesses.
#[local] Instance names_rpc : RpcTypes unit unit := {|
  RpcModule := gset string;
  RegisterMethodError := unit;
  BoxError := unit;
  from_register_error e := e;
  DenyUnsafe := bool;
  RpcModule_new := ∅;
  merge m m' := if decide (m ## m') then AOk (m ∪ m') else AErr tt;
  System_into_rpc _ _ _ := {["system_accountNextIndex"; "system_dryRun"]};
  TransactionPayment_into_rpc _ := {["payment_queryInfo"; "payment_queryFeeDetails"]};
  method_names m := m;
|}.

#[local] Instance names_rpc_laws : RpcLaws unit unit.
Proof.
  split; [done | |]; intros m m' H; simpl; case_decide; try done; eauto.
Defined.

Lemma four_methods :
  exists module,
    create_full {| client := tt; pool := tt; deny_unsafe := true |} = Ok module /\
    "payment_queryInfo" ∈ method_names module.
Proof.
  pose proof (create_full_methods {| client := tt; pool := tt; deny_unsafe := true |}) as H.
  destruct (create_full _) as [module | e |] eqn:Hc.
  - exists module. split; [reflexivity |]. destruct H as [_ ->]. set_solver.
  - discriminate.
  - discriminate.
Defined.
End Witnesses.
