(* ===== verification/Service.v ===== *)
(** * The node service ([node/src/service.rs])

    [new_partial] and [new_full] as programs over the calls they make to the
    client, consensus and network crates, in the order of the source; and what
    holds of every run, whatever those crates answer. *)

From Stdlib Require Import Floats.SpecFloat.
From S2P Require Import Prelude Effects Rpc.

Set Default Proof Using "Type".

(** ** Types and pure functions of the crates the service uses *)
Class ServiceTypes := {
  Hash : Type;
  ServiceError : Type;
  TelemetryError : Type;
  ClientError : Type;
  ConsensusError : Type;
  TelemetryEndpoints : Type;
  TelemetryWorker : Type;
  TelemetryWorkerHandle : Type;
  Telemetry : Type;
  TelemetryHandle : Type;
  TxPoolOptions : Type;
  Role : Type;
  Registry : Type;
  NetworkConfiguration : Type;
  ChainSpec : Type;
  DatabaseSource : Type;
  WasmExecutor : Type;
  FullClient : Type;
  FullBackend : Type;
  KeystoreContainer : Type;
  KeystorePtr : Type;
  TaskManager : Type;
  Task : Type;
  FullSelectChain : Type;
  FullPool : Type;
  GrandpaBlockImport : Type;
  LinkHalf : Type;
  SharedAuthoritySet : Type;
  ImportQueue : Type;
  FullNetworkConfiguration : Type;
  ProtocolName : Type;
  ProtocolConfig : Type;
  NotificationService : Type;
  WarpSyncProvider : Type;
  NetworkService : Type;
  SystemRpcTx : Type;
  TxHandlerController : Type;
  NetworkStarter : Type;
  SyncingService : Type;
  OffchainStorage : Type;
  OffchainTransactionPoolFactory : Type;
  RpcHandlers : Type;
  ProposerFactory : Type;
  SlotDuration : Type;
  SlotProportion : Type;
  Slot : Type;
  Timestamp : Type;
  CidpError : Type;
  service_rpc :: RpcTypes FullClient FullPool;

  telemetry_error_into : TelemetryError -> ServiceError;
  client_error_into : ClientError -> ServiceError;
  consensus_error_into : ConsensusError -> ServiceError;
  rpc_error_into : BoxError -> ServiceError;
  cidp_error_into : ClientError -> CidpError;

  endpoints_is_empty : TelemetryEndpoints -> bool;
  worker_handle : TelemetryWorker -> TelemetryWorkerHandle;
  worker_run : TelemetryWorker -> Task;
  telemetry_handle : Telemetry -> TelemetryHandle;
  is_authority : Role -> bool;
  node_name : NetworkConfiguration -> string;
  keystore : KeystoreContainer -> KeystorePtr;
  shared_authority_set : LinkHalf -> SharedAuthoritySet;
  network_configuration_new : NetworkConfiguration -> FullNetworkConfiguration;
  protocol_standard_name : Hash -> ChainSpec -> ProtocolName;
  add_notification_protocol :
    ProtocolConfig -> FullNetworkConfiguration -> FullNetworkConfiguration;
  warp_sync_provider : FullBackend -> SharedAuthoritySet -> list unit -> WarpSyncProvider;
  offchain_storage : FullBackend -> option OffchainStorage;
  offchain_pool_factory : FullPool -> OffchainTransactionPoolFactory;
  SlotProportion_new : spec_float -> SlotProportion;
  slot_from_timestamp_and_slot_duration : Timestamp -> SlotDuration -> Slot;
}.

Section Data.
Context {T : ServiceTypes}.

(** The fields of [sc_service::Configuration] that the node reads. *)
Record Configuration := {
  telemetry_endpoints : option TelemetryEndpoints;
  transaction_pool_options : TxPoolOptions;
  role : Role;
  prometheus_registry : option Registry;
  network_config : NetworkConfiguration;
  chain_spec : ChainSpec;
  database : DatabaseSource;
  offchain_worker_enabled : bool;
  force_authoring : bool;
  disable_grandpa : bool;
}.

(** [sc_service::PartialComponents], with the three parts of [other]. *)
Record PartialComponents := {
  client : FullClient;
  backend : FullBackend;
  task_manager : TaskManager;
  import_queue : ImportQueue;
  keystore_container : KeystoreContainer;
  select_chain : FullSelectChain;
  transaction_pool : FullPool;
  other_block_import : GrandpaBlockImport;
  other_grandpa_link : LinkHalf;
  other_telemetry : option Telemetry;
}.

(** Calls of the inherent data providers. *)
Inductive inherentE : Type -> Type :=
| slot_duration_at (c : FullClient) (parent : Hash) : inherentE (answer ClientError SlotDuration)
| timestamp_from_system_time : inherentE Timestamp.

Abbreviation inherents := (io inherentE CidpError (Slot * Timestamp)).

(** The two handles of a task manager: a task spawned on the second takes the
    service down when it ends. *)
Inductive SpawnHandle :=
| spawn_handle (tm : TaskManager)
| spawn_essential_handle (tm : TaskManager).

(** The parameter structs of the crates, without the fields the source sets to a
    default or empty value ([check_for_equivocation], [compatibility_mode],
    [custom_extensions], [voting_rule], [shared_voter_state]). *)
Record ImportQueueParams := {
  iq_block_import : GrandpaBlockImport;
  iq_justification_import : option GrandpaBlockImport;
  iq_client : FullClient;
  iq_create_inherent_data_providers : Hash -> unit -> inherents;
  iq_spawner : SpawnHandle;
  iq_registry : option Registry;
  iq_telemetry : option TelemetryHandle;
}.

Record BuildNetworkParams := {
  bn_config : Configuration;
  bn_net_config : FullNetworkConfiguration;
  bn_client : FullClient;
  bn_transaction_pool : FullPool;
  bn_spawn_handle : SpawnHandle;
  bn_import_queue : ImportQueue;
  bn_block_announce_validator_builder : option unit;
  bn_warp_sync_params : option WarpSyncProvider;
  bn_block_relay : option unit;
}.

Record OffchainWorkerOptions := {
  ow_runtime_api_provider : FullClient;
  ow_is_validator : bool;
  ow_keystore : option KeystorePtr;
  ow_offchain_db : option OffchainStorage;
  ow_transaction_pool : option OffchainTransactionPoolFactory;
  ow_network_provider : NetworkService;
  ow_enable_http_requests : bool;
}.

Record SpawnTasksParams := {
  st_network : NetworkService;
  st_client : FullClient;
  st_keystore : KeystorePtr;
  st_task_manager : TaskManager;
  st_transaction_pool : FullPool;
  st_rpc_builder : DenyUnsafe -> unit -> outcome ServiceError RpcModule;
  st_backend : FullBackend;
  st_system_rpc_tx : SystemRpcTx;
  st_tx_handler_controller : TxHandlerController;
  st_sync_service : SyncingService;
  st_config : Configuration;
  st_telemetry : option Telemetry;
}.

Record StartAuraParams := {
  sa_slot_duration : SlotDuration;
  sa_client : FullClient;
  sa_select_chain : FullSelectChain;
  sa_block_import : GrandpaBlockImport;
  sa_proposer_factory : ProposerFactory;
  sa_create_inherent_data_providers : Hash -> unit -> inherents;
  sa_force_authoring : bool;
  sa_backoff_authoring_blocks : option unit;
  sa_keystore : KeystorePtr;
  sa_sync_oracle : SyncingService;
  sa_justification_sync_link : SyncingService;
  sa_block_proposal_slot_portion : SlotProportion;
  sa_max_block_proposal_slot_portion : option SlotProportion;
  sa_telemetry : option TelemetryHandle;
}.

Record GrandpaConfig := {
  gossip_duration : Z;
  justification_generation_period : Z;
  name : option string;
  observer_enabled : bool;
  gc_keystore : option KeystorePtr;
  local_role : Role;
  gc_telemetry : option TelemetryHandle;
  protocol_name : ProtocolName;
}.

Record GrandpaParams := {
  gp_config : GrandpaConfig;
  gp_link : LinkHalf;
  gp_network : NetworkService;
  gp_sync : SyncingService;
  gp_notification_service : NotificationService;
  gp_prometheus_registry : option Registry;
  gp_telemetry : option TelemetryHandle;
  gp_offchain_tx_pool_factory : OffchainTransactionPoolFactory;
}.

(** ** The calls of the service *)
Inductive svcE : Type -> Type :=
| TelemetryWorker_new (buffer : Z) : svcE (answer TelemetryError TelemetryWorker)
| new_telemetry (h : TelemetryWorkerHandle) (e : TelemetryEndpoints) : svcE Telemetry
| new_wasm_executor (c : Configuration) : svcE WasmExecutor
| new_full_parts (c : Configuration) (t : option TelemetryHandle) (e : WasmExecutor)
  : svcE (answer ServiceError (FullClient * FullBackend * KeystoreContainer * TaskManager))
| spawn (h : SpawnHandle) (task_name : string) (group : option string) (t : Task) : svcE unit
| spawn_blocking (h : SpawnHandle) (task_name : string) (group : option string) (t : Task)
  : svcE unit
| LongestChain_new (b : FullBackend) : svcE FullSelectChain
| BasicPool_new_full (o : TxPoolOptions) (is_validator : bool) (r : option Registry)
    (spawner : SpawnHandle) (c : FullClient) : svcE FullPool
| grandpa_block_import (c : FullClient) (justification_period : Z) (genesis : FullClient)
    (s : FullSelectChain) (t : option TelemetryHandle)
  : svcE (answer ClientError (GrandpaBlockImport * LinkHalf))
| aura_import_queue (p : ImportQueueParams) : svcE (answer ConsensusError ImportQueue)
| client_block_hash (c : FullClient) (n : Z) : svcE (answer ClientError (option Hash))
| grandpa_peers_set_config (n : ProtocolName) : svcE (ProtocolConfig * NotificationService)
| build_network (p : BuildNetworkParams)
  : svcE (answer ServiceError (NetworkService * SystemRpcTx * TxHandlerController *
                               NetworkStarter * SyncingService))
| offchain_workers_run (o : OffchainWorkerOptions) (c : FullClient) (spawner : SpawnHandle)
  : svcE Task
| spawn_tasks (p : SpawnTasksParams) : svcE (answer ServiceError RpcHandlers)
| ProposerFactory_new (spawner : SpawnHandle) (c : FullClient) (p : FullPool)
    (r : option Registry) (t : option TelemetryHandle) : svcE ProposerFactory
| aura_slot_duration (c : FullClient) : svcE (answer ClientError SlotDuration)
| start_aura (p : StartAuraParams) : svcE (answer ConsensusError Task)
| run_grandpa_voter (p : GrandpaParams) : svcE (answer ClientError Task)
| start_network (s : NetworkStarter) : svcE unit.
End Data.

(** ** The two constructors *)
Section Service.
Context {T : ServiceTypes}.

Abbreviation inherents := (io inherentE CidpError (Slot * Timestamp)).

Definition GRANDPA_JUSTIFICATION_PERIOD : Z := 512.

(** The closure of [new_partial] given to the import queue. *)
Definition import_inherent_data_providers (cidp_client : FullClient)
  (parent_hash : Hash) (_ : unit) : inherents :=
  let* slot_duration := try_call cidp_error_into (slot_duration_at cidp_client parent_hash) in
  let* timestamp := Effects.call timestamp_from_system_time in
  let slot := slot_from_timestamp_and_slot_duration timestamp slot_duration in
  iret (slot, timestamp).

(** The closure of [new_full] given to block authoring. *)
Definition authoring_inherent_data_providers (slot_duration : SlotDuration)
  (_ : Hash) (_ : unit) : inherents :=
  let* timestamp := Effects.call timestamp_from_system_time in
  let slot := slot_from_timestamp_and_slot_duration timestamp slot_duration in
  iret (slot, timestamp).

(** [config.telemetry_endpoints.clone().filter(|x| !x.is_empty())]. *)
Definition used_endpoints (config : Configuration) : option TelemetryEndpoints :=
  match telemetry_endpoints config with
  | Some x => if endpoints_is_empty x then None else Some x
  | None => None
  end.

(** [.map(|endpoints| ..).transpose()?]. *)
Definition new_telemetry_worker (config : Configuration)
  : io svcE ServiceError (option (TelemetryWorker * Telemetry)) :=
  match used_endpoints config with
  | None => iret None
  | Some endpoints =>
    let* worker := try_call telemetry_error_into (TelemetryWorker_new 16) in
    let* telemetry := Effects.call (new_telemetry (worker_handle worker) endpoints) in
    iret (Some (worker, telemetry))
  end.

Definition new_partial (config : Configuration)
  : io svcE ServiceError PartialComponents :=
  let* telemetry := new_telemetry_worker config in
  let* executor := Effects.call (new_wasm_executor config) in
  let* (client, backend, keystore_container, task_manager) :=
    try_call id (new_full_parts config
      ((fun '(_, telemetry) => telemetry_handle telemetry) <$> telemetry) executor) in
  let* telemetry :=
    match telemetry with
    | Some (worker, telemetry) =>
      Effects.call 
        (spawn (spawn_handle task_manager) "telemetry" None (worker_run worker)) ;;;
      iret (Some telemetry)
    | None => iret None
    end in
  let* select_chain := Effects.call (LongestChain_new backend) in
  let* transaction_pool := Effects.call
    (BasicPool_new_full (transaction_pool_options config) (is_authority (role config))
       (prometheus_registry config) (spawn_essential_handle task_manager) client) in
  let* (block_import, grandpa_link) := try_call client_error_into
    (grandpa_block_import client GRANDPA_JUSTIFICATION_PERIOD client select_chain
       (telemetry_handle <$> telemetry)) in
  let* import_queue := try_call consensus_error_into
    (aura_import_queue {|
       iq_block_import := block_import;
       iq_justification_import := Some block_import;
       iq_client := client;
       iq_create_inherent_data_providers := import_inherent_data_providers client;
       iq_spawner := spawn_essential_handle task_manager;
       iq_registry := prometheus_registry config;
       iq_telemetry := telemetry_handle <$> telemetry;
     |}) in
  iret {|
    client := client;
    backend := backend;
    task_manager := task_manager;
    import_queue := import_queue;
    keystore_container := keystore_container;
    select_chain := select_chain;
    transaction_pool := transaction_pool;
    other_block_import := block_import;
    other_grandpa_link := grandpa_link;
    other_telemetry := telemetry;
  |}.

(** [2f32 / 3f32], in binary32. *)
Definition f32_two : spec_float := S754_finite false 8388608 (-22).
Definition f32_three : spec_float := S754_finite false 12582912 (-22).
Definition block_proposal_slot_portion : spec_float := SFdiv 24 128 f32_two f32_three.

(** The closure that builds the RPC extensions. *)
Definition rpc_extensions_builder (client : FullClient) (pool : FullPool)
  (deny_unsafe : DenyUnsafe) (_ : unit) : outcome ServiceError RpcModule :=
  map_err rpc_error_into
    (create_full {| Rpc.client := client; Rpc.pool := pool; Rpc.deny_unsafe := deny_unsafe |}).

(** The authoring part of [new_full], under [if role.is_authority()]. *)
Definition start_authoring (config : Configuration) (p : PartialComponents)
  (sync_service : SyncingService) : io svcE ServiceError unit :=
  let telemetry := other_telemetry p in
  let* proposer_factory := Effects.call
    (ProposerFactory_new (spawn_handle (task_manager p)) (client p) (transaction_pool p)
       (prometheus_registry config) (telemetry_handle <$> telemetry)) in
  let* slot_duration := try_call client_error_into (aura_slot_duration (client p)) in
  let* aura := try_call consensus_error_into
    (start_aura {|
       sa_slot_duration := slot_duration;
       sa_client := client p;
       sa_select_chain := select_chain p;
       sa_block_import := other_block_import p;
       sa_proposer_factory := proposer_factory;
       sa_create_inherent_data_providers := authoring_inherent_data_providers slot_duration;
       sa_force_authoring := force_authoring config;
       sa_backoff_authoring_blocks := None;
       sa_keystore := keystore (keystore_container p);
       sa_sync_oracle := sync_service;
       sa_justification_sync_link := sync_service;
       sa_block_proposal_slot_portion := SlotProportion_new block_proposal_slot_portion;
       sa_max_block_proposal_slot_portion := None;
       sa_telemetry := telemetry_handle <$> telemetry;
     |}) in
  Effects.call (spawn_blocking (spawn_essential_handle (task_manager p)) "aura"
    (Some "block-authoring"%string) aura).

(** The finality part of [new_full], under [if enable_grandpa]. *)
Definition start_grandpa (config : Configuration) (p : PartialComponents)
  (network : NetworkService) (sync_service : SyncingService)
  (protocol : ProtocolName) (notification_service : NotificationService)
  : io svcE ServiceError unit :=
  let telemetry := other_telemetry p in
  let keystore :=
    if is_authority (role config) then Some (keystore (keystore_container p)) else None in
  let grandpa_config := {|
    gossip_duration := 333;
    justification_generation_period := GRANDPA_JUSTIFICATION_PERIOD;
    name := Some (node_name (network_config config));
    observer_enabled := false;
    gc_keystore := keystore;
    local_role := role config;
    gc_telemetry := telemetry_handle <$> telemetry;
    protocol_name := protocol;
  |} in
  let grandpa_config := {|
    gp_config := grandpa_config;
    gp_link := other_grandpa_link p;
    gp_network := network;
    gp_sync := sync_service;
    gp_notification_service := notification_service;
    gp_prometheus_registry := prometheus_registry config;
    gp_telemetry := telemetry_handle <$> telemetry;
    gp_offchain_tx_pool_factory := offchain_pool_factory (transaction_pool p);
  |} in
  let* voter := try_call client_error_into (run_grandpa_voter grandpa_config) in
  Effects.call (spawn_blocking (spawn_essential_handle (task_manager p)) "grandpa-voter"
    None voter).

(** The off-chain worker part of [new_full]. *)
Definition start_offchain_workers (config : Configuration) (p : PartialComponents)
  (network : NetworkService) : io svcE ServiceError unit :=
  let* runner := Effects.call (offchain_workers_run {|
      ow_runtime_api_provider := client p;
      ow_is_validator := is_authority (role config);
      ow_keystore := Some (keystore (keystore_container p));
      ow_offchain_db := offchain_storage (backend p);
      ow_transaction_pool := Some (offchain_pool_factory (transaction_pool p));
      ow_network_provider := network;
      ow_enable_http_requests := true;
    |} (client p) (spawn_handle (task_manager p))) in
  Effects.call (spawn (spawn_handle (task_manager p)) "offchain-workers-runner"
    (Some "offchain-worker"%string) runner).

Definition when (b : bool) (p : io svcE ServiceError unit) : io svcE ServiceError unit :=
  if b then p else iret tt.

Definition new_full (config : Configuration) : io svcE ServiceError TaskManager :=
  let* p := new_partial config in
  let net_config := network_configuration_new (network_config config) in
  let* genesis := Effects.call (client_block_hash (client p) 0) in
  let* genesis_hash :=
    of_outcome (expect (mjoin (answer_ok genesis)) "Genesis block exists; qed") in
  let grandpa_protocol_name := protocol_standard_name genesis_hash (chain_spec config) in
  let* (grandpa_protocol_config, grandpa_notification_service) :=
    Effects.call (grandpa_peers_set_config grandpa_protocol_name) in
  let net_config := add_notification_protocol grandpa_protocol_config net_config in
  let warp_sync :=
    warp_sync_provider (backend p) (shared_authority_set (other_grandpa_link p)) [] in
  let* (network, system_rpc_tx, tx_handler_controller, network_starter, sync_service) :=
    try_call id (build_network {|
      bn_config := config;
      bn_net_config := net_config;
      bn_client := client p;
      bn_transaction_pool := transaction_pool p;
      bn_spawn_handle := spawn_handle (task_manager p);
      bn_import_queue := import_queue p;
      bn_block_announce_validator_builder := None;
      bn_warp_sync_params := Some warp_sync;
      bn_block_relay := None;
    |}) in
  when (offchain_worker_enabled config) (start_offchain_workers config p network) ;;;
  let enable_grandpa := negb (disable_grandpa config) in
  let* _rpc_handlers := try_call id (spawn_tasks {|
      st_network := network;
      st_client := client p;
      st_keystore := keystore (keystore_container p);
      st_task_manager := task_manager p;
      st_transaction_pool := transaction_pool p;
      st_rpc_builder := rpc_extensions_builder (client p) (transaction_pool p);
      st_backend := backend p;
      st_system_rpc_tx := system_rpc_tx;
      st_tx_handler_controller := tx_handler_controller;
      st_sync_service := sync_service;
      st_config := config;
      st_telemetry := other_telemetry p;
    |}) in
  when (is_authority (role config)) (start_authoring config p sync_service) ;;;
  when enable_grandpa
    (start_grandpa config p network sync_service grandpa_protocol_name
       grandpa_notification_service) ;;;
  Effects.call (start_network network_starter) ;;;
  iret (task_manager p).
End Service.

(** ** The order of the calls *)
Section Script.
Context {T : ServiceTypes}.

(** How a task is spawned: on which handle, and by [spawn] or
    [spawn_blocking]. *)
Record SpawnKind := { essential : bool; blocking : bool }.

Definition is_essential (h : SpawnHandle) : bool :=
  match h with spawn_handle _ => false | spawn_essential_handle _ => true end.

Definition plain : SpawnKind := {| essential := false; blocking := false |}.
Definition essential_blocking : SpawnKind := {| essential := true; blocking := true |}.

Inductive op :=
| op_telemetry_worker
| op_telemetry
| op_executor
| op_full_parts
| op_spawn (kind : SpawnKind) (task_name : string) (group : option string)
| op_select_chain
| op_pool
| op_grandpa_block_import
| op_import_queue
| op_genesis_hash
| op_peers_set_config
| op_build_network
| op_offchain_workers
| op_spawn_tasks
| op_proposer_factory
| op_slot_duration
| op_start_aura
| op_grandpa_voter
| op_start_network.

Definition op_of (o : obs svcE) : op :=
  match o with
  | Obs e _ =>
    match e with
    | TelemetryWorker_new _ => op_telemetry_worker
    | new_telemetry _ _ => op_telemetry
    | new_wasm_executor _ => op_executor
    | new_full_parts _ _ _ => op_full_parts
    | spawn h n group _ => op_spawn {| essential := is_essential h; blocking := false |} n group
    | spawn_blocking h n group _ =>
      op_spawn {| essential := is_essential h; blocking := true |} n group
    | LongestChain_new _ => op_select_chain
    | BasicPool_new_full _ _ _ _ _ => op_pool
    | grandpa_block_import _ _ _ _ _ => op_grandpa_block_import
    | aura_import_queue _ => op_import_queue
    | client_block_hash _ _ => op_genesis_hash
    | grandpa_peers_set_config _ => op_peers_set_config
    | build_network _ => op_build_network
    | offchain_workers_run _ _ _ => op_offchain_workers
    | spawn_tasks _ => op_spawn_tasks
    | ProposerFactory_new _ _ _ _ _ => op_proposer_factory
    | aura_slot_duration _ => op_slot_duration
    | start_aura _ => op_start_aura
    | run_grandpa_voter _ => op_grandpa_voter
    | start_network _ => op_start_network
    end
  end.

Definition err_verdict {Er X} (conv : Er -> ServiceError) (r : answer Er X)
  : option (outcome ServiceError Empty_set) :=
  match r with AOk _ => None | AErr e => Some (Err (conv e)) end.

(** The answers that end the service: errors, and a missing genesis block. *)
Definition verdict (o : obs svcE) : option (outcome ServiceError Empty_set) :=
  match o with
  | Obs e x =>
    match e in svcE X return X -> option (outcome ServiceError Empty_set) with
    | TelemetryWorker_new _ => err_verdict telemetry_error_into
    | new_full_parts _ _ _ => err_verdict id
    | grandpa_block_import _ _ _ _ _ => err_verdict client_error_into
    | aura_import_queue _ => err_verdict consensus_error_into
    | client_block_hash _ _ => fun a =>
      match mjoin (answer_ok a) with
      | Some _ => None
      | None => Some (Panic "Genesis block exists; qed")
      end
    | build_network _ => err_verdict id
    | spawn_tasks _ => err_verdict id
    | aura_slot_duration _ => err_verdict client_error_into
    | start_aura _ => err_verdict consensus_error_into
    | run_grandpa_voter _ => err_verdict client_error_into
    | _ => fun _ => None
    end x
  end.

Definition if_then {A} (b : bool) (l : list A) : list A := if b then l else [].

Definition has_telemetry (config : Configuration) : bool :=
  bool_decide (is_Some (used_endpoints config)).

(** The calls of [new_partial] and of the rest of [new_full]. *)
Definition partial_script (config : Configuration) : list op :=
  if_then (has_telemetry config) [op_telemetry_worker; op_telemetry] ++
  [op_executor; op_full_parts] ++
  if_then (has_telemetry config) [op_spawn plain "telemetry" None] ++
  [op_select_chain; op_pool; op_grandpa_block_import; op_import_queue].

Definition offchain_script : list op :=
  [op_offchain_workers;
   op_spawn plain "offchain-workers-runner" (Some "offchain-worker"%string)].

Definition authoring_script : list op :=
  [op_proposer_factory; op_slot_duration; op_start_aura;
   op_spawn essential_blocking "aura" (Some "block-authoring"%string)].

Definition grandpa_script : list op :=
  [op_grandpa_voter; op_spawn essential_blocking "grandpa-voter" None].

Definition full_script (config : Configuration) : list op :=
  partial_script config ++
  [op_genesis_hash; op_peers_set_config; op_build_network] ++
  if_then (offchain_worker_enabled config) offchain_script ++
  [op_spawn_tasks] ++
  if_then (is_authority (role config)) authoring_script ++
  if_then (negb (disable_grandpa config)) grandpa_script ++
  [op_start_network].

Abbreviation follows := (Effects.follows op_of verdict).

Lemma follows_when b script p :
  follows script p -> follows (if_then b script) (when b p).
Proof. intros H. destruct b; [done | apply follows_iret]. Qed.

(** One call of a script, and the rest of it. *)
Ltac follow_call :=
  apply (follows_ibind _ _ [_]);
  [first [apply follows_call; reflexivity | apply follows_try_call; reflexivity] | intros ?].

Lemma new_telemetry_worker_follows config :
  follows (if_then (has_telemetry config) [op_telemetry_worker; op_telemetry])
    (new_telemetry_worker config).
Proof.
  unfold new_telemetry_worker, has_telemetry. destruct (used_endpoints config); simpl.
  - follow_call. follow_call. apply follows_iret.
  - apply follows_iret.
Qed.

Lemma new_telemetry_worker_has config tr t :
  runs (new_telemetry_worker config) tr (Ok t) -> has_telemetry config = bool_decide (is_Some t).
Proof.
  unfold new_telemetry_worker, has_telemetry. destruct (used_endpoints config); simpl.
  - intros (x & tr' & -> & H). destruct x; simpl in H; [| by destruct H].
    destruct H as (y & tr'' & -> & -> & [= ->]). done.
  - intros [_ [= ->]]. done.
Qed.

Lemma new_partial_follows config : follows (partial_script config) (new_partial config).
Proof.
  unfold new_partial, partial_script.
  apply follows_ibind_with; [apply new_telemetry_worker_follows | intros tr t Ht].
  rewrite (new_telemetry_worker_has _ _ _ Ht). simpl app.
  follow_call. follow_call. destruct a0 as [[[client backend] ks] tm].
  apply follows_ibind.
  { destruct t as [[worker telemetry] |]; simpl; [| apply follows_iret].
    follow_call. apply follows_iret. }
  intros telemetry. follow_call. follow_call. follow_call. destruct a2. follow_call.
  apply follows_iret.
Qed.

Lemma start_offchain_workers_follows config p network :
  follows offchain_script (start_offchain_workers config p network).
Proof. follow_call. by apply follows_call. Qed.

Lemma start_authoring_follows config p sync :
  follows authoring_script (start_authoring config p sync).
Proof. do 3 follow_call. by apply follows_call. Qed.

Lemma start_grandpa_follows config p network sync protocol notifications :
  follows grandpa_script (start_grandpa config p network sync protocol notifications).
Proof. follow_call. by apply follows_call. Qed.

Lemma new_full_follows config : follows (full_script config) (new_full config).
Proof.
  unfold new_full, full_script.
  apply follows_ibind; [apply new_partial_follows | intros p].
  apply follows_expect_then; [done | done | intros genesis_hash].
  follow_call. destruct a as [protocol_config notifications].
  follow_call. destruct a as [[[[network rpc_tx] tx_handler] starter] sync].
  apply follows_ibind; [apply follows_when, start_offchain_workers_follows | intros []].
  follow_call.
  apply follows_ibind; [apply follows_when, start_authoring_follows | intros []].
  apply follows_ibind; [apply follows_when, start_grandpa_follows | intros []].
  follow_call. apply follows_iret.
Qed.
End Script.

(** ** Properties of the order *)
Section Order.
Context {T : ServiceTypes}.

Lemma last_not_in_prefix {A} (l a k : list A) x y :
  l ++ [x] = (a ++ [y]) ++ k -> x ∉ l -> y <> x -> x ∉ a ++ [y].
Proof.
  intros H Hl Hxy. destruct k as [| z k _] using rev_ind.
  - rewrite app_nil_r in H. by apply app_inj_tail in H as [-> ->].
  - rewrite (assoc_L (++)) in H. apply app_inj_tail in H as [-> ->].
    by intros Hin; apply Hl, elem_of_app; left.
Qed.

#[export] Instance spawn_kind_eq_dec : EqDecision SpawnKind.
Proof. solve_decision. Defined.

#[export] Instance op_eq_dec : EqDecision op.
Proof. solve_decision. Defined.

Lemma full_script_start config :
  exists l, full_script config = l ++ [op_start_network] /\ op_start_network ∉ l.
Proof.
  unfold full_script. rewrite !(assoc_L (++)). eexists. split; [reflexivity |].
  unfold partial_script, if_then.
  destruct (has_telemetry config), (offchain_worker_enabled config),
    (is_authority (role config)), (disable_grandpa config);
    by apply (bool_decide_unpack _).
Qed.

(** C12: Every run of [new_full] makes the calls of the source in their order:
    the calls made are a prefix of the configuration's script, all of it when
    the service starts; no answer before the last is an error, and a service
    that does not start ends with the error of its last call, converted, or
    with the panic of a missing genesis block. *)
Theorem new_full_call_order (config : Configuration) tr r :
  runs (new_full config) tr r ->
  map op_of tr `prefix_of` full_script config /\
  match r with
  | Ok _ => map op_of tr = full_script config /\ Forall (fun o => verdict o = None) tr
  | Err e => exists tr0 o, tr = tr0 ++ [o] /\ Forall (fun o => verdict o = None) tr0 /\
                           verdict o = Some (Err e)
  | Panic m => m = "Genesis block exists; qed"%string /\
               exists tr0 c n a, tr = tr0 ++ [Obs (client_block_hash c n) a] /\
                               mjoin (answer_ok a) = None
  end.
Proof.
  intros Hr. destruct (new_full_follows config _ _ Hr) as [Hp He]. split; [done |].
  destruct r as [tm | e | m]; [done | done |].
  destruct He as (tr0 & [X e x] & -> & _ & Hv).
  destruct e; simpl in Hv; try (by destruct x); try done.
  destruct (mjoin (answer_ok x)) eqn:Hx; [done |]. injection Hv as <-.
  split; [done | by exists tr0, c, n, x].
Qed.

(** The network starts exactly when the service does, as its last call:
    every earlier step, the essential tasks included, has then succeeded, and a
    service that fails to start never starts the network. *)
Theorem network_starts_last (config : Configuration) tr r :
  runs (new_full config) tr r ->
  if is_ok r
  then exists tr0 o, tr = tr0 ++ [o] /\ op_of o = op_start_network /\
                     op_start_network ∉ map op_of tr0
  else op_start_network ∉ map op_of tr.
Proof.
  intros Hr. pose proof (new_full_follows config _ _ Hr) as He.
  destruct (full_script_start config) as (l & Hs & Hl).
  destruct (is_ok r) eqn:Hok.
  - destruct r; try done. destruct He as (_ & He & _). rewrite Hs in He.
    apply map_eq_app in He as (tr0 & tr1 & -> & <- & He).
    destruct tr1 as [| o [| ??]]; try done. injection He as He. by exists tr0, o.
  - destruct (ends_not_Ok _ _ _ _ _ He Hok) as (v & tr0 & o & -> & Hgo & Hv).
    destruct He as [[k Hp] _]. rewrite Hs, map_app in Hp. rewrite map_app.
    apply (last_not_in_prefix _ _ _ _ _ Hp Hl).
    destruct o as [X e x]; by destruct e.
Qed.

(** The service starts whenever the outside lets it: if, from a state where
    some invariant holds, no crate answers with an error or without a genesis
    block and the invariant is kept, then [new_full] returns a task manager,
    after exactly the calls its configuration asks for, in their order; no call
    of its own can fail or be left out. *)
Theorem service_starts {S} (h : handler svcE S) (I : S -> Prop) (config : Configuration) s :
  (forall X (e : svcE X) s, I s -> verdict (Obs e (h X e s).1) = None /\ I (h X e s).2) ->
  I s ->
  exists tm, (exec h (new_full config) s).1 = Ok tm /\
             map op_of (exec_trace h (new_full config) s) = full_script config.
Proof. apply follows_completes, new_full_follows. Qed.
End Order.

(** ** The wiring of the calls *)
Section Wiring.
Context {T : ServiceTypes}.

(** What the network part of [new_full] produces. *)
Record NetworkParts := {
  np_genesis_hash : Hash;
  np_protocol_config : ProtocolConfig;
  np_notification_service : NotificationService;
  np_network : NetworkService;
  np_system_rpc_tx : SystemRpcTx;
  np_tx_handler_controller : TxHandlerController;
  np_network_starter : NetworkStarter;
  np_sync_service : SyncingService;
}.

(** What [new_partial] makes and does not return. *)
Record StartParts := {
  sp_worker : option TelemetryWorker;
  sp_executor : WasmExecutor;
}.

(** What the tasks of [new_full] are made of, for those that it spawns. *)
Record TaskParts := {
  tp_offchain_workers : option Task;
  tp_proposer_factory : option ProposerFactory;
  tp_slot_duration : option SlotDuration;
  tp_aura : option Task;
  tp_voter : option Task;
}.

Definition np_protocol_name (config : Configuration) (n : NetworkParts) : ProtocolName :=
  protocol_standard_name (np_genesis_hash n) (chain_spec config).

Definition handle_of (p : PartialComponents) : option TelemetryHandle :=
  telemetry_handle <$> other_telemetry p.

(** [wired_partial] and [wired_rest]: the call takes the configuration's values
    and the parts it is meant to take, in every argument, and where it makes a
    part, its answer is that part. *)
Definition wired_partial (config : Configuration) (m : StartParts) (p : PartialComponents)
  (o : obs svcE) : Prop :=
  match o with
  | Obs e x =>
    match e in svcE X return X -> Prop with
    | TelemetryWorker_new buffer => fun a =>
      buffer = 16 /\ exists worker, a = AOk worker /\ sp_worker m = Some worker
    | new_telemetry h endpoints => fun t =>
      (exists worker, sp_worker m = Some worker /\ h = worker_handle worker) /\
      used_endpoints config = Some endpoints /\ other_telemetry p = Some t
    | new_wasm_executor c => fun executor => c = config /\ executor = sp_executor m
    | new_full_parts c h executor => fun a =>
      c = config /\ h = handle_of p /\ executor = sp_executor m /\
      a = AOk (client p, backend p, keystore_container p, task_manager p)
    | spawn h task_name group task => fun _ =>
      h = spawn_handle (task_manager p) /\ task_name = "telemetry"%string /\ group = None /\
      exists worker, sp_worker m = Some worker /\ task = worker_run worker
    | LongestChain_new b => fun s => b = backend p /\ s = select_chain p
    | BasicPool_new_full o v r h c => fun pool =>
      o = transaction_pool_options config /\ v = is_authority (role config) /\
      r = prometheus_registry config /\ h = spawn_essential_handle (task_manager p) /\
      c = client p /\ pool = transaction_pool p
    | grandpa_block_import c period g s h => fun a =>
      c = client p /\ g = client p /\ s = select_chain p /\ h = handle_of p /\
      period = 512 /\ a = AOk (other_block_import p, other_grandpa_link p)
    | aura_import_queue q => fun a =>
      iq_block_import q = other_block_import p /\
      iq_justification_import q = Some (other_block_import p) /\
      iq_client q = client p /\
      iq_create_inherent_data_providers q = import_inherent_data_providers (client p) /\
      iq_spawner q = spawn_essential_handle (task_manager p) /\
      iq_registry q = prometheus_registry config /\
      iq_telemetry q = handle_of p /\
      a = AOk (import_queue p)
    | _ => fun _ => False
    end x
  end.

Definition wired_rest (config : Configuration) (p : PartialComponents) (n : NetworkParts)
  (k : TaskParts) (o : obs svcE) : Prop :=
  match o with
  | Obs e x =>
    match e in svcE X return X -> Prop with
    | client_block_hash c number => fun a =>
      c = client p /\ number = 0 /\ a = AOk (Some (np_genesis_hash n))
    | grandpa_peers_set_config name => fun a =>
      name = np_protocol_name config n /\
      a = (np_protocol_config n, np_notification_service n)
    | build_network b => fun a =>
      bn_config b = config /\
      bn_net_config b = add_notification_protocol (np_protocol_config n)
                          (network_configuration_new (network_config config)) /\
      bn_client b = client p /\ bn_transaction_pool b = transaction_pool p /\
      bn_spawn_handle b = spawn_handle (task_manager p) /\ bn_import_queue b = import_queue p /\
      bn_block_announce_validator_builder b = None /\
      bn_warp_sync_params b =
        Some (warp_sync_provider (backend p)
                (shared_authority_set (other_grandpa_link p)) []) /\
      bn_block_relay b = None /\
      a = AOk (np_network n, np_system_rpc_tx n, np_tx_handler_controller n,
               np_network_starter n, np_sync_service n)
    | offchain_workers_run o c h => fun task =>
      ow_runtime_api_provider o = client p /\ ow_is_validator o = is_authority (role config) /\
      ow_keystore o = Some (keystore (keystore_container p)) /\
      ow_offchain_db o = offchain_storage (backend p) /\
      ow_transaction_pool o = Some (offchain_pool_factory (transaction_pool p)) /\
      ow_network_provider o = np_network n /\ ow_enable_http_requests o = true /\
      c = client p /\ h = spawn_handle (task_manager p) /\ tp_offchain_workers k = Some task
    | spawn h task_name group task => fun _ =>
      h = spawn_handle (task_manager p) /\ task_name = "offchain-workers-runner"%string /\
      group = Some "offchain-worker"%string /\ tp_offchain_workers k = Some task
    | spawn_tasks s => fun _ =>
      st_network s = np_network n /\ st_client s = client p /\
      st_keystore s = keystore (keystore_container p) /\
      st_task_manager s = task_manager p /\ st_transaction_pool s = transaction_pool p /\
      (forall deny_unsafe subscription,
         st_rpc_builder s deny_unsafe subscription =
         map_err rpc_error_into (create_full {| Rpc.client := client p;
           Rpc.pool := transaction_pool p; Rpc.deny_unsafe := deny_unsafe |})) /\
      st_backend s = backend p /\
      st_system_rpc_tx s = np_system_rpc_tx n /\
      st_tx_handler_controller s = np_tx_handler_controller n /\
      st_sync_service s = np_sync_service n /\ st_config s = config /\
      st_telemetry s = other_telemetry p
    | ProposerFactory_new h c pool r t => fun factory =>
      h = spawn_handle (task_manager p) /\ c = client p /\ pool = transaction_pool p /\
      r = prometheus_registry config /\ t = handle_of p /\ tp_proposer_factory k = Some factory
    | aura_slot_duration c => fun a =>
      c = client p /\ exists d, a = AOk d /\ tp_slot_duration k = Some d
    | start_aura s => fun a =>
      tp_slot_duration k = Some (sa_slot_duration s) /\
      sa_client s = client p /\ sa_select_chain s = select_chain p /\
      sa_block_import s = other_block_import p /\
      tp_proposer_factory k = Some (sa_proposer_factory s) /\
      sa_create_inherent_data_providers s =
        authoring_inherent_data_providers (sa_slot_duration s) /\
      sa_force_authoring s = force_authoring config /\
      sa_backoff_authoring_blocks s = None /\
      sa_keystore s = keystore (keystore_container p) /\
      sa_sync_oracle s = np_sync_service n /\
      sa_justification_sync_link s = np_sync_service n /\
      sa_block_proposal_slot_portion s = SlotProportion_new block_proposal_slot_portion /\
      sa_max_block_proposal_slot_portion s = None /\
      sa_telemetry s = handle_of p /\
      exists task, a = AOk task /\ tp_aura k = Some task
    | run_grandpa_voter g => fun a =>
      gossip_duration (gp_config g) = 333 /\
      justification_generation_period (gp_config g) = 512 /\
      name (gp_config g) = Some (node_name (network_config config)) /\
      observer_enabled (gp_config g) = false /\
      gc_keystore (gp_config g) =
        (if is_authority (role config) then Some (keystore (keystore_container p)) else None) /\
      local_role (gp_config g) = role config /\
      gc_telemetry (gp_config g) = handle_of p /\
      protocol_name (gp_config g) = np_protocol_name config n /\
      gp_link g = other_grandpa_link p /\ gp_network g = np_network n /\
      gp_sync g = np_sync_service n /\
      gp_notification_service g = np_notification_service n /\
      gp_prometheus_registry g = prometheus_registry config /\
      gp_telemetry g = handle_of p /\
      gp_offchain_tx_pool_factory g = offchain_pool_factory (transaction_pool p) /\
      exists task, a = AOk task /\ tp_voter k = Some task
    | spawn_blocking h task_name group task => fun _ =>
      h = spawn_essential_handle (task_manager p) /\
      (task_name = "aura"%string /\ group = Some "block-authoring"%string /\
         tp_aura k = Some task \/
       task_name = "grandpa-voter"%string /\ group = None /\ tp_voter k = Some task)
    | start_network s => fun _ => s = np_network_starter n
    | _ => fun _ => False
    end x
  end.

(** One call of a successful run. *)
Lemma runs_call_Ok {X B} (e : svcE X) (k : X -> io svcE ServiceError B) tr b :
  runs (ibind (Effects.call e) k) tr (Ok b) <->
  exists x tr', tr = Obs e x :: tr' /\ runs (k x) tr' (Ok b).
Proof. done. Qed.

Lemma runs_try_call_Ok {Er X B} (conv : Er -> ServiceError) (e : svcE (answer Er X))
  (k : X -> io svcE ServiceError B) tr b :
  runs (ibind (try_call conv e) k) tr (Ok b) ->
  exists x tr', tr = Obs e (AOk x) :: tr' /\ runs (k x) tr' (Ok b).
Proof.
  intros (a & tr' & -> & H). destruct a as [x | er]; [by exists x, tr' | by destruct H].
Qed.

Tactic Notation "step_ok" hyp(H) simple_intropattern(x) :=
  let tr := fresh "tr" in
  first [apply runs_try_call_Ok in H as (x & tr & -> & H)
        | apply runs_call_Ok in H as (x & tr & -> & H)].

Lemma new_telemetry_worker_Ok config tr t :
  runs (new_telemetry_worker config) tr (Ok t) ->
  match t with
  | None => tr = []
  | Some (worker, telemetry) => exists endpoints,
      used_endpoints config = Some endpoints /\
      tr = [Obs (TelemetryWorker_new 16) (AOk worker);
            Obs (new_telemetry (worker_handle worker) endpoints) telemetry]
  end.
Proof.
  unfold new_telemetry_worker. destruct (used_endpoints config); intros H.
  - step_ok H worker. step_ok H telemetry. destruct H as [-> [= ->]]. eauto.
  - by destruct H as [-> [= ->]].
Qed.

Lemma new_partial_wired config tr p :
  runs (new_partial config) tr (Ok p) -> exists m, Forall (wired_partial config m p) tr.
Proof.
  unfold new_partial. intros H.
  apply runs_ibind_Ok in H as (tr1 & tr2 & t & -> & Ht%new_telemetry_worker_Ok & H).
  step_ok H executor. step_ok H [[[c b] ks] tm].
  apply runs_ibind_Ok in H as (tr3 & tr4 & t' & -> & Ht' & H).
  step_ok H chain. step_ok H pool. step_ok H [block_import link].
  step_ok H iq. destruct H as [-> [= ->]].
  exists {| sp_worker := fst <$> t; sp_executor := executor |}.
  destruct t as [[worker telemetry] |].
  - destruct Ht as (endpoints & He & ->). step_ok Ht' u. destruct Ht' as [-> [= ->]].
    repeat constructor; eauto 10.
  - subst tr1. destruct Ht' as [-> [= ->]]. repeat constructor.
Qed.

Lemma runs_expect_Ok {X B} (o : option X) m (k : X -> io svcE ServiceError B) tr b :
  runs (ibind (of_outcome (expect o m)) k) tr (Ok b) ->
  exists x, o = Some x /\ runs (k x) tr (Ok b).
Proof. destruct o; [by eauto | by intros [_ [=]]]. Qed.

Lemma answered_some {Er X} (a : answer Er (option X)) x :
  mjoin (answer_ok a) = Some x -> a = AOk (Some x).
Proof. by destruct a as [[] |]; intros [=]; subst. Qed.

Lemma runs_when_Ok b p tr :
  runs (when b p) tr (Ok tt) -> b = true /\ runs p tr (Ok tt) \/ b = false /\ tr = [].
Proof. destruct b; [by left | intros [-> _]; by right]. Qed.

(** The calls of each group of tasks, for any parts that agree with what the
    group made. *)
Lemma start_offchain_workers_wired config p n b tr :
  runs (when b (start_offchain_workers config p (np_network n))) tr (Ok tt) ->
  exists w, forall k, tp_offchain_workers k = w -> Forall (wired_rest config p n k) tr.
Proof.
  intros [[_ H] | [_ ->]]%runs_when_Ok; [| exists None; by constructor].
  step_ok H w. destruct H as ([] & tr' & -> & -> & _). exists (Some w). intros k Hk.
  repeat constructor; done.
Qed.

Lemma start_authoring_wired config p n b tr :
  runs (when b (start_authoring config p (np_sync_service n))) tr (Ok tt) ->
  exists f d a, forall k,
    tp_proposer_factory k = f -> tp_slot_duration k = d -> tp_aura k = a ->
    Forall (wired_rest config p n k) tr.
Proof.
  intros [[_ H] | [_ ->]]%runs_when_Ok; [| exists None, None, None; by constructor].
  step_ok H f. step_ok H d. step_ok H a. destruct H as ([] & tr' & -> & -> & _).
  exists (Some f), (Some d), (Some a). intros k Hf Hd Ha. repeat constructor; eauto.
Qed.

Lemma start_grandpa_wired config p n b tr :
  runs (when b (start_grandpa config p (np_network n) (np_sync_service n)
    (np_protocol_name config n) (np_notification_service n))) tr (Ok tt) ->
  exists v, forall k, tp_voter k = v -> Forall (wired_rest config p n k) tr.
Proof.
  intros [[_ H] | [_ ->]]%runs_when_Ok; [| exists None; by constructor].
  step_ok H v. destruct H as ([] & tr' & -> & -> & _). exists (Some v). intros k Hk.
  apply Forall_cons_2; [by repeat constructor; eauto |].
  apply Forall_singleton. split; [done | by right].
Qed.

Lemma new_full_wired (config : Configuration) tr tm :
  runs (new_full config) tr (Ok tm) ->
  exists m p n k tr1 tr2,
    tr = tr1 ++ tr2 /\ tm = task_manager p /\
    Forall (wired_partial config m p) tr1 /\ Forall (wired_rest config p n k) tr2.
Proof.
  unfold new_full. intros H.
  apply runs_ibind_Ok in H as (tr1 & tr2 & p & -> & [m Hp]%new_partial_wired & H).
  step_ok H genesis. apply runs_expect_Ok in H as (hash & ->%answered_some & H).
  step_ok H [protocol_config notifications].
  step_ok H [[[[network rpc_tx] tx_handler] starter] sync].
  apply runs_ibind_Ok in H as (tr3 & tr4 & [] & -> & Ho & H).
  step_ok H handlers.
  apply runs_ibind_Ok in H as (tr5 & tr6 & [] & -> & Ha & H).
  apply runs_ibind_Ok in H as (tr7 & tr8 & [] & -> & Hg & H).
  step_ok H started. destruct H as [-> [= ->]].
  set (n := {| np_genesis_hash := hash; np_protocol_config := protocol_config;
               np_notification_service := notifications; np_network := network;
               np_system_rpc_tx := rpc_tx; np_tx_handler_controller := tx_handler;
               np_network_starter := starter; np_sync_service := sync |}).
  apply (start_offchain_workers_wired config p n) in Ho as [w Ho].
  apply (start_authoring_wired config p n) in Ha as (f & d & a & Ha).
  apply (start_grandpa_wired config p n) in Hg as [v Hg].
  exists m, p, n, {| tp_offchain_workers := w; tp_proposer_factory := f; tp_slot_duration := d;
                     tp_aura := a; tp_voter := v |}.
  eexists tr1, _. split; [reflexivity |]. split; [done |]. split; [done |].
  repeat (apply Forall_cons_2 || apply Forall_app_2); auto; done.
Qed.

(** C11: A service that starts is wired throughout: every argument of every call
    is a value of the configuration, a constant of the source, or the one part
    that an earlier call made. The client, backend, pool, keystore, selection
    chain, import queue, GRANDPA link, telemetry and task manager of
    [new_partial] are those of the network, the off-chain workers, the RPC,
    block authoring and the voter; the network and sync services and the starter
    are those of [build_network]; the voter and the network use the protocol of
    one genesis hash; only an authority's voter has the keystore; the RPC
    builder builds the node's methods for this client and pool; each task
    spawned is the one its component made, and all are spawned on the task
    manager that is returned. *)
Theorem new_full_wiring (config : Configuration) tr tm :
  runs (new_full config) tr (Ok tm) ->
  exists m p n k tr1 tr2,
    tr = tr1 ++ tr2 /\ tm = task_manager p /\
    Forall (wired_partial config m p) tr1 /\ Forall (wired_rest config p n k) tr2.
Proof. apply new_full_wired. Qed.
End Wiring.

(** ** The slot portion *)
Section SlotPortion.
Context {T : ServiceTypes}.

(** The share of a slot given to block authoring is two thirds rounded to
    a 24-bit significand: below one, and within half a unit in the last place
    of 2/3. *)
Theorem slot_portion_two_thirds :
  exists m, block_proposal_slot_portion = S754_finite false m (-24) /\
            2 ^ 23 <= Zpos m < 2 ^ 24 /\ 2 * Z.abs (3 * Zpos m - 2 * 2 ^ 24) <= 3.
Proof. exists 11184811%positive. by vm_compute. Qed.
End SlotPortion.

(** ** A concrete node: every part is a unit, every call succeeds *)
Module Concrete.
Definition unit_types : ServiceTypes := {|
  Hash := Z; ServiceError := string; TelemetryError := string; ClientError := string;
  ConsensusError := string; TelemetryEndpoints := list string; TelemetryWorker := unit;
  TelemetryWorkerHandle := unit; Telemetry := unit; TelemetryHandle := unit;
  TxPoolOptions := unit; Role := bool; Registry := unit; NetworkConfiguration := string;
  ChainSpec := string; DatabaseSource := unit; WasmExecutor := unit; FullClient := unit; FullBackend := unit;
  KeystoreContainer := unit; KeystorePtr := unit; TaskManager := unit; Task := unit;
  FullSelectChain := unit; FullPool := unit; GrandpaBlockImport := unit; LinkHalf := unit;
  SharedAuthoritySet := unit; ImportQueue := unit; FullNetworkConfiguration := list string;
  ProtocolName := string; ProtocolConfig := string; NotificationService := unit;
  WarpSyncProvider := unit; NetworkService := unit; SystemRpcTx := unit;
  TxHandlerController := unit; NetworkStarter := unit; SyncingService := unit;
  OffchainStorage := unit; OffchainTransactionPoolFactory := unit; RpcHandlers := unit;
  ProposerFactory := unit; SlotDuration := Z; SlotProportion := spec_float; Slot := Z;
  Timestamp := Z; CidpError := string;
  service_rpc := names_rpc;
  telemetry_error_into e := e; client_error_into e := e; consensus_error_into e := e;
  rpc_error_into _ := "rpc"%string; cidp_error_into e := e;
  endpoints_is_empty l := bool_decide (l = []);
  worker_handle w := w; worker_run w := w; telemetry_handle t := t;
  is_authority r := r; node_name n := n; keystore k := k; shared_authority_set l := l;
  network_configuration_new n := [n];
  protocol_standard_name _ s := String.append s "/grandpa/1";
  add_notification_protocol p c := c ++ [p];
  warp_sync_provider _ _ _ := tt; offchain_storage _ := None; offchain_pool_factory p := p;
  SlotProportion_new f := f;
  slot_from_timestamp_and_slot_duration t d := t `div` d;
|}.

#[local] Existing Instance unit_types.

(** An authority with telemetry, off-chain workers and GRANDPA. *)
Definition authority : Configuration := {|
  telemetry_endpoints := Some ["wss://telemetry"%string];
  transaction_pool_options := tt; role := true; prometheus_registry := None;
  network_config := "alice"%string; chain_spec := "dev"%string; database := tt;
  offchain_worker_enabled := true; force_authoring := false; disable_grandpa := false;
|}.

(** A full node without any of them. *)
Definition follower : Configuration := {|
  telemetry_endpoints := Some [];
  transaction_pool_options := tt; role := false; prometheus_registry := None;
  network_config := "eve"%string; chain_spec := "dev"%string; database := tt;
  offchain_worker_enabled := false; force_authoring := false; disable_grandpa := true;
|}.

(** Every call succeeds; the genesis block has the hash [genesis], if any. *)
Definition answers (genesis : option Z) : handler svcE unit :=
  fun X e s =>
    (match e in svcE X return X with
     | TelemetryWorker_new _ => AOk tt
     | new_telemetry _ _ => tt
     | new_wasm_executor _ => tt
     | new_full_parts _ _ _ => AOk (tt, tt, tt, tt)
     | spawn _ _ _ _ => tt
     | spawn_blocking _ _ _ _ => tt
     | LongestChain_new _ => tt
     | BasicPool_new_full _ _ _ _ _ => tt
     | grandpa_block_import _ _ _ _ _ => AOk (tt, tt)
     | aura_import_queue _ => AOk tt
     | client_block_hash _ _ => AOk genesis
     | grandpa_peers_set_config n => (n, tt)
     | build_network _ => AOk (tt, tt, tt, tt, tt)
     | offchain_workers_run _ _ _ => tt
     | spawn_tasks _ => AOk tt
     | ProposerFactory_new _ _ _ _ _ => tt
     | aura_slot_duration _ => AOk 6000
     | start_aura _ => AOk tt
     | run_grandpa_voter _ => AOk tt
     | start_network _ => tt
     end, s).

Definition trace_of (genesis : option Z) (config : Configuration) : list (obs svcE) :=
  exec_trace (answers genesis) (new_full config) tt.

Lemma run_of genesis config :
  runs (new_full config) (trace_of genesis config)
    (exec (answers genesis) (new_full config) tt).1.
Proof. apply exec_runs. Qed.

(** Without a genesis block the service stops at the tenth call. *)
Lemma no_genesis_call_order :
  length (trace_of None authority) = 10%nat /\
  map op_of (trace_of None authority) `prefix_of` full_script authority.
Proof.
  split; [reflexivity |].
  apply (new_full_call_order authority (trace_of None authority) _ (run_of None authority)).
Defined.

Lemma authority_starts :
  exists tm, (exec (answers (Some 7)) (new_full authority) tt).1 = Ok tm /\
             map op_of (exec_trace (answers (Some 7)) (new_full authority) tt) =
               full_script authority.
Proof.
  apply (service_starts (answers (Some 7)) (fun _ => True) authority tt); [| exact I].
  intros X e s' _. split; [destruct e; reflexivity | exact I].
Defined.

Lemma follower_starts_network :
  exists tr0 o, trace_of (Some 7) follower = tr0 ++ [o] /\ op_of o = op_start_network /\
                op_start_network ∉ map op_of tr0.
Proof.
  apply (network_starts_last follower (trace_of (Some 7) follower) _ (run_of (Some 7) follower)).
Defined.

Lemma authority_wired :
  exists m p n k tr1 tr2,
    trace_of (Some 7) authority = tr1 ++ tr2 /\ tt = task_manager p /\
    Forall (wired_partial authority m p) tr1 /\ Forall (wired_rest authority p n k) tr2.
Proof.
  apply (new_full_wiring authority (trace_of (Some 7) authority) tt (run_of (Some 7) authority)).
Defined.
End Concrete.
