(* ===== verification/Command.v ===== *)
(** * The command line ([node/src/{main,cli,command}.rs])

    The subcommands, the selection of a chain specification, and [run]: which
    runner each subcommand creates and what it runs in it. *)

From S2P Require Import Prelude Effects Runtime ChainSpec Benchmarking Service.

Set Default Proof Using "Type".

(** ** Types of [sc_cli] and [frame_benchmarking_cli] *)
Class CommandTypes `{ServiceTypes} := {
  CliError : Type;
  Error_Service : ServiceError -> CliError;
  error_from_service : ServiceError -> CliError;
  error_from_str : string -> CliError;
  RunCmd : Type;
  KeySubcommand : Type;
  BuildSpecCmd : Type;
  CheckBlockCmd : Type;
  ExportBlocksCmd : Type;
  ExportStateCmd : Type;
  ImportBlocksCmd : Type;
  PurgeChainCmd : Type;
  RevertCmd : Type;
  ChainInfoCmd : Type;
  PalletCmd : Type;
  StorageCmd : Type;
  OverheadCmd : Type;
  BlockCmd : Type;
  MachineCmd : Type;
  BenchExtrinsicCmd : Type;
  Runner : Type;
  runner_config : Runner -> Configuration;
  ExposedDb : Type;
  ExposedStorage : Type;
  expose_db : FullBackend -> ExposedDb;
  expose_storage : FullBackend -> ExposedStorage;
  InherentData : Type;
  ReferenceHardware : Type;
  SUBSTRATE_REFERENCE_HARDWARE : ReferenceHardware;
  DEPRECATION_NOTICE : string;
  SUBSTRATE_CLI_IMPL_VERSION : string;
  CARGO_PKG_DESCRIPTION : string;
  CARGO_PKG_AUTHORS : string;
}.

(** ** Chain specification of an id *)

(** Reading a specification from a file. *)
Inductive specE (Spec : Type) : Type -> Type :=
| from_json_file (path : string) : specE Spec (answer string Spec).
Arguments from_json_file {Spec} _.

Section LoadSpec.
Context {K : Keys} {B : ChainSpecBuilder}.
Variable WASM_BINARY : option Code.

Definition load_spec (id : string) : io (specE ChainSpec.ChainSpec) string ChainSpec.ChainSpec :=
  if decide (id = "dev"%string) then of_outcome (development_config WASM_BINARY)
  else if decide (id = ""%string \/ id = "local"%string)
  then of_outcome (local_testnet_config WASM_BINARY)
  else try_call (fun e => e) (from_json_file id).

Context {KL : KeysLaws} {BL : ChainSpecBuilderLaws}.

Definition builtin_ids : list string := ["dev"; ""; "local"]%string.

(** What a built-in id loads. *)
Lemma load_builtin (id : string) tr spec :
  collision_free -> id ∈ builtin_ids -> runs (load_spec id) tr (Ok spec) ->
  WASM_BINARY = Some (spec_code spec) /\
  chain_id spec = (if decide (id = "dev"%string) then "dev" else "local_testnet")%string /\
  exists g, read_genesis (genesis_patch spec) = Some g /\ genesis_ok g.
Proof using All.
  intros Hcf Hid Hr. unfold load_spec in Hr. repeat case_decide; [| | set_solver].
  - destruct Hr as [_ Hs]. symmetry in Hs.
    destruct (builtin_head WASM_BINARY spec) as [(? & _ & ? & _) _]; [done |].
    split_and!; [done | done | eapply (builtin_genesis WASM_BINARY); eauto].
  - destruct Hr as [_ Hs]. symmetry in Hs.
    destruct (builtin_head WASM_BINARY spec) as [_ (? & _ & ? & _)]; [done |].
    split_and!; [done | done | eapply (builtin_genesis WASM_BINARY); eauto].
Qed.

(** C21: Loading a specification reads a file exactly for the ids that are not
    built in, and then only the file the id names, whose answer is the result;
    for the ids "dev", "" and "local" it reads nothing, and what it loads
    carries the node's own runtime, the identifier of its configuration and a
    genesis the runtime accepts. *)
Theorem load_spec_selects (id : string) tr r :
  collision_free -> runs (load_spec id) tr r ->
  if bool_decide (id ∈ builtin_ids)
  then tr = [] /\ forall spec, r = Ok spec ->
         WASM_BINARY = Some (spec_code spec) /\
         chain_id spec = (if decide (id = "dev"%string) then "dev" else "local_testnet")%string /\
         exists g, read_genesis (genesis_patch spec) = Some g /\ genesis_ok g
  else exists a, tr = [Obs (from_json_file id) a] /\ r = of_answer (fun e => e) a.
Proof using All.
  intros Hcf Hr. case_bool_decide as Hid.
  - split; [| intros spec ->; by eapply load_builtin].
    unfold load_spec in Hr. repeat case_decide; [by destruct Hr .. | set_solver].
  - unfold load_spec in Hr. rewrite !decide_False in Hr by set_solver.
    destruct Hr as (a & tr' & -> & -> & ->). eauto.
Qed.
End LoadSpec.

(** ** The command line *)
Section Cli.
Context {T : ServiceTypes} {CT : CommandTypes} {X : ExtrinsicTypes}.

(** [frame_benchmarking_cli::BenchmarkCmd], as [run] matches on it. *)
Inductive BenchmarkCmd :=
| Pallet (cmd : PalletCmd)
| Storage (cmd : StorageCmd)
| Overhead (cmd : OverheadCmd)
| Block (cmd : BlockCmd)
| Machine (cmd : MachineCmd)
| Extrinsic (cmd : BenchExtrinsicCmd).

Inductive Subcommand :=
| Key (cmd : KeySubcommand)
| BuildSpec (cmd : BuildSpecCmd)
| CheckBlock (cmd : CheckBlockCmd)
| ExportBlocks (cmd : ExportBlocksCmd)
| ExportState (cmd : ExportStateCmd)
| ImportBlocks (cmd : ImportBlocksCmd)
| PurgeChain (cmd : PurgeChainCmd)
| Revert (cmd : RevertCmd)
| Benchmark (cmd : BenchmarkCmd)
| TryRuntime
| ChainInfo (cmd : ChainInfoCmd).

Record Cli := { subcommand : option Subcommand; cli_run : RunCmd }.

(** What [create_runner] is given: the command's own configuration. *)
Inductive CliConfiguration :=
| RunConfiguration (cmd : RunCmd)
| SubcommandConfiguration (cmd : Subcommand).

(** The [SubstrateCli] implementation of [Cli]. *)
Definition impl_name : string := "Substrate Node".
Definition impl_version : string := SUBSTRATE_CLI_IMPL_VERSION.
Definition description : string := CARGO_PKG_DESCRIPTION.
Definition author : string := CARGO_PKG_AUTHORS.
Definition support_url : string := "support.anonymous.an".
Definition copyright_start_year : Z := 2017.

(** The closure given to [RevertCmd::run]. *)
Inductive revertE : Type -> Type :=
| grandpa_revert (c : FullClient) (blocks : Z) : revertE (answer Service.ClientError unit).

Definition AuxRevert : Type := FullClient -> FullBackend -> Z -> io revertE CliError unit.

Definition aux_revert (into : Service.ClientError -> CliError) : AuxRevert :=
  fun client _ blocks => try_call into (grandpa_revert client blocks) ;;; iret tt.

(** The futures of the asynchronous subcommands: calls made when polled. *)
Inductive CommandFuture :=
| CheckBlock_run (cmd : CheckBlockCmd) (c : FullClient) (q : ImportQueue)
| ExportBlocks_run (cmd : ExportBlocksCmd) (c : FullClient) (db : DatabaseSource)
| ExportState_run (cmd : ExportStateCmd) (c : FullClient) (spec : Service.ChainSpec)
| ImportBlocks_run (cmd : ImportBlocksCmd) (c : FullClient) (q : ImportQueue)
| Revert_run (cmd : RevertCmd) (c : FullClient) (b : FullBackend) (aux : option AuxRevert).

(** The calls of [run]. *)
Inductive cmdE : Type -> Type :=
| from_args : cmdE Cli
| create_runner (cli : Cli) (cmd : CliConfiguration) : cmdE (answer CliError Runner)
| Service {A} (e : svcE A) : cmdE A
| Key_run (cmd : KeySubcommand) (cli : Cli) : cmdE (answer CliError unit)
| BuildSpec_run (cmd : BuildSpecCmd) (spec : Service.ChainSpec) (network : NetworkConfiguration)
  : cmdE (answer CliError unit)
| PurgeChain_run (cmd : PurgeChainCmd) (db : DatabaseSource) : cmdE (answer CliError unit)
| ChainInfo_run (cmd : ChainInfoCmd) (config : Configuration) : cmdE (answer CliError unit)
| Pallet_run (cmd : PalletCmd) (config : Configuration) : cmdE (answer CliError unit)
| Block_run (cmd : BlockCmd) (c : FullClient) : cmdE (answer CliError unit)
| Storage_run (cmd : StorageCmd) (config : Configuration) (c : FullClient) (db : ExposedDb)
    (storage : ExposedStorage) : cmdE (answer CliError unit)
| Overhead_run (cmd : OverheadCmd) (config : Configuration) (c : FullClient) (d : InherentData)
    (digest : list Z) (b : @ExtrinsicBuilder X FullClient) : cmdE (answer CliError unit)
| Extrinsic_run (cmd : BenchExtrinsicCmd) (c : FullClient) (d : InherentData)
    (digest : list Z) (factory : list (@ExtrinsicBuilder X FullClient))
  : cmdE (answer CliError unit)
| Machine_run (cmd : MachineCmd) (config : Configuration) (h : ReferenceHardware)
  : cmdE (answer CliError unit)
| run_until_exit (future : CommandFuture) (tm : TaskManager) : cmdE (answer CliError unit)
| run_service (tm : TaskManager) : cmdE (answer CliError unit).

(** [sc_cli::Runner]: the three ways a runner runs a closure. *)
Class Runners := {
  sync_run : Runner -> (Configuration -> io cmdE CliError unit) -> io cmdE CliError unit;
  async_run :
    Runner -> (Configuration -> io cmdE CliError (CommandFuture * TaskManager)) ->
    io cmdE CliError unit;
  run_node_until_exit :
    Runner -> (Configuration -> io cmdE CliError TaskManager) -> io cmdE CliError unit;
}.

(** Each gives its configuration to the closure; the asynchronous ones then run
    the future, or the service, to its end. *)
Class RunnersLaws `{Runners} : Prop := {
  sync_run_spec r f : sync_run r f ≡ f (runner_config r);
  async_run_spec r f :
    async_run r f ≡
    ibind (f (runner_config r)) (fun '(future, tm) => try_call id (run_until_exit future tm));
  run_node_spec r f :
    run_node_until_exit r f ≡
    ibind (f (runner_config r)) (fun tm => try_call id (run_service tm));
}.
End Cli.

(** ** [run] *)
Section Run.
Context {T : ServiceTypes} {CT : CommandTypes} {X : ExtrinsicTypes} {R : Runners}.
(** Cargo features of the node. *)
Variables runtime_benchmarks try_runtime : bool.
(** What the benchmark builders and the revert closure take. *)
Variable using_encoded : SignedPayload -> Bytes.
Variables (Apis : Type) (RUNTIME_API_VERSIONS : Apis).
Variable into_opaque : UncheckedExtrinsic -> OpaqueExtrinsic.
Variable ProvideError : Type.
Variable InherentData_new : InherentData.
Variable provide_timestamp : Z -> InherentData -> outcome ProvideError InherentData.
Variable debug : ProvideError -> string.
Variable client_error_into_cli : Service.ClientError -> CliError.

(** A service constructor inside a command. *)
Definition service {A} (p : io svcE ServiceError A) : io cmdE ServiceError A :=
  translate (fun _ e => Service e) p.

(** [service::new_partial(&config)?]. *)
Definition partial (config : Configuration) : io cmdE CliError PartialComponents :=
  imap_err error_from_service (service (new_partial config)).

(** [inherent_benchmark_data()?]. *)
Definition inherents : io cmdE CliError InherentData :=
  of_outcome (map_err error_from_str
    (inherent_benchmark_data InherentData ProvideError InherentData_new provide_timestamp debug)).

Definition benchmarks_disabled : string :=
  "Runtime benchmarking wasn't enabled when building the node. You can enable it with `--features runtime-benchmarks`.".
Definition storage_disabled : string :=
  "Storage benchmarking can be enabled with `--features runtime-benchmarks`.".
Definition try_runtime_disabled : string :=
  "TryRuntime wasn't enabled when building the node. You can enable it with `--features try-runtime`.".

(** The closure of the [Benchmark] subcommand. *)
Definition run_benchmark (cmd : BenchmarkCmd) (config : Configuration)
  : io cmdE CliError unit :=
  match cmd with
  | Pallet cmd =>
    if negb runtime_benchmarks then fail (error_from_str benchmarks_disabled)
    else try_call id (Pallet_run cmd config)
  | Block cmd =>
    let* p := partial config in
    try_call id (Block_run cmd (client p))
  | Storage cmd =>
    if runtime_benchmarks then
      let* p := partial config in
      let db := expose_db (backend p) in
      let storage := expose_storage (backend p) in
      try_call id (Storage_run cmd config (client p) db storage)
    else fail (error_from_str storage_disabled)
  | Overhead cmd =>
    let* p := partial config in
    let ext_builder :=
      RemarkBuilder using_encoded Apis RUNTIME_API_VERSIONS into_opaque (client p) in
    let* data := inherents in
    try_call id (Overhead_run cmd config (client p) data [] ext_builder)
  | Extrinsic cmd =>
    let* p := partial config in
    let ext_factory :=
      [RemarkBuilder using_encoded Apis RUNTIME_API_VERSIONS into_opaque (client p);
       TransferKeepAliveBuilder using_encoded Apis RUNTIME_API_VERSIONS into_opaque (client p)
         keyring_Alice_account EXISTENTIAL_DEPOSIT] in
    let* data := inherents in
    try_call id (Extrinsic_run cmd (client p) data [] ext_factory)
  | Machine cmd => try_call id (Machine_run cmd config SUBSTRATE_REFERENCE_HARDWARE)
  end.

(** [cli.create_runner(cmd)?]. *)
Definition runner_of (cli : Cli) (cmd : CliConfiguration) : io cmdE CliError Runner :=
  try_call id (create_runner cli cmd).

Definition run_subcommand (cli : Cli) (sub : Subcommand) : io cmdE CliError unit :=
  match sub with
  | Key cmd => try_call id (Key_run cmd cli)
  | BuildSpec cmd =>
    let* runner := runner_of cli (SubcommandConfiguration sub) in
    sync_run runner (fun config =>
      try_call id (BuildSpec_run cmd (chain_spec config) (network_config config)))
  | CheckBlock cmd =>
    let* runner := runner_of cli (SubcommandConfiguration sub) in
    async_run runner (fun config =>
      let* p := partial config in
      iret (CheckBlock_run cmd (client p) (import_queue p), task_manager p))
  | ExportBlocks cmd =>
    let* runner := runner_of cli (SubcommandConfiguration sub) in
    async_run runner (fun config =>
      let* p := partial config in
      iret (ExportBlocks_run cmd (client p) (database config), task_manager p))
  | ExportState cmd =>
    let* runner := runner_of cli (SubcommandConfiguration sub) in
    async_run runner (fun config =>
      let* p := partial config in
      iret (ExportState_run cmd (client p) (chain_spec config), task_manager p))
  | ImportBlocks cmd =>
    let* runner := runner_of cli (SubcommandConfiguration sub) in
    async_run runner (fun config =>
      let* p := partial config in
      iret (ImportBlocks_run cmd (client p) (import_queue p), task_manager p))
  | PurgeChain cmd =>
    let* runner := runner_of cli (SubcommandConfiguration sub) in
    sync_run runner (fun config => try_call id (PurgeChain_run cmd (database config)))
  | Revert cmd =>
    let* runner := runner_of cli (SubcommandConfiguration sub) in
    async_run runner (fun config =>
      let* p := partial config in
      iret (Revert_run cmd (client p) (backend p) (Some (aux_revert client_error_into_cli)),
            task_manager p))
  | Benchmark cmd =>
    let* runner := runner_of cli (SubcommandConfiguration sub) in
    sync_run runner (run_benchmark cmd)
  | TryRuntime =>
    if try_runtime then fail (error_from_str DEPRECATION_NOTICE)
    else fail (error_from_str try_runtime_disabled)
  | ChainInfo cmd =>
    let* runner := runner_of cli (SubcommandConfiguration sub) in
    sync_run runner (fun config => try_call id (ChainInfo_run cmd config))
  end.

Definition run : io cmdE CliError unit :=
  let* cli := Effects.call from_args in
  match subcommand cli with
  | Some sub => run_subcommand cli sub
  | None =>
    let* runner := runner_of cli (RunConfiguration (cli_run cli)) in
    run_node_until_exit runner (fun config => imap_err Error_Service (service (new_full config)))
  end.

(** [main]. *)
Definition main : io cmdE CliError unit := run.
End Run.

(** ** The service calls of a run *)
Section Calls.
Context {T : ServiceTypes} {CT : CommandTypes} {X : ExtrinsicTypes}.

Definition service_obs : obs svcE -> obs cmdE := obs_map (fun _ e => Service e).

Definition svc_call (o : obs cmdE) : option (obs svcE) :=
  match o with
  | Obs e x =>
    match e in cmdE A return A -> option (obs svcE) with
    | Service e => fun x => Some (Obs e x)
    | _ => fun _ => None
    end x
  end.

Definition svc_calls (tr : list (obs cmdE)) : list (obs svcE) := omap svc_call tr.

Definition quiet (o : obs cmdE) : Prop := svc_call o = None.

Lemma svc_calls_service l : svc_calls (map service_obs l) = l.
Proof. induction l as [| [A e x] l IH]; simpl; [done |]. by f_equal. Qed.

Lemma svc_calls_app l l' : svc_calls (l ++ l') = svc_calls l ++ svc_calls l'.
Proof. apply omap_app. Qed.

Lemma svc_calls_quiet l : Forall quiet l -> svc_calls l = [].
Proof. induction 1 as [| o l H _ IH]; [done |]. unfold svc_calls; simpl. by rewrite H. Qed.

Lemma each_quiet_call {A} (e : cmdE (answer CliError A)) :
  (forall x, quiet (Obs e x)) -> each quiet (try_call id e).
Proof. apply each_try_call. Qed.

Lemma runs_service {A} (f : ServiceError -> CliError) (p : io svcE ServiceError A) tr o :
  runs (imap_err f (service p)) tr o <->
  exists l o', tr = map service_obs l /\ o = map_err f o' /\ runs p l o'.
Proof.
  rewrite runs_imap_err. unfold service. split.
  - intros (o' & -> & (l & -> & H)%runs_translate). eauto.
  - intros (l & o' & -> & -> & H). exists o'. split; [done |]. apply runs_translate. eauto.
Qed.

(** What a service constructor that failed makes of the rest of the command. *)
Definition failed_as {A B} (f : ServiceError -> CliError) (o : outcome ServiceError A)
  (r : outcome CliError B) : Prop :=
  match o with Ok _ => True | Err e => r = Err (f e) | Panic m => r = Panic m end.

(** A service constructor followed by calls of another kind. *)
Lemma runs_service_then {A B} (f : ServiceError -> CliError) (p : io svcE ServiceError A)
  (k : A -> io cmdE CliError B) tr r :
  (forall a, each quiet (k a)) ->
  runs (ibind (imap_err f (service p)) k) tr r ->
  exists o, runs p (svc_calls tr) o /\ failed_as f o r.
Proof.
  intros Hk (tr1 & tr2 & o & -> & (l & o' & -> & -> & H)%runs_service & H2)%runs_bind.
  exists o'. rewrite svc_calls_app, svc_calls_service.
  destruct o'; simpl in H2; [| destruct H2 as [-> ->]; by rewrite app_nil_r ..].
  rewrite (svc_calls_quiet tr2) by by eapply Hk. by rewrite app_nil_r.
Qed.
End Calls.

Section Properties.
Context {T : ServiceTypes} {CT : CommandTypes} {X : ExtrinsicTypes} {R : Runners}.
Context {RL : RunnersLaws}.
Variables runtime_benchmarks try_runtime : bool.
Variable using_encoded : SignedPayload -> Bytes.
Variables (Apis : Type) (RUNTIME_API_VERSIONS : Apis).
Variable into_opaque : UncheckedExtrinsic -> OpaqueExtrinsic.
Variable ProvideError : Type.
Variable InherentData_new : InherentData.
Variable provide_timestamp : Z -> InherentData -> outcome ProvideError InherentData.
Variable debug : ProvideError -> string.
Variable client_error_into_cli : Service.ClientError -> CliError.

Local Abbreviation benchmark_io := (run_benchmark runtime_benchmarks using_encoded Apis
  RUNTIME_API_VERSIONS into_opaque ProvideError InherentData_new provide_timestamp debug).
Local Abbreviation subcommand_io := (run_subcommand runtime_benchmarks try_runtime
  using_encoded Apis RUNTIME_API_VERSIONS into_opaque ProvideError InherentData_new
  provide_timestamp debug client_error_into_cli).
Local Abbreviation run_io := (run runtime_benchmarks try_runtime using_encoded Apis
  RUNTIME_API_VERSIONS into_opaque ProvideError InherentData_new provide_timestamp debug
  client_error_into_cli).

(** Which constructor of the service a command line may call. *)
Inductive service_use := NoService | PartialService | FullService.

Definition benchmark_use (cmd : BenchmarkCmd) : service_use :=
  match cmd with
  | Pallet _ | Machine _ => NoService
  | Storage _ => if runtime_benchmarks then PartialService else NoService
  | Overhead _ | Block _ | Extrinsic _ => PartialService
  end.

Definition subcommand_use (sub : Subcommand) : service_use :=
  match sub with
  | Key _ | BuildSpec _ | PurgeChain _ | TryRuntime | ChainInfo _ => NoService
  | CheckBlock _ | ExportBlocks _ | ExportState _ | ImportBlocks _ | Revert _ => PartialService
  | Benchmark cmd => benchmark_use cmd
  end.

(** The service calls [l] of a command with result [r]: none, or a run of the
    constructor on the runner's configuration, whose failure is the result. *)
Definition service_calls (u : service_use) (config : Configuration) (l : list (obs svcE))
  (r : outcome CliError unit) : Prop :=
  match u with
  | NoService => l = []
  | PartialService =>
    exists o, runs (new_partial config) l o /\ failed_as error_from_service o r
  | FullService => exists o, runs (new_full config) l o /\ failed_as Error_Service o r
  end.

(** A command that needs a runner: without one it does nothing more. *)
Definition with_runner (cli : Cli) (cmd : CliConfiguration) (u : service_use)
  (tr : list (obs cmdE)) (r : outcome CliError unit) : Prop :=
  (exists e, tr = [Obs (create_runner cli cmd) (AErr e)] /\ r = Err e) \/
  (exists runner rest, tr = Obs (create_runner cli cmd) (AOk runner) :: rest /\
     service_calls u (runner_config runner) (svc_calls rest) r).

Lemma runner_of_inv cli cmd u (k : Runner -> io cmdE CliError unit) tr r :
  (forall runner rest, runs (k runner) rest r ->
     service_calls u (runner_config runner) (svc_calls rest) r) ->
  runs (ibind (runner_of cli cmd) k) tr r -> with_runner cli cmd u tr r.
Proof.
  intros Hk ([runner | e] & rest & -> & H); simpl in H.
  - right. exists runner, rest. auto.
  - left. destruct H as [-> ->]. by exists e.
Qed.

Lemma each_inherents :
  each quiet (inherents ProvideError InherentData_new provide_timestamp debug).
Proof. apply each_ret. Qed.

Lemma run_benchmark_calls cmd config tr r :
  runs (benchmark_io cmd config) tr r -> service_calls (benchmark_use cmd) config (svc_calls tr) r.
Proof.
  destruct cmd as [cmd | cmd | cmd | cmd | cmd | cmd]; simpl.
  - destruct runtime_benchmarks; simpl; [| by intros [-> _]].
    intros H. apply svc_calls_quiet. by eapply each_quiet_call; [| exact H].
  - destruct runtime_benchmarks; simpl; [| by intros [-> _]].
    apply runs_service_then. intros p. by apply each_quiet_call.
  - apply runs_service_then. intros p. apply each_ibind; [apply each_inherents | intros d].
    by apply each_quiet_call.
  - apply runs_service_then. intros p. by apply each_quiet_call.
  - intros H. apply svc_calls_quiet. by eapply each_quiet_call; [| exact H].
  - apply runs_service_then. intros p. apply each_ibind; [apply each_inherents | intros d].
    by apply each_quiet_call.
Qed.

(** The subcommands that run in a runner, and those that do not. *)
Definition needs_runner (sub : Subcommand) : bool :=
  match sub with Key _ | TryRuntime => false | _ => true end.

(** A closure that asks for the partial components of the configuration. *)
Lemma async_partial runner (f : Configuration -> PartialComponents -> CommandFuture) tr r :
  runs (async_run runner (fun config =>
          let* p := partial config in iret (f config p, task_manager p))) tr r <->
  runs (let* p := partial (runner_config runner) in
        try_call id (run_until_exit (f (runner_config runner) p) (task_manager p))) tr r.
Proof using RL. rewrite async_run_spec. apply ibind_assoc. Qed.

Lemma async_partial_calls runner (f : Configuration -> PartialComponents -> CommandFuture) tr r :
  runs (async_run runner (fun config =>
          let* p := partial config in iret (f config p, task_manager p))) tr r ->
  service_calls PartialService (runner_config runner) (svc_calls tr) r.
Proof using RL.
  rewrite async_partial. apply runs_service_then. intros p. by apply each_quiet_call.
Qed.

Lemma sync_calls runner u (f : Configuration -> io cmdE CliError unit) tr r :
  (forall tr r, runs (f (runner_config runner)) tr r ->
     service_calls u (runner_config runner) (svc_calls tr) r) ->
  runs (sync_run runner f) tr r -> service_calls u (runner_config runner) (svc_calls tr) r.
Proof using RL. intros H. rewrite sync_run_spec. apply H. Qed.

Lemma quiet_call_calls {A} (e : cmdE (answer CliError A)) tr r :
  (forall x, quiet (Obs e x)) -> runs (try_call id e) tr r -> svc_calls tr = [].
Proof. intros Hq H. apply svc_calls_quiet. by eapply each_quiet_call; [| exact H]. Qed.

Lemma run_subcommand_calls cli sub tr r :
  runs (subcommand_io cli sub) tr r ->
  if needs_runner sub
  then with_runner cli (SubcommandConfiguration sub) (subcommand_use sub) tr r
  else svc_calls tr = [].
Proof using RL.
  destruct sub; simpl;
    try (apply runner_of_inv; intros runner rest; first
      [ apply async_partial_calls
      | apply sync_calls; intros ??; first
          [ apply run_benchmark_calls | by apply quiet_call_calls ] ]).
  - by apply quiet_call_calls.
  - by destruct try_runtime; intros [-> _].
Qed.

(** C14: What a command line does with the service: without a subcommand it
    builds the full service, five subcommands and the benchmarks that need a
    client (storage only with the feature) build the partial components, and
    the others make no service call; a constructor runs at most once, on the
    configuration of the runner made for that very command, its failure is the
    result of the command, and a runner that cannot be made ends the command
    at once with its error. *)
Theorem run_service_calls tr r :
  runs run_io tr r ->
  exists cli rest, tr = Obs from_args cli :: rest /\
    match subcommand cli with
    | None => with_runner cli (RunConfiguration (cli_run cli)) FullService rest r
    | Some sub =>
      if needs_runner sub
      then with_runner cli (SubcommandConfiguration sub) (subcommand_use sub) rest r
      else svc_calls rest = []
    end.
Proof using RL.
  intros (cli & rest & -> & H). exists cli, rest. split; [done |]. simpl in H.
  destruct (subcommand cli) as [sub |].
  - by apply run_subcommand_calls.
  - revert H. apply runner_of_inv. intros runner tr. rewrite run_node_spec.
    apply runs_service_then. intros tm. by apply each_quiet_call.
Qed.

(** The calls only a running node makes: the network, the long-running parts and
    their tasks. *)
Definition of_running_node (o : op) : bool :=
  match o with
  | op_genesis_hash | op_peers_set_config | op_build_network | op_offchain_workers
  | op_spawn_tasks | op_proposer_factory | op_slot_duration | op_start_aura
  | op_grandpa_voter | op_start_network => true
  | op_spawn _ n _ => negb (n =? "telemetry")%string
  | _ => false
  end.

Lemma partial_script_offline config :
  Forall (fun o => of_running_node o = false) (partial_script config).
Proof.
  unfold partial_script, if_then. destruct (has_telemetry config); repeat constructor.
Qed.

Lemma new_partial_offline config tr r :
  runs (new_partial config) tr r -> Forall (fun o => of_running_node (op_of o) = false) tr.
Proof.
  intros [[k Hk] _]%new_partial_follows. pose proof (partial_script_offline config) as H.
  rewrite Hk in H. apply Forall_app in H as [H _]. by apply Forall_map in H.
Qed.

Lemma subcommand_use_not_full sub : subcommand_use sub <> FullService.
Proof. destruct sub as [| | | | | | | | [] | |]; simpl; try done; by destruct runtime_benchmarks. Qed.

(** C17: A command line with a subcommand never joins the network: whatever the
    outside answers, no run of it builds or starts the network, runs off-chain
    workers, authors blocks or votes, and the only task it spawns is the
    telemetry worker; such calls come only from the node itself. *)
Theorem subcommand_stays_offline cli sub tr r :
  runs (subcommand_io cli sub) tr r ->
  Forall (fun o => of_running_node (op_of o) = false) (svc_calls tr).
Proof using RL.
  intros H%run_subcommand_calls. destruct (needs_runner sub); [| by rewrite H].
  pose proof (subcommand_use_not_full sub) as Hu.
  destruct H as [(e & -> & _) | (runner & rest & -> & H)]; [by constructor |].
  change (Forall (fun o => of_running_node (op_of o) = false) (svc_calls rest)).
  destruct (subcommand_use sub); simpl in H; [by rewrite H | | done].
  destruct H as (o & H & _). by eapply new_partial_offline.
Qed.

(** The asynchronous subcommands, and their futures. *)
Definition is_async (sub : Subcommand) : bool :=
  match sub with
  | CheckBlock _ | ExportBlocks _ | ExportState _ | ImportBlocks _ | Revert _ => true
  | _ => false
  end.

Definition future_of (sub : Subcommand) (config : Configuration) (p : PartialComponents)
  : option CommandFuture :=
  match sub with
  | CheckBlock cmd => Some (CheckBlock_run cmd (client p) (import_queue p))
  | ExportBlocks cmd => Some (ExportBlocks_run cmd (client p) (database config))
  | ExportState cmd => Some (ExportState_run cmd (client p) (chain_spec config))
  | ImportBlocks cmd => Some (ImportBlocks_run cmd (client p) (import_queue p))
  | Revert cmd =>
    Some (Revert_run cmd (client p) (backend p) (Some (aux_revert client_error_into_cli)))
  | _ => None
  end.

Lemma runs_runner_of_Ok cli cmd (k : Runner -> io cmdE CliError unit) tr :
  runs (ibind (runner_of cli cmd) k) tr (Ok tt) <->
  exists runner rest, tr = Obs (create_runner cli cmd) (AOk runner) :: rest /\
                      runs (k runner) rest (Ok tt).
Proof.
  split.
  - intros ([runner | e] & rest & -> & H); [by exists runner, rest | by destruct H].
  - intros (runner & rest & -> & H). by exists (AOk runner), rest.
Qed.

(** A constructor of the service, then one last call. *)
Lemma runs_service_last {A} (f : ServiceError -> CliError) (p : io svcE ServiceError A)
  (e : A -> cmdE (answer CliError unit)) tr :
  runs (ibind (imap_err f (service p)) (fun a => try_call id (e a))) tr (Ok tt) <->
  exists l a, tr = map service_obs l ++ [Obs (e a) (AOk tt)] /\ runs p l (Ok a).
Proof.
  rewrite runs_ibind_Ok. split.
  - intros (tr1 & tr2 & a & -> & (l & o & -> & Ho & Hp)%runs_service & H2).
    destruct o; simpl in Ho; simplify_eq. destruct H2 as ([[] | er] & ? & -> & -> & [=]). eauto.
  - intros (l & a & -> & H). eexists _, _, a. split; [reflexivity |]. split.
    + apply runs_service. by exists l, (Ok a).
    + by exists (AOk tt), [].
Qed.

(** C22: An asynchronous subcommand succeeds exactly when its runner is made,
    the partial components are built from that runner's configuration, and the
    command's future, on their client, ends well under their task manager:
    these calls, in this order, and no other. *)
Theorem async_subcommand_succeeds cli sub tr :
  is_async sub = true ->
  runs (subcommand_io cli sub) tr (Ok tt) <->
  exists runner l p future,
    runs (new_partial (runner_config runner)) l (Ok p) /\
    future_of sub (runner_config runner) p = Some future /\
    tr = Obs (create_runner cli (SubcommandConfiguration sub)) (AOk runner) ::
         map service_obs l ++ [Obs (run_until_exit future (task_manager p)) (AOk tt)].
Proof using RL.
  intros Hsub.
  assert (forall f tr,
    runs (let* runner := runner_of cli (SubcommandConfiguration sub) in
          async_run runner (fun config =>
            let* p := partial config in iret (f config p, task_manager p))) tr (Ok tt) <->
    exists runner l p, runs (new_partial (runner_config runner)) l (Ok p) /\
      tr = Obs (create_runner cli (SubcommandConfiguration sub)) (AOk runner) ::
           map service_obs l ++
           [Obs (run_until_exit (f (runner_config runner) p) (task_manager p)) (AOk tt)]) as H.
  { intros f tr'. rewrite runs_runner_of_Ok. split.
    - intros (runner & rest & -> & (l & p & -> & H)%async_partial%runs_service_last). eauto 10.
    - intros (runner & l & p & H & ->). exists runner. eexists. split; [reflexivity |].
      apply async_partial, runs_service_last. eauto 10. }
  destruct sub; try done; (etransitivity; [refine (H _ _) |]);
    (split; [by intros (? & ? & ? & ? & ->); eauto 10 | naive_solver]).
Qed.

(** The command line a call answered. *)
Definition args_of (o : obs cmdE) : option Cli :=
  match o with
  | Obs e x =>
    match e in cmdE A return A -> option Cli with
    | from_args => fun cli => Some cli
    | _ => fun _ => None
    end x
  end.

Lemma from_args_inj cli cli' tr tr' :
  Obs from_args cli :: tr = Obs from_args cli' :: tr' -> cli = cli' /\ tr = tr'.
Proof.
  intros H. split; [| by injection H].
  apply (f_equal (fun l => head l ≫= args_of)) in H. by injection H.
Qed.

Lemma run_node_Ok cli tr :
  subcommand cli = None ->
  runs run_io (Obs from_args cli :: tr) (Ok tt) <->
  exists runner l tm,
    runs (new_full (runner_config runner)) l (Ok tm) /\
    tr = Obs (create_runner cli (RunConfiguration (cli_run cli))) (AOk runner) ::
         map service_obs l ++ [Obs (run_service tm) (AOk tt)].
Proof using RL.
  intros Hcli. transitivity (runs (ibind (runner_of cli (RunConfiguration (cli_run cli)))
    (fun runner => run_node_until_exit runner
      (fun config => imap_err Error_Service (service (new_full config))))) tr (Ok tt)).
  { simpl. split.
    - intros (x & tr' & [<- <-]%from_args_inj & H). by rewrite Hcli in H.
    - intros H. exists cli, tr. by rewrite Hcli. }
  rewrite runs_runner_of_Ok. split.
  - intros (runner & rest & -> & H). apply run_node_spec, runs_service_last in H
      as (l & tm & -> & H). eauto 10.
  - intros (runner & l & tm & H & ->). exists runner. eexists. split; [reflexivity |].
    apply run_node_spec, runs_service_last. eauto.
Qed.

(** C23: Without a subcommand the node succeeds exactly when its runner is made,
    the full service is built from that runner's configuration, and the task
    manager it returned then runs to its end without an error. *)
Theorem run_node_succeeds cli tr :
  subcommand cli = None ->
  runs run_io (Obs from_args cli :: tr) (Ok tt) <->
  exists runner l tm,
    runs (new_full (runner_config runner)) l (Ok tm) /\
    tr = Obs (create_runner cli (RunConfiguration (cli_run cli))) (AOk runner) ::
         map service_obs l ++ [Obs (run_service tm) (AOk tt)].
Proof using RL. apply run_node_Ok. Qed.

(** The message with which a build of the node refuses a subcommand. *)
Definition refusal (sub : Subcommand) : option string :=
  match sub with
  | TryRuntime => Some (if try_runtime then DEPRECATION_NOTICE else try_runtime_disabled)
  | Benchmark (Pallet _) => if runtime_benchmarks then None else Some benchmarks_disabled
  | Benchmark (Storage _) => if runtime_benchmarks then None else Some storage_disabled
  | _ => None
  end.

(** C33: A refused subcommand always fails: [try-runtime] with its notice, which
    one depends on the feature, before any runner is made; pallet and storage
    benchmarks without the feature, once their runner is made, with the message
    that names the feature; and nothing else is called. *)
Theorem refused_subcommand_fails cli sub msg tr r :
  refusal sub = Some msg -> runs (subcommand_io cli sub) tr r ->
  if needs_runner sub
  then exists a, tr = [Obs (create_runner cli (SubcommandConfiguration sub)) a] /\
         r = match a with AOk _ => Err (error_from_str msg) | AErr e => Err e end
  else tr = [] /\ r = Err (error_from_str msg).
Proof using RL.
  intros Hm H. destruct sub as [| | | | | | | | [] | |]; simpl in *; try done.
  all: try (destruct runtime_benchmarks; [done |]; injection Hm as <-;
    destruct H as ([runner | e] & rest & -> & H);
    [apply sync_run_spec in H; destruct H as [-> ->]; by exists (AOk runner)
    | destruct H as [-> ->]; by exists (AErr e)]).
  injection Hm as <-. by destruct try_runtime; destruct H as [-> ->].
Qed.
(** ** Commands on an outside that does not fail *)

(** An answer that neither is an error nor ends the service. *)
Definition goes_well (o : obs cmdE) : Prop :=
  match o with
  | Obs e x =>
    match e in cmdE A return A -> Prop with
    | from_args => fun _ => True
    | Service e => fun x => verdict (Obs e x) = None
    | create_runner _ _ => fun a => is_Some (answer_ok a)
    | Key_run _ _ | BuildSpec_run _ _ _ | PurgeChain_run _ _ | ChainInfo_run _ _
    | Pallet_run _ _ | Block_run _ _ | Storage_run _ _ _ _ _ | Overhead_run _ _ _ _ _ _
    | Extrinsic_run _ _ _ _ _ | Machine_run _ _ _ | run_until_exit _ _ | run_service _ =>
      fun a => is_Some (answer_ok a)
    end x
  end.

Definition needs_inherents (sub : Subcommand) : bool :=
  match sub with Benchmark (Overhead _) | Benchmark (Extrinsic _) => true | _ => false end.

(** What a command line comes to when nothing outside fails. *)
Definition expected_result (cli : Cli) : outcome CliError unit :=
  match subcommand cli with
  | None => Ok tt
  | Some sub =>
    match refusal sub with
    | Some msg => Err (error_from_str msg)
    | None =>
      if needs_inherents sub then
        let? _ := map_err error_from_str (inherent_benchmark_data InherentData ProvideError
                    InherentData_new provide_timestamp debug) in Ok tt
      else Ok tt
    end
  end.

Lemma last_call_yields (e : cmdE (answer CliError unit)) :
  (forall er, ~ goes_well (Obs e (AErr er))) ->
  yields goes_well (eq (Ok tt)) (try_call (Er := CliError) id e).
Proof.
  intros He tr o Hr Hgo. pose proof (yields_try_call goes_well id e He tr o Hr Hgo) as Hok.
  by destruct o as [[] | |].
Qed.

Lemma service_yields {A} script f (p : io svcE ServiceError A) :
  follows op_of verdict script p ->
  yields goes_well (fun o : outcome CliError A => is_ok o = true) (imap_err f (service p)).
Proof.
  intros Hp. eapply yields_bind.
  - apply yields_translate, (yields_mono _ (goes_on verdict)); [by intros [] |].
    by eapply follows_yields.
  - intros [] ?; try done; by apply yields_ret.
Qed.

Lemma partial_yields config : yields goes_well (fun o : outcome CliError _ => is_ok o = true) (partial config).
Proof. eapply service_yields, new_partial_follows. Qed.

Lemma runner_yields cli cmd (k : Runner -> io cmdE CliError unit) Q :
  (forall runner, yields goes_well Q (k runner)) ->
  yields goes_well Q (ibind (runner_of cli cmd) k).
Proof. intros Hk. apply yields_ibind; [apply yields_try_call | done]. by intros ? [? [=]]. Qed.

Lemma inherents_yields (k : InherentData -> io cmdE CliError unit) :
  (forall d, yields goes_well (eq (Ok tt)) (k d)) ->
  yields goes_well (eq (let? _ := map_err error_from_str
    (inherent_benchmark_data InherentData ProvideError InherentData_new provide_timestamp debug)
    in Ok tt)) (ibind (inherents ProvideError InherentData_new provide_timestamp debug) k).
Proof.
  intros Hk. unfold inherents, of_outcome. destruct (map_err _ _); simpl;
    [apply Hk | by apply yields_ret ..].
Qed.

(** A closure that needs the partial components, then makes one call. *)
Ltac yield_call := apply last_call_yields; by intros ? [? [=]].
Ltac yield_partial := apply yields_ibind; [apply partial_yields | intros p].

Lemma async_yields runner (f : Configuration -> PartialComponents -> CommandFuture) :
  yields goes_well (eq (Ok tt)) (async_run runner (fun config =>
    let* p := partial config in iret (f config p, task_manager p))).
Proof using RL.
  intros tr r Hr. apply async_partial in Hr. revert tr r Hr. yield_partial. yield_call.
Qed.

Lemma benchmark_yields cli cmd config :
  subcommand cli = Some (Benchmark cmd) ->
  yields goes_well (eq (expected_result cli)) (benchmark_io cmd config).
Proof.
  intros Hcli. unfold expected_result. rewrite Hcli.
  destruct cmd as [cmd | cmd | cmd | cmd | cmd | cmd]; simpl;
    try destruct runtime_benchmarks; simpl; try (by apply yields_ret); try yield_call;
    yield_partial; try yield_call; apply inherents_yields; intros d; yield_call.
Qed.

Lemma subcommand_yields cli sub :
  subcommand cli = Some sub -> yields goes_well (eq (expected_result cli)) (subcommand_io cli sub).
Proof using RL.
  intros Hcli. destruct sub; simpl; unfold expected_result; rewrite Hcli; simpl;
    try yield_call; try (by destruct try_runtime; apply yields_ret);
    apply runner_yields; intros runner; try apply async_yields;
    rewrite sync_run_spec; try yield_call.
  pose proof (benchmark_yields cli cmd (runner_config runner) Hcli) as H.
  unfold expected_result in H. by rewrite Hcli in H.
Qed.

(** C15: Every command line ends as it should when the outside does not fail: if
    no crate answers with an error or without a genesis block, the node itself
    and every subcommand succeed, except those the build refuses, which fail
    with their message, and the two benchmarks that need inherent data where
    these cannot be made. *)
Theorem command_succeeds {S} (h : handler cmdE S) (I : S -> Prop) s :
  (forall A (e : cmdE A) s, I s -> goes_well (Obs e (h A e s).1) /\ I (h A e s).2) -> I s ->
  exists cli rest, exec_trace h run_io s = Obs from_args cli :: rest /\
                   (exec h run_io s).1 = expected_result cli.
Proof using RL.
  intros Hh Hs. pose proof (exec_trace_Forall h I goes_well run_io s Hh Hs) as Hgo.
  pose proof (exec_runs h run_io s) as (cli & rest & Htr & Hr). exists cli, rest.
  split; [done |]. rewrite Htr in Hgo. apply Forall_cons in Hgo as [_ Hgo]. simpl in Hr.
  symmetry. destruct (subcommand cli) as [sub |] eqn:Hcli.
  - exact (subcommand_yields cli sub Hcli _ _ Hr Hgo).
  - unfold expected_result. rewrite Hcli. revert Hr Hgo. apply runner_yields. intros runner.
    rewrite run_node_spec. apply yields_ibind; [eapply service_yields, new_full_follows |].
    intros tm. yield_call.
Qed.
End Properties.

(** ** A concrete command line: commands are units, runners configurations *)
Module Concrete.
Import Service.Concrete.
#[local] Existing Instance unit_types.
#[local] Existing Instance toy_types.

#[local] Instance unit_commands : CommandTypes := {|
  CliError := string;
  Error_Service e := e; error_from_service e := e; error_from_str e := e;
  RunCmd := unit; KeySubcommand := unit; BuildSpecCmd := unit; CheckBlockCmd := unit;
  ExportBlocksCmd := unit; ExportStateCmd := unit; ImportBlocksCmd := unit;
  PurgeChainCmd := unit; RevertCmd := unit; ChainInfoCmd := unit; PalletCmd := unit;
  StorageCmd := unit; OverheadCmd := unit; BlockCmd := unit; MachineCmd := unit;
  BenchExtrinsicCmd := unit;
  Runner := bool;
  runner_config r := if r then authority else follower;
  ExposedDb := unit; ExposedStorage := unit; expose_db _ := tt; expose_storage _ := tt;
  InherentData := Z; ReferenceHardware := unit; SUBSTRATE_REFERENCE_HARDWARE := tt;
  DEPRECATION_NOTICE := "migrated"; SUBSTRATE_CLI_IMPL_VERSION := "4.0.0-dev";
  CARGO_PKG_DESCRIPTION := "node"; CARGO_PKG_AUTHORS := "authors";
|}.

#[local] Instance direct_runners : Runners := {|
  sync_run r f := f (runner_config r);
  async_run r f :=
    ibind (f (runner_config r)) (fun '(future, tm) => try_call id (run_until_exit future tm));
  run_node_until_exit r f :=
    ibind (f (runner_config r)) (fun tm => try_call id (run_service tm));
|}.

#[local] Instance direct_runners_laws : RunnersLaws.
Proof. by split. Defined.

(** The command line [cli], and every call succeeding. *)
Definition cmd_answers (cli : Cli) : handler cmdE unit :=
  fun A e s =>
    (match e in cmdE A return A with
     | from_args => cli
     | create_runner _ _ => AOk true
     | Service e => fst (answers (Some 7) _ e tt)
     | Key_run _ _ => AOk tt
     | BuildSpec_run _ _ _ => AOk tt
     | PurgeChain_run _ _ => AOk tt
     | ChainInfo_run _ _ => AOk tt
     | Pallet_run _ _ => AOk tt
     | Block_run _ _ => AOk tt
     | Storage_run _ _ _ _ _ => AOk tt
     | Overhead_run _ _ _ _ _ _ => AOk tt
     | Extrinsic_run _ _ _ _ _ => AOk tt
     | Machine_run _ _ _ => AOk tt
     | run_until_exit _ _ => AOk tt
     | run_service _ => AOk tt
     end, s).

(** A build without the benchmarking and [try-runtime] features. *)
Definition run_plain : io cmdE CliError unit :=
  run false false toy_encode unit tt (fun _ => tt) Empty_set 0 (fun t _ => Ok t)
    (fun _ => ""%string) id.

Definition cli_of (sub : Subcommand) : Cli := {| subcommand := Some sub; cli_run := tt |}.

Definition sub_plain (sub : Subcommand) : io cmdE CliError unit :=
  run_subcommand false false toy_encode unit tt (fun _ => tt) Empty_set 0 (fun t _ => Ok t)
    (fun _ => ""%string) id (cli_of sub) sub.

Definition check_block : Subcommand := CheckBlock tt.
Definition storage : Subcommand := Benchmark (Storage tt).
Definition node_cli : Cli := {| subcommand := None; cli_run := tt |}.
Definition command_trace (cli : Cli) : list (obs cmdE) :=
  exec_trace (cmd_answers cli) run_plain tt.

Import ChainSpec.Concrete.

Definition no_files : handler (specE ChainSpec.ChainSpec) unit :=
  fun A e s => (match e in specE _ A return A with from_json_file p => AErr p end, s).

(** The empty id, of a node started without [--chain]. *)
Lemma local_spec_selected :
  exists spec, exec no_files (load_spec (Some tt) "") tt = (Ok spec, tt) /\
  chain_id spec = "local_testnet"%string /\
  exists g, read_genesis (genesis_patch spec) = Some g /\ genesis_ok g.
Proof.
  eexists. split; [reflexivity |].
  assert (Hr : runs (load_spec (Some tt) "") [] (local_testnet_config (Some tt)))
    by (split; reflexivity).
  exact (proj2 (proj2 (load_spec_selects (Some tt) "" [] _ uri_collision_free Hr) _ eq_refl)).
Defined.

(** The node's run makes the twenty-two calls of the service and three more. *)
Lemma node_service_calls :
  length (command_trace node_cli) = 25%nat /\
  exists cli rest, command_trace node_cli = Obs from_args cli :: rest /\
    match subcommand cli with
    | None => with_runner cli (RunConfiguration (cli_run cli)) FullService rest (Ok tt)
    | Some sub =>
      if needs_runner sub
      then with_runner cli (SubcommandConfiguration sub) (subcommand_use false sub) rest (Ok tt)
      else svc_calls rest = []
    end.
Proof.
  split; [vm_compute; reflexivity |].
  assert (Hr : runs run_plain (command_trace node_cli) (Ok tt))
    by exact (exec_runs (cmd_answers node_cli) run_plain tt).
  exact (run_service_calls false false toy_encode unit tt (fun _ => tt) Empty_set 0
           (fun t _ => Ok t) (fun _ => ""%string) id _ _ Hr).
Defined.

Lemma check_block_succeeds :
  exists runner l p future,
    runs (new_partial (runner_config runner)) l (Ok p) /\
    future_of id check_block (runner_config runner) p = Some future.
Proof.
  assert (Hr : runs (sub_plain check_block)
                 (exec_trace (cmd_answers node_cli) (sub_plain check_block) tt) (Ok tt))
    by exact (exec_runs (cmd_answers node_cli) (sub_plain check_block) tt).
  destruct (proj1 (async_subcommand_succeeds (CT := unit_commands) false false toy_encode unit tt (fun _ => tt)
    Empty_set 0 (fun t _ => Ok t) (fun _ => ""%string) id
    (cli_of check_block) check_block _ eq_refl) Hr)
    as (runner & l & p & future & H & Hf & _).
  exists runner, l, p, future. split; assumption.
Defined.

(** Checking blocks makes the nine calls of the partial service, telemetry
    included. *)
Lemma check_block_offline :
  let tr := exec_trace (cmd_answers node_cli) (sub_plain check_block) tt in
  length (svc_calls tr) = 9%nat /\
  Forall (fun o => of_running_node (op_of o) = false) (svc_calls tr).
Proof.
  intros tr. split; [vm_compute; reflexivity |].
  exact (subcommand_stays_offline false false toy_encode unit tt (fun _ => tt) Empty_set 0
           (fun t _ => Ok t) (fun _ => ""%string) id (cli_of check_block) check_block tr _
           (exec_runs (cmd_answers node_cli) (sub_plain check_block) tt)).
Defined.

Lemma node_succeeds :
  exists runner l tm, runs (new_full (runner_config runner)) l (Ok tm).
Proof.
  assert (Hr : runs run_plain (Obs from_args node_cli :: tail (command_trace node_cli)) (Ok tt))
    by exact (exec_runs (cmd_answers node_cli) run_plain tt).
  destruct (proj1 (run_node_succeeds (CT := unit_commands) false false toy_encode unit tt (fun _ => tt)
    Empty_set 0 (fun t _ => Ok t) (fun _ => ""%string) id node_cli _ eq_refl) Hr)
    as (runner & l & tm & H & _).
  exists runner, l, tm. exact H.
Defined.

Lemma cmd_answers_well cli A (e : cmdE A) s : goes_well (Obs e (cmd_answers cli A e s).1).
Proof. destruct e; try exact I; try (eexists; reflexivity). destruct e; reflexivity. Qed.

(** Without a subcommand the node runs to its end. *)
Lemma node_command_ends :
  exists cli rest, command_trace node_cli = Obs from_args cli :: rest /\
    (exec (cmd_answers node_cli) run_plain tt).1 =
    expected_result false false Empty_set 0 (fun t _ => Ok t) (fun _ => ""%string) cli /\
    (exec (cmd_answers node_cli) run_plain tt).1 = Ok tt.
Proof.
  destruct (command_succeeds (CT := unit_commands) false false toy_encode unit tt (fun _ => tt)
    Empty_set 0 (fun t _ => Ok t) (fun _ => ""%string) id (cmd_answers node_cli) (fun _ => True)
    tt) as (cli & rest & Ht & Hr); [| exact I |].
  - intros A e s _. split; [apply cmd_answers_well | exact I].
  - exists cli, rest. split; [exact Ht |]. split; [exact Hr | vm_compute; reflexivity].
Defined.

Lemma storage_benchmark_refused :
  exec (cmd_answers node_cli) (sub_plain storage) tt =
    (Err storage_disabled, tt) /\
  exists a, exec_trace (cmd_answers node_cli) (sub_plain storage) tt =
    [Obs (create_runner (cli_of storage)
            (SubcommandConfiguration storage)) a].
Proof.
  split; [reflexivity |].
  destruct (refused_subcommand_fails (CT := unit_commands) false false toy_encode unit tt (fun _ => tt) Empty_set 0
    (fun t _ => Ok t) (fun _ => ""%string) id
    (cli_of storage) storage
    storage_disabled _ _ eq_refl
    (exec_runs (cmd_answers node_cli) (sub_plain storage) tt)) as (a & H & _).
  exists a. exact H.
Defined.
End Concrete.
