(* ===== verification/RuntimeApi.v ===== *)
(** * The runtime's APIs ([runtime/src/lib.rs], [impl_runtime_apis!])

    What the runtime answers to its node, method by method, as programs over
    the calls into [Executive] and the pallets; and the slot duration carried
    from the runtime's configuration to the inherent providers of the blocks the
    node authors and imports. *)

From S2P Require Import Prelude Effects Weights Runtime Service.

Set Default Proof Using "Type".

(** ** Types of FRAME that the APIs pass on *)
Class RuntimeApiTypes := {
  Block : Type;
  Header : Type;
  UncheckedExtrinsic : Type;
  BlockHash : Type;
  ExtrinsicInclusionMode : Type;
  RuntimeMetadata : Type;
  OpaqueMetadata : Type;
  ApplyExtrinsicResult : Type;
  InherentData : Type;
  CheckInherentsResult : Type;
  TransactionSource : Type;
  TransactionValidity : Type;
  AuraSlotDuration : Type;
  AuraId : Type;
  BoundedAuthorities : Type;
  Bytes : Type;
  KeyTypeId : Type;
  AuthorityList : Type;
  GrandpaId : Type;
  EquivocationProof : Type;
  OpaqueKeyOwnershipProof : Type;
  AccountId : Type;
  RuntimeCall : Type;
  RuntimeDispatchInfo : Type;
  FeeDetails : Type;
  Weight : Type;
  ApiVersions : Type;
  BenchmarkList : Type;
  BenchmarkBatch : Type;
  BenchmarkConfig : Type;
  StorageInfo : Type;
  TrackedStorageKey : Type;
  RuntimeString : Type;
  UpgradeCheckSelect : Type;
  TryStateSelect : Type;
  TryRuntimeError : Type;
  RUNTIME_API_VERSIONS : ApiVersions;
  (** [OpaqueMetadata::new(m.into())]. *)
  opaque_metadata : RuntimeMetadata -> OpaqueMetadata;
  from_millis : Z -> AuraSlotDuration;
  into_inner : BoundedAuthorities -> list AuraId;
  api_weight_ops :: WeightOps Weight;
  api_block_limits :: BlockLimits Weight;
}.

Section Api.
Context {RT : RuntimeApiTypes}.

(** The pallets of [define_benchmarks!], by crate and benchmarking name. *)
Definition benches : list (string * string) :=
  [("frame_benchmarking", "BaselineBench"); ("frame_system", "SystemBench");
   ("pallet_balances", "Balances"); ("pallet_timestamp", "Timestamp");
   ("pallet_sudo", "Sudo"); ("pallet_template", "TemplateModule")]%string.

(** A call into [Executive] or a pallet gives its value, or panics, as
    [Executive::execute_block] does on an invalid block. *)
Abbreviation returned A := (outcome Empty_set A).

(** The calls the APIs make. *)
Inductive apiE : Type -> Type :=
| Executive_execute_block (b : Block) : apiE (returned unit)
| Executive_initialize_block (h : Header) : apiE (returned ExtrinsicInclusionMode)
| Runtime_metadata : apiE (returned RuntimeMetadata)
| Runtime_metadata_at_version (v : Z) : apiE (returned (option OpaqueMetadata))
| Runtime_metadata_versions : apiE (returned (list Z))
| Executive_apply_extrinsic (xt : UncheckedExtrinsic) : apiE (returned ApplyExtrinsicResult)
| Executive_finalize_block : apiE (returned Header)
| data_create_extrinsics (d : InherentData) : apiE (returned (list UncheckedExtrinsic))
| data_check_extrinsics (d : InherentData) (b : Block) : apiE (returned CheckInherentsResult)
| Executive_validate_transaction (s : TransactionSource) (tx : UncheckedExtrinsic)
    (h : BlockHash) : apiE (returned TransactionValidity)
| Executive_offchain_worker (h : Header) : apiE (returned unit)
| Aura_slot_duration : apiE (returned Z)
| Aura_authorities : apiE (returned BoundedAuthorities)
| SessionKeys_generate (seed : option Bytes) : apiE (returned Bytes)
| SessionKeys_decode_into_raw_public_keys (b : Bytes) : apiE (returned (option (list (Bytes * KeyTypeId))))
| Grandpa_grandpa_authorities : apiE (returned AuthorityList)
| Grandpa_current_set_id : apiE (returned Z)
| System_account_nonce (a : AccountId) : apiE (returned Z)
| TransactionPayment_query_info (xt : UncheckedExtrinsic) (len : Z) : apiE (returned RuntimeDispatchInfo)
| TransactionPayment_query_fee_details (xt : UncheckedExtrinsic) (len : Z) : apiE (returned FeeDetails)
| TransactionPayment_query_call_info (c : RuntimeCall) (len : Z) : apiE (returned RuntimeDispatchInfo)
| TransactionPayment_query_call_fee_details (c : RuntimeCall) (len : Z) : apiE (returned FeeDetails)
| TransactionPayment_weight_to_fee (w : Weight) : apiE (returned Z)
| TransactionPayment_length_to_fee (len : Z) : apiE (returned Z)
| list_benchmarks (l : list (string * string)) (extra : bool) : apiE (returned (list BenchmarkList))
| AllPalletsWithSystem_storage_info : apiE (returned (list StorageInfo))
| AllPalletsWithSystem_whitelisted_storage_keys : apiE (returned (list TrackedStorageKey))
| add_benchmarks (l : list (string * string)) (c : BenchmarkConfig)
    (w : list TrackedStorageKey) : apiE (returned (answer RuntimeString (list BenchmarkBatch)))
| Executive_try_runtime_upgrade (c : UpgradeCheckSelect) : apiE (returned (answer TryRuntimeError Weight))
| Executive_try_execute_block (b : Block) (state_root_check signature_check : bool)
    (s : TryStateSelect) : apiE (returned (answer TryRuntimeError Weight))
| genesis_create_default_config : apiE (returned Bytes)
| genesis_build_config (c : Bytes) : apiE (returned (answer RuntimeString unit)).

(** A method returns its value, or panics, by itself or in a call. *)
Abbreviation method A := (io apiE Empty_set A).

Definition call_api {A} (e : apiE (returned A)) : method A :=
  let* r := Effects.call e in of_outcome r.

(** [result.unwrap()] and [result.expect(msg)], on the result of a call. *)
Definition unwrap_call {Er A} (e : apiE (returned (answer Er A))) (msg : string) : method A :=
  let* a := call_api e in of_outcome (expect (answer_ok a) msg).

(** ** [sp_api::Core] and [Metadata] *)
Definition Core_version : method (RuntimeVersion ApiVersions) := iret (VERSION RUNTIME_API_VERSIONS).
Definition Core_execute_block (block : Block) : method unit :=
  call_api (Executive_execute_block block).
Definition Core_initialize_block (header : Header) : method ExtrinsicInclusionMode :=
  call_api (Executive_initialize_block header).

Definition Metadata_metadata : method OpaqueMetadata :=
  let* m := call_api Runtime_metadata in iret (opaque_metadata m).
Definition Metadata_metadata_at_version (version : Z) : method (option OpaqueMetadata) :=
  call_api (Runtime_metadata_at_version version).
Definition Metadata_metadata_versions : method (list Z) := call_api Runtime_metadata_versions.

(** ** [BlockBuilder], [TaggedTransactionQueue] and [OffchainWorkerApi] *)
Definition BlockBuilder_apply_extrinsic (xt : UncheckedExtrinsic) : method ApplyExtrinsicResult :=
  call_api (Executive_apply_extrinsic xt).
Definition BlockBuilder_finalize_block : method Header := call_api Executive_finalize_block.
Definition BlockBuilder_inherent_extrinsics (data : InherentData)
  : method (list UncheckedExtrinsic) := call_api (data_create_extrinsics data).
Definition BlockBuilder_check_inherents (block : Block) (data : InherentData)
  : method CheckInherentsResult := call_api (data_check_extrinsics data block).

Definition TaggedTransactionQueue_validate_transaction (source : TransactionSource)
  (tx : UncheckedExtrinsic) (block_hash : BlockHash) : method TransactionValidity :=
  call_api (Executive_validate_transaction source tx block_hash).

Definition OffchainWorkerApi_offchain_worker (header : Header) : method unit :=
  call_api (Executive_offchain_worker header).

(** ** [AuraApi], [SessionKeys] and [GrandpaApi] *)
Definition AuraApi_slot_duration : method AuraSlotDuration :=
  let* d := call_api Aura_slot_duration in iret (from_millis d).
Definition AuraApi_authorities : method (list AuraId) :=
  let* a := call_api Aura_authorities in iret (into_inner a).

Definition SessionKeys_generate_session_keys (seed : option Bytes) : method Bytes :=
  call_api (SessionKeys_generate seed).
Definition SessionKeys_decode_session_keys (encoded : Bytes)
  : method (option (list (Bytes * KeyTypeId))) :=
  call_api (SessionKeys_decode_into_raw_public_keys encoded).

Definition GrandpaApi_grandpa_authorities : method AuthorityList :=
  call_api Grandpa_grandpa_authorities.
Definition GrandpaApi_current_set_id : method Z := call_api Grandpa_current_set_id.
Definition GrandpaApi_submit_report_equivocation_unsigned_extrinsic
  (_ : EquivocationProof) (_ : OpaqueKeyOwnershipProof) : method (option unit) := iret None.
Definition GrandpaApi_generate_key_ownership_proof (_ : Z) (_ : GrandpaId)
  : method (option OpaqueKeyOwnershipProof) := iret None.

(** ** [AccountNonceApi] and the two transaction payment APIs *)
Definition AccountNonceApi_account_nonce (account : AccountId) : method Z :=
  call_api (System_account_nonce account).

Definition TransactionPaymentApi_query_info (uxt : UncheckedExtrinsic) (len : Z)
  : method RuntimeDispatchInfo := call_api (TransactionPayment_query_info uxt len).
Definition TransactionPaymentApi_query_fee_details (uxt : UncheckedExtrinsic) (len : Z)
  : method FeeDetails := call_api (TransactionPayment_query_fee_details uxt len).
Definition TransactionPaymentApi_query_weight_to_fee (weight : Weight) : method Z :=
  call_api (TransactionPayment_weight_to_fee weight).
Definition TransactionPaymentApi_query_length_to_fee (length : Z) : method Z :=
  call_api (TransactionPayment_length_to_fee length).

Definition TransactionPaymentCallApi_query_call_info (call : RuntimeCall) (len : Z)
  : method RuntimeDispatchInfo := call_api (TransactionPayment_query_call_info call len).
Definition TransactionPaymentCallApi_query_call_fee_details (call : RuntimeCall) (len : Z)
  : method FeeDetails := call_api (TransactionPayment_query_call_fee_details call len).
Definition TransactionPaymentCallApi_query_weight_to_fee (weight : Weight) : method Z :=
  call_api (TransactionPayment_weight_to_fee weight).
Definition TransactionPaymentCallApi_query_length_to_fee (length : Z) : method Z :=
  call_api (TransactionPayment_length_to_fee length).

(** ** [Benchmark], [TryRuntime] and [GenesisBuilder] *)
Definition Benchmark_benchmark_metadata (extra : bool)
  : method (list BenchmarkList * list StorageInfo) :=
  let* list := call_api (list_benchmarks benches extra) in
  let* storage_info := call_api AllPalletsWithSystem_storage_info in
  iret (list, storage_info).

(** [add_benchmarks!] returns from the function at the first failing pallet. *)
Definition Benchmark_dispatch_benchmark (config : BenchmarkConfig)
  : method (answer RuntimeString (list BenchmarkBatch)) :=
  let* whitelist := call_api AllPalletsWithSystem_whitelisted_storage_keys in
  let* batches := call_api (add_benchmarks benches config whitelist) in
  iret batches.

Definition TryRuntime_on_runtime_upgrade (checks : UpgradeCheckSelect)
  : method (Weight * Weight) :=
  let* weight := unwrap_call (Executive_try_runtime_upgrade checks)
                   "called `Result::unwrap()` on an `Err` value" in
  iret (weight, max_block BlockWeights).
Definition TryRuntime_execute_block (block : Block) (state_root_check signature_check : bool)
  (select : TryStateSelect) : method Weight :=
  unwrap_call (Executive_try_execute_block block state_root_check signature_check select)
    "execute-block failed".

Definition GenesisBuilder_create_default_config : method Bytes :=
  call_api genesis_create_default_config.
Definition GenesisBuilder_build_config (config : Bytes) : method (answer RuntimeString unit) :=
  call_api (genesis_build_config config).

(** [native_version]; [can_author_with] is its default, empty. *)
Definition native_version : RuntimeVersion ApiVersions * list Z := (VERSION RUNTIME_API_VERSIONS, []).

(** ** Every method, as a request with the type of its answer *)
Inductive request : Type -> Type :=
| q_version : request (RuntimeVersion ApiVersions)
| q_execute_block (b : Block) : request unit
| q_initialize_block (h : Header) : request ExtrinsicInclusionMode
| q_metadata : request OpaqueMetadata
| q_metadata_at_version (v : Z) : request (option OpaqueMetadata)
| q_metadata_versions : request (list Z)
| q_apply_extrinsic (xt : UncheckedExtrinsic) : request ApplyExtrinsicResult
| q_finalize_block : request Header
| q_inherent_extrinsics (d : InherentData) : request (list UncheckedExtrinsic)
| q_check_inherents (b : Block) (d : InherentData) : request CheckInherentsResult
| q_validate_transaction (s : TransactionSource) (tx : UncheckedExtrinsic) (h : BlockHash)
  : request TransactionValidity
| q_offchain_worker (h : Header) : request unit
| q_slot_duration : request AuraSlotDuration
| q_authorities : request (list AuraId)
| q_generate_session_keys (seed : option Bytes) : request Bytes
| q_decode_session_keys (b : Bytes) : request (option (list (Bytes * KeyTypeId)))
| q_grandpa_authorities : request AuthorityList
| q_current_set_id : request Z
| q_submit_report (e : EquivocationProof) (k : OpaqueKeyOwnershipProof) : request (option unit)
| q_key_ownership_proof (s : Z) (a : GrandpaId) : request (option OpaqueKeyOwnershipProof)
| q_account_nonce (a : AccountId) : request Z
| q_info (xt : UncheckedExtrinsic) (len : Z) : request RuntimeDispatchInfo
| q_fee_details (xt : UncheckedExtrinsic) (len : Z) : request FeeDetails
| q_weight_to_fee (w : Weight) : request Z
| q_length_to_fee (len : Z) : request Z
| q_call_info (c : RuntimeCall) (len : Z) : request RuntimeDispatchInfo
| q_call_fee_details (c : RuntimeCall) (len : Z) : request FeeDetails
| q_call_weight_to_fee (w : Weight) : request Z
| q_call_length_to_fee (len : Z) : request Z
| q_benchmark_metadata (extra : bool) : request (list BenchmarkList * list StorageInfo)
| q_dispatch_benchmark (c : BenchmarkConfig)
  : request (answer RuntimeString (list BenchmarkBatch))
| q_on_runtime_upgrade (c : UpgradeCheckSelect) : request (Weight * Weight)
| q_try_execute_block (b : Block) (state_root signature : bool) (s : TryStateSelect)
  : request Weight
| q_create_default_config : request Bytes
| q_build_config (c : Bytes) : request (answer RuntimeString unit).

Definition serve {A} (q : request A) : method A :=
  match q in request A return method A with
  | q_version => Core_version
  | q_execute_block b => Core_execute_block b
  | q_initialize_block h => Core_initialize_block h
  | q_metadata => Metadata_metadata
  | q_metadata_at_version v => Metadata_metadata_at_version v
  | q_metadata_versions => Metadata_metadata_versions
  | q_apply_extrinsic xt => BlockBuilder_apply_extrinsic xt
  | q_finalize_block => BlockBuilder_finalize_block
  | q_inherent_extrinsics d => BlockBuilder_inherent_extrinsics d
  | q_check_inherents b d => BlockBuilder_check_inherents b d
  | q_validate_transaction s tx h => TaggedTransactionQueue_validate_transaction s tx h
  | q_offchain_worker h => OffchainWorkerApi_offchain_worker h
  | q_slot_duration => AuraApi_slot_duration
  | q_authorities => AuraApi_authorities
  | q_generate_session_keys seed => SessionKeys_generate_session_keys seed
  | q_decode_session_keys b => SessionKeys_decode_session_keys b
  | q_grandpa_authorities => GrandpaApi_grandpa_authorities
  | q_current_set_id => GrandpaApi_current_set_id
  | q_submit_report e k => GrandpaApi_submit_report_equivocation_unsigned_extrinsic e k
  | q_key_ownership_proof s a => GrandpaApi_generate_key_ownership_proof s a
  | q_account_nonce a => AccountNonceApi_account_nonce a
  | q_info xt len => TransactionPaymentApi_query_info xt len
  | q_fee_details xt len => TransactionPaymentApi_query_fee_details xt len
  | q_weight_to_fee w => TransactionPaymentApi_query_weight_to_fee w
  | q_length_to_fee len => TransactionPaymentApi_query_length_to_fee len
  | q_call_info c len => TransactionPaymentCallApi_query_call_info c len
  | q_call_fee_details c len => TransactionPaymentCallApi_query_call_fee_details c len
  | q_call_weight_to_fee w => TransactionPaymentCallApi_query_weight_to_fee w
  | q_call_length_to_fee len => TransactionPaymentCallApi_query_length_to_fee len
  | q_benchmark_metadata extra => Benchmark_benchmark_metadata extra
  | q_dispatch_benchmark c => Benchmark_dispatch_benchmark c
  | q_on_runtime_upgrade c => TryRuntime_on_runtime_upgrade c
  | q_try_execute_block b state_root signature s =>
    TryRuntime_execute_block b state_root signature s
  | q_create_default_config => GenesisBuilder_create_default_config
  | q_build_config c => GenesisBuilder_build_config c
  end.

(** [P] of the value of a call, where it has one. *)
Definition if_returned {A} (P : A -> Prop) (r : returned A) : Prop :=
  match r with Ok x => P x | _ => True end.

Lemma runs_call_api {A} (e : apiE (returned A)) tr a :
  runs (call_api e) tr (Ok a) -> tr = [Obs e (Ok a)].
Proof. intros ([x | [] |] & tr' & -> & H); simpl in H; destruct H as [-> [=]]; by subst. Qed.

(** One call and a function of its value. *)
Lemma runs_answered {A B} (e : apiE (returned A)) (f : A -> B) tr b :
  runs (let* x := call_api e in iret (f x) : method B) tr (Ok b) ->
  exists x, tr = [Obs e (Ok x)] /\ b = f x.
Proof. intros ([x | [] |] & tr' & -> & H); simpl in H; destruct H as [-> [=]]; subst; eauto. Qed.

End Api.

(** ** The slot duration, from the runtime's configuration to blocks *)
Section Slots.
Context {T : ServiceTypes} {RT : RuntimeApiTypes}.
(** The answer of the API, as the client hands it to the service. *)
Variable answered : AuraSlotDuration -> SlotDuration.
Variable as_millis : Timestamp -> Z.
Variable slot_number : Slot -> Z.
(** [pallet_aura::MinimumPeriodTimesTwo]: the [SlotDuration] of the runtime's
    Aura configuration, which [Aura::slot_duration()] returns. *)
Variable MinimumPeriodTimesTwo : Z -> Z.
Hypothesis MinimumPeriodTimesTwo_spec :
  forall p, fits 64 p -> MinimumPeriodTimesTwo p = saturating_mul 64 p 2.
(** [Slot::from_timestamp]: the number of whole slots up to the timestamp. *)
Hypothesis slot_from_timestamp_spec :
  forall t d, 0 < d ->
  slot_number (slot_from_timestamp_and_slot_duration t (answered (from_millis d))) =
  as_millis t / d.

Definition aura_answers (o : obs apiE) : Prop :=
  match o with
  | Obs e x =>
    match e in apiE A return A -> Prop with
    | Aura_slot_duration =>
      if_returned (fun d => d = MinimumPeriodTimesTwo (MinimumPeriod timestamp_config))
    | _ => fun _ => True
    end x
  end.

(** What the runtime's API can answer. *)
Definition runtime_answer (d : SlotDuration) : Prop :=
  exists tr a, runs AuraApi_slot_duration tr (Ok a) /\ Forall aura_answers tr /\ d = answered a.

Definition if_ok {Er A} (P : A -> Prop) (a : answer Er A) : Prop :=
  match a with AOk x => P x | AErr _ => True end.

(** A client answers a slot duration only as its runtime does. *)
Definition honest_inherent (o : obs inherentE) : Prop :=
  match o with
  | Obs e x =>
    match e in inherentE A return A -> Prop with
    | slot_duration_at _ _ => if_ok runtime_answer
    | timestamp_from_system_time => fun _ => True
    end x
  end.

Definition honest_service (o : obs svcE) : Prop :=
  match o with
  | Obs e x =>
    match e in svcE A return A -> Prop with
    | aura_slot_duration _ => if_ok runtime_answer
    | _ => fun _ => True
    end x
  end.

(** [P] of the parameters block authoring is started with. *)
Definition on_start_aura (P : StartAuraParams -> Prop) (o : obs svcE) : Prop :=
  match o with
  | Obs e x =>
    match e in svcE A return A -> Prop with
    | start_aura a => fun _ => P a
    | _ => fun _ => True
    end x
  end.

Lemma runtime_answer_value d :
  runtime_answer d -> d = answered (from_millis MILLISECS_PER_BLOCK).
Proof using MinimumPeriodTimesTwo_spec.
  intros (tr & a & Hr & Htr & ->). apply runs_answered in Hr as (x & -> & ->).
  apply Forall_cons in Htr as [Ha _]. simpl in Ha. subst x. do 2 f_equal. rewrite MinimumPeriodTimesTwo_spec; by vm_compute.
Qed.

Lemma authored_slot d parent tr slot t :
  runtime_answer d -> runs (authoring_inherent_data_providers d parent tt) tr (Ok (slot, t)) ->
  slot_number slot = as_millis t / MILLISECS_PER_BLOCK.
Proof using MinimumPeriodTimesTwo_spec slot_from_timestamp_spec.
  intros ->%runtime_answer_value (x & tr' & -> & _ & [= -> ->]).
  by apply slot_from_timestamp_spec.
Qed.

(** C20: The slot that the node's inherent providers compute, when it imports a
    block and when it authors one, is the time of its clock divided by the block
    time of the runtime, 6000 milliseconds: the configured minimum period,
    doubled by Aura and answered through the runtime API, is what both divide
    by. *)
Theorem slots_are_block_times :
  (forall client parent tr slot t,
     Forall honest_inherent tr ->
     runs (import_inherent_data_providers client parent tt) tr (Ok (slot, t)) ->
     slot_number slot = as_millis t / MILLISECS_PER_BLOCK) /\
  (forall config p sync tr r,
     Forall honest_service tr -> runs (start_authoring config p sync) tr r ->
     Forall (on_start_aura (fun a => forall parent tr' slot t,
       runs (sa_create_inherent_data_providers a parent tt) tr' (Ok (slot, t)) ->
       slot_number slot = as_millis t / MILLISECS_PER_BLOCK)) tr).
Proof using MinimumPeriodTimesTwo_spec slot_from_timestamp_spec.
  split.
  - intros client parent tr slot t Hh ([d | e] & tr' & -> & H); simpl in H; [| by destruct H].
    apply Forall_cons in Hh as [Hd _]. by eapply (authored_slot d parent tr').
  - intros config p sync tr r Hh H. run_step H. run_step H.
    destruct x0 as [d | e]; simpl in H; [| by destruct H as [-> _]; repeat constructor].
    apply Forall_cons in Hh as [_ [Hd _]%Forall_cons].
    run_step H. destruct x0 as [aura | e]; simpl in H.
    + run_step H. destruct H as [-> _].
      repeat constructor; intros parent tr' slot t; by apply authored_slot.
    + destruct H as [-> _]. repeat constructor; intros parent tr' slot t; by apply authored_slot.
Qed.
End Slots.

(** ** Concrete answers *)
Module Concrete.
Import Weights.Concrete Runtime.Concrete Service.Concrete.
#[local] Existing Instance unit_types.

#[local] Instance unit_api : RuntimeApiTypes := {|
  Block := unit; Header := unit; UncheckedExtrinsic := unit; BlockHash := unit;
  ExtrinsicInclusionMode := unit; RuntimeMetadata := unit; OpaqueMetadata := unit;
  ApplyExtrinsicResult := unit; InherentData := unit; CheckInherentsResult := unit;
  TransactionSource := unit; TransactionValidity := unit; AuraSlotDuration := Z;
  AuraId := unit; BoundedAuthorities := list unit; Bytes := unit; KeyTypeId := unit;
  AuthorityList := unit; GrandpaId := unit; EquivocationProof := unit;
  OpaqueKeyOwnershipProof := unit; AccountId := unit; RuntimeCall := unit;
  RuntimeDispatchInfo := unit; FeeDetails := unit; Weight := Z * Z; ApiVersions := unit;
  BenchmarkList := unit; BenchmarkBatch := unit; BenchmarkConfig := unit;
  StorageInfo := unit; TrackedStorageKey := unit; RuntimeString := string;
  UpgradeCheckSelect := unit; TryStateSelect := unit; TryRuntimeError := string;
  RUNTIME_API_VERSIONS := tt; opaque_metadata m := m; from_millis d := d;
  into_inner l := l;
|}.

Definition doubled (p : Z) : Z := saturating_mul 64 p 2.

Definition answered : AuraSlotDuration -> SlotDuration := fun d => d.
Definition as_millis : Timestamp -> Z := fun t => t.
Definition slot_number : Slot -> Z := fun s => s.

(** A block imported 13 seconds after the epoch. *)
Definition import_trace : list (obs inherentE) :=
  [Obs (slot_duration_at (tt : FullClient) (0 : Hash)) (AOk (6000 : SlotDuration));
   Obs timestamp_from_system_time (13000 : Timestamp)].

(** It is in slot 2. *)
Lemma slot_at_13_seconds :
  Forall (honest_inherent answered doubled) import_trace /\
  runs (import_inherent_data_providers (tt : FullClient) (0 : Hash) tt) import_trace
    (Ok ((2 : Slot), (13000 : Timestamp))) /\
  slot_number (2 : Slot) = as_millis (13000 : Timestamp) / MILLISECS_PER_BLOCK.
Proof.
  assert (Hh : Forall (honest_inherent answered doubled) import_trace).
  { repeat constructor. exists [Obs Aura_slot_duration (Ok 6000)], (from_millis 6000).
    split; [eexists _, _; split; [reflexivity |]; split; reflexivity |].
    split; [repeat constructor | reflexivity]. }
  assert (Hr : runs (import_inherent_data_providers (tt : FullClient) (0 : Hash) tt) import_trace
    (Ok ((2 : Slot), (13000 : Timestamp)))).
  { eexists _, _. split; [reflexivity |]. eexists _, _. split; [reflexivity |].
    split; reflexivity. }
  split; [exact Hh |]. split; [exact Hr |].
  exact (proj1 (slots_are_block_times answered as_millis slot_number doubled
    (fun p _ => eq_refl) (fun t d _ => eq_refl)) _ _ _ _ _ Hh Hr).
Defined.
End Concrete.
