(* ===== verification/Build.v ===== *)
(** * Build scripts ([runtime/build.rs], [node/build.rs])

    What each crate's [main] asks of the build tools before the crate is
    compiled, and the Wasm binary that the runtime then includes. *)

From S2P Require Import Prelude Effects.

Set Default Proof Using "Type".

(** The builder of [substrate_wasm_builder], a value until it builds. *)
Class BuildTypes := {
  WasmBuilder : Type;
  WasmBuilder_new : WasmBuilder;
  with_current_project : WasmBuilder -> WasmBuilder;
  export_heap_base : WasmBuilder -> WasmBuilder;
  import_memory : WasmBuilder -> WasmBuilder;
}.

Section Build.
Context {T : BuildTypes}.

(** What the scripts do: a build writes [wasm_binary.rs] to the output
    directory, the others print keys and dependencies for cargo. *)
Inductive buildE : Type -> Type :=
| wasm_build (b : WasmBuilder) : buildE unit
| generate_cargo_keys : buildE unit
| rerun_if_git_head_changed : buildE unit.

(** [main] of the runtime's script, with the cargo feature [std] or without. *)
Definition runtime_build (std : bool) : prog buildE unit :=
  if std then
    trigger (wasm_build (import_memory (export_heap_base (with_current_project WasmBuilder_new))))
  else Ret tt.

(** [main] of the node's script. *)
Definition node_build : prog buildE unit :=
  bind (trigger generate_cargo_keys) (fun _ => trigger rerun_if_git_head_changed).

(** The Wasm builds of a run. *)
Definition built (o : obs buildE) : option WasmBuilder :=
  match o with
  | Obs e _ => match e with wasm_build b => Some b | _ => None end
  end.

(** Only a build of the runtime for the node, with [std], builds the Wasm
    runtime; so the build of that runtime, without [std], does not recurse. *)
Lemma runtime_build_once std tr :
  runs (runtime_build std) tr tt ->
  omap built tr = if std
    then [import_memory (export_heap_base (with_current_project WasmBuilder_new))] else [].
Proof. destruct std; [by intros (x & ? & -> & -> & _) | by intros [-> _]]. Qed.

Lemma node_build_keys tr :
  runs node_build tr tt -> tr = [Obs generate_cargo_keys tt; Obs rerun_if_git_head_changed tt].
Proof. by intros ([] & ? & -> & [] & ? & -> & -> & _). Qed.
End Build.
