(* ===== verification/Node.v ===== *)
(** * The node as a whole

    What holds when the components run together: from the command line's chain
    identifier to the calls of the service that runs on that chain, and from the
    fee queries of the runtime's API to the fee the runtime charges. *)

From S2P Require Import Prelude Effects Weights TemplatePallet Runtime Fees ChainSpec.
From S2P Require Import Benchmarking Service Command RuntimeApi.

Set Default Proof Using "Type".

(** ** From the chain identifier to the service *)
Section Chain.
Context {K : Keys} {KL : KeysLaws} {B : ChainSpecBuilder} {BL : ChainSpecBuilderLaws}.
Context {T : ServiceTypes} {CT : CommandTypes} {X : ExtrinsicTypes} {R : Runners}.
Context {RL : RunnersLaws}.
Variable WASM_BINARY : option Code.
Variables runtime_benchmarks try_runtime : bool.
Variable using_encoded : SignedPayload -> Benchmarking.Bytes.
Variables (Apis : Type) (RUNTIME_API_VERSIONS : Apis).
Variable into_opaque : Benchmarking.UncheckedExtrinsic -> OpaqueExtrinsic.
Variable ProvideError : Type.
Variable InherentData_new : Command.InherentData.
Variable provide_timestamp : Z -> Command.InherentData -> outcome ProvideError Command.InherentData.
Variable debug : ProvideError -> string.
Variable client_error_into_cli : Service.ClientError -> CliError.

Local Abbreviation run_io := (run runtime_benchmarks try_runtime using_encoded Apis
  RUNTIME_API_VERSIONS into_opaque ProvideError InherentData_new provide_timestamp debug
  client_error_into_cli).

(** The chain identifier of a command, as [sc_cli] computes it from [--chain]
    and [--dev], and the boxing of a specification. *)
Variable chain_id_of : Cli -> CliConfiguration -> string.
Variable boxed : ChainSpec.ChainSpec -> Service.ChainSpec.

(** A runner is made with the specification that [load_spec] loads for the
    command's chain identifier. *)
Definition loads_spec (o : obs cmdE) : Prop :=
  match o with
  | Obs e x =>
    match e in cmdE A return A -> Prop with
    | create_runner cli cmd => if_ok (fun runner =>
        exists tr spec, runs (load_spec WASM_BINARY (chain_id_of cli cmd)) tr (Ok spec) /\
                        chain_spec (runner_config runner) = boxed spec)
    | _ => fun _ => True
    end x
  end.

(** C16: A node that runs on a built-in chain runs on that chain throughout: the
    specification of its configuration is the one the identifier selects, with
    the Wasm runtime built into the node and a genesis that the runtime's
    pallets accept; every call of its service takes that configuration's values
    and the parts made from it, in every argument, so the voter and the network
    use the protocol named after this chain; and the last call runs the task
    manager all its tasks were spawned on. *)
Theorem node_on_builtin_chain (cli : Cli) tr :
  collision_free -> subcommand cli = None ->
  chain_id_of cli (RunConfiguration (cli_run cli)) ∈ builtin_ids ->
  Forall loads_spec tr -> runs run_io (Obs from_args cli :: tr) (Ok tt) ->
  exists spec g runner m p n k tr1 tr2,
    let config := runner_config runner in
    head tr = Some (Obs (create_runner cli (RunConfiguration (cli_run cli))) (AOk runner)) /\
    WASM_BINARY = Some (spec_code spec) /\
    read_genesis (genesis_patch spec) = Some g /\ genesis_ok g /\
    chain_spec config = boxed spec /\
    svc_calls tr = tr1 ++ tr2 /\
    Forall (wired_partial config m p) tr1 /\ Forall (wired_rest config p n k) tr2 /\
    np_protocol_name config n = protocol_standard_name (np_genesis_hash n) (boxed spec) /\
    last tr = Some (Obs (run_service (task_manager p)) (AOk tt)).
Proof using All.
  intros Hcf Hcli Hid Hspec (runner & l & tm & Hl & ->)%run_node_Ok; [| done ..].
  apply Forall_cons in Hspec as [(ltr & spec & Hload & Hbox) _].
  destruct (load_builtin WASM_BINARY _ _ _ Hcf Hid Hload) as (Hwasm & _ & g & Hg & Hok).
  destruct (new_full_wired _ _ _ Hl) as (m & p & n & k & tr1 & tr2 & -> & -> & H1 & H2).
  exists spec, g, runner, m, p, n, k, tr1, tr2. cbv zeta. split_and!; try done.
  - change (svc_calls (map service_obs (tr1 ++ tr2) ++ [Obs (run_service (task_manager p)) (AOk tt)])
            = tr1 ++ tr2).
    by rewrite svc_calls_app, svc_calls_service, app_nil_r.
  - unfold np_protocol_name. by rewrite Hbox.
  - rewrite app_comm_cons. apply last_snoc.
Qed.
End Chain.

(** ** From the fee queries to the fee *)
Section FeeQueries.
Context {RT : RuntimeApiTypes} {FS : FrameSystem}.
Context {WL : WeightLaws RuntimeApi.Weight} {BLL : BlockLimitsLaws RuntimeApi.Weight}.
Context {FT : FeeTypes RuntimeApi.Weight} {PP : PaymentPallet RuntimeApi.Weight}.
Context {PPL : PaymentPalletLaws RuntimeApi.Weight}.

(** The payment pallet answers the queries by its configuration: a weight is
    capped at the block's maximum, a length is a weight of as many picoseconds. *)
Definition payment_answers (o : obs apiE) : Prop :=
  match o with
  | Obs e x =>
    match e in apiE A return A -> Prop with
    | TransactionPayment_weight_to_fee w => if_returned (fun fee =>
      fee = WeightToFee transaction_payment_config (weight_min w (max_block BlockWeights)))
    | TransactionPayment_length_to_fee len => if_returned (fun fee =>
      fee = LengthToFee transaction_payment_config (from_parts len 0))
    | _ => fun _ => True
    end x
  end.

(** The two methods for each query, of extrinsics and of calls. *)
Definition length_query (q : request Z) (len : Z) : Prop :=
  q = q_length_to_fee len \/ q = q_call_length_to_fee len.
Definition weight_query (q : request Z) (w : RuntimeApi.Weight) : Prop :=
  q = q_weight_to_fee w \/ q = q_call_weight_to_fee w.

Lemma length_queried q len tr fee :
  fits 32 len -> length_query q len -> Forall payment_answers tr -> runs (serve q) tr (Ok fee) ->
  fee = len.
Proof using All.
  intros Hlen [-> | ->] Htr ->%runs_call_api; apply Forall_cons in Htr as [Hfee _];
    simpl in Hfee; rewrite Hfee, identity_fee; apply ref_time_from_parts; width_lia.
Qed.

Lemma weight_queried q w tr fee :
  weight_query q w -> Forall payment_answers tr -> runs (serve q) tr (Ok fee) ->
  fee = Z.min (ref_time w) 2_000_000_000_000.
Proof using All.
  intros [-> | ->] Htr ->%runs_call_api; apply Forall_cons in Htr as [Hfee _];
    simpl in Hfee; by rewrite Hfee, identity_fee, ref_time_min, max_block_time.
Qed.

(** C29: The fee a client is quoted is the fee it is charged: for every class,
    length, weight and tip, however many blocks have passed, the base fee and
    the answers of the runtime's length and weight queries, from either payment
    API, add up without saturation to what the extrinsic is charged before its
    tip. *)
Theorem quoted_fee_is_charged n m class len w tip ql qw trl trw fl fw :
  m = FeeMultiplier \/ (0 < n)%nat -> fits 32 len ->
  length_query ql len -> weight_query qw w ->
  Forall payment_answers trl -> Forall payment_answers trw ->
  runs (serve ql) trl (Ok fl) -> runs (serve qw) trw (Ok fw) ->
  fits 66 (base_fee class + fl + fw) /\
  compute_fee transaction_payment_config BlockWeights (multiplier_after n m) class len w tip =
  saturating_add 128 (base_fee class + fl + fw) tip.
Proof using All.
  intros Hm Hlen Hql Hqw Htrl Htrw Hrl Hrw.
  rewrite (multiplier_after_one n m Hm).
  rewrite (length_queried ql len trl fl) by done. rewrite (weight_queried qw w trw fw) by done.
  by apply runtime_fee.
Qed.
End FeeQueries.

(** ** Concrete witnesses *)
Section FeeWitness.
Import Weights.Concrete Runtime.Concrete Fees.Concrete.

#[local] Instance priced_api : RuntimeApiTypes := {|
  Block := unit; Header := unit; RuntimeApi.UncheckedExtrinsic := unit; BlockHash := unit;
  ExtrinsicInclusionMode := unit; RuntimeMetadata := unit; OpaqueMetadata := unit;
  ApplyExtrinsicResult := unit; RuntimeApi.InherentData := unit; CheckInherentsResult := unit;
  TransactionSource := unit; TransactionValidity := unit; AuraSlotDuration := Z;
  RuntimeApi.AuraId := unit; BoundedAuthorities := list unit; RuntimeApi.Bytes := unit;
  KeyTypeId := unit; AuthorityList := unit; RuntimeApi.GrandpaId := unit;
  EquivocationProof := unit; OpaqueKeyOwnershipProof := unit; RuntimeApi.AccountId := unit;
  RuntimeApi.RuntimeCall := unit; RuntimeDispatchInfo := unit; FeeDetails := unit;
  Weight := Z * Z; ApiVersions := unit; BenchmarkList := unit; BenchmarkBatch := unit;
  BenchmarkConfig := unit; StorageInfo := unit; TrackedStorageKey := unit;
  RuntimeString := string; UpgradeCheckSelect := unit; TryStateSelect := unit;
  TryRuntimeError := string; RuntimeApi.RUNTIME_API_VERSIONS := tt; opaque_metadata m := m;
  from_millis d := d; into_inner l := l;
  api_weight_ops := pair_weight_ops; api_block_limits := seconds_limits;
|}.

(** A call of three seconds is quoted, and charged, the block's two. *)
Definition long_weight : Z * Z := (3_000_000_000_000, 0).

Lemma long_call_quoted :
  fits 66 (base_fee normal + 120 + 2_000_000_000_000) /\
  compute_fee transaction_payment_config BlockWeights (multiplier_after 1 tripled) normal 120
    long_weight 7 = 2_000_125_000_127.
Proof.
  assert (H : fits 66 (base_fee normal + 120 + 2_000_000_000_000) /\
    compute_fee transaction_payment_config BlockWeights (multiplier_after 1 tripled) normal 120
      long_weight 7 = saturating_add 128 (base_fee normal + 120 + 2_000_000_000_000) 7).
  { apply (quoted_fee_is_charged (RT := priced_api)
             (WL := pair_weight_laws) (BLL := seconds_limits_laws)
             (FT := fixed_fees) (PP := formula_payment) (PPL := formula_payment_laws) 1 tripled normal 120 long_weight 7
             (@q_length_to_fee priced_api 120) (@q_call_weight_to_fee priced_api long_weight)
             [Obs (@TransactionPayment_length_to_fee priced_api 120) (Ok 120)]
             [Obs (@TransactionPayment_weight_to_fee priced_api long_weight)
                (Ok 2_000_000_000_000)]).
    - right. exact (le_n 1).
    - vm_compute. split; discriminate.
    - left. reflexivity.
    - right. reflexivity.
    - repeat constructor; vm_compute; reflexivity.
    - repeat constructor; vm_compute; reflexivity.
    - eexists _, _. split; [reflexivity | split; reflexivity].
    - eexists _, _. split; [reflexivity | split; reflexivity]. }
  split; [exact (proj1 H) |]. rewrite (proj2 H). vm_compute. reflexivity.
Defined.
End FeeWitness.

(** The node of [Command.Concrete], on the development chain. *)
Section ChainWitness.
Import ChainSpec.Concrete Service.Concrete Command.Concrete.
#[local] Existing Instance Service.Concrete.unit_types.
#[local] Existing Instance Benchmarking.toy_types.
#[local] Existing Instance Command.Concrete.unit_commands.
#[local] Existing Instance Command.Concrete.direct_runners.
#[local] Existing Instance Command.Concrete.direct_runners_laws.

Definition on_dev (_ : Cli) (_ : CliConfiguration) : string := "dev".

Lemma node_answers_load A (e : cmdE A) s :
  loads_spec (Some tt) on_dev chain_id (Obs e (cmd_answers node_cli A e s).1).
Proof.
  destruct e; try exact I. exists []. eexists. split; [split; reflexivity |]. reflexivity.
Qed.

Definition node_rest : list (obs cmdE) := tail (command_trace node_cli).

Lemma node_runs_on_dev :
  exists spec g runner m p n k tr1 tr2,
    head node_rest =
      Some (Obs (create_runner node_cli (RunConfiguration (cli_run node_cli))) (AOk runner)) /\
    read_genesis (genesis_patch spec) = Some g /\ genesis_ok g /\
    svc_calls node_rest = tr1 ++ tr2 /\
    Forall (wired_partial (runner_config runner) m p) tr1 /\
    Forall (wired_rest (runner_config runner) p n k) tr2 /\
    np_protocol_name (runner_config runner) n =
      protocol_standard_name (np_genesis_hash n) (chain_id spec).
Proof.
  assert (Hl : Forall (loads_spec (Some tt) on_dev chain_id) (command_trace node_cli)).
  { apply (exec_trace_Forall (cmd_answers node_cli) (fun _ => True)); [| exact I].
    intros A e s _. split; [apply node_answers_load | exact I]. }
  assert (Hr : runs run_plain (Obs from_args node_cli :: node_rest) (Ok tt))
    by exact (exec_runs (cmd_answers node_cli) run_plain tt).
  destruct (node_on_builtin_chain (K := uri_keys) (B := parts_builder) (CT := unit_commands) (Some tt) false false toy_encode unit tt
    (fun _ => tt) Empty_set 0 (fun t _ => Ok t) (fun _ => ""%string) id on_dev chain_id node_cli
    node_rest uri_collision_free eq_refl (list_elem_of_here _ _)
    (Forall_inv_tail Hl) Hr)
    as (spec & g & runner & m & p & n & k & tr1 & tr2 & H0 & _ & H1 & H2 & _ & H3 & H4 & H5 & H6 & _).
  exists spec, g, runner, m, p, n, k, tr1, tr2. split_and!; assumption.
Defined.
End ChainWitness.
