(* ===== verification/PalletTests.v ===== *)
(** * Tests and benchmarks of the template pallet
    ([pallets/template/src/mock.rs], [tests.rs], [benchmarking.rs])

    The unit tests and the benchmark functions as programs over any lawful
    host, with the assertions they make; a concrete host like the mock runtime,
    on which the pallet's theorems are instantiated. *)

From S2P Require Import Prelude Effects Weights Runtime TemplatePallet.

Set Default Proof Using "Type".

(** What the test code uses of FRAME beyond the pallet's own host. *)
Class TestHost `{FrameSystem} (St Ev : Type) `{!PalletHost St Ev} := {
  signed : AccountId -> RuntimeOrigin;
  set_block_number : Z -> St -> St;
  build_storage : St;
}.

Class TestHostLaws `{FrameSystem} (St Ev : Type) `{!PalletHost St Ev, !TestHost St Ev} : Prop := {
  ensure_signed_signed who : ensure_signed (signed who) = Ok who;
  block_number_set n s : host_block_number (set_block_number n s) = n;
  get_set_block_number n s : host_get (set_block_number n s) = host_get s;
  get_build_storage : host_get build_storage = None;
}.

Section Tests.
Context {FS : FrameSystem} {W : Type} {Cfg : Config W}.
Context {St : Type} `{!PalletHost St RuntimeEvent, !PalletHostLaws St RuntimeEvent}.
Context `{!TestHost St RuntimeEvent, !TestHostLaws St RuntimeEvent}.
Context `{!EqDecision St, !EqDecision RuntimeEvent, !EqDecision DispatchError}.

(** An [assert!]: a panic when it does not hold. *)
Definition assert (P : Prop) `{!Decision P} : outcome Empty_set unit :=
  if decide P then Ok tt else Panic "assertion failed".

(** [assert_ok!] and [assert_noop!]: the call succeeds; the call fails with
    the error and leaves the storage alone. *)
Definition assert_ok (r : outcome DispatchError unit) : outcome Empty_set unit :=
  assert (r = Ok tt).
Definition assert_noop (s : St) (rs : outcome DispatchError unit * St) (e : DispatchError)
  : outcome Empty_set unit :=
  assert (rs.1 = Err e /\ rs.2 = s).

(** [new_test_ext]. *)
Definition new_test_ext : St := build_storage.

(** The tests sign with account [1]; [one] is that account. *)
Definition it_works_for_default_value (one : AccountId) : outcome Empty_set unit :=
  let s := set_block_number 1 new_test_ext in
  let '(r, s) := run_call (signed one) (call_do_something 42) s in
  let? _ := assert_ok r in
  let? _ := assert (host_get s = Some 42) in
  assert (last (host_events s) = Some (into_runtime_event (SomethingStored 42 one))).

Definition correct_error_for_none_value (one : AccountId) : outcome Empty_set unit :=
  let s := new_test_ext in
  assert_noop s (run_call (signed one) call_cause_error s) (into_dispatch_error NoneValue).

(** The benchmarks; [caller] is [whitelisted_caller()]. The benchmarked
    extrinsic call must succeed. *)
Definition bench_do_something (caller : AccountId) (s : St) : outcome Empty_set unit :=
  let value := 100 in
  let '(r, s) := run_call (signed caller) (call_do_something value) s in
  let? _ := assert_ok r in
  assert (host_get s = Some value).

Definition bench_cause_error (caller : AccountId) (s : St) : outcome Empty_set unit :=
  let s := host_put 100 s in
  let '(r, s) := run_call (signed caller) call_cause_error s in
  let? _ := assert_ok r in
  assert (host_get s = Some 101).

Lemma assert_true (P : Prop) `{!Decision P} : P -> assert P = Ok tt.
Proof. unfold assert. by case_decide. Qed.

(** C35: The unit tests of the pallet pass on every lawful host, not only on
    the mock runtime, and for every signing account; and its benchmarks meet
    their assertions from every state of the host. *)
Theorem tests_and_benchmarks_pass (who : AccountId) :
  it_works_for_default_value who = Ok tt /\
  correct_error_for_none_value who = Ok tt /\
  forall s, bench_do_something who s = Ok tt /\ bench_cause_error who s = Ok tt.
Proof using All.
  unfold it_works_for_default_value, correct_error_for_none_value, bench_do_something,
    bench_cause_error, assert_ok, assert_noop, run_call, new_test_ext; simpl.
  unfold do_something, cause_error, deposit_event.
  rewrite ensure_signed_signed; simpl. rewrite get_build_storage; simpl.
  split_and!.
  - rewrite !assert_true; simpl; try done; host_simpl.
    rewrite block_number_set. simpl. apply last_snoc.
  - by rewrite assert_true.
  - intros s. split; [| rewrite get_put; simpl]; rewrite !assert_true; try done; host_simpl.
Qed.
End Tests.

(** ** A concrete runtime like [mock.rs]

    Account identifiers are [u64]s; origins, dispatch errors and outer events
    are those of a runtime with [System] and [TemplateModule] only; the host
    state keeps the block number, the [Something] value and the event log. *)
Module Mock.
Import Weights.Concrete.

Inductive RawOrigin := Root | Signed (who : Z) | NoOrigin.

Inductive TestDispatchError := BadOrigin | Module_TemplateModule (e : Error).

#[export] Instance test_frame : FrameSystem := {|
  AccountId := Z;
  RuntimeOrigin := RawOrigin;
  TemplatePallet.BadOrigin := unit;
  DispatchError := TestDispatchError;
  ensure_signed o := match o with Signed who => Ok who | _ => Err tt end;
  from_bad_origin _ := BadOrigin;
|}.

Inductive TestEvent := TemplateModule (e : Event).

#[export] Instance test_config : Config (Z * Z) := {|
  RuntimeEvent := TestEvent;
  into_runtime_event := TemplateModule;
  into_dispatch_error := Module_TemplateModule;
  weight_info := UnitWeight Weights.Concrete.db;
|}.

(** [construct_runtime!] numbers the pallets of [Test] in their order. *)
Inductive TestPallet := Test_System | Test_TemplateModule.

Definition test_pallet_index (p : TestPallet) : Z :=
  match p with Test_System => 0 | Test_TemplateModule => 1 end.

(** [impl frame_system::Config for Test]. *)
Definition test_system_config `{!BlockLimits (Z * Z)} : SystemConfig (Z * Z) unit := {|
  system_BlockWeights := None;
  system_BlockLength := None;
  system_Nonce_bits := 64;
  system_BlockHashCount := 250;
  system_DbWeight := None;
  system_Version := None;
  system_SS58Prefix := 42;
  MaxConsumers := 16;
|}.

Record TestState := mk_state {
  block_number : Z;
  something : option Z;
  events : list TestEvent;
}.

#[export] Instance test_host : PalletHost TestState RuntimeEvent := {|
  host_get := something;
  host_put v s := mk_state (block_number s) (Some v) (events s);
  host_deposit e s :=
    if decide (block_number s = 0) then s
    else mk_state (block_number s) (something s) (events s ++ [e]);
  host_block_number := block_number;
  host_events := events;
|}.

#[export] Instance test_host_laws : PalletHostLaws TestState RuntimeEvent.
Proof. split; intros; simpl; repeat case_decide; done. Defined.

#[export] Instance test_ext : TestHost TestState RuntimeEvent := {|
  signed := Signed;
  set_block_number n s := mk_state n (something s) (events s);
  build_storage := mk_state 0 None [];
|}.

#[export] Instance test_ext_laws : TestHostLaws TestState RuntimeEvent.
Proof. by split. Defined.

#[export] Instance TestDispatchError_eq_dec : EqDecision TestDispatchError.
Proof. solve_decision. Defined.

#[export] Instance TestEvent_eq_dec : EqDecision TestEvent.
Proof.
  intros [[x who]] [[x' who']]. simpl in who, who'.
  destruct (decide (x = x')), (decide (who = who')); [left | right ..]; congruence.
Defined.

#[export] Instance TestState_eq_dec : EqDecision TestState.
Proof. solve_decision. Defined.

(** Sets, increments, an overflow, and a call that is not signed. *)
Definition script : list (RuntimeOrigin * Call) :=
  [(Signed 1, call_cause_error); (Signed 1, call_do_something 42);
   (Root, call_do_something 7); (Signed 2, call_cause_error);
   (Signed 3, call_do_something u32_max); (Signed 2, call_cause_error)].

Definition block1 : TestState := mk_state 1 None [].
End Mock.

(** ** The pallet's theorems on the concrete runtime *)
Section Witnesses.
Import Mock Weights.Concrete.

Definition alice : RuntimeOrigin := Signed 1.

Lemma script_wf : Forall call_wf script.*2.
Proof. unfold script; simpl. repeat constructor; unfold call_wf; width_lia. Defined.

Lemma script_refines :
  Forall call_wf script.*2 /\
  (run_calls script block1).2 =
    mk_state 1 (Some u32_max)
      (map TemplateModule [SomethingStored 42 (1 : AccountId);
                           SomethingStored u32_max (3 : AccountId)]) /\
  let '(rs, v, evs) := counter_run script (host_get block1) in
  let '(rs', s') := run_calls script block1 in
  rs' = rs /\ host_get s' = v /\
  host_events s' = host_events block1 ++ logged block1 evs /\
  host_block_number s' = host_block_number block1.
Proof.
  split; [exact script_wf | split; [reflexivity |]].
  exact (template_refines_counter script block1 script_wf I).
Defined.

Lemma script_ideal :
  ideal_value script (run_calls script block1).1 None = Some u32_max /\
  let '(rs, s') := run_calls script block1 in
  host_get s' = ideal_value script rs (host_get block1) /\
  host_events s' = host_events block1 ++ logged block1 (ideal_events script rs).
Proof.
  split; [reflexivity |].
  exact (stored_value_is_ideal script block1 script_wf I).
Defined.

Definition near_max : TestState := mk_state 1 (Some (u32_max - 2)) [].
Definition signers : list RuntimeOrigin := [Signed 1; Signed 2; Signed 1; Signed 4].

Lemma near_max_saturates :
  count_ok (run_calls (map (fun o => (o, call_cause_error)) signers) near_max).1 = 2 /\
  let '(rs, s') := run_calls (map (fun o => (o, call_cause_error)) signers) near_max in
  count_ok rs = Z.min (Z.of_nat (length signers)) (u32_max - (u32_max - 2)) /\
  host_get s' = Some (Z.min (u32_max - 2 + Z.of_nat (length signers)) u32_max) /\
  host_events s' = host_events near_max.
Proof.
  split; [reflexivity |].
  apply (cause_error_saturates signers (u32_max - 2) near_max);
    [repeat constructor; eexists; reflexivity | reflexivity | width_lia].
Defined.

Lemma near_max_result :
  value_ok (host_get near_max) /\
  host_get (run_call alice call_cause_error near_max).2 = Some (u32_max - 1).
Proof.
  assert (Hv : value_ok (host_get near_max)) by (cbn; width_lia).
  split; [exact Hv |].
  destruct (cause_error_result alice near_max Hv)
    as [[H _] | [[H _] | (old & [= <-] & _ & _ & H & _)]]; [discriminate ..| exact H].
Defined.

(** Without a stored value the call fails after one read. *)
Lemma failed_call_reads :
  runs (dispatch call_cause_error alice) [Obs Something_get None]
    (Err (Module_TemplateModule NoneValue)) /\
  Forall (fun o => is_write o = false) [Obs (E := palletE RuntimeEvent) Something_get None].
Proof.
  assert (H : runs (dispatch call_cause_error alice)
                [Obs (E := palletE RuntimeEvent) Something_get None]
                (Err (Module_TemplateModule NoneValue : DispatchError))).
  { exists None, []. split; reflexivity || (split; reflexivity). }
  split; [exact H |].
  exact (failed_dispatch_writes_nothing _ _ _ _ H eq_refl).
Defined.

Lemma increment_covered :
  weight_le
    (db_cost Weights.Concrete.db
       [Obs (E := palletE RuntimeEvent) Something_get (Some 5); Obs (Something_put 6) tt])
    (call_weight call_cause_error).
Proof.
  apply (weight_covers_storage Weights.Concrete.db call_cause_error alice _ (Ok tt));
    [right; reflexivity |].
  exists (Some 5), [Obs (Something_put 6) tt]. split; [reflexivity |].
  exists tt, []. split; [reflexivity | split; reflexivity].
Defined.

Lemma mock_tests_pass :
  it_works_for_default_value (1 : AccountId) = Ok tt /\
  correct_error_for_none_value (1 : AccountId) = Ok tt /\
  forall s, bench_do_something (1 : AccountId) s = Ok tt /\
            bench_cause_error (1 : AccountId) s = Ok tt.
Proof. exact (tests_and_benchmarks_pass (1 : AccountId)). Defined.
End Witnesses.
