(* ===== verification/GoJson.v ===== *)
(** * Go's [encoding/json], as the Fabric contract uses it

    [json.Marshal] and [json.Unmarshal] of a struct of integers and strings:
    UTF-8 and the replacement of what is not UTF-8, string escapes, the JSON
    grammar with its nesting limit, and the decoding of an object into the
    fields of a struct. A Go string or byte slice is a list of bytes. *)

From Stdlib Require Import DecimalFacts DecimalZ DecimalPos DecimalN.
From S2P Require Import Prelude.

Set Default Proof Using "Type".

Abbreviation bytes := (list Z).

(** The bytes of a literal. *)
Fixpoint lit (s : string) : bytes :=
  match s with
  | EmptyString => []
  | String c s => Z.of_N (Ascii.N_of_ascii c) :: lit s
  end.

Definition between (lo x hi : Z) : bool := (lo <=? x) && (x <=? hi).

(** ** UTF-8 ([unicode/utf8]) *)

(** The code point at the head and its length; [None] where the head is not
    UTF-8 (overlong, a surrogate, out of range, cut short). *)
Definition decode_rune (s : bytes) : option (Z * nat) :=
  match s with
  | [] => None
  | b0 :: s1 =>
    if b0 <? 0x80 then Some (b0, 1%nat) else
    match s1 with
    | [] => None
    | b1 :: s2 =>
      if between 0xC2 b0 0xDF then
        if between 0x80 b1 0xBF then Some ((b0 - 0xC0) * 0x40 + (b1 - 0x80), 2%nat) else None
      else
      match s2 with
      | [] => None
      | b2 :: s3 =>
        if between 0xE0 b0 0xEF then
          if between (if b0 =? 0xE0 then 0xA0 else 0x80) b1 (if b0 =? 0xED then 0x9F else 0xBF)
             && between 0x80 b2 0xBF
          then Some ((b0 - 0xE0) * 0x1000 + (b1 - 0x80) * 0x40 + (b2 - 0x80), 3%nat) else None
        else
        match s3 with
        | [] => None
        | b3 :: _ =>
          if between 0xF0 b0 0xF4 &&
             between (if b0 =? 0xF0 then 0x90 else 0x80) b1 (if b0 =? 0xF4 then 0x8F else 0xBF)
             && between 0x80 b2 0xBF && between 0x80 b3 0xBF
          then Some ((b0 - 0xF0) * 0x40000 + (b1 - 0x80) * 0x1000 +
                     (b2 - 0x80) * 0x40 + (b3 - 0x80), 4%nat)
          else None
        end
      end
    end
  end.

(** U+FFFD. *)
Definition replacement : bytes := [0xEF; 0xBF; 0xBD].

Definition encode_rune (r : Z) : bytes :=
  if r <? 0x80 then [r]
  else if r <? 0x800 then [0xC0 + r / 0x40; 0x80 + r mod 0x40]
  else if between 0xD800 r 0xDFFF || (0x10FFFF <? r) then replacement
  else if r <? 0x10000 then
    [0xE0 + r / 0x1000; 0x80 + r / 0x40 mod 0x40; 0x80 + r mod 0x40]
  else [0xF0 + r / 0x40000; 0x80 + r / 0x1000 mod 0x40; 0x80 + r / 0x40 mod 0x40;
        0x80 + r mod 0x40].

(** What a string becomes when each byte that is not UTF-8 is replaced.
    [skip] counts bytes of the current code point already emitted. *)
Fixpoint sanitize_from (skip : nat) (s : bytes) : bytes :=
  match s with
  | [] => []
  | b :: s' =>
    match skip with
    | S k => sanitize_from k s'
    | O =>
      match decode_rune s with
      | Some (r, n) => take n s ++ sanitize_from (n - 1) s'
      | None => replacement ++ sanitize_from 0 s'
      end
    end
  end.
Definition sanitize : bytes -> bytes := sanitize_from 0.

(** ** Strings in JSON *)
Definition hex (d : Z) : Z := if d <? 10 then 0x30 + d else 0x61 + (d - 10).

(** An ASCII byte in a JSON string, with HTML escaping. *)
Definition escape_ascii (b : Z) : bytes :=
  if (b =? 0x22) || (b =? 0x5C) then [0x5C; b]
  else if b =? 0x08 then lit "\b"
  else if b =? 0x0C then lit "\f"
  else if b =? 0x0A then lit "\n"
  else if b =? 0x0D then lit "\r"
  else if b =? 0x09 then lit "\t"
  else if (b <? 0x20) || (b =? 0x3C) || (b =? 0x3E) || (b =? 0x26)
  then lit "\u00" ++ [hex (b / 16); hex (b mod 16)]
  else [b].

Fixpoint quote_from (skip : nat) (s : bytes) : bytes :=
  match s with
  | [] => []
  | b :: s' =>
    match skip with
    | S k => quote_from k s'
    | O =>
      if b <? 0x80 then escape_ascii b ++ quote_from 0 s'
      else
        match decode_rune s with
        | None => lit "\ufffd" ++ quote_from 0 s'
        | Some (r, n) =>
          (if r =? 0x2028 then lit "\u2028"
           else if r =? 0x2029 then lit "\u2029"
           else take n s) ++ quote_from (n - 1) s'
        end
    end
  end.
Definition quote (s : bytes) : bytes := [0x22] ++ quote_from 0 s ++ [0x22].

Definition unhex (b : Z) : option Z :=
  if between 0x30 b 0x39 then Some (b - 0x30)
  else if between 0x61 b 0x66 then Some (b - 0x61 + 10)
  else if between 0x41 b 0x46 then Some (b - 0x41 + 10)
  else None.

(** Four hexadecimal digits. *)
Definition hex4 (s : bytes) : option Z :=
  match s with
  | a :: b :: c :: d :: _ =>
    a ← unhex a; b ← unhex b; c ← unhex c; d ← unhex d;
    Some (((a * 16 + b) * 16 + c) * 16 + d)
  | _ => None
  end.

(** [\uXXXX]. *)
Definition getu4 (s : bytes) : option Z :=
  match s with
  | b :: u :: s => if (b =? 0x5C) && (u =? 0x75) then hex4 s else None
  | _ => None
  end.

(** [utf16.DecodeRune] on a pair of surrogates. *)
Definition surrogates (r r1 : Z) : option Z :=
  if between 0xD800 r 0xDBFF && between 0xDC00 r1 0xDFFF
  then Some ((r - 0xD800) * 0x400 + (r1 - 0xDC00) + 0x10000) else None.

Definition simple_escape (c : Z) : option Z :=
  if (c =? 0x22) || (c =? 0x5C) || (c =? 0x2F) then Some c
  else if c =? 0x62 then Some 0x08
  else if c =? 0x66 then Some 0x0C
  else if c =? 0x6E then Some 0x0A
  else if c =? 0x72 then Some 0x0D
  else if c =? 0x74 then Some 0x09
  else None.

(** The code point of the escape at the head, and the bytes it takes after the
    backslash. *)
Definition unescape (s : bytes) : option (bytes * nat) :=
  match s with
  | b :: c :: s' =>
    if c =? 0x75 then
      r ← hex4 s';
      if between 0xD800 r 0xDFFF then
        match r1 ← getu4 (drop 4 s'); surrogates r r1 with
        | Some d => Some (encode_rune d, 11%nat)
        | None => Some (replacement, 5%nat)
        end
      else Some (encode_rune r, 5%nat)
    else (fun e => ([e], 1%nat)) <$> simple_escape c
  | _ => None
  end.

(** The string up to its closing quote, and the rest of the input. *)
Fixpoint unquote_from (skip : nat) (s : bytes) : option (bytes * bytes) :=
  match s with
  | [] => None
  | b :: s' =>
    match skip with
    | S k => unquote_from k s'
    | O =>
      if b =? 0x22 then Some ([], s')
      else if b =? 0x5C then
        '(e, n) ← unescape s;
        '(t, rest) ← unquote_from n s';
        Some (e ++ t, rest)
      else if b <? 0x20 then None
      else
        match decode_rune s with
        | Some (r, n) =>
          '(t, rest) ← unquote_from (n - 1) s'; Some (encode_rune r ++ t, rest)
        | None => '(t, rest) ← unquote_from 0 s'; Some (replacement ++ t, rest)
        end
    end
  end.

(** ** JSON text *)
#[warnings="-register-all"]
Inductive json : Type :=
| JNull
| JBool (b : bool)
| JNumber (literal : bytes)
| JString (s : bytes)
| JArray (l : list json)
| JObject (l : list (bytes * json)).

Definition is_space (b : Z) : bool := (b =? 0x20) || (b =? 0x09) || (b =? 0x0A) || (b =? 0x0D).

Fixpoint skip_space (s : bytes) : bytes :=
  match s with
  | b :: s' => if is_space b then skip_space s' else s
  | [] => []
  end.

Definition is_digit (b : Z) : bool := between 0x30 b 0x39.

(** The longest prefix of digits, and the rest. *)
Fixpoint span_digits (s : bytes) : bytes * bytes :=
  match s with
  | b :: s' =>
    if is_digit b then let '(ds, rest) := span_digits s' in (b :: ds, rest) else ([], s)
  | [] => ([], [])
  end.

Definition span_digits1 (s : bytes) : option (bytes * bytes) :=
  match span_digits s with ([], _) => None | r => Some r end.

(** [0], or digits that do not start with it. *)
Definition scan_int (s : bytes) : option (bytes * bytes) :=
  match s with
  | b :: s' => if b =? 0x30 then Some ([b], s') else span_digits1 s
  | [] => None
  end.

Definition scan_frac (s : bytes) : option (bytes * bytes) :=
  match s with
  | b :: s' =>
    if b =? 0x2E then '(ds, rest) ← span_digits1 s'; Some (b :: ds, rest) else Some ([], s)
  | [] => Some ([], [])
  end.

Definition scan_exp (s : bytes) : option (bytes * bytes) :=
  match s with
  | b :: s' =>
    if (b =? 0x65) || (b =? 0x45) then
      let '(sign, s'') :=
        match s' with
        | c :: t => if (c =? 0x2B) || (c =? 0x2D) then ([c], t) else ([], s')
        | [] => ([], s')
        end in
      '(ds, rest) ← span_digits1 s''; Some (b :: sign ++ ds, rest)
    else Some ([], s)
  | [] => Some ([], [])
  end.

(** The literal of a number. *)
Definition scan_number (s : bytes) : option (bytes * bytes) :=
  let '(sign, s) :=
    match s with b :: s' => if b =? 0x2D then ([b], s') else ([], s) | [] => ([], s) end in
  '(i, s) ← scan_int s;
  '(f, s) ← scan_frac s;
  '(e, s) ← scan_exp s;
  Some (sign ++ i ++ f ++ e, s).

(** The rest after a fixed word. *)
Fixpoint expect_word (w s : bytes) : option bytes :=
  match w, s with
  | [], _ => Some s
  | a :: w, b :: s => if a =? b then expect_word w s else None
  | _ :: _, [] => None
  end.

(** A string, from its opening quote. *)
Definition parse_string (s : bytes) : option (bytes * bytes) :=
  match s with
  | b :: s' => if b =? 0x22 then unquote_from 0 s' else None
  | [] => None
  end.

(** A value, given how the elements of an array up to its bracket and the
    members of an object up to its brace are parsed; [depth] is the nesting
    still allowed. *)
Definition value_body (elements : Z -> bytes -> option (list json * bytes))
  (members : Z -> bytes -> option (list (bytes * json) * bytes)) (depth : Z) (s : bytes)
  : option (json * bytes) :=
  match s with
  | [] => None
  | b :: s' =>
    if b =? 0x22 then '(t, rest) ← parse_string s; Some (JString t, rest)
    else if b =? 0x7B then
      if depth <=? 0 then None else
      match skip_space s' with
      | c :: rest =>
        if c =? 0x7D then Some (JObject [], rest)
        else '(l, rest) ← members (depth - 1) (c :: rest); Some (JObject l, rest)
      | [] => None
      end
    else if b =? 0x5B then
      if depth <=? 0 then None else
      match skip_space s' with
      | c :: rest =>
        if c =? 0x5D then Some (JArray [], rest)
        else '(l, rest) ← elements (depth - 1) (c :: rest); Some (JArray l, rest)
      | [] => None
      end
    else if b =? 0x74 then rest ← expect_word (lit "true") s; Some (JBool true, rest)
    else if b =? 0x66 then rest ← expect_word (lit "false") s; Some (JBool false, rest)
    else if b =? 0x6E then rest ← expect_word (lit "null") s; Some (JNull, rest)
    else '(l, rest) ← scan_number s; Some (JNumber l, rest)
  end.

Definition elements_body (value : bytes -> option (json * bytes))
  (elements : bytes -> option (list json * bytes)) (s : bytes) : option (list json * bytes) :=
  '(v, s) ← value s;
  match skip_space s with
  | b :: s =>
    if b =? 0x5D then Some ([v], s)
    else if b =? 0x2C then '(l, rest) ← elements (skip_space s); Some (v :: l, rest)
    else None
  | [] => None
  end.

Definition members_body (value : bytes -> option (json * bytes))
  (members : bytes -> option (list (bytes * json) * bytes)) (s : bytes)
  : option (list (bytes * json) * bytes) :=
  '(k, s) ← parse_string s;
  match skip_space s with
  | c :: s =>
    if c =? 0x3A then
      '(v, s) ← value (skip_space s);
      match skip_space s with
      | b :: s =>
        if b =? 0x7D then Some ([(k, v)], s)
        else if b =? 0x2C then
          '(l, rest) ← members (skip_space s); Some ((k, v) :: l, rest)
        else None
      | [] => None
      end
    else None
  | [] => None
  end.

(** The grammar; fuel of twice the length of the input is enough
    ([parse_more_fuel] below). *)
Fixpoint parse_value (fuel : nat) (depth : Z) (s : bytes) : option (json * bytes) :=
  match fuel with
  | O => None
  | S fuel => value_body (parse_elements fuel) (parse_members fuel) depth s
  end
with parse_elements (fuel : nat) (depth : Z) (s : bytes) : option (list json * bytes) :=
  match fuel with
  | O => None
  | S fuel => elements_body (parse_value fuel depth) (parse_elements fuel depth) s
  end
with parse_members (fuel : nat) (depth : Z) (s : bytes)
  : option (list (bytes * json) * bytes) :=
  match fuel with
  | O => None
  | S fuel => members_body (parse_value fuel depth) (parse_members fuel depth) s
  end.

(** [maxNestingDepth] of the scanner. *)
Definition max_nesting_depth : Z := 10000.

(** A whole JSON text: one value, with space around it. *)
Definition parse (s : bytes) : option json :=
  '(v, rest) ← parse_value (2 * length s + 2) max_nesting_depth (skip_space s);
  match skip_space rest with [] => Some v | _ :: _ => None end.

(** ** Integers ([strconv]) *)
Fixpoint print_uint (d : Decimal.uint) : bytes :=
  match d with
  | Decimal.Nil => []
  | Decimal.D0 d => 0x30 :: print_uint d
  | Decimal.D1 d => 0x31 :: print_uint d
  | Decimal.D2 d => 0x32 :: print_uint d
  | Decimal.D3 d => 0x33 :: print_uint d
  | Decimal.D4 d => 0x34 :: print_uint d
  | Decimal.D5 d => 0x35 :: print_uint d
  | Decimal.D6 d => 0x36 :: print_uint d
  | Decimal.D7 d => 0x37 :: print_uint d
  | Decimal.D8 d => 0x38 :: print_uint d
  | Decimal.D9 d => 0x39 :: print_uint d
  end.

(** [strconv.AppendInt], base 10. *)
Definition print_int (z : Z) : bytes :=
  match Z.to_int z with
  | Decimal.Pos d => print_uint d
  | Decimal.Neg d => 0x2D :: print_uint d
  end.

Definition digit (b : Z) : option (Decimal.uint -> Decimal.uint) :=
  if b =? 0x30 then Some Decimal.D0 else if b =? 0x31 then Some Decimal.D1
  else if b =? 0x32 then Some Decimal.D2 else if b =? 0x33 then Some Decimal.D3
  else if b =? 0x34 then Some Decimal.D4 else if b =? 0x35 then Some Decimal.D5
  else if b =? 0x36 then Some Decimal.D6 else if b =? 0x37 then Some Decimal.D7
  else if b =? 0x38 then Some Decimal.D8 else if b =? 0x39 then Some Decimal.D9
  else None.

Fixpoint parse_uint (s : bytes) : option Decimal.uint :=
  match s with
  | [] => Some Decimal.Nil
  | b :: s => c ← digit b; d ← parse_uint s; Some (c d)
  end.

Definition int_min : Z := - 2 ^ 63.
Definition int_max : Z := 2 ^ 63 - 1.
Definition int_fits (z : Z) : bool := between int_min z int_max.

(** [strconv.ParseInt(l, 10, 64)] of the literal of a JSON number: an error for
    a fraction, an exponent, or a value out of range. *)
Definition parse_int (l : bytes) : option Z :=
  z ← match l with
      | b :: l' =>
        if b =? 0x2D then (fun d => Z.of_int (Decimal.Neg d)) <$> parse_uint l'
        else (fun d => Z.of_int (Decimal.Pos d)) <$> parse_uint l
      | [] => None
      end;
  if int_fits z then Some z else None.

(** ** Structs *)

(** The value of a field of type [int] or [string]. *)
Inductive field :=
| FInt (z : Z)
| FString (s : bytes).

(** The exported fields of a struct under their JSON names, in order. *)
Abbreviation struct := (list (bytes * field)).

Definition marshal_field (f : field) : bytes :=
  match f with FInt z => print_int z | FString s => quote s end.

Fixpoint marshal_members (fs : struct) : bytes :=
  match fs with
  | [] => []
  | (name, f) :: rest =>
    quote name ++ [0x3A] ++ marshal_field f ++
    match rest with [] => [] | _ :: _ => [0x2C] ++ marshal_members rest end
  end.

(** [json.Marshal] of a struct, which cannot fail. *)
Definition Marshal (fs : struct) : bytes := [0x7B] ++ marshal_members fs ++ [0x7D].

Inductive json_error := SyntaxError | UnmarshalTypeError.

(** A JSON value into a field: [null] leaves it, a value of another kind is an
    error and leaves it too. *)
Definition decode_field (f : field) (v : json) : field * bool :=
  match f, v with
  | _, JNull => (f, true)
  | FInt _, JNumber l =>
    match parse_int l with Some z => (FInt z, true) | None => (f, false) end
  | FString _, JString s => (FString s, true)
  | _, _ => (f, false)
  end.

(** The first field whose name satisfies [p] takes [v]. *)
Fixpoint set_field (p : bytes -> bool) (v : json) (fs : struct) : option (struct * bool) :=
  match fs with
  | [] => None
  | (name, f) :: fs' =>
    if p name then let '(f', ok) := decode_field f v in Some ((name, f') :: fs', ok)
    else '(fs'', ok) ← set_field p v fs'; Some ((name, f) :: fs'', ok)
  end.

(** The least code point of each case-folding class, for those that contain an
    ASCII letter: besides the letters, U+017F and U+212A. *)
Fixpoint fold_name (s : bytes) : bytes :=
  match s with
  | 0xC5 :: 0xBF :: s => 0x53 :: fold_name s
  | 0xE2 :: 0x84 :: 0xAA :: s => 0x4B :: fold_name s
  | b :: s => (if between 0x61 b 0x7A then b - 0x20 else b) :: fold_name s
  | [] => []
  end.

(** One member: the field of that very name, else one that folds to it; a
    member that names no field is dropped. *)
Definition decode_member (st : struct * bool) (kv : bytes * json) : struct * bool :=
  let '(fs, ok) := st in
  let '(k, v) := kv in
  match set_field (fun name => bool_decide (name = k)) v fs with
  | Some (fs', ok') => (fs', ok && ok')
  | None =>
    match set_field (fun name => bool_decide (fold_name name = fold_name k)) v fs with
    | Some (fs', ok') => (fs', ok && ok')
    | None => (fs, ok)
    end
  end.

(** [json.Unmarshal] into a struct that holds [fs]. *)
Definition Unmarshal (s : bytes) (fs : struct) : outcome json_error struct :=
  match parse s with
  | None => Err SyntaxError
  | Some JNull => Ok fs
  | Some (JObject l) =>
    let '(fs', ok) := foldl decode_member (fs, true) l in
    if ok then Ok fs' else Err UnmarshalTypeError
  | Some _ => Err UnmarshalTypeError
  end.

(** ** Facts about UTF-8 *)

(** Turns range tests into inequalities. *)
Ltac ranges :=
  unfold between in *;
  repeat match goal with
  | H : _ && _ = true |- _ => apply andb_prop in H as [? ?]
  | H : (_ <=? _) = true |- _ => apply Z.leb_le in H
  | H : (_ <? _) = true |- _ => apply Z.ltb_lt in H
  | H : (_ <? _) = false |- _ => apply Z.ltb_ge in H
  | H : (_ =? _) = true |- _ => apply Z.eqb_eq in H
  | H : (_ =? _) = false |- _ => apply Z.eqb_neq in H
  end.

(** What [decode_rune] accepts, by the length of the sequence. *)
Inductive rune_at : bytes -> Z -> nat -> Prop :=
| rune1 b s : b < 0x80 -> rune_at (b :: s) b 1
| rune2 b0 b1 s :
    0xC2 <= b0 <= 0xDF -> 0x80 <= b1 <= 0xBF ->
    rune_at (b0 :: b1 :: s) ((b0 - 0xC0) * 0x40 + (b1 - 0x80)) 2
| rune3 b0 b1 b2 s :
    0xE0 <= b0 <= 0xEF -> 0x80 <= b1 <= 0xBF -> 0x80 <= b2 <= 0xBF ->
    (b0 = 0xE0 -> 0xA0 <= b1) -> (b0 = 0xED -> b1 <= 0x9F) ->
    rune_at (b0 :: b1 :: b2 :: s) ((b0 - 0xE0) * 0x1000 + (b1 - 0x80) * 0x40 + (b2 - 0x80)) 3
| rune4 b0 b1 b2 b3 s :
    0xF0 <= b0 <= 0xF4 -> 0x80 <= b1 <= 0xBF -> 0x80 <= b2 <= 0xBF -> 0x80 <= b3 <= 0xBF ->
    (b0 = 0xF0 -> 0x90 <= b1) -> (b0 = 0xF4 -> b1 <= 0x8F) ->
    rune_at (b0 :: b1 :: b2 :: b3 :: s)
      ((b0 - 0xF0) * 0x40000 + (b1 - 0x80) * 0x1000 + (b2 - 0x80) * 0x40 + (b3 - 0x80)) 4.

Lemma between_true lo x hi : lo <= x <= hi -> between lo x hi = true.
Proof. unfold between. intros [??]. apply andb_true_intro. by split; apply Z.leb_le. Qed.

Lemma between_false lo x hi : x < lo \/ hi < x -> between lo x hi = false.
Proof. unfold between. intros H. apply andb_false_iff. rewrite !Z.leb_gt. lia. Qed.

Lemma decode_rune_at s r n : decode_rune s = Some (r, n) <-> rune_at s r n.
Proof.
  split.
  - unfold decode_rune. intros H.
    repeat (case_match; try discriminate); simplify_eq; ranges; constructor; lia.
  - destruct 1; simpl.
    + by rewrite (proj2 (Z.ltb_lt _ _)).
    + rewrite (proj2 (Z.ltb_ge _ _)), !between_true by lia. done.
    + rewrite (proj2 (Z.ltb_ge _ _)), (between_false 0xC2) by lia.
      rewrite (between_true 0xE0) by lia.
      rewrite between_true; [by rewrite between_true |].
      destruct (Z.eqb_spec b0 0xE0), (Z.eqb_spec b0 0xED); lia.
    + rewrite (proj2 (Z.ltb_ge _ _)), (between_false 0xC2), (between_false 0xE0) by lia.
      rewrite (between_true 0xF0) by lia. rewrite between_true; [by rewrite !between_true |].
      destruct (Z.eqb_spec b0 0xF0), (Z.eqb_spec b0 0xF4); lia.
Qed.

(** Encoding gives back the bytes decoded. *)
Lemma encode_decode s r n : rune_at s r n -> 0 <= r -> encode_rune r = take n s.
Proof.
  intros H Hr. unfold encode_rune. destruct H; simpl take.
  - by rewrite (proj2 (Z.ltb_lt _ _)).
  - rewrite (proj2 (Z.ltb_ge _ _)), (proj2 (Z.ltb_lt _ _)) by lia.
    repeat f_equal; Z.to_euclidean_division_equations; lia.
  - rewrite !(proj2 (Z.ltb_ge _ _)) by lia. rewrite between_false by lia. simpl.
    rewrite (proj2 (Z.ltb_lt _ 0x10000)) by lia.
    repeat f_equal; Z.to_euclidean_division_equations; lia.
  - rewrite !(proj2 (Z.ltb_ge _ _)) by lia. rewrite between_false by lia. simpl.
    repeat f_equal; Z.to_euclidean_division_equations; lia.
Qed.

(** Decoding looks only at the bytes it takes. *)
Lemma rune_at_app s r n t : rune_at s r n -> rune_at (take n s ++ t) r n.
Proof. destruct 1; simpl; by constructor. Qed.

Lemma rune_at_length s r n : rune_at s r n -> (1 <= n <= length s)%nat.
Proof. destruct 1; simpl; lia. Qed.

Lemma rune_at_high b s r n : rune_at (b :: s) r n -> 0x80 <= b -> 0x80 <= r /\ (2 <= n)%nat.
Proof. inversion 1; subst; lia. Qed.

(** ** Strings read back *)
Definition is_byte (b : Z) : Prop := 0 <= b < 256.

(** Prepends to the string part of a scan. *)
Definition prepend (l : bytes) (o : option (bytes * bytes)) : option (bytes * bytes) :=
  '(t, rest) ← o; Some (l ++ t, rest).

Lemma prepend_Some l t rest : prepend l (Some (t, rest)) = Some (l ++ t, rest).
Proof. done. Qed.

Lemma unquote_skip l t : unquote_from (length l) (l ++ t) = unquote_from 0 t.
Proof. by induction l. Qed.

(** The bytes that are escaped, each with its escape. *)
Lemma escaped_ascii b :
  0 <= b < 0x80 -> escape_ascii b <> [b] ->
  forall t, unquote_from 0 (escape_ascii b ++ t) = prepend [b] (unquote_from 0 t).
Proof.
  intros Hb He. assert (H : b < 0x20 \/ b = 0x22 \/ b = 0x26 \/ b = 0x3C \/ b = 0x3E \/ b = 0x5C).
  { unfold escape_ascii in He. repeat (case_match; ranges); try lia; try done.
    all: repeat match goal with H : _ || _ = true |- _ => apply orb_true_iff in H as [H | H] end;
      ranges; lia. }
  destruct H as [H | H].
  - assert (Hin : b ∈ seqZ 0 32) by (apply elem_of_seqZ; lia).
    clear -Hin. intros t. vm_compute in Hin.
    repeat (apply elem_of_cons in Hin as [-> | Hin]; [reflexivity |]). by apply elem_of_nil in Hin.
  - intros t. by destruct H as [-> | [-> | [-> | [-> | ->]]]].
Qed.

Lemma plain_ascii b t :
  0 <= b < 0x80 -> escape_ascii b = [b] ->
  unquote_from 0 (b :: t) = prepend [b] (unquote_from 0 t).
Proof.
  intros Hb He. assert (H : b <> 0x22 /\ b <> 0x5C /\ 0x20 <= b).
  { unfold escape_ascii in He. repeat (case_match; ranges); simplify_eq; try done.
    all: repeat match goal with H : _ || _ = false |- _ => apply orb_false_iff in H as [? H] end;
      ranges; lia. }
  destruct H as (H1 & H2 & H3). cbn [unquote_from].
  rewrite (proj2 (Z.eqb_neq _ _) H1), (proj2 (Z.eqb_neq _ _) H2), (proj2 (Z.ltb_ge _ _) H3).
  simpl decode_rune. rewrite (proj2 (Z.ltb_lt b 0x80)) by lia. simpl.
  unfold encode_rune. by rewrite (proj2 (Z.ltb_lt b 0x80)) by lia.
Qed.

Lemma unquote_ascii b t :
  0 <= b < 0x80 -> unquote_from 0 (escape_ascii b ++ t) = prepend [b] (unquote_from 0 t).
Proof.
  intros Hb. destruct (decide (escape_ascii b = [b])) as [He | He].
  - rewrite He. by apply plain_ascii.
  - by apply escaped_ascii.
Qed.

(** A code point beyond ASCII. *)
Lemma unquote_rune b s r n t :
  0x80 <= b -> rune_at (b :: s) r n ->
  unquote_from 0 (take n (b :: s) ++ t) = prepend (take n (b :: s)) (unquote_from 0 t).
Proof.
  intros Hb H. pose proof (rune_at_high _ _ _ _ H Hb) as [Hr Hn].
  pose proof (rune_at_length _ _ _ H) as [_ Hl].
  pose proof (proj2 (decode_rune_at _ _ _) (rune_at_app _ _ _ t H)) as Hd.
  rewrite <-(encode_decode _ _ _ H) at 2 by lia.
  destruct n as [| n]; [lia |]. simpl take in *. simpl app in *. cbn [unquote_from].
  rewrite (proj2 (Z.eqb_neq _ 0x22)), (proj2 (Z.eqb_neq _ 0x5C)), (proj2 (Z.ltb_ge _ _)) by lia.
  rewrite Hd. simpl. rewrite Nat.sub_0_r.
  replace (unquote_from n (take n s ++ t)) with (unquote_from 0 t); [done |].
  simpl in Hl. rewrite <-(unquote_skip (take n s) t), length_take_le by lia. done.
Qed.

Lemma unquote_quote_from k s rest :
  Forall is_byte s ->
  unquote_from 0 (quote_from k s ++ 0x22 :: rest) = Some (sanitize_from k s, rest).
Proof.
  revert k. induction s as [| b s IH]; intros k Hs; [done |].
  pose proof Hs as [Hb Hs']%Forall_cons.
  destruct k as [| k]; [| by apply IH].
  cbn [quote_from sanitize_from]. unfold is_byte in Hb.
  destruct (Z.ltb_spec b 0x80).
  { rewrite <-app_assoc, unquote_ascii, IH by (done || lia). simpl decode_rune.
    by rewrite (proj2 (Z.ltb_lt _ _)). }
  destruct (decode_rune (b :: s)) as [[r n] |] eqn:Hd.
  - rewrite <-app_assoc. apply decode_rune_at in Hd.
    assert (Hsp : r = 0x2028 \/ r = 0x2029 -> encode_rune r = take n (b :: s)).
    { intros. apply encode_decode; [done | lia]. }
    destruct (Z.eqb_spec r 0x2028) as [-> | ]; [| destruct (Z.eqb_spec r 0x2029) as [-> |]].
    + rewrite <-Hsp by auto. change (unquote_from 0 (lit "\u2028" ++ ?t)) with
        (prepend (encode_rune 0x2028) (unquote_from 0 t)). by rewrite IH.
    + rewrite <-Hsp by auto. change (unquote_from 0 (lit "\u2029" ++ ?t)) with
        (prepend (encode_rune 0x2029) (unquote_from 0 t)). by rewrite IH.
    + by rewrite (unquote_rune b s r n), IH.
  - rewrite <-app_assoc. change (unquote_from 0 (lit "\ufffd" ++ ?t)) with
      (prepend replacement (unquote_from 0 t)). by rewrite IH.
Qed.

Lemma parse_string_quote s rest :
  Forall is_byte s -> parse_string (quote s ++ rest) = Some (sanitize s, rest).
Proof.
  intros Hs. unfold quote. rewrite <-!app_assoc. simpl. by apply unquote_quote_from.
Qed.

(** ** Numbers read back *)
Lemma digit_print d :
  parse_uint (print_uint d) = Some d.
Proof. induction d; simpl; [done | rewrite IHd; done ..]. Qed.

Lemma span_print d rest :
  match rest with b :: _ => is_digit b = false | [] => True end ->
  span_digits (print_uint d ++ rest) = (print_uint d, rest).
Proof.
  intros Hr. induction d; simpl; [| rewrite IHd; done ..].
  destruct rest as [| b rest]; simpl; [done | by rewrite Hr].
Qed.

(** A byte that cannot continue a number. *)
Definition ends_number (s : bytes) : Prop :=
  match s with
  | b :: _ => is_digit b = false /\ b <> 0x2E /\ b <> 0x65 /\ b <> 0x45
  | [] => True
  end.

Lemma ends_number_frac s : ends_number s -> scan_frac s = Some ([], s).
Proof.
  destruct s as [| b s]; simpl; [done |]. intros (_ & H & _).
  by rewrite (proj2 (Z.eqb_neq _ _) H).
Qed.

Lemma ends_number_exp s : ends_number s -> scan_exp s = Some ([], s).
Proof.
  destruct s as [| b s]; simpl; [done |]. intros (_ & _ & H & H').
  by rewrite (proj2 (Z.eqb_neq _ _) H), (proj2 (Z.eqb_neq _ _) H').
Qed.

(** A printed number has no leading zero. *)
Lemma to_int_norm z :
  match Z.to_int z with Decimal.Pos d | Decimal.Neg d => Decimal.unorm d = d end.
Proof.
  assert (H : forall p, Decimal.unorm (Pos.to_uint p) = Pos.to_uint p).
  { intros p. pose proof (DecimalPos.Unsigned.to_of (Pos.to_uint p)) as H.
    by rewrite DecimalPos.Unsigned.of_to in H. }
  by destruct z; simpl.
Qed.

Lemma unorm_D0_Nil d : Decimal.unorm (Decimal.D0 d) = Decimal.D0 d -> d = Decimal.Nil.
Proof.
  unfold Decimal.unorm. destruct (Decimal.nzhead (Decimal.D0 d)) as [| u | | | | | | | | |] eqn:E;
    intros [= H]; (done || by apply nzhead_nonzero in E).
Qed.

Lemma scan_int_print d rest :
  Decimal.unorm d = d -> ends_number rest ->
  scan_int (print_uint d ++ rest) = Some (print_uint d, rest).
Proof.
  intros Hd Hr. assert (Hs : span_digits (print_uint d ++ rest) = (print_uint d, rest)).
  { apply span_print. destruct rest; [done | by destruct Hr]. }
  assert (Hn : d <> Decimal.Nil) by (rewrite <-Hd; apply unorm_nonnil).
  unfold scan_int, span_digits1. destruct d as [| d | | | | | | | | |];
    try (cbn [print_uint app] in Hs |- *; rewrite Hs; done).
  by apply unorm_D0_Nil in Hd as ->.
Qed.

Lemma print_uint_digit d b s : print_uint d = b :: s -> is_digit b = true.
Proof. by destruct d; intros [= <- <-]. Qed.

Lemma scan_print_int z rest :
  ends_number rest -> scan_number (print_int z ++ rest) = Some (print_int z, rest).
Proof.
  intros Hr. pose proof (to_int_norm z) as Hn. unfold print_int, scan_number.
  destruct (Z.to_int z) as [d | d].
  - assert (Hh : match print_uint d ++ rest with
                 | b :: s' => if b =? 0x2D then ([b], s') else ([], print_uint d ++ rest)
                 | [] => ([], print_uint d ++ rest) end = ([], print_uint d ++ rest)).
    { assert (d <> Decimal.Nil) by (rewrite <-Hn; apply unorm_nonnil). by destruct d. }
    rewrite Hh, scan_int_print by done. simpl. rewrite ends_number_frac by done. simpl.
    rewrite ends_number_exp by done. simpl. by rewrite !app_nil_r.
  - simpl. rewrite scan_int_print by done. simpl. rewrite ends_number_frac by done. simpl.
    rewrite ends_number_exp by done. simpl. by rewrite !app_nil_r.
Qed.

Lemma parse_print_int z : int_min <= z <= int_max -> parse_int (print_int z) = Some z.
Proof.
  intros Hz. assert (Hf : int_fits z = true) by by apply between_true.
  pose proof (DecimalZ.of_to z) as Ho. unfold parse_int, print_int.
  pose proof (to_int_norm z) as Hn. destruct (Z.to_int z) as [d | d].
  - pose proof (digit_print d) as Hd.
    assert (d <> Decimal.Nil) by (rewrite <-Hn; apply unorm_nonnil).
    destruct (print_uint d) as [| b s] eqn:E; [by destruct d |].
    apply print_uint_digit in E as Hb. unfold is_digit in Hb. ranges.
    rewrite (proj2 (Z.eqb_neq b 0x2D)) by lia. rewrite Hd. simpl in Ho |- *. rewrite Ho. simpl.
    by rewrite Hf.
  - simpl. rewrite digit_print. simpl in Ho |- *. rewrite Ho. simpl. by rewrite Hf.
Qed.

(** ** Structs read back *)

(** The fields of a Go struct: bytes in strings and names, [int]s in range. *)
Definition field_ok (f : field) : Prop :=
  match f with FInt z => int_min <= z <= int_max | FString s => Forall is_byte s end.
Definition struct_ok (fs : struct) : Prop :=
  Forall (fun '(k, f) => Forall is_byte k /\ field_ok f) fs.

(** The JSON value of a field, as it is parsed. *)
Definition json_of (f : field) : json :=
  match f with FInt z => JNumber (print_int z) | FString s => JString (sanitize s) end.

Lemma print_int_head z :
  exists b s, print_int z = b :: s /\ (is_digit b = true \/ b = 0x2D).
Proof.
  unfold print_int. pose proof (to_int_norm z) as Hn. destruct (Z.to_int z) as [d | d].
  - assert (d <> Decimal.Nil) by (rewrite <-Hn; apply unorm_nonnil).
    destruct (print_uint d) as [| b s] eqn:E; [by destruct d |].
    exists b, s. split; [done | left]. by eapply print_uint_digit.
  - eauto.
Qed.

Lemma skip_space_field f rest : skip_space (marshal_field f ++ rest) = marshal_field f ++ rest.
Proof.
  destruct f as [z | s]; simpl; [| done].
  destruct (print_int_head z) as (b & s & -> & Hb). simpl.
  destruct (is_space b) eqn:E; [| done]. exfalso. unfold is_space, is_digit in *.
  repeat (apply orb_prop in E as [E | E]); destruct Hb; ranges; lia.
Qed.

Lemma parse_value_field fuel depth f rest :
  field_ok f -> ends_number rest ->
  parse_value (S fuel) depth (marshal_field f ++ rest) = Some (json_of f, rest).
Proof.
  intros Hf Hr. destruct f as [z | s].
  - destruct (print_int_head z) as (b & s & Hz & Hb). simpl marshal_field.
    pose proof (scan_print_int z rest Hr) as Hs. rewrite Hz in Hs |- *.
    simpl app in *. cbn [parse_value value_body]. unfold is_digit in Hb.
    rewrite !(proj2 (Z.eqb_neq _ _)) by (destruct Hb; ranges; lia).
    rewrite Hs. simpl. by rewrite Hz.
  - pose proof (parse_string_quote s rest Hf) as Hs. simpl in Hs |- *. by rewrite Hs.
Qed.

(** One member, without space in it. *)
Lemma parse_members_step fuel depth s k s1 v b s2 :
  parse_string s = Some (k, 0x3A :: s1) -> skip_space s1 = s1 ->
  parse_value fuel depth s1 = Some (v, b :: s2) -> is_space b = false ->
  parse_members (S fuel) depth s =
  if b =? 0x7D then Some ([(k, v)], s2)
  else if b =? 0x2C then
    '(l, rest) ← parse_members fuel depth (skip_space s2); Some ((k, v) :: l, rest)
  else None.
Proof.
  intros Hk Hs Hv Hb. cbn [parse_members]. unfold members_body. rewrite Hk. cbn -[parse_value parse_members skip_space].
  change (skip_space (58 :: s1)) with (58 :: s1). cbn -[parse_value parse_members skip_space].
  rewrite Hs, Hv. cbn -[parse_value parse_members skip_space Z.eqb].
  cbn [skip_space]. by rewrite Hb.
Qed.

(** The first member of a struct, and what follows it. *)
Lemma parse_first_member fuel depth k f b s :
  Forall is_byte k -> field_ok f -> ends_number (b :: s) -> is_space b = false ->
  parse_members (S (S fuel)) depth (quote k ++ [0x3A] ++ marshal_field f ++ b :: s) =
  if b =? 0x7D then Some ([(sanitize k, json_of f)], s)
  else if b =? 0x2C then
    '(l, rest) ← parse_members (S fuel) depth (skip_space s);
    Some ((sanitize k, json_of f) :: l, rest)
  else None.
Proof.
  intros Hk Hf He Hb. apply parse_members_step with (marshal_field f ++ b :: s).
  - by apply parse_string_quote.
  - apply skip_space_field.
  - by apply parse_value_field.
  - done.
Qed.

Lemma parse_marshal_members fuel depth fs rest :
  fs <> [] -> struct_ok fs -> (length fs < fuel)%nat ->
  parse_members fuel depth (marshal_members fs ++ 0x7D :: rest) =
  Some (map (fun '(k, f) => (sanitize k, json_of f)) fs, rest).
Proof.
  revert fuel. induction fs as [| [k f] fs IH]; intros fuel Hne Hok Hl; [done |].
  apply Forall_cons in Hok as [[Hk Hf] Hok]. simpl length in Hl.
  destruct fuel as [| [| fuel]]; [lia .. |].
  cbn [marshal_members map]. rewrite <-!app_assoc. destruct fs as [| kf fs].
  - rewrite (parse_first_member _ _ k f 0x7D rest); [done .. | by repeat split | done].
  - rewrite <-app_assoc.
    rewrite (parse_first_member _ _ k f 0x2C (marshal_members (kf :: fs) ++ 0x7D :: rest));
      [| done | done | by repeat split | done].
    replace (skip_space _) with (marshal_members (kf :: fs) ++ 0x7D :: rest) by by destruct kf.
    rewrite IH by (done || simpl in *; lia). done.
Qed.

Lemma marshal_members_length fs : (length fs <= length (marshal_members fs))%nat.
Proof.
  induction fs as [| [k f] fs IH]; simpl; [lia |]. rewrite !length_app. simpl.
  rewrite length_app. destruct fs; simpl in *; rewrite ?length_app; simpl; lia.
Qed.

Lemma parse_Marshal fs :
  struct_ok fs ->
  parse (Marshal fs) = Some (JObject (map (fun '(k, f) => (sanitize k, json_of f)) fs)).
Proof.
  intros Hok. destruct fs as [| kf fs]; [reflexivity |].
  pose proof (marshal_members_length (kf :: fs)) as Hlen.
  set (m := marshal_members (kf :: fs)) in *. unfold parse, Marshal. fold m.
  change (skip_space ([0x7B] ++ m ++ [0x7D])) with (0x7B :: m ++ [0x7D]).
  set (text := m ++ [0x7D]) in *.
  replace (2 * length ([0x7B%Z] ++ text) + 2)%nat with (S (2 * length text + 3))
    by (simpl; lia).
  assert (Hm : skip_space text = text) by (subst text m; by destruct kf).
  assert (Hp := parse_marshal_members (2 * length text + 3) (max_nesting_depth - 1)
    (kf :: fs) [] ltac:(done) Hok ltac:(subst text; rewrite length_app; simpl in *; lia)).
  fold m text in Hp. assert (Hc : head text = Some 0x22) by (subst text m; by destruct kf).
  clearbody text. cbn -[parse_members skip_space max_nesting_depth length Nat.mul].
  rewrite Hm. destruct text as [| c t]; [done |]. injection Hc as Hc.
  subst c. change (0x22 =? 0x7D) with false. cbv iota. by rewrite Hp.
Qed.

(** ** Strings that are UTF-8 already *)
Lemma sanitize_skip l t : sanitize_from (length l) (l ++ t) = sanitize_from 0 t.
Proof. induction l as [| b l IH]; [done |]. exact IH. Qed.

Lemma sanitize_rune s r n t :
  rune_at s r n -> sanitize (take n s ++ t) = take n s ++ sanitize t.
Proof.
  intros H. pose proof (rune_at_length _ _ _ H) as [Hn Hl].
  pose proof (proj2 (decode_rune_at _ _ _) (rune_at_app _ _ _ t H)) as Hd.
  unfold sanitize. destruct s as [| b s]; [simpl in Hl; lia |].
  destruct n as [| n]; [lia |]. simpl take in *. simpl app in *. cbn [sanitize_from].
  rewrite Hd. simpl. rewrite Nat.sub_0_r. simpl in Hl.
  assert (Hl' : length (take n s) = n) by (apply length_take_le; lia).
  rewrite firstn_app, Hl', Nat.sub_diag, firstn_0, app_nil_r, firstn_firstn, Nat.min_id.
  rewrite <-Hl' at 2. by rewrite sanitize_skip.
Qed.

Lemma sanitize_replacement t : sanitize (replacement ++ t) = replacement ++ sanitize t.
Proof. reflexivity. Qed.

Lemma sanitize_idemp_from k s : sanitize (sanitize_from k s) = sanitize_from k s.
Proof.
  revert k. induction s as [| b s IH]; intros k; [done |].
  destruct k as [| k]; [| apply IH]. cbn [sanitize_from].
  destruct (decode_rune (b :: s)) as [[r n] |] eqn:Hd.
  - apply decode_rune_at in Hd. by rewrite (sanitize_rune _ _ _ _ Hd), IH.
  - by rewrite sanitize_replacement, IH.
Qed.

Lemma sanitize_idemp s : sanitize (sanitize s) = sanitize s.
Proof. apply sanitize_idemp_from. Qed.

Lemma sanitize_bytes_from k s : Forall is_byte s -> Forall is_byte (sanitize_from k s).
Proof.
  revert k. induction s as [| b s IH]; intros k Hs; [done |].
  pose proof Hs as [Hb Hs']%Forall_cons. destruct k as [| k]; [| by apply IH].
  cbn [sanitize_from]. destruct (decode_rune (b :: s)) as [[r n] |];
    apply Forall_app; (split; [| by apply IH]).
  - by apply Forall_take.
  - repeat constructor; unfold is_byte; lia.
Qed.

(** ** The round trip *)
Definition sanitize_field (f : field) : field :=
  match f with FInt z => FInt z | FString s => FString (sanitize s) end.
Definition sanitize_struct (fs : struct) : struct := prod_map id sanitize_field <$> fs.

(** Two structs of one type: the same names with fields of the same kinds. *)
Definition same_kind (f f' : field) : Prop :=
  match f, f' with FInt _, FInt _ | FString _, FString _ => True | _, _ => False end.
Definition same_type (fs fs' : struct) : Prop :=
  Forall2 (fun kf kf' => kf.1 = kf'.1 /\ same_kind kf.2 kf'.2) fs fs'.

Lemma decode_json_of f f' :
  same_kind f f' -> field_ok f' -> decode_field f (json_of f') = (sanitize_field f', true).
Proof.
  destruct f, f'; simpl; try done. intros _ Hz. by rewrite parse_print_int.
Qed.

Lemma set_field_here (seen todo : struct) k f v f' ok :
  k ∉ seen.*1 -> decode_field f v = (f', ok) ->
  set_field (fun name => bool_decide (name = k)) v (seen ++ (k, f) :: todo) =
  Some (seen ++ (k, f') :: todo, ok).
Proof.
  intros Hk Hd. induction seen as [| [name g] seen IH]; simpl.
  - rewrite bool_decide_true by done. by rewrite Hd.
  - simpl in Hk. rewrite bool_decide_false by set_solver. rewrite IH by set_solver. done.
Qed.

Lemma decode_members_Marshal (seen zero fs : struct) :
  same_type zero fs -> struct_ok fs -> Forall (fun k => sanitize k = k) fs.*1 ->
  NoDup (seen.*1 ++ fs.*1) ->
  foldl decode_member (seen ++ zero, true) (map (fun '(k, f) => (sanitize k, json_of f)) fs) =
  (seen ++ sanitize_struct fs, true).
Proof.
  intros Ht. revert seen.
  induction Ht as [| [k f] [k' f'] zero fs [Hk Hf] Ht IH]; intros seen Hok Hv Hnd; [done |].
  simpl in Hk, Hf. subst k'. apply Forall_cons in Hok as [[_ Hf'] Hok].
  apply Forall_cons in Hv as [Hk Hv]. cbn [map foldl decode_member]. simpl in Hk. rewrite Hk.
  pose proof Hnd as (_ & Hdis & _)%NoDup_app.
  rewrite (set_field_here seen zero k f _ (sanitize_field f') true).
  - change (seen ++ (k, sanitize_field f') :: zero) with
      (seen ++ [(k, sanitize_field f')] ++ zero). rewrite (assoc_L (++)). simpl andb.
    rewrite IH; [by rewrite <-(assoc_L (++)) | done | done |].
    rewrite fmap_app, <-(assoc_L (++)). exact Hnd.
  - intros Hin. apply (Hdis _ Hin). simpl. set_solver.
  - by apply decode_json_of.
Qed.

(** What was written is read back, with the bytes that are not UTF-8 replaced. *)
Lemma unmarshal_marshal (fs zero : struct) :
  same_type zero fs -> struct_ok fs -> NoDup fs.*1 -> Forall (fun k => sanitize k = k) fs.*1 ->
  Unmarshal (Marshal fs) zero = Ok (sanitize_struct fs).
Proof.
  intros Ht Hok Hnd Hv. unfold Unmarshal. rewrite parse_Marshal by done.
  pose proof (decode_members_Marshal [] zero fs Ht Hok Hv Hnd) as H. simpl app in H.
  by rewrite H.
Qed.

(** ** The fuel is enough *)

(** What a scan leaves is shorter. *)
Lemma skip_space_length s : (length (skip_space s) <= length s)%nat.
Proof. induction s as [| b s IH]; simpl; [lia |]. destruct (is_space b); simpl; lia. Qed.

Lemma unquote_length k s t rest :
  unquote_from k s = Some (t, rest) -> (length rest < length s)%nat.
Proof.
  revert k t. induction s as [| b s IH]; intros k t H; [done |].
  destruct k as [| k]; [| apply IH in H; simpl; lia].
  cbn [unquote_from] in H. simpl length.
  assert (Hb : forall k l, prepend l (unquote_from k s) = Some (t, rest) ->
               (length rest < length s)%nat).
  { intros k l Hp. unfold prepend in Hp.
    destruct (unquote_from k s) as [[t' rest'] |] eqn:E; simplify_eq/=. by eapply IH. }
  case_match; [simplify_eq; lia |]. case_match.
  - destruct (unescape (b :: s)) as [[e n] |]; simpl in H; [apply Hb in H; lia | done].
  - case_match; [done |]. case_match; [case_match |]; apply Hb in H; lia.
Qed.

Lemma parse_string_length s t rest :
  parse_string s = Some (t, rest) -> (length rest < length s)%nat.
Proof.
  destruct s as [| b s]; simpl; [done |]. case_match; [| done].
  intros Hu%unquote_length. lia.
Qed.

Lemma span_digits_length s ds rest :
  span_digits s = (ds, rest) -> (length rest + length ds = length s)%nat.
Proof.
  revert ds. induction s as [| b s IH]; intros ds; simpl; [by intros [= <- <-] |].
  case_match; [| by intros [= <- <-]].
  destruct (span_digits s) as [ds' rest'] eqn:E. intros [= <- <-].
  specialize (IH _ eq_refl). simpl. lia.
Qed.

Lemma span_digits1_length s ds rest :
  span_digits1 s = Some (ds, rest) -> (length rest < length s)%nat.
Proof.
  unfold span_digits1. destruct (span_digits s) as [ds' rest'] eqn:E.
  apply span_digits_length in E. destruct ds'; intros [= <- <-]; simpl in *; lia.
Qed.

Lemma scan_number_length s l rest :
  scan_number s = Some (l, rest) -> (length rest < length s)%nat.
Proof.
  unfold scan_number. intros H.
  set (p := match s with b :: s' => if b =? 0x2D then ([b], s') else ([], s) | [] => ([], s) end)
    in H.
  assert (Hp : (length p.2 <= length s)%nat).
  { subst p. destruct s as [| b s]; [simpl; lia |]. destruct (b =? 0x2D); simpl; lia. }
  destruct p as [sign s0]. simpl in Hp.
  destruct (scan_int s0) as [[i s1] |] eqn:H1; simpl in H; [| done].
  destruct (scan_frac s1) as [[f s2] |] eqn:H2; simpl in H; [| done].
  destruct (scan_exp s2) as [[e s3] |] eqn:H3; simpl in H; [| done]. simplify_eq.
  assert (length s1 < length s0)%nat.
  { unfold scan_int in H1. destruct s0 as [| b s0]; [done |].
    destruct (b =? 0x30); [injection H1 as <- <-; simpl; lia |].
    by apply span_digits1_length in H1. }
  assert (length s2 <= length s1)%nat.
  { unfold scan_frac in H2. destruct s1 as [| b s1]; [simplify_eq; simpl; lia |].
    case_match; [| simplify_eq; simpl; lia].
    destruct (span_digits1 s1) as [[ds r] |] eqn:E; simpl in H2; simplify_eq.
    apply span_digits1_length in E. simpl. lia. }
  assert (length rest <= length s2)%nat; [| lia].
  unfold scan_exp in H3. destruct s2 as [| b s2]; [simplify_eq; simpl; lia |].
  destruct ((b =? 0x65) || (b =? 0x45)); [| simplify_eq; simpl; lia].
  set (q := match s2 with c :: t => if (c =? 0x2B) || (c =? 0x2D) then ([c], t) else ([], s2)
                        | [] => ([], s2) end) in H3.
  assert (Hq : (length q.2 <= length s2)%nat).
  { subst q. destruct s2 as [| c s2]; [simpl; lia |].
    destruct ((c =? 0x2B) || (c =? 0x2D)); simpl; lia. }
  destruct q as [sgn s4]. simpl in Hq.
  destruct (span_digits1 s4) as [[ds r] |] eqn:E; simpl in H3; simplify_eq.
  apply span_digits1_length in E. simpl. lia.
Qed.

Lemma expect_word_length w s rest :
  expect_word w s = Some rest -> (length rest + length w = length s)%nat.
Proof.
  revert s. induction w as [| a w IH]; intros s; simpl; [intros [= ->]; lia |].
  destruct s as [| b s]; [done |]. case_match; [| done]. intros Hw%IH. simpl. lia.
Qed.

(** Destructs an option under [mbind] in a hypothesis. *)
Ltac scan_step H :=
  match type of H with
  | (?o ≫= _) = Some _ =>
    let E := fresh "E" in destruct o as [[? ?] |] eqn:E; simpl in H; [| discriminate H]
  end.

Lemma parse_length fuel :
  (forall d s v rest, parse_value fuel d s = Some (v, rest) -> (length rest < length s)%nat) /\
  (forall d s v rest, parse_elements fuel d s = Some (v, rest) -> (length rest < length s)%nat) /\
  (forall d s v rest, parse_members fuel d s = Some (v, rest) -> (length rest < length s)%nat).
Proof.
  induction fuel as [| fuel (IHv & IHe & IHm)]; [done |]. split_and!; intros d s v rest H.
  - cbn [parse_value] in H. unfold value_body in H. destruct s as [| b s]; [done |].
    pose proof (skip_space_length s).
    destruct (b =? 0x22); [scan_step H; apply parse_string_length in E; simplify_eq; simpl in *; lia |].
    destruct (b =? 0x7B).
    { destruct (d <=? 0); [done |]. destruct (skip_space s) as [| c t] eqn:Es; [done |].
      destruct (c =? 0x7D); [simplify_eq; simpl in *; lia |].
      scan_step H. apply IHm in E. simplify_eq. simpl in *. lia. }
    destruct (b =? 0x5B).
    { destruct (d <=? 0); [done |]. destruct (skip_space s) as [| c t] eqn:Es; [done |].
      destruct (c =? 0x5D); [simplify_eq; simpl in *; lia |].
      scan_step H. apply IHe in E. simplify_eq. simpl in *. lia. }
    assert (Hw : forall w j, (j0 ← expect_word w (b :: s); Some (j, j0)) = Some (v, rest) ->
                 w <> [] -> (length rest < length (b :: s))%nat).
    { intros w j Hw Hne. destruct (expect_word w (b :: s)) as [t |] eqn:E; [| done].
      simplify_eq/=. apply expect_word_length in E. destruct w; [done |]. simpl in *. lia. }
    destruct (b =? 0x74); [by apply Hw in H |]. destruct (b =? 0x66); [by apply Hw in H |].
    destruct (b =? 0x6E); [by apply Hw in H |].
    scan_step H. apply scan_number_length in E. by simplify_eq.
  - cbn [parse_elements] in H. unfold elements_body in H. scan_step H. apply IHv in E.
    destruct (skip_space l) as [| b t] eqn:Es; [done |].
    pose proof (skip_space_length l) as Hl. rewrite Es in Hl. simpl in Hl.
    destruct (b =? 0x5D); [simplify_eq; lia |]. destruct (b =? 0x2C); [| done].
    scan_step H. apply IHe in E0. pose proof (skip_space_length t). simplify_eq. lia.
  - cbn [parse_members] in H. unfold members_body in H. scan_step H. apply parse_string_length in E.
    destruct (skip_space l0) as [| c t] eqn:Es; [done |].
    pose proof (skip_space_length l0) as Hl. rewrite Es in Hl. simpl in Hl.
    destruct (c =? 0x3A); [| done]. scan_step H. apply IHv in E0.
    pose proof (skip_space_length t).
    destruct (skip_space l1) as [| b u] eqn:Eu; [done |].
    pose proof (skip_space_length l1) as Hl1. rewrite Eu in Hl1. simpl in Hl1.
    destruct (b =? 0x7D); [simplify_eq; lia |]. destruct (b =? 0x2C); [| done].
    scan_step H. apply IHm in E1. pose proof (skip_space_length u). simplify_eq. lia.
Qed.

Lemma parse_fuel fuel :
  (forall d s, (2 * length s + 1 <= fuel)%nat ->
     parse_value (S fuel) d s = parse_value fuel d s) /\
  (forall d s, (2 * length s + 2 <= fuel)%nat ->
     parse_elements (S fuel) d s = parse_elements fuel d s) /\
  (forall d s, (2 * length s + 2 <= fuel)%nat ->
     parse_members (S fuel) d s = parse_members fuel d s).
Proof.
  induction fuel as [| fuel (IHv & IHe & IHm)]; [split_and!; intros; lia |].
  pose proof (parse_length fuel) as (Lv & _).
  split_and!; intros d s Hl.
  - change (value_body (parse_elements (S fuel)) (parse_members (S fuel)) d s =
            value_body (parse_elements fuel) (parse_members fuel) d s).
    unfold value_body. destruct s as [| b s]; [done |]. simpl length in Hl.
    pose proof (skip_space_length s).
    destruct (skip_space s) as [| c t]; [done |]. simpl length in *.
    by rewrite IHe, IHm by (simpl; lia).
  - change (elements_body (parse_value (S fuel) d) (parse_elements (S fuel) d) s =
            elements_body (parse_value fuel d) (parse_elements fuel d) s).
    unfold elements_body. rewrite IHv by lia.
    destruct (parse_value fuel d s) as [[v t] |] eqn:E; [| done]. cbn [mbind option_bind].
    apply Lv in E.
    destruct (skip_space t) as [| b u] eqn:Eu; [done |].
    pose proof (skip_space_length t) as Ht. rewrite Eu in Ht. simpl in Ht.
    pose proof (skip_space_length u). by rewrite IHe by lia.
  - change (members_body (parse_value (S fuel) d) (parse_members (S fuel) d) s =
            members_body (parse_value fuel d) (parse_members fuel d) s).
    unfold members_body. destruct (parse_string s) as [[k t] |] eqn:Es; [| done].
    apply parse_string_length in Es. cbn [mbind option_bind].
    destruct (skip_space t) as [| c u] eqn:Eu; [done |].
    pose proof (skip_space_length t) as Ht. rewrite Eu in Ht. simpl in Ht.
    pose proof (skip_space_length u). destruct (c =? 0x3A); [| done].
    rewrite IHv by lia. destruct (parse_value fuel d (skip_space u)) as [[v w] |] eqn:E; [| done].
    cbn [mbind option_bind]. apply Lv in E. destruct (skip_space w) as [| b x] eqn:Ex; [done |].
    pose proof (skip_space_length w) as Hw. rewrite Ex in Hw. simpl in Hw.
    pose proof (skip_space_length x). by rewrite IHm by lia.
Qed.

(** More fuel than [parse] gives changes nothing: a text is refused for its
    syntax or its nesting only. *)
Lemma parse_more_fuel extra d s :
  parse_value (2 * length s + 2 + extra) d (skip_space s) =
  parse_value (2 * length s + 2) d (skip_space s).
Proof.
  pose proof (skip_space_length s). induction extra as [| extra IH]; [by rewrite Nat.add_0_r |].
  rewrite <-IH, Nat.add_succ_r. apply parse_fuel. lia.
Qed.
