(* ===== verification/Fabric.v ===== *)
(** * The Fabric contract ([interoperability_fabric.go])

    The asset contract over the ledger's world state: each transaction
    function as a program over the calls it makes to the chaincode stub, the
    abstract map of assets it promises, and what holds of every ledger it
    writes. Strings are bytes, as in Go; [int] is 64 bits wide. *)

From stdpp Require Import gmap.
From Stdlib Require Import Sorting.Sorted.
From S2P Require Import Prelude Effects GoJson.

Set Default Proof Using "Type".

(** ** Assets *)
Record Asset := {
  AppraisedValue : Z;
  Color : bytes;
  ID : bytes;
  Owner : bytes;
  Size : Z;
}.

(** The struct with its JSON names, in the order of the declaration. *)
Definition asset_struct (a : Asset) : struct :=
  [(lit "AppraisedValue", FInt (AppraisedValue a));
   (lit "Color", FString (Color a));
   (lit "ID", FString (ID a));
   (lit "Owner", FString (Owner a));
   (lit "Size", FInt (Size a))].

(** [var asset Asset]. *)
Definition zero_asset : Asset :=
  {| AppraisedValue := 0; Color := []; ID := []; Owner := []; Size := 0 |}.

Definition asset_of_struct (fs : struct) : Asset :=
  match fs with
  | [(_, FInt appraisedValue); (_, FString color); (_, FString id); (_, FString owner);
     (_, FInt size)] =>
    {| AppraisedValue := appraisedValue; Color := color; ID := id; Owner := owner;
       Size := size |}
  | _ => zero_asset
  end.

(** [json.Marshal(asset)] and [json.Unmarshal(b, &asset)]. *)
Definition asset_Marshal (a : Asset) : outcome json_error bytes := Ok (Marshal (asset_struct a)).

Definition asset_Unmarshal (b : bytes) : outcome json_error Asset :=
  let? fs := Unmarshal b (asset_struct zero_asset) in Ok (asset_of_struct fs).

#[global] Arguments asset_Unmarshal : simpl never.

(** ** The chaincode stub

    Its types, and the most results its peer gives a range query
    ([ledger.state.totalQueryLimit] of the peer's configuration). *)
Class StubTypes := {
  StubError : Type;
  stub_error_text : StubError -> bytes;
  Iterator : Type;
  totalQueryLimit : nat;
}.

Section Contract.
Context {T : StubTypes}.

(** A key and value of a range query. *)
Record KV := { Key : bytes; Value : bytes }.

(** The calls to the stub and to its iterators; [GetState] answers [None] for
    [nil], a key without a value. *)
Inductive fabricE : Type -> Type :=
| GetState (key : bytes) : fabricE (answer StubError (option bytes))
| PutState (key value : bytes) : fabricE (answer StubError unit)
| DelState (key : bytes) : fabricE (answer StubError unit)
| GetStateByRange (startKey endKey : bytes) : fabricE (answer StubError Iterator)
| HasNext (it : Iterator) : fabricE bool
| Next (it : Iterator) : fabricE (answer StubError KV)
| Close (it : Iterator) : fabricE unit.

Inductive error :=
| Errorf (msg : bytes)
| FromStub (e : StubError)
| FromJson (e : json_error).

Abbreviation contract A := (io fabricE error A).

Definition read_failed (e : StubError) : error :=
  Errorf (lit "failed to read from world state: " ++ stub_error_text e).
Definition already_exists (id : bytes) : error :=
  Errorf (lit "the asset " ++ id ++ lit " already exists").
Definition does_not_exist (id : bytes) : error :=
  Errorf (lit "the asset " ++ id ++ lit " does not exist").

(** ** The transaction functions *)
Definition AssetExists (id : bytes) : contract bool :=
  let* assetJSON := try_call read_failed (GetState id) in
  iret (bool_decide (assetJSON <> None)).

Definition CreateAsset (id color : bytes) (size : Z) (owner : bytes) (appraisedValue : Z)
  : contract unit :=
  let* exists_ := AssetExists id in
  if exists_ then fail (already_exists id)
  else
    let asset := {| ID := id; Color := color; Size := size; Owner := owner;
                    AppraisedValue := appraisedValue |} in
    let* assetJSON := of_outcome (map_err FromJson (asset_Marshal asset)) in
    try_call FromStub (PutState id assetJSON).

Definition ReadAsset (id : bytes) : contract Asset :=
  let* assetJSON := try_call read_failed (GetState id) in
  match assetJSON with
  | None => fail (does_not_exist id)
  | Some assetJSON => of_outcome (map_err FromJson (asset_Unmarshal assetJSON))
  end.

Definition UpdateAsset (id color : bytes) (size : Z) (owner : bytes) (appraisedValue : Z)
  : contract unit :=
  let* exists_ := AssetExists id in
  if negb exists_ then fail (does_not_exist id)
  else
    let asset := {| ID := id; Color := color; Size := size; Owner := owner;
                    AppraisedValue := appraisedValue |} in
    let* assetJSON := of_outcome (map_err FromJson (asset_Marshal asset)) in
    try_call FromStub (PutState id assetJSON).

Definition DeleteAsset (id : bytes) : contract unit :=
  let* exists_ := AssetExists id in
  if negb exists_ then fail (does_not_exist id)
  else try_call FromStub (DelState id).

(** The result is [None] where the body ends without a [return], when [flag] is
    not set. *)
Definition TransferAsset (id newOwner : bytes) (flag : bool) : contract (option bytes) :=
  let* asset := ReadAsset id in
  if flag then
    let oldOwner := Owner asset in
    let asset := {| AppraisedValue := AppraisedValue asset; Color := Color asset;
                    ID := ID asset; Owner := newOwner; Size := Size asset |} in
    let* assetJSON := of_outcome (map_err FromJson (asset_Marshal asset)) in
    try_call FromStub (PutState id assetJSON) ;;;
    iret (Some oldOwner)
  else iret None.

(** The loop of [GetAllAssets]; [None] when the fuel runs out. *)
Fixpoint collect (fuel : nat) (it : Iterator) (assets : list Asset)
  : contract (option (list Asset)) :=
  match fuel with
  | O => iret None
  | S fuel =>
    let* more := (Effects.call (HasNext it) : contract bool) in
    if more then
      let* queryResponse := try_call FromStub (Next it) in
      let* asset := of_outcome (map_err FromJson (asset_Unmarshal (Value queryResponse))) in
      collect fuel it (assets ++ [asset])
    else iret (Some assets)
  end.

(** [defer q]: [q] runs when the function returns, whatever it returns. *)
Definition deferring {A} (p : contract A) (q : contract unit) : contract A :=
  bind p (fun r => bind q (fun _ => Ret r)).

Definition GetAllAssets (fuel : nat) : contract (option (list Asset)) :=
  let* resultsIterator := try_call FromStub (GetStateByRange [] []) in
  deferring (collect fuel resultsIterator []) (Effects.call (Close resultsIterator)).
End Contract.

(** ** Facts about the JSON of an asset *)
Definition asset_ok (a : Asset) : Prop :=
  int_min <= AppraisedValue a <= int_max /\ int_min <= Size a <= int_max /\
  Forall is_byte (Color a) /\ Forall is_byte (ID a) /\ Forall is_byte (Owner a).

(** An asset whose strings are made UTF-8. *)
Definition sanitize_asset (a : Asset) : Asset :=
  {| AppraisedValue := AppraisedValue a; Color := sanitize (Color a); ID := sanitize (ID a);
     Owner := sanitize (Owner a); Size := Size a |}.

Lemma lit_bytes s : Forall is_byte (lit s).
Proof.
  induction s as [| c s IH]; simpl; constructor; [| done].
  pose proof (Ascii.N_ascii_bounded c). unfold is_byte. lia.
Qed.

Lemma asset_struct_ok a : asset_ok a -> struct_ok (asset_struct a).
Proof.
  intros (Hv & Hs & Hc & Hi & Ho). repeat constructor; try apply lit_bytes; try done; simpl; lia.
Qed.

Lemma asset_json a :
  asset_ok a -> asset_Unmarshal (Marshal (asset_struct a)) = Ok (sanitize_asset a).
Proof.
  intros (Hv & Hs & Hc & Hi & Ho). unfold asset_Unmarshal.
  rewrite unmarshal_marshal; [done | | | |].
  - by repeat constructor.
  - by apply asset_struct_ok.
  - by apply (bool_decide_unpack _).
  - by repeat constructor.
Qed.

(** ** What the ledger promises

    A transaction reads a snapshot of the world state; what it puts and deletes
    takes effect when it commits. *)

(** The order of keys in a range query. *)
Fixpoint key_lt (a b : bytes) : Prop :=
  match a, b with
  | _, [] => False
  | [], _ :: _ => True
  | x :: a, y :: b => x < y \/ x = y /\ key_lt a b
  end.

Abbreviation world := (gmap bytes bytes).
Abbreviation assets := (gmap bytes Asset).

Class FabricStub `{StubTypes} (St : Type) := {
  stub_begin : world -> St;
  stub_get : bytes -> St -> answer StubError (option bytes);
  stub_put : bytes -> bytes -> St -> answer StubError unit * St;
  stub_del : bytes -> St -> answer StubError unit * St;
  stub_range : bytes -> bytes -> St -> answer StubError Iterator * St;
  stub_has_next : Iterator -> St -> bool;
  stub_next : Iterator -> St -> answer StubError KV * St;
  stub_close : Iterator -> St -> St;
  snapshot : St -> world;
  committed : St -> world;
  remaining : Iterator -> St -> list KV;
}.

Definition kv_pair `{StubTypes} (kv : KV) : bytes * bytes := (Key kv, Value kv).

(** The keys of a range query without bounds: it starts at the byte 1, as the
    keys below it are those of composite keys. *)
Definition simple_key (k : bytes) : Prop :=
  match k with [] => False | b :: _ => 1 <= b end.

#[export] Instance simple_key_dec k : Decision (simple_key k).
Proof. destruct k; apply _. Defined.

(** The entries of a map that such a query reaches. *)
Definition simple_entries {A} (m : gmap bytes A) : gmap bytes A :=
  filter (fun kv => simple_key kv.1) m.

(** What the query answers on a world: the entries it reaches in the order of
    their keys, and no more of them than the peer's limit. *)
Definition range_answer `{StubTypes} (w : world) (l : list (bytes * bytes)) : Prop :=
  exists all, StronglySorted key_lt all.*1 /\ all ≡ₚ map_to_list (simple_entries w) /\
              l = take totalQueryLimit all.

Class FabricStubLaws `{FabricStub St} : Prop := {
  begin_snapshot w : snapshot (stub_begin w) = w;
  begin_committed w : committed (stub_begin w) = w;
  get_snapshot k s v : stub_get k s = AOk v -> v = snapshot s !! k;
  put_ok k v s s' : stub_put k v s = (AOk tt, s') -> committed s' = <[k := v]> (committed s);
  put_empty_key v s : exists e s', stub_put [] v s = (AErr e, s');
  del_ok k s s' : stub_del k s = (AOk tt, s') -> committed s' = delete k (committed s);
  range_ok s it s' :
    stub_range [] [] s = (AOk it, s') ->
    committed s' = committed s /\ range_answer (snapshot s) (kv_pair <$> remaining it s');
  has_next_spec it s : stub_has_next it s = true <-> remaining it s <> [];
  next_ok it s kv s' :
    stub_next it s = (AOk kv, s') ->
    committed s' = committed s /\ remaining it s = kv :: remaining it s';
  close_ok it s : committed (stub_close it s) = committed s;
}.

Section Ledger.
Context {T : StubTypes} {St : Type} {FS : FabricStub St}.

Definition stub_handler : handler fabricE St := fun _ e s =>
  match e with
  | GetState k => (stub_get k s, s)
  | PutState k v => stub_put k v s
  | DelState k => stub_del k s
  | GetStateByRange a b => stub_range a b s
  | HasNext it => (stub_has_next it s, s)
  | Next it => stub_next it s
  | Close it => (tt, stub_close it s)
  end.

(** A transaction on a world: what it answers and the world it leaves. An error
    is never committed. *)
Definition submit {A} (p : io fabricE error A) (w : world) : outcome error A * world :=
  let '(r, s) := exec stub_handler p (stub_begin w) in
  (r, if is_ok r then committed s else w).

(** The transactions that read and write single assets. *)
Inductive tx :=
| TCreate (id color : bytes) (size : Z) (owner : bytes) (appraisedValue : Z)
| TRead (id : bytes)
| TUpdate (id color : bytes) (size : Z) (owner : bytes) (appraisedValue : Z)
| TDelete (id : bytes)
| TExists (id : bytes)
| TTransfer (id newOwner : bytes) (flag : bool).

Inductive reply :=
| RUnit
| RAsset (a : Asset)
| RBool (b : bool)
| ROwner (o : option bytes).

Definition reply_of {A} (f : A -> reply) (p : io fabricE error A) : io fabricE error reply :=
  let* a := p in iret (f a).

Definition run_tx (t : tx) : io fabricE error reply :=
  match t with
  | TCreate id color size owner v => reply_of (fun _ => RUnit) (CreateAsset id color size owner v)
  | TRead id => reply_of RAsset (ReadAsset id)
  | TUpdate id color size owner v => reply_of (fun _ => RUnit) (UpdateAsset id color size owner v)
  | TDelete id => reply_of (fun _ => RUnit) (DeleteAsset id)
  | TExists id => reply_of RBool (AssetExists id)
  | TTransfer id owner flag => reply_of ROwner (TransferAsset id owner flag)
  end.

(** The arguments Go can pass: bytes, and [int]s. *)
Definition tx_ok (t : tx) : Prop :=
  match t with
  | TCreate id color size owner v | TUpdate id color size owner v =>
    asset_ok {| AppraisedValue := v; Color := color; ID := id; Owner := owner; Size := size |}
  | TRead id | TDelete id | TExists id => Forall is_byte id
  | TTransfer id owner _ => Forall is_byte id /\ Forall is_byte owner
  end.

(** ** The abstract assets *)
Definition set_owner (o : bytes) (a : Asset) : Asset :=
  {| AppraisedValue := AppraisedValue a; Color := Color a; ID := ID a; Owner := o;
     Size := Size a |}.

(** A map of assets, made UTF-8 as they are stored. *)
Definition assets_step (t : tx) (m : assets) : outcome error reply * assets :=
  match t with
  | TCreate id color size owner v =>
    match m !! id with
    | Some _ => (Err (already_exists id), m)
    | None =>
      (Ok RUnit, <[id := sanitize_asset {| AppraisedValue := v; Color := color; ID := id;
                                           Owner := owner; Size := size |}]> m)
    end
  | TRead id =>
    match m !! id with
    | Some a => (Ok (RAsset a), m)
    | None => (Err (does_not_exist id), m)
    end
  | TUpdate id color size owner v =>
    match m !! id with
    | Some _ =>
      (Ok RUnit, <[id := sanitize_asset {| AppraisedValue := v; Color := color; ID := id;
                                           Owner := owner; Size := size |}]> m)
    | None => (Err (does_not_exist id), m)
    end
  | TDelete id =>
    match m !! id with
    | Some _ => (Ok RUnit, delete id m)
    | None => (Err (does_not_exist id), m)
    end
  | TExists id => (Ok (RBool (bool_decide (is_Some (m !! id)))), m)
  | TTransfer id owner flag =>
    match m !! id with
    | Some a =>
      if flag then (Ok (ROwner (Some (Owner a))), <[id := set_owner (sanitize owner) a]> m)
      else (Ok (ROwner None), m)
    | None => (Err (does_not_exist id), m)
    end
  end.

(** An asset as it is read back: in range, its strings UTF-8. *)
Definition stored_ok (a : Asset) : Prop := asset_ok a /\ sanitize_asset a = a.

(** The stored text [v] reads as the asset [a]. *)
Definition reads_as (v : bytes) (a : Asset) : Prop := asset_Unmarshal v = Ok a /\ stored_ok a.

(** The world [w] holds the assets [m]. *)
Definition holds (w : world) (m : assets) : Prop :=
  forall k, option_Forall2 reads_as (w !! k) (m !! k).

(** The stub itself failed. *)
Definition stub_failed {A} (r : outcome error A) : Prop :=
  exists e, r = Err (FromStub e) \/ r = Err (read_failed e).
End Ledger.

Section Facts.
Lemma sanitize_asset_ok a : asset_ok a -> stored_ok (sanitize_asset a).
Proof.
  intros (? & ? & ? & ? & ?). split.
  - repeat split; simpl; try lia; by apply sanitize_bytes_from.
  - unfold sanitize_asset. simpl. by rewrite !sanitize_idemp.
Qed.

Lemma marshal_reads_as a :
  asset_ok a -> reads_as (Marshal (asset_struct a)) (sanitize_asset a).
Proof. intros H. split; [by apply asset_json | by apply sanitize_asset_ok]. Qed.

Lemma reads_as_set_owner a owner :
  stored_ok a -> Forall is_byte owner ->
  reads_as (Marshal (asset_struct (set_owner owner a))) (set_owner (sanitize owner) a).
Proof.
  intros [(? & ? & ? & ? & ?) Hs] Ho.
  replace (set_owner (sanitize owner) a) with (sanitize_asset (set_owner owner a)).
  - by apply marshal_reads_as.
  - unfold sanitize_asset, set_owner in *. simpl. by rewrite <-Hs; simpl; rewrite !sanitize_idemp.
Qed.

Lemma holds_insert (w : world) m k v a :
  holds w m -> reads_as v a -> holds (<[k := v]> w) (<[k := a]> m).
Proof.
  intros H Hv k'. destruct (decide (k = k')) as [<- | Hk].
  - rewrite !lookup_insert_eq. by constructor.
  - rewrite !lookup_insert_ne by done. apply H.
Qed.

Lemma holds_delete (w : world) m k : holds w m -> holds (delete k w) (delete k m).
Proof.
  intros H k'. destruct (decide (k = k')) as [<- | Hk].
  - rewrite !lookup_delete_eq. by constructor.
  - rewrite !lookup_delete_ne by done. apply H.
Qed.

Lemma holds_empty : holds ∅ ∅.
Proof. intros k. rewrite !lookup_empty. constructor. Qed.
End Facts.

Section Refinement.
Context {T : StubTypes} {St : Type} {FS : FabricStub St} {FL : FabricStubLaws}.

(** A read of the state at the start of a transaction. *)
Lemma first_get (w : world) (k : bytes) v : stub_get k (stub_begin w) = AOk v -> v = w !! k.
Proof using FL. intros H%get_snapshot. by rewrite begin_snapshot in H. Qed.

(** The refinement of one answer and world. *)
Definition simulates (p : io fabricE error reply) (w : world)
  (spec : outcome error reply * assets) : Prop :=
  let '(r, w') := submit p w in
  (stub_failed r /\ w' = w) \/ (r = spec.1 /\ holds w' spec.2).

(** A put or a delete as the last call of a transaction. *)
Lemma simulates_put (k v : bytes) (f : answer StubError unit -> io fabricE error reply)
  (w : world) (a : reply) (m : assets) :
  f (AOk tt) = Ret (Ok a) -> (forall e, f (AErr e) = Ret (Err (FromStub e))) ->
  holds (<[k := v]> w) m -> simulates (Call (PutState k v) f) w (Ok a, m).
Proof using FL.
  unfold simulates, submit. simpl. intros Ha He H.
  destruct (stub_put k v (stub_begin w)) as [[[] | e] s] eqn:Hp; rewrite ?Ha, ?He; simpl.
  - right. split; [done |]. apply put_ok in Hp. by rewrite Hp, begin_committed.
  - left. split; [| done]. exists e. by left.
Qed.

Lemma simulates_del (k : bytes) (f : answer StubError unit -> io fabricE error reply)
  (w : world) (a : reply) (m : assets) :
  f (AOk tt) = Ret (Ok a) -> (forall e, f (AErr e) = Ret (Err (FromStub e))) ->
  holds (delete k w) m -> simulates (Call (DelState k) f) w (Ok a, m).
Proof using FL.
  unfold simulates, submit. simpl. intros Ha He H.
  destruct (stub_del k (stub_begin w)) as [[[] | e] s] eqn:Hp; rewrite ?Ha, ?He; simpl.
  - right. split; [done |]. apply del_ok in Hp. by rewrite Hp, begin_committed.
  - left. split; [| done]. exists e. by left.
Qed.

(** A transaction that starts with a read: it fails with the stub, or goes on
    with what the world holds. *)
Lemma simulates_get (k : bytes) (f : answer StubError (option bytes) -> io fabricE error reply)
  (w : world) spec :
  (forall e, f (AErr e) = Ret (Err (read_failed e))) ->
  simulates (f (AOk (w !! k))) w spec -> simulates (Call (GetState k) f) w spec.
Proof using FL.
  unfold simulates, submit. simpl. intros He H.
  destruct (stub_get k (stub_begin w)) as [v | e] eqn:Hg.
  - by rewrite (first_get _ _ _ Hg).
  - rewrite He. left. split; [| done]. exists e. by right.
Qed.

(** Runs a transaction up to its first call. *)
Ltac start_get id :=
  match goal with
  | |- simulates ?p _ _ => let q := eval hnf in p in change p with q
  end;
  apply (simulates_get id); [done |].

Lemma simulates_ret (r : outcome error reply) (w : world) m :
  holds w m -> simulates (Ret r) w (r, m).
Proof using FL.
  intros H. right. split; [done |]. simpl.
  destruct (is_ok r); [by rewrite begin_committed | done].
Qed.

Lemma run_tx_simulates (t : tx) (w : world) (m : assets) :
  holds w m -> tx_ok t -> simulates (run_tx t) w (assets_step t m).
Proof using FL.
  intros H Hok. destruct t as [id color size owner v | id | id color size owner v | id | id
                              | id owner flag]; cbn [run_tx assets_step];
    pose proof (H id) as Hid.
  - start_get id. destruct Hid as [b a Hb |]; [by apply simulates_ret |].
    apply simulates_put; [done | done | apply holds_insert; [done |]]. by apply (marshal_reads_as (Build_Asset _ _ _ _ _)).
  - start_get id. destruct Hid as [b a [Hb _] |]; [| by apply simulates_ret].
    simpl. rewrite Hb. by apply simulates_ret.
  - start_get id. destruct Hid as [b a Hb |]; [| by apply simulates_ret].
    apply simulates_put; [done | done | apply holds_insert; [done |]]. by apply (marshal_reads_as (Build_Asset _ _ _ _ _)).
  - start_get id. destruct Hid as [b a Hb |]; [| by apply simulates_ret].
    apply simulates_del; [done | done | by apply holds_delete].
  - start_get id. destruct Hid as [b a Hb |]; by apply simulates_ret.
  - destruct Hok. start_get id. destruct Hid as [b a [Hb Ha] |]; [| by apply simulates_ret].
    simpl. rewrite Hb. simpl. destruct flag; simpl; [| by apply simulates_ret].
    apply simulates_put; [done | done | apply holds_insert; [done |]].
    by apply (reads_as_set_owner a owner).
Qed.

(** C3: The contract keeps the map of assets it promises: on every lawful stub
    and for all arguments of each of its transactions, either the stub itself
    fails and the world is unchanged, or the answer is that of the abstract map
    and the new world holds the new map. So an asset is created only where
    there is none, is updated, deleted, read and transferred only where there
    is one, a transfer changes the owner alone and answers the old one, and
    every error leaves the world as it was. *)
Theorem contract_refines_assets (t : tx) (w : world) (m : assets) :
  holds w m -> tx_ok t -> simulates (run_tx t) w (assets_step t m).
Proof using FL. apply run_tx_simulates. Qed.

(** ** The ledgers the contract writes *)
Inductive reachable : world -> Prop :=
| reach_empty : reachable ∅
| reach_tx w t : reachable w -> tx_ok t -> reachable (submit (run_tx t) w).2.

(** Every asset is under its own identifier, which is not empty. *)
Definition keyed (m : assets) : Prop :=
  map_Forall (fun k a => k <> [] /\ ID a = sanitize k) m.

Lemma keyed_step t m :
  keyed m -> (forall color size owner v, t <> TCreate [] color size owner v) ->
  keyed (assets_step t m).2.
Proof.
  intros Hm Ht.
  destruct t as [id color size owner v | id | id color size owner v | id | id | id owner flag];
    simpl; try destruct (m !! id) as [a |] eqn:Ha; try done.
  - apply map_Forall_insert_2; [| done]. split; [intros ->; by eapply Ht | done].
  - apply map_Forall_insert_2; [| done]. split; [by apply (Hm _ _ Ha) | done].
  - by apply map_Forall_delete.
  - destruct flag; [| done]. apply map_Forall_insert_2; [| done]. apply (Hm _ _ Ha).
Qed.

(** The ledger has no empty key. *)
Lemma create_empty_fails color size owner v w :
  (submit (run_tx (TCreate [] color size owner v)) w).2 = w.
Proof using FL.
  unfold submit. simpl. destruct (stub_get [] (stub_begin w)) as [[b |] | e]; simpl; [done | | done].
  match goal with |- context [stub_put [] ?j ?s] =>
    destruct (put_empty_key j s) as (e & s' & ->) end. done.
Qed.

Lemma reachable_holds w :
  reachable w -> exists m, holds w m /\ keyed m.
Proof using FL.
  induction 1 as [| w t Hw (m & Hm & Hk) Ht].
  { exists ∅. split; [apply holds_empty | apply map_Forall_empty]. }
  assert (Hsame : (submit (run_tx t) w).2 = w -> exists m, holds (submit (run_tx t) w).2 m /\ keyed m).
  { intros ->. by exists m. }
  assert (Hempty : (exists color size owner v, t = TCreate [] color size owner v) \/
                   forall color size owner v, t <> TCreate [] color size owner v).
  { destruct t as [[| b id] | | | | |]; eauto 10; by right. }
  destruct Hempty as [(color & size & owner & v & ->) | Hne].
  { apply Hsame, create_empty_fails. }
  pose proof (run_tx_simulates t w m Hm Ht) as Hs. unfold simulates in Hs.
  destruct (submit (run_tx t) w) as [r w']. destruct Hs as [[_ ->] | [_ Hw']].
  - by exists m.
  - exists (assets_step t m).2. split; [done | by apply keyed_step].
Qed.

(** C8: Every ledger the contract can write from an empty one, whatever the
    stub fails at, is well formed: each value is the JSON of an asset, with
    UTF-8 strings and [int]s in range, stored under its own identifier (in which
    bytes that are not UTF-8 were replaced), and no asset has an empty
    identifier. *)
Theorem reachable_world_ok (w : world) :
  reachable w ->
  map_Forall (fun k v => k <> [] /\ exists a,
    asset_Unmarshal v = Ok a /\ asset_ok a /\ ID a = sanitize k) w.
Proof using FL.
  intros (m & Hm & Hk)%reachable_holds k v Hv. pose proof (Hm k) as H. rewrite Hv in H.
  inversion H as [? a [Hr [Ha _]] Hv' Ha' |]; subst. symmetry in Ha'. apply Hk in Ha' as [Hne Hid].
  eauto 10.
Qed.
End Refinement.

(** ** All assets *)
Section GetAll.
Context {T : StubTypes} {St : Type} {FS : FabricStub St} {FL : FabricStubLaws}.

(** The asset a query answer reads as. *)
Definition reads_kv (kv : KV) (a : Asset) : Prop := asset_Unmarshal (Value kv) = Ok a.

Lemma collect_spec fuel it (acc l : list Asset) (s : St) :
  (length (remaining it s) < fuel)%nat -> Forall2 reads_kv (remaining it s) l ->
  let '(r, s') := exec stub_handler (collect fuel it acc) s in
  (exists e, r = Err (FromStub e)) \/ (r = Ok (Some (acc ++ l)) /\ committed s' = committed s).
Proof using FL.
  revert acc l s. induction fuel as [| fuel IH]; intros acc l s Hf Hl; [lia |].
  simpl. destruct (stub_has_next it s) eqn:Hn; simpl.
  - destruct (stub_next it s) as [[kv | e] s'] eqn:Hx; simpl; [| eauto].
    apply next_ok in Hx as [Hc Hr]. rewrite Hr in Hf, Hl.
    apply Forall2_cons_inv_l in Hl as (a & l' & Ha & Hl & ->).
    unfold reads_kv in Ha. rewrite Ha. simpl in Hf |- *.
    specialize (IH (acc ++ [a]) l' s' ltac:(lia) Hl).
    destruct (exec _ _ _) as [r s'']. rewrite Hc, <-(assoc_L (++)) in IH. exact IH.
  - assert (Hr : remaining it s = []).
    { destruct (remaining it s) eqn:E; [done |].
      assert (stub_has_next it s = true) by (apply has_next_spec; by rewrite E). congruence. }
    rewrite Hr in Hl. apply Forall2_nil_inv_l in Hl as ->. right. by rewrite app_nil_r.
Qed.

(** A world that holds [m] has its keys. *)
Lemma holds_dom (w : world) m : holds w m -> dom m = dom w.
Proof.
  intros Hm. apply set_eq. intros k. rewrite !elem_of_dom. pose proof (Hm k) as Hk.
  by destruct Hk; rewrite ?is_Some_alt.
Qed.

Lemma holds_simple (w : world) m : holds w m -> holds (simple_entries w) (simple_entries m).
Proof.
  intros Hm k. unfold simple_entries. rewrite !map_lookup_filter.
  destruct (Hm k); simpl; [| constructor]. case_guard; by constructor.
Qed.

(** The entries of a world that holds [m]: their keys, and their assets. *)
Lemma entries_assets (w : world) m (l : list (bytes * bytes)) :
  holds w m -> l ≡ₚ map_to_list w ->
  l.*1 ≡ₚ elements (dom m) /\
  exists assets, Forall2 (fun kv a => asset_Unmarshal kv.2 = Ok a /\ m !! kv.1 = Some a) l assets.
Proof.
  intros Hm Hp. split.
  - rewrite (holds_dom w m Hm), Hp. symmetry. apply NoDup_Permutation.
    + apply NoDup_elements.
    + apply NoDup_fst_map_to_list.
    + intros k. rewrite elem_of_elements, elem_of_dom. split.
      * intros [v Hv]. apply list_elem_of_fmap. exists (k, v). split; [done |].
        by apply elem_of_map_to_list.
      * intros ((k' & v) & -> & Hv)%list_elem_of_fmap. apply elem_of_map_to_list in Hv. eauto.
  - assert (Hkv : Forall (fun kv => exists a, asset_Unmarshal kv.2 = Ok a /\ m !! kv.1 = Some a) l).
    { apply Forall_forall. intros [k v] Hin. rewrite Hp in Hin.
      apply elem_of_map_to_list in Hin. pose proof (Hm k) as Hk. rewrite Hin in Hk.
      inversion Hk as [v' a [Ha _] Hv' Hma |]; subst. eauto. }
    clear -Hkv. induction Hkv as [| kv l (a & Ha) _ (assets & IH)].
    + exists []. by constructor.
    + exists (a :: assets). by constructor.
Qed.

(** The assets of a map that a query without bounds lists: those whose keys it
    reaches, in the order of the keys, up to the limit. *)
Definition listing (m : assets) (l : list Asset) : Prop :=
  exists ks, StronglySorted key_lt ks /\ ks ≡ₚ elements (dom (simple_entries m)) /\
             Forall2 (fun k a => m !! k = Some a) (take totalQueryLimit ks) l.

Lemma range_listing (w : world) m (l : list KV) :
  holds w m -> range_answer w (kv_pair <$> l) ->
  exists assets, Forall2 reads_kv l assets /\ listing m assets.
Proof.
  intros Hm (all & Hs & Hp & Hl).
  destruct (entries_assets _ _ all (holds_simple w m Hm) Hp) as (Hd & assets & Ha).
  exists (take totalQueryLimit assets).
  apply (Forall2_take _ _ _ totalQueryLimit) in Ha. split.
  - apply (Forall2_fmap_l kv_pair (fun kv a => asset_Unmarshal kv.2 = Ok a)). rewrite Hl.
    eapply Forall2_impl; [exact Ha |]. by intros kv a [? _].
  - exists all.*1. split; [done |]. split; [done |]. rewrite <-fmap_take.
    apply Forall2_fmap_l. eapply Forall2_impl; [exact Ha |].
    by intros kv a [_ [? _]%map_lookup_filter_Some].
Qed.

Lemma range_length (w : world) (l : list (bytes * bytes)) :
  range_answer w l -> (length l <= size w)%nat.
Proof.
  intros (all & _ & Hp & ->). rewrite length_take.
  apply Permutation_length in Hp. rewrite length_map_to_list in Hp.
  assert (size (simple_entries w) <= size w)%nat; [| lia].
  apply map_subseteq_size, map_filter_subseteq.
Qed.

(** A query on a world, whose answer is also one of a world that holds [m]. *)
Lemma get_all_from (fuel : nat) (w w' : world) (m : assets) :
  holds w' m -> (forall l, range_answer w l -> range_answer w' l) -> (size w < fuel)%nat ->
  let '(r, w1) := submit (GetAllAssets fuel) w in
  w1 = w /\
  match r with
  | Ok (Some l) => listing m l
  | Err (FromStub _) => True
  | _ => False
  end.
Proof using FL.
  intros Hm Hr Hf. unfold submit, GetAllAssets, deferring. simpl.
  destruct (stub_range [] [] (stub_begin w)) as [[it | e] s] eqn:Hq; simpl; [| done].
  apply range_ok in Hq as (Hc & Hp). rewrite begin_committed in Hc.
  rewrite begin_snapshot in Hp. destruct (range_listing w' m _ Hm (Hr _ Hp)) as (l & Hl & Hml).
  apply range_length in Hp. rewrite length_fmap in Hp.
  rewrite exec_bind. pose proof (collect_spec fuel it [] l s ltac:(lia) Hl) as H.
  destruct (exec stub_handler (collect fuel it []) s) as [r s'].
  simpl. rewrite close_ok. destruct H as [[e ->] | [-> Hc']]; simpl; [done |].
  split; [congruence | done].
Qed.

Lemma listing_complete (m : assets) l :
  listing m l -> map_Forall (fun k _ => simple_key k) m -> (size m <= totalQueryLimit)%nat ->
  exists ks, StronglySorted key_lt ks /\ ks ≡ₚ elements (dom m) /\
             Forall2 (fun k a => m !! k = Some a) ks l.
Proof.
  intros (ks & Hs & Hp & Hl) Hk Hn. unfold simple_entries in Hp.
  rewrite map_filter_id in Hp by exact Hk.
  exists ks. split; [done |]. split; [done |].
  rewrite take_ge in Hl; [done |].
  rewrite Hp. change (length (elements (dom m))) with (size (dom m)). by rewrite size_dom.
Qed.

(** C5: [GetAllAssets] ends: with more loop steps than the world has assets it
    never runs out, it leaves the world as it was, and unless the stub fails it
    answers the assets in the order of their keys, each once: all of those whose
    keys do not start with the byte 0, up to the peer's limit on the results of
    a query. So it answers every asset where no more than the limit are stored
    and no identifier starts with the byte 0; otherwise it drops the others
    without an error. *)
Theorem get_all_assets_complete (fuel : nat) (w : world) (m : assets) :
  holds w m -> (size m < fuel)%nat ->
  let '(r, w') := submit (GetAllAssets fuel) w in
  w' = w /\
  match r with
  | Ok (Some l) =>
    listing m l /\
    (map_Forall (fun k _ => simple_key k) m -> (size m <= totalQueryLimit)%nat ->
     exists ks, StronglySorted key_lt ks /\ ks ≡ₚ elements (dom m) /\
                Forall2 (fun k a => m !! k = Some a) ks l)
  | Err (FromStub _) => True
  | _ => False
  end.
Proof using FL.
  intros Hm Hf. assert (Hw : (size w < fuel)%nat).
  { by rewrite <-size_dom, <-(holds_dom w m Hm), size_dom. }
  pose proof (get_all_from fuel w w m Hm (fun _ => id) Hw) as H.
  destruct (submit (GetAllAssets fuel) w) as [r w']. destruct H as [-> H]. split; [done |].
  destruct r as [[l |] | [] |]; try done. split; [done |]. by apply listing_complete.
Qed.
End GetAll.

(** ** Every run, whatever the stub answers *)
Section Runs.
Context {T : StubTypes}.

Definition is_close (o : obs fabricE) : bool :=
  match o with Obs e _ => match e with Close _ => true | _ => false end end.

Lemma collect_no_close fuel it acc : each (fun o => is_close o = false) (collect fuel it acc).
Proof.
  revert acc. induction fuel as [| fuel IH]; intros acc; [apply each_ret |].
  cbn [collect]. apply each_ibind; [by apply each_call | intros more].
  destruct more; [| apply each_ret]. apply each_ibind; [by apply each_try_call | intros kv].
  apply each_ibind; [apply each_ret | intros a; apply IH].
Qed.

(** C31: [GetAllAssets] closes the iterator it opened exactly once, as its last
    call, on every path: after all answers, a failed query step, a value that is
    not an asset, or no answer at all; where no iterator was opened it closes
    none. *)
Theorem iterator_closed (fuel : nat) tr r :
  runs (GetAllAssets fuel) tr r ->
  (exists e, tr = [Obs (GetStateByRange [] []) (AErr e)] /\ r = Err (FromStub e)) \/
  (exists it tr0, tr = Obs (GetStateByRange [] []) (AOk it) :: tr0 ++ [Obs (Close it) tt] /\
                  Forall (fun o => is_close o = false) tr0).
Proof.
  intros ([it | e] & tr' & -> & H); simpl in H.
  - right. unfold deferring in H. apply runs_bind in H as (tr1 & tr2 & o & -> & H1 & H2).
    destruct H2 as ([] & tr3 & -> & -> & _). exists it, tr1. split; [done |].
    by eapply collect_no_close.
  - left. destruct H as [-> ->]. by exists e.
Qed.

(** A write the stub has taken. *)
Definition is_write (o : obs fabricE) : bool :=
  match o with
  | Obs e x =>
    match e in fabricE A return A -> bool with
    | PutState _ _ | DelState _ => fun a => match a with AOk _ => true | AErr _ => false end
    | _ => fun _ => false
    end x
  end.

(** C18: A transaction that fails has written nothing, whatever the stub
    answered, and none writes more than once: only the last call of a
    transaction can be a write, after every check has passed. *)
Theorem failed_transaction_writes_nothing (t : tx) tr r :
  runs (run_tx t) tr r ->
  Forall (fun o => is_write o = false) (removelast tr) /\
  (is_ok r = false -> Forall (fun o => is_write o = false) tr).
Proof.
  destruct t as [id color size owner v | id | id color size owner v | id | id | id owner flag];
    intros ([[b |] | e] & tr' & -> & H); simpl in H;
    repeat (match type of H with
            | _ /\ _ => destruct H as [-> ->]
            | exists _, _ => let x := fresh "x" in let t := fresh "tr" in
                destruct H as (x & t & -> & H); destruct x as [[] |]; simpl in H
            | context [asset_Unmarshal ?b] => destruct (asset_Unmarshal b); simpl in H
            | context [if ?f then _ else _] => destruct f; simpl in H
            end);
    by split; repeat constructor.
Qed.

(** Without its flag [TransferAsset] transfers nothing: it only reads the
    asset, and never answers an owner. *)
Theorem transfer_without_flag (id newOwner : bytes) tr r :
  runs (TransferAsset id newOwner false) tr r ->
  (exists a, tr = [Obs (GetState id) a]) /\ forall o, r <> Ok (Some o).
Proof.
  intros ([[b |] | e] & tr' & -> & H); simpl in H.
  - destruct (asset_Unmarshal b); simpl in H; destruct H as [-> ->]; split; eauto; done.
  - destruct H as [-> ->]. split; [eauto | done].
  - destruct H as [-> ->]. split; [eauto | done].
Qed.

(** C19: Reading back a stored asset: unmarshalling the JSON of an asset gives
    the asset, whatever the bytes of its strings, except that bytes which are
    not UTF-8 come back as the replacement character; an asset whose strings
    are UTF-8, with any escapes, comes back unchanged. The stored text is one
    JSON object with the five members in alphabetical order, as the order of the
    fields is meant to give in any language. *)
Theorem asset_json_roundtrip (a : Asset) :
  asset_ok a ->
  exists b members,
    asset_Marshal a = Ok b /\ asset_Unmarshal b = Ok (sanitize_asset a) /\
    sanitize_asset (sanitize_asset a) = sanitize_asset a /\
    parse b = Some (JObject members) /\ length members = 5%nat /\
    StronglySorted key_lt members.*1.
Proof.
  intros Ha. exists (Marshal (asset_struct a)). eexists. split; [done |].
  split; [by apply asset_json |]. split; [by apply sanitize_asset_ok |].
  split; [by apply parse_Marshal, asset_struct_ok |]. split; [done |].
  repeat constructor; vm_compute; tauto.
Qed.
End Runs.
