(* ===== verification/FabricLedger.v ===== *)
(** * A ledger in memory

    A concrete stub for the Fabric contract: a world state as a finite map,
    range queries sorted by key. It meets the laws of [Fabric], and the
    contract's theorems are applied on it. *)

From stdpp Require Import gmap sorting.
From Stdlib Require Import Sorting.Sorted.
From S2P Require Import Prelude Effects GoJson Fabric.

Set Default Proof Using "Type".

(** ** Keys in order *)
#[export] Instance key_lt_dec : RelDecision key_lt.
Proof.
  intros a. induction a as [| x a IH]; intros [| y b]; simpl; [right; tauto | left; done | right; tauto |].
  destruct (decide (x < y)); [left; tauto |].
  destruct (decide (x = y)); [| right; lia].
  destruct (IH b); [left; tauto | right; intros [? | [_ ?]]; [lia | done]].
Defined.

Lemma key_lt_trans : Transitive key_lt.
Proof.
  intros a. induction a as [| x a IH]; intros [| y b] [| z c]; simpl; try done.
  intros [? | [-> ?]] [? | [-> ?]]; [left; lia | left; lia | left; lia |]. right. eauto.
Qed.

Lemma key_lt_total a b : key_lt a b \/ a = b \/ key_lt b a.
Proof.
  revert b. induction a as [| x a IH]; intros [| y b]; simpl; [tauto | tauto | tauto |].
  destruct (Z.lt_total x y) as [? | [-> | ?]]; [tauto | | tauto].
  destruct (IH b) as [? | [-> | ?]]; tauto.
Qed.

(** Entries by key. *)
Definition kv_le `{StubTypes} (x y : KV) : Prop := key_lt (Key x) (Key y) \/ Key x = Key y.

#[export] Instance kv_le_dec `{StubTypes} : RelDecision kv_le.
Proof. intros x y. unfold kv_le. apply _. Defined.

#[export] Instance kv_le_total `{StubTypes} : Total kv_le.
Proof.
  intros x y. unfold kv_le. destruct (key_lt_total (Key x) (Key y)) as [? | [-> | ?]]; tauto.
Qed.

#[export] Instance kv_le_trans `{StubTypes} : Transitive kv_le.
Proof.
  intros x y z. unfold kv_le. intros [H1 | E1] [H2 | E2]; rewrite ?E1, ?E2 in *; rewrite <-?E2 in *;
    [left; by eapply key_lt_trans | tauto ..].
Qed.

Lemma sorted_distinct `{StubTypes} (l : list KV) :
  StronglySorted kv_le l -> NoDup (Key <$> l) -> StronglySorted key_lt (Key <$> l).
Proof.
  induction 1 as [| kv l _ IH Hle]; intros Hnd; simpl; [constructor |].
  apply NoDup_cons in Hnd as [Hk Hnd]. constructor; [by apply IH |].
  apply Forall_fmap, Forall_forall. intros kv' Hin.
  pose proof (proj1 (Forall_forall _ _) Hle kv' Hin) as [? | He]; [done |].
  exfalso. apply Hk. rewrite He. by apply list_elem_of_fmap_2.
Qed.

(** ** The stub *)
#[export] Instance memory_types : StubTypes := {|
  StubError := bytes;
  stub_error_text e := e;
  Iterator := unit;
  totalQueryLimit := 2;
|}.

Record Memory := {
  mem_snapshot : world;
  mem_committed : world;
  mem_rest : list KV;
}.

Definition entries (w : world) : list KV :=
  merge_sort kv_le
    ((fun '(k, v) => {| Key := k; Value := v |}) <$> map_to_list (simple_entries w)).

Definition mem_put (k v : bytes) (s : Memory) : answer bytes unit * Memory :=
  if decide (k = []) then (AErr (lit "key must not be an empty string"), s)
  else (AOk tt, {| mem_snapshot := mem_snapshot s;
                   mem_committed := <[k := v]> (mem_committed s); mem_rest := mem_rest s |}).

Definition mem_del (k : bytes) (s : Memory) : answer bytes unit * Memory :=
  (AOk tt, {| mem_snapshot := mem_snapshot s;
              mem_committed := delete k (mem_committed s); mem_rest := mem_rest s |}).

(** Only the open-ended query of the contract is served. *)
Definition mem_range (a b : bytes) (s : Memory) : answer bytes unit * Memory :=
  (AOk tt, {| mem_snapshot := mem_snapshot s; mem_committed := mem_committed s;
              mem_rest := take totalQueryLimit (entries (mem_snapshot s)) |}).

Definition mem_next (s : Memory) : answer bytes KV * Memory :=
  match mem_rest s with
  | [] => (AErr (lit "iterator is at its end"), s)
  | kv :: rest =>
    (AOk kv, {| mem_snapshot := mem_snapshot s; mem_committed := mem_committed s;
                mem_rest := rest |})
  end.

#[export] Instance memory_stub : FabricStub Memory := {|
  stub_begin w := {| mem_snapshot := w; mem_committed := w; mem_rest := [] |};
  stub_get k s := AOk (mem_snapshot s !! k);
  stub_put := mem_put;
  stub_del := mem_del;
  stub_range := mem_range;
  stub_has_next _ s := bool_decide (mem_rest s <> []);
  stub_next _ s := mem_next s;
  stub_close _ s := s;
  snapshot := mem_snapshot;
  committed := mem_committed;
  remaining _ s := mem_rest s;
|}.

Lemma entries_keys (l : list KV) : (Key <$> l) = (kv_pair <$> l).*1.
Proof. rewrite <-list_fmap_compose. by apply list_fmap_ext. Qed.

Lemma entries_spec (w : world) :
  range_answer w (kv_pair <$> take totalQueryLimit (entries w)).
Proof.
  assert (Hp : kv_pair <$> entries w ≡ₚ map_to_list (simple_entries w)).
  { unfold entries. rewrite merge_sort_Permutation, <-list_fmap_compose.
    rewrite (list_fmap_ext _ id); [by rewrite list_fmap_id |]. by intros i [k v]. }
  exists (kv_pair <$> entries w). split; [| split; [done | apply fmap_take]].
  rewrite <-entries_keys. apply sorted_distinct.
  - apply (StronglySorted_merge_sort kv_le).
  - rewrite entries_keys, Hp. apply NoDup_fst_map_to_list.
Qed.

#[export] Instance memory_laws : FabricStubLaws.
Proof.
  split; try done.
  - by intros k s v [= <-].
  - intros k v s s'. simpl. unfold mem_put. case_decide; by intros [= <-].
  - intros v s. simpl. unfold mem_put. rewrite decide_True by done. eauto.
  - by intros k s s' [= <-].
  - intros s it s' [= <- <-]. split; [done |]. apply entries_spec.
  - intros it s. simpl. by rewrite bool_decide_eq_true.
  - intros it s kv s'. simpl. unfold mem_next. destruct (mem_rest s) eqn:E; [done |].
    by intros [= <- <-].
Qed.

(** ** The contract on it *)
Definition blue : Asset :=
  {| ID := lit "asset1"; Color := lit "blue"; Size := 5; Owner := lit "Tomoko";
     AppraisedValue := 300 |}.
Definition green : Asset :=
  {| ID := lit "asset3"; Color := lit "green"; Size := 10; Owner := lit "Jin Soo";
     AppraisedValue := 500 |}.

Definition create (a : Asset) : tx :=
  TCreate (ID a) (Color a) (Size a) (Owner a) (AppraisedValue a).

Lemma asset_ok_lit id color owner size v :
  int_min <= v <= int_max -> int_min <= size <= int_max ->
  asset_ok {| AppraisedValue := v; Color := lit color; ID := lit id; Owner := lit owner;
              Size := size |}.
Proof. intros. repeat split; simpl; try lia; apply lit_bytes. Qed.

Lemma create_ok a : asset_ok a -> tx_ok (create a).
Proof. by destruct a. Qed.

Lemma blue_ok : asset_ok blue.
Proof. apply asset_ok_lit; by vm_compute. Qed.

Lemma green_ok : asset_ok green.
Proof. apply asset_ok_lit; by vm_compute. Qed.

(** The ledger after two creations. *)
Definition two_assets : world :=
  (submit (run_tx (create blue)) (submit (run_tx (create green)) ∅).2).2.

Lemma blue_created :
  tx_ok (create blue) /\ holds ∅ ∅ /\
  simulates (run_tx (create blue)) ∅ (assets_step (create blue) ∅).
Proof.
  split; [exact (create_ok _ blue_ok) |]. split; [exact holds_empty |].
  exact (contract_refines_assets (create blue) ∅ ∅ holds_empty (create_ok _ blue_ok)).
Defined.

Lemma two_assets_reachable : reachable two_assets.
Proof.
  apply reach_tx; [apply reach_tx; [apply reach_empty |] |];
    apply create_ok; [apply green_ok | apply blue_ok].
Qed.

Lemma two_assets_ok :
  size two_assets = 2%nat /\
  map_Forall (fun k v => k <> [] /\ exists a,
    asset_Unmarshal v = Ok a /\ asset_ok a /\ ID a = sanitize k) two_assets.
Proof.
  split; [vm_compute; reflexivity |].
  exact (reachable_world_ok two_assets two_assets_reachable).
Defined.

(** The same ledger, built from the JSON of its assets. *)
Definition two_values : world :=
  <[ID green := Marshal (asset_struct green)]> (<[ID blue := Marshal (asset_struct blue)]> ∅).
Definition two_map : assets := <[ID green := green]> (<[ID blue := blue]> ∅).

Lemma two_values_hold : holds two_values two_map.
Proof.
  apply (holds_insert _ _ _ _ green); [apply (holds_insert _ _ _ _ blue); [apply holds_empty |] |].
  - exact (marshal_reads_as blue blue_ok).
  - exact (marshal_reads_as green green_ok).
Qed.

(** Two more assets: one after these, which the limit of two results cuts off,
    and one whose identifier starts with the byte 0, which comes before them but
    is in no range query. *)
Definition red : Asset :=
  {| ID := lit "asset5"; Color := lit "red"; Size := 1; Owner := lit "Brad";
     AppraisedValue := 400 |}.
Definition hidden : Asset :=
  {| ID := [0; 0x61]; Color := lit "gray"; Size := 1; Owner := lit "Max"; AppraisedValue := 1 |}.

Lemma red_ok : asset_ok red.
Proof. apply asset_ok_lit; by vm_compute. Qed.

Lemma hidden_ok : asset_ok hidden.
Proof. repeat split; simpl; try by vm_compute. all: repeat constructor; by vm_compute. Qed.

Definition four_values : world :=
  <[ID hidden := Marshal (asset_struct hidden)]>
    (<[ID red := Marshal (asset_struct red)]> two_values).
Definition four_map : assets := <[ID hidden := hidden]> (<[ID red := red]> two_map).

Lemma four_values_hold : holds four_values four_map.
Proof.
  apply (holds_insert _ _ _ _ hidden); [apply (holds_insert _ _ _ _ red); [apply two_values_hold |] |].
  - exact (marshal_reads_as red red_ok).
  - exact (marshal_reads_as hidden hidden_ok).
Qed.

Lemma assets_listed :
  (submit (GetAllAssets 5) four_values).1 = Ok (Some [blue; green]) /\ listing four_map [blue; green] /\
  (submit (GetAllAssets 3) two_values).1 = Ok (Some [blue; green]) /\
  exists ks, StronglySorted key_lt ks /\ ks ≡ₚ elements (dom two_map) /\
             Forall2 (fun k a => two_map !! k = Some a) ks [blue; green].
Proof.
  split; [vm_compute; reflexivity |]. split.
  - assert (Hf : (size four_map < 5)%nat) by (vm_compute; lia).
    pose proof (get_all_assets_complete 5 four_values four_map four_values_hold Hf) as H.
    destruct (submit (GetAllAssets 5) four_values) as [r w'] eqn:E.
    vm_compute in E. injection E as <- <-. exact (proj1 (proj2 H)).
  - split; [vm_compute; reflexivity |].
    assert (Hf : (size two_map < 3)%nat) by (vm_compute; lia).
    pose proof (get_all_assets_complete 3 two_values two_map two_values_hold Hf) as H.
    destruct (submit (GetAllAssets 3) two_values) as [r w'] eqn:E.
    vm_compute in E. injection E as <- <-. apply (proj2 (proj2 H)).
    + apply (bool_decide_unpack _). vm_compute. exact I.
    + vm_compute. lia.
Defined.

(** A value that is not an asset: the iterator is closed all the same. *)
Definition broken : world := <[lit "asset1" := lit "{"]> ∅.

Lemma broken_closed :
  (submit (GetAllAssets 3) broken).1 = Err (FromJson SyntaxError) /\
  exists it tr0,
    exec_trace stub_handler (GetAllAssets 3) (stub_begin broken) =
    Obs (GetStateByRange [] []) (AOk it) :: tr0 ++ [Obs (Close it) tt].
Proof.
  split; [vm_compute; reflexivity |].
  destruct (iterator_closed 3 _ _ (exec_runs stub_handler (GetAllAssets 3) (stub_begin broken)))
    as [(e & H & _) | (it & tr0 & H & _)].
  - apply (f_equal length) in H. vm_compute in H. discriminate H.
  - exists it, tr0. exact H.
Defined.

Lemma missing_read_writes_nothing :
  (submit (run_tx (TRead (lit "asset9"))) two_values).1 = Err (does_not_exist (lit "asset9")) /\
  Forall (fun o => is_write o = false)
    (exec_trace stub_handler (run_tx (TRead (lit "asset9"))) (stub_begin two_values)).
Proof.
  split; [vm_compute; reflexivity |].
  refine (proj2 (failed_transaction_writes_nothing (TRead (lit "asset9")) _ _
    (exec_runs stub_handler (run_tx (TRead (lit "asset9"))) (stub_begin two_values))) _).
  vm_compute. reflexivity.
Defined.

Lemma unflagged_transfer :
  (submit (TransferAsset (ID blue) (lit "Brad") false) two_values) = (Ok None, two_values) /\
  exists a, exec_trace stub_handler (TransferAsset (ID blue) (lit "Brad") false)
              (stub_begin two_values) = [Obs (GetState (ID blue)) a].
Proof.
  split; [vm_compute; reflexivity |].
  exact (proj1 (transfer_without_flag (ID blue) (lit "Brad") _ _
    (exec_runs stub_handler (TransferAsset (ID blue) (lit "Brad") false)
       (stub_begin two_values)))).
Defined.

(** An owner with a quote, a line break and a byte that is not UTF-8. *)
Definition odd : Asset :=
  {| ID := lit "asset7"; Color := lit "<red>"; Size := -1;
     Owner := [0x22; 0x0A; 0xFF; 0xC3; 0xA9]; AppraisedValue := int_min |}.

Lemma odd_roundtrip :
  Owner (sanitize_asset odd) = [0x22; 0x0A; 0xEF; 0xBF; 0xBD; 0xC3; 0xA9] /\
  exists b members, asset_Marshal odd = Ok b /\ asset_Unmarshal b = Ok (sanitize_asset odd) /\
    sanitize_asset (sanitize_asset odd) = sanitize_asset odd /\
    parse b = Some (JObject members) /\ length members = 5%nat /\
    StronglySorted key_lt members.*1.
Proof.
  split; [reflexivity |]. apply (asset_json_roundtrip odd).
  repeat split; try apply lit_bytes; try by vm_compute.
  repeat constructor; by vm_compute.
Defined.
