(* ===== verification/FabricBlocks.v ===== *)
(** * Concurrent transactions of the Fabric contract

    A transaction is endorsed on some committed state of the ledger, ordered
    among others, and validated when its turn comes: a peer commits its writes
    only if what it read is still current. The peer is a parameter with its
    multi-version check as laws; what the contract reads and writes makes every
    such history equivalent to a serial one. *)

From stdpp Require Import gmap.
From Stdlib Require Import Sorting.Sorted.
From S2P Require Import Prelude Effects GoJson Fabric FabricLedger.

Set Default Proof Using "Type".

(** ** What a run read and wrote *)
Section Sets.
Context {T : StubTypes}.

Definition read_of (o : obs fabricE) : option bytes :=
  match o with
  | Obs e _ => match e with GetState k => Some k | _ => None end
  end.

(** A write the stub took: a key with its new value, or without one. *)
Definition write_of (o : obs fabricE) : option (bytes * option bytes) :=
  match o with
  | Obs e x =>
    match e in fabricE A return A -> option (bytes * option bytes) with
    | PutState k v => fun a => match a with AOk _ => Some (k, Some v) | AErr _ => None end
    | DelState k => fun a => match a with AOk _ => Some (k, None) | AErr _ => None end
    | _ => fun _ => None
    end x
  end.

Definition read_set (tr : list (obs fabricE)) : list bytes := omap read_of tr.
Definition write_set (tr : list (obs fabricE)) : list (bytes * option bytes) := omap write_of tr.

Definition apply_write (w : world) (kv : bytes * option bytes) : world :=
  match kv.2 with Some v => <[kv.1 := v]> w | None => delete kv.1 w end.
Definition apply_writes (ws : list (bytes * option bytes)) (w : world) : world :=
  foldl apply_write w ws.

(** The reads of a run were answered from the world [w]. *)
Definition answered_from (w : world) (o : obs fabricE) : Prop :=
  match o with
  | Obs e x =>
    match e in fabricE A return A -> Prop with
    | GetState k => fun a => match a with AOk v => v = w !! k | AErr _ => True end
    | _ => fun _ => True
    end x
  end.

(** The key a transaction is about. *)
Definition tx_key (t : tx) : bytes :=
  match t with
  | TCreate id _ _ _ _ | TRead id | TUpdate id _ _ _ _ | TDelete id | TExists id
  | TTransfer id _ _ => id
  end.

(** Every run of a transaction reads its key first, and that is all it reads;
    it writes that key at most once. *)
Lemma run_tx_footprint t tr r :
  runs (run_tx t) tr r ->
  (exists a tr', tr = Obs (GetState (tx_key t)) a :: tr' /\ read_set tr' = []) /\
  (write_set tr = [] \/ exists v, write_set tr = [(tx_key t, v)]).
Proof.
  destruct t as [id color size owner v | id | id color size owner v | id | id | id owner flag];
    intros ([[b |] | e] & tr' & -> & H); simpl in H;
    repeat (match type of H with
            | _ /\ _ => destruct H as [-> ->]
            | exists _, _ => let x := fresh "x" in let t := fresh "tr" in
                destruct H as (x & t & -> & H); destruct x as [[] |]; simpl in H
            | context [asset_Unmarshal ?b] => destruct (asset_Unmarshal b); simpl in H
            | context [if ?f then _ else _] => destruct f; simpl in H
            end);
    simpl; (split; [eexists _, _; split; [reflexivity | done] | eauto]).
Qed.

(** A transaction whose reads were answered from a world: its result is that of
    the abstract map, and its writes keep the world holding the map. *)
Lemma run_tx_writes (t : tx) (w : world) (m : assets) tr r :
  holds w m -> tx_ok t -> runs (run_tx t) tr (Ok r) -> Forall (answered_from w) tr ->
  (assets_step t m).1 = Ok r /\ holds (apply_writes (write_set tr) w) (assets_step t m).2.
Proof.
  intros H Hok. pose proof (H (tx_key t)) as Hid.
  destruct t as [id color size owner v | id | id color size owner v | id | id | id owner flag];
    intros (a & tr' & -> & Hr) [Ha _]%Forall_cons; simpl tx_key in Hid;
    (destruct a as [o | e]; [| by destruct Hr]); simpl in Ha; subst o; simpl in Hr;
    destruct (w !! id) as [b |] eqn:Hw, (m !! id) as [a |] eqn:Hm;
    (inversion Hid as [? ? Hb | ]; subst; clear Hid); simpl in Hr; simpl assets_step; rewrite Hm.
  all: try (by destruct Hr).
  - destruct Hr as ([[] |] & ? & -> & -> & [= ->]). split; [done |]. apply holds_insert; [done |].
    by apply (marshal_reads_as (Build_Asset _ _ _ _ _)).
  - destruct Hb as [Hb _]. rewrite Hb in Hr. by destruct Hr as [-> [= ->]].
  - destruct Hr as ([[] |] & ? & -> & -> & [= ->]). split; [done |]. apply holds_insert; [done |].
    by apply (marshal_reads_as (Build_Asset _ _ _ _ _)).
  - destruct Hr as ([[] |] & ? & -> & -> & [= ->]). split; [done |]. by apply holds_delete.
  - by destruct Hr as [-> [= ->]].
  - by destruct Hr as [-> [= ->]].
  - destruct Hb as [Hb Ha]. rewrite Hb in Hr. simpl in Hr. destruct flag; simpl in Hr.
    + destruct Hr as ([[] |] & ? & -> & -> & [= ->]). split; [done |].
      apply holds_insert; [done |]. by apply (reads_as_set_owner a owner), Hok.
    + by destruct Hr as [-> [= ->]].
Qed.
End Sets.

(** ** Peers *)

(** A peer's committed state: its world, the checks of a transaction's reads and
    of a query of all keys, as they were on one state, against another, and the
    commit of writes. *)
Class Peer (P : Type) := {
  genesis : P;
  peer_world : P -> world;
  validate : P -> P -> list bytes -> bool;
  validate_range : P -> P -> bool;
  commit : P -> list (bytes * option bytes) -> P;
}.

Section Steps.
Context {P : Type} {Pe : Peer P}.

Definition commits (p p' : P) : Prop := exists ws, p' = commit p ws.
Definition descends : P -> P -> Prop := rtc commits.
End Steps.

(** Commits apply writes to a world that starts empty; a check against a later
    state of the chain passes only where the values read are the current ones;
    it passes without a commit in between, and a commit of other keys does not
    change it. The check of a query of all keys passes only where the query has
    the same answer. *)
Class PeerLaws (P : Type) {T : StubTypes} {Pe : Peer P} : Prop := {
  genesis_world : peer_world genesis = ∅;
  commit_world p ws : peer_world (commit p ws) = apply_writes ws (peer_world p);
  validate_current p0 p ks k :
    descends genesis p0 -> descends p0 p -> validate p0 p ks = true -> k ∈ ks ->
    peer_world p !! k = peer_world p0 !! k;
  validate_range_current p0 p l :
    descends genesis p0 -> descends p0 p -> validate_range p0 p = true ->
    range_answer (peer_world p0) l -> range_answer (peer_world p) l;
  validate_refl p ks : validate p p ks = true;
  validate_others p0 p ws ks :
    (forall k, k ∈ ks -> k ∉ ws.*1) -> validate p0 (commit p ws) ks = validate p0 p ks;
}.

Section Histories.
Context {T : StubTypes} {St : Type} {FS : FabricStub St} {FL : FabricStubLaws}.
Context {P : Type} {Pe : Peer P} {PL : PeerLaws P}.

(** The simulation of a transaction on the state of a peer. *)
Definition endorse_result (p : P) (t : tx) : outcome error reply :=
  (exec stub_handler (run_tx t) (stub_begin (peer_world p))).1.
Definition endorse_trace (p : P) (t : tx) : list (obs fabricE) :=
  exec_trace stub_handler (run_tx t) (stub_begin (peer_world p)).

(** A transaction endorsed on [p0] and validated on [p]: the new state, and the
    reply if it is valid. A failed simulation is not submitted. *)
Definition process (p0 p : P) (t : tx) : P * option reply :=
  match endorse_result p0 t with
  | Ok r =>
    if validate p0 p (read_set (endorse_trace p0 t))
    then (commit p (write_set (endorse_trace p0 t)), Some r) else (p, None)
  | _ => (p, None)
  end.

(** A query of all assets: on [p0], its answer is a list, and the check of its
    range against [p] passes. *)
Definition valid_query (fuel : nat) (p0 p : P) (l : list Asset) : Prop :=
  (size (peer_world p0) < fuel)%nat /\
  (submit (GetAllAssets fuel) (peer_world p0)).1 = Ok (Some l) /\
  validate_range p0 p = true.

(** A committed transaction with its reply, or a committed query. *)
Inductive entry :=
| ETx (t : tx) (r : reply)
| EQuery (l : list Asset).

(** A ledger's states, the latest first, and what was valid, in the order of the
    commits: each transaction or query may have been endorsed on any earlier
    state. *)
Inductive history : list P -> list entry -> Prop :=
| history_genesis : history [genesis] []
| history_process p ps l p0 t :
    history (p :: ps) l -> p0 ∈ p :: ps -> tx_ok t ->
    history ((process p0 p t).1 :: p :: ps)
      (l ++ match (process p0 p t).2 with Some r => [ETx t r] | None => [] end)
| history_query p ps l p0 fuel assets :
    history (p :: ps) l -> p0 ∈ p :: ps -> valid_query fuel p0 p assets ->
    history (commit p [] :: p :: ps) (l ++ [EQuery assets]).

(** Transactions and queries run one after another on the abstract assets, each
    with the reply it has on the map of the moment. *)
Inductive serial (m : assets) : list entry -> assets -> Prop :=
| serial_start : serial m [] m
| serial_tx l m1 t r m2 :
    serial m l m1 -> assets_step t m1 = (Ok r, m2) -> serial m (l ++ [ETx t r]) m2
| serial_query l m1 assets :
    serial m l m1 -> listing m1 assets -> serial m (l ++ [EQuery assets]) m1.

(** What an endorser reads is its peer's world. *)
Lemma endorse_answered (p : P) (t : tx) k :
  k ∈ read_set (endorse_trace p t) -> k = tx_key t.
Proof.
  pose proof (exec_runs stub_handler (run_tx t) (stub_begin (peer_world p))) as Hr.
  apply run_tx_footprint in Hr as [(a & tr' & Htr & Hno) _].
  unfold endorse_trace. rewrite Htr. simpl. rewrite Hno. by intros ->%list_elem_of_singleton.
Qed.

Lemma endorse_head (p : P) (t : tx) :
  exists tr, endorse_trace p t =
    Obs (GetState (tx_key t)) (stub_get (tx_key t) (stub_begin (peer_world p))) :: tr /\
    read_set tr = [].
Proof.
  assert (H : exists tr, endorse_trace p t =
    Obs (GetState (tx_key t)) (stub_get (tx_key t) (stub_begin (peer_world p))) :: tr)
    by (destruct t; eexists; reflexivity).
  destruct H as [tr Htr]. exists tr. split; [done |].
  pose proof (exec_runs stub_handler (run_tx t) (stub_begin (peer_world p))) as Hr.
  apply run_tx_footprint in Hr as [(a & tr' & Htr' & Hno) _].
  fold (endorse_trace p t) in Htr'. rewrite Htr in Htr'. by injection Htr' as _ ->.
Qed.

Lemma no_reads_answered (w : world) tr : read_set tr = [] -> Forall (answered_from w) tr.
Proof.
  induction tr as [| [A e x] tr IH]; intros H; [by constructor |].
  unfold read_set in *. destruct e; simpl in H; try done; constructor; auto; done.
Qed.

Lemma read_key_in (p : P) (t : tx) : tx_key t ∈ read_set (endorse_trace p t).
Proof. destruct (endorse_head p t) as (tr & -> & _). by apply list_elem_of_here. Qed.

(** A valid transaction has read what the state it is committed on holds. *)
Lemma valid_reads_current (p0 p : P) t :
  descends genesis p0 -> descends p0 p ->
  validate p0 p (read_set (endorse_trace p0 t)) = true ->
  Forall (answered_from (peer_world p)) (endorse_trace p0 t).
Proof using FL PL.
  intros H0 Hp Hv. pose proof (validate_current _ _ _ _ H0 Hp Hv (read_key_in p0 t)) as Hk.
  destruct (endorse_head p0 t) as (tr & -> & Hno). constructor; [| by apply no_reads_answered].
  simpl. destruct (stub_get _ _) as [v |] eqn:Hg; [| done].
  apply first_get in Hg as ->. by symmetry.
Qed.

(** A committed query lists the assets of the state it is committed on. *)
Lemma valid_query_lists fuel (p0 p : P) l m :
  descends genesis p0 -> descends p0 p -> holds (peer_world p) m -> valid_query fuel p0 p l ->
  listing m l.
Proof using FL PL.
  intros Hg Hd Hm (Hf & Hl & Hv).
  pose proof (get_all_from fuel _ _ m Hm (fun l => validate_range_current _ _ l Hg Hd Hv) Hf) as H.
  destruct (submit (GetAllAssets fuel) (peer_world p0)) as [r w]. simpl in Hl. subst r. apply H.
Qed.

Lemma process_descends (p0 p : P) t : descends p (process p0 p t).1.
Proof.
  unfold process. destruct (endorse_result p0 t); [| by constructor ..].
  destruct (validate _ _ _); [| by constructor]. apply rtc_once. by eexists.
Qed.

Lemma history_descends ps l p :
  history (p :: ps) l -> Forall (fun q => descends genesis q /\ descends q p) (p :: ps).
Proof.
  remember (p :: ps) as qs eqn:Hqs. intros H. revert p ps Hqs.
  assert (Hgrow : forall p p' ps, descends p p' ->
    Forall (fun q => descends genesis q /\ descends q p) (p :: ps) ->
    Forall (fun q => descends genesis q /\ descends q p') (p' :: p :: ps)).
  { intros p p' ps Hstep IH. constructor.
    - apply Forall_cons in IH as [[Hg _] _]. split; [by etransitivity | by constructor].
    - eapply Forall_impl; [exact IH |]. intros q' [? ?]. split; [done | by etransitivity]. }
  induction H as [| p ps l p0 t H IH Hp0 Ht | p ps l p0 fuel assets H IH Hp0 Hq];
    intros q qs [= <- <-].
  - repeat constructor.
  - apply Hgrow; [apply process_descends | by apply (IH p ps)].
  - apply Hgrow; [apply rtc_once; by eexists | by apply (IH p ps)].
Qed.

(** C4: Every history of concurrent transactions and queries is serializable:
    whatever earlier states of the ledger they were endorsed on, and however
    stale, running the valid ones alone, one after another in the order of their
    commits, on the abstract map of assets gives each transaction its reply and
    each [GetAllAssets] its list (the assets the query reaches, up to its limit), and leaves the map that the ledger's last state
    holds. *)
Theorem history_serializable p ps l :
  history (p :: ps) l -> exists m, serial ∅ l m /\ holds (peer_world p) m.
Proof using FL PL.
  remember (p :: ps) as qs eqn:Hqs. intros H. revert p ps Hqs.
  induction H as [| p ps l p0 t H IH Hp0 Ht | p ps l p0 fuel assets H IH Hp0 Hq];
    intros q qs [= <- <-].
  { exists ∅. split; [constructor |]. rewrite genesis_world. apply holds_empty. }
  all: destruct (IH p ps eq_refl) as (m & Hm & Hw);
    pose proof (proj1 (Forall_forall _ _) (history_descends _ _ _ H) p0 Hp0) as [Hg Hd].
  - unfold process. destruct (endorse_result p0 t) as [r | |] eqn:Hr;
      [| rewrite app_nil_r; by exists m ..].
    destruct (validate _ _ _) eqn:Hv; [| rewrite app_nil_r; by exists m].
    pose proof (exec_runs stub_handler (run_tx t) (stub_begin (peer_world p0))) as Hrun.
    fold (endorse_result p0 t) (endorse_trace p0 t) in Hrun. rewrite Hr in Hrun.
    destruct (run_tx_writes t _ m _ _ Hw Ht Hrun (valid_reads_current _ _ _ Hg Hd Hv)) as [Hs Hh].
    exists (assets_step t m).2. simpl. rewrite commit_world. split; [| done].
    eapply serial_tx; [done |]. rewrite <-Hs. apply surjective_pairing.
  - exists m. split; [| by rewrite commit_world].
    eapply serial_query; [done |]. by eapply valid_query_lists.
Qed.

(** ** Independent transactions *)

(** A block: transactions endorsed on the same state [p0], committed in turn. *)
Fixpoint process_block (p0 p : P) (ts : list tx) : P * list (option reply) :=
  match ts with
  | [] => (p, [])
  | t :: ts =>
    let '(p, r) := process p0 p t in
    let '(p, rs) := process_block p0 p ts in (p, r :: rs)
  end.

(** What a transaction endorsed on [p0] makes of a world. *)
Definition effect (p0 : P) (w : world) (t : tx) : world :=
  apply_writes (write_set (endorse_trace p0 t)) w.

Lemma endorse_writes (p : P) (t : tx) :
  write_set (endorse_trace p t) = [] \/ exists v, write_set (endorse_trace p t) = [(tx_key t, v)].
Proof. apply (run_tx_footprint t _ _ (exec_runs stub_handler (run_tx t) _)). Qed.

Lemma process_block_independent (p0 p : P) ts :
  NoDup (tx_key <$> ts) -> Forall (fun t => is_ok (endorse_result p0 t) = true) ts ->
  Forall (fun t => validate p0 p (read_set (endorse_trace p0 t)) = true) ts ->
  Forall2 (fun t o => exists r, o = Some r /\ endorse_result p0 t = Ok r)
    ts (process_block p0 p ts).2 /\
  peer_world (process_block p0 p ts).1 = foldl (effect p0) (peer_world p) ts.
Proof using PL.
  revert p. induction ts as [| t ts IH]; intros p Hnd Hok Hv; simpl; [by split |].
  apply NoDup_cons in Hnd as [Ht Hnd]. apply Forall_cons in Hok as [Hokt Hok].
  apply Forall_cons in Hv as [Hvt Hv].
  unfold process. destruct (endorse_result p0 t) as [r | |] eqn:Hr; try done. rewrite Hvt.
  set (p1 := commit p (write_set (endorse_trace p0 t))).
  assert (Hv1 : Forall (fun t' => validate p0 p1 (read_set (endorse_trace p0 t')) = true) ts).
  { apply Forall_forall. intros t' Hin. subst p1. rewrite validate_others.
    - by eapply Forall_forall in Hv.
    - intros k ->%endorse_answered. destruct (endorse_writes p0 t) as [-> | [v ->]]; simpl;
        [by intros ?%not_elem_of_nil | intros Hk%list_elem_of_singleton].
      apply Ht. rewrite <-Hk. by apply list_elem_of_fmap_2. }
  destruct (IH p1 Hnd Hok Hv1) as [Hrs Hw].
  destruct (process_block p0 p1 ts) as [p2 rs]. simpl in *. split.
  - constructor; [by exists r | done].
  - rewrite Hw. subst p1. by rewrite commit_world.
Qed.

Lemma lookup_apply_write (w : world) k v k' :
  apply_write w (k, v) !! k' = if decide (k = k') then v else w !! k'.
Proof.
  unfold apply_write. simpl. case_decide as Hk; [subst k' |];
    destruct v; simplify_map_eq; done.
Qed.

Lemma effect_comm (p0 : P) w t t' :
  tx_key t <> tx_key t' -> effect p0 (effect p0 w t) t' = effect p0 (effect p0 w t') t.
Proof.
  intros Hk. unfold effect.
  destruct (endorse_writes p0 t) as [-> | [v ->]], (endorse_writes p0 t') as [-> | [v' ->]]; try done.
  apply map_eq. intros k. simpl. rewrite !lookup_apply_write. repeat case_decide; congruence.
Qed.

Lemma effects_permuted (p0 : P) ts ts' w :
  ts ≡ₚ ts' -> NoDup (tx_key <$> ts) ->
  foldl (effect p0) w ts = foldl (effect p0) w ts'.
Proof.
  intros Hp. revert w. induction Hp as [| t l l' _ IH | t t' l | l1 l2 l3 H1 IH1 _ IH2];
    intros w Hnd; simpl; [done | | |].
  - apply IH. by apply NoDup_cons in Hnd as [_ ?].
  - apply NoDup_cons in Hnd as [Ht _]. rewrite effect_comm; [done |].
    intros Heq. apply Ht. rewrite <-Heq. by apply list_elem_of_here.
  - rewrite IH1 by done. apply IH2. by rewrite <-H1.
Qed.

(** C9: Transactions about different assets do not disturb each other: when they
    are all endorsed on one state of the ledger and succeed there, each is valid
    with the reply of its endorsement, in whatever order they are committed, and
    every order leaves the same world. *)
Theorem independent_transactions (p : P) ts ts' :
  NoDup (tx_key <$> ts) -> Forall (fun t => is_ok (endorse_result p t) = true) ts ->
  ts ≡ₚ ts' ->
  Forall2 (fun t o => exists r, o = Some r /\ endorse_result p t = Ok r)
    ts' (process_block p p ts').2 /\
  peer_world (process_block p p ts').1 = peer_world (process_block p p ts).1.
Proof using PL.
  intros Hnd Hok Hp.
  assert (Hv : forall l, Forall (fun t => validate p p (read_set (endorse_trace p t)) = true) l).
  { intros l. apply Forall_true. intros t. apply validate_refl. }
  destruct (process_block_independent p p ts Hnd Hok (Hv ts)) as [_ ->].
  rewrite Hp in Hok. assert (Hnd' : NoDup (tx_key <$> ts')) by by rewrite <-Hp.
  destruct (process_block_independent p p ts' Hnd' Hok (Hv ts')) as [Hrs ->].
  split; [done |]. symmetry. by apply effects_permuted.
Qed.
End Histories.

(** ** A peer with versions

    Each value carries the height of the block that wrote it; a check compares
    the versions of the keys. *)
Module Versioned.
Record State := { height : nat; cells : gmap bytes (nat * bytes) }.

Definition write_cell (n : nat) (c : gmap bytes (nat * bytes)) (kv : bytes * option bytes)
  : gmap bytes (nat * bytes) :=
  match kv.2 with Some v => <[kv.1 := (n, v)]> c | None => delete kv.1 c end.

Definition version (p : State) (k : bytes) : option nat := fst <$> cells p !! k.

#[export] Instance versioned_peer : Peer State := {|
  genesis := {| height := 0; cells := ∅ |};
  peer_world p := snd <$> cells p;
  validate p0 p ks := forallb (fun k => bool_decide (version p0 k = version p k)) ks;
  validate_range p0 p := bool_decide (fst <$> cells p0 = fst <$> cells p);
  commit p ws :=
    {| height := S (height p); cells := foldl (write_cell (S (height p))) (cells p) ws |};
|}.

Lemma world_of_cells n ws c :
  snd <$> foldl (write_cell n) c ws = apply_writes ws (snd <$> c).
Proof.
  revert c. induction ws as [| [k [v |]] ws IH]; intros c; [done | |];
    unfold apply_writes in *; simpl; rewrite IH; f_equal; unfold apply_write, write_cell; simpl.
  - apply fmap_insert.
  - apply fmap_delete.
Qed.

Lemma cells_others n ws c k : k ∉ ws.*1 -> foldl (write_cell n) c ws !! k = c !! k.
Proof.
  revert c. induction ws as [| [k' v] ws IH]; intros c Hk; [done |]. simpl in *.
  apply not_elem_of_cons in Hk as [Hne Hk]. rewrite IH by done.
  unfold write_cell; simpl. destruct v; by simplify_map_eq.
Qed.

(** A cell after some writes is new, or was there. *)
Lemma cells_written n ws c k cell :
  foldl (write_cell n) c ws !! k = Some cell -> cell.1 = n \/ c !! k = Some cell.
Proof.
  revert c. induction ws as [| [k' v] ws IH]; intros c H; [by right |]. simpl in H.
  apply IH in H as [H | H]; [by left |]. unfold write_cell in H; simpl in H.
  destruct v as [v |], (decide (k' = k)) as [-> | Hk]; simplify_map_eq; auto.
Qed.

Definition dated (p : State) : Prop :=
  forall k cell, cells p !! k = Some cell -> (cell.1 <= height p)%nat.

Lemma genesis_dated p : descends genesis p -> dated p.
Proof.
  intros H. apply (rtc_ind_r (R := commits) dated genesis); [| | done].
  { intros k cell Hc. by simpl in Hc; apply lookup_empty_Some in Hc. }
  intros q q' _ [ws ->] IH k cell [-> | Hc]%cells_written; [done |]. apply IH in Hc. simpl. lia.
Qed.

(** What is still there with a date of [p0] is what [p0] held. *)
Lemma descends_cells p0 p k cell :
  descends p0 p -> cells p !! k = Some cell ->
  (height p0 < cell.1)%nat \/ cells p0 !! k = Some cell.
Proof.
  intros H. revert cell. assert (Hall : (height p0 <= height p)%nat /\ forall cell,
    cells p !! k = Some cell -> (height p0 < cell.1)%nat \/ cells p0 !! k = Some cell).
  { apply (rtc_ind_r (R := commits) (fun p => (height p0 <= height p)%nat /\ forall cell,
      cells p !! k = Some cell -> (height p0 < cell.1)%nat \/ cells p0 !! k = Some cell) p0);
      [by auto | | done].
    intros q q' _ [ws ->] [Hle IH]. split; [simpl; lia |].
    intros cell [-> | Hc]%cells_written; [left; lia | by apply IH]. }
  apply Hall.
Qed.

(** The same version is the same value. *)
Lemma version_current p0 p k :
  descends genesis p0 -> descends p0 p -> version p0 k = version p k ->
  (snd <$> cells p) !! k = (snd <$> cells p0) !! k.
Proof.
  intros H0 H Hv. unfold version in Hv. rewrite !lookup_fmap.
  destruct (cells p !! k) as [cell |] eqn:Hc, (cells p0 !! k) as [cell0 |] eqn:Hc0; simplify_eq/=;
    [| done].
  destruct (descends_cells p0 p k cell H Hc) as [Hlt | Hsame]; [| by simplify_eq].
  apply (genesis_dated p0 H0) in Hc0. lia.
Qed.

#[export] Instance versioned_laws : PeerLaws State.
Proof.
  split; simpl.
  - apply fmap_empty.
  - intros p ws. apply world_of_cells.
  - intros p0 p ks k H0 H Hv Hk.
    apply Is_true_true, forallb_True in Hv. apply Forall_forall with (x := k) in Hv; [| done].
    apply bool_decide_unpack in Hv. by apply version_current.
  - intros p0 p l H0 H Hv%bool_decide_eq_true Hl.
    replace (snd <$> cells p) with (snd <$> cells p0); [done |].
    apply map_eq. intros k. symmetry.
    apply version_current; [done | done |]. unfold version. by rewrite <-!lookup_fmap, Hv.
  - intros p ks. apply Is_true_true, forallb_True, Forall_true. intros k. by apply bool_decide_pack.
  - intros p0 p ws ks Hks. induction ks as [| k ks IH]; simpl; [done |].
    assert (Hc : version (commit p ws) k = version p k).
    { unfold version. simpl. f_equal. apply cells_others, (Hks k), list_elem_of_here. }
    simpl in Hc. rewrite Hc.
    f_equal. apply IH. intros k' Hk'. exact (Hks k' (list_elem_of_further _ _ _ Hk')).
Qed.
End Versioned.

(** ** The theorems on a concrete ledger *)
Section Witnesses.
Import Versioned.

Definition transfer (a : Asset) (owner : string) : tx := TTransfer (ID a) (lit owner) true.

Lemma transfer_ok a owner : asset_ok a -> tx_ok (transfer a owner).
Proof. intros (_ & _ & _ & ? & _). split; [done | apply lit_bytes]. Qed.

(** An asset is created and listed; two transfers of it are endorsed on the same
    state, and only the first to be committed is valid; a query endorsed before
    it would no longer be. *)
Definition created : State := (process genesis genesis (create blue)).1.
Definition queried : State := commit created [].
Definition transferred : State := (process created queried (transfer blue "Brad")).1.
Definition contended : State := (process created transferred (transfer blue "Max")).1.

Definition valid_ones : list entry :=
  [ETx (create blue) RUnit; EQuery [blue];
   ETx (transfer blue "Brad") (ROwner (Some (Owner blue)))].

Lemma contended_replies :
  (process genesis genesis (create blue)).2 = Some RUnit /\
  valid_query 2 created created [blue] /\
  (process created queried (transfer blue "Brad")).2 = Some (ROwner (Some (Owner blue))) /\
  (process created transferred (transfer blue "Max")).2 = None /\
  validate_range created transferred = false.
Proof.
  split_and!; try (vm_compute; reflexivity). split; [vm_compute; lia |].
  split; vm_compute; reflexivity.
Qed.

Lemma contended_history :
  history [contended; transferred; queried; created; genesis] valid_ones.
Proof.
  destruct contended_replies as (H1 & Hq & H2 & H3 & _).
  assert (Hc : history [created; genesis] [ETx (create blue) RUnit]).
  { pose proof (history_process genesis [] [] genesis (create blue) history_genesis
      (list_elem_of_here _ _) (create_ok _ blue_ok)) as H. by rewrite H1 in H. }
  pose proof (history_query _ _ _ created 2 [blue] Hc (list_elem_of_here _ _) Hq) as Hl.
  assert (Ht : history [transferred; queried; created; genesis] valid_ones).
  { pose proof (history_process _ _ _ created (transfer blue "Brad") Hl
      (list_elem_of_further _ _ _ (list_elem_of_here _ _)) (transfer_ok _ _ blue_ok)) as H.
    fold queried in H. by rewrite H2 in H. }
  pose proof (history_process _ _ _ created (transfer blue "Max") Ht
    (list_elem_of_further _ _ _ (list_elem_of_further _ _ _ (list_elem_of_here _ _)))
    (transfer_ok _ _ blue_ok)) as H.
  by rewrite H3 in H.
Qed.

Lemma contended_serial :
  (process created transferred (transfer blue "Max")).2 = None /\
  exists m, serial ∅ valid_ones m /\ holds (peer_world contended) m.
Proof.
  split; [exact (proj1 (proj2 (proj2 (proj2 contended_replies)))) |].
  exact (history_serializable contended [transferred; queried; created; genesis] valid_ones
           contended_history).
Defined.

Lemma two_creations_commute :
  let ts := [create blue; create green] in
  peer_world (process_block genesis genesis [create green; create blue]).1 =
  peer_world (process_block genesis genesis ts).1 /\
  (process_block genesis genesis ts).2 = [Some RUnit; Some RUnit].
Proof.
  intros ts. split; [| vm_compute; reflexivity].
  apply (independent_transactions genesis ts [create green; create blue]).
  - apply (bool_decide_unpack _). vm_compute. exact I.
  - repeat constructor; vm_compute; reflexivity.
  - apply Permutation_swap.
Defined.
End Witnesses.
